(* ===== verification/_CoqProject ===== *)
-Q . S2P
Prelude.v
Encoder.v
Decoder.v
Codec.v
ClientApi.v
TopicApi.v
GroupApi.v
ClusterApi.v
MessageSets.v
Wire.v
Conn.v
ConnShared.v
ConnCalls.v
ConnDeadlines.v
LogMessage.v
Index.v
Segment.v
CommitLog.v
LogReader.v
LogCompact.v
LogService.v
IntIndex.v
Structs.v
Store.v
StoreSteps.v
StateMachine.v
Cluster.v
BrokerState.v
Errors.v
Broker.v
TopicAdmin.v
ClusterWide.v
ClusterInfo.v
Dialer.v
Commands.v
GroupAdmin.v
Membership.v
Leader.v
Failover.v
Run.v
ServerSteps.v
Lifecycle.v
Support.v
Samples.v
Replicator.v
Replication.v
ConnProps.v
ProtocolProps.v
LogProps.v
StoreProps.v
BrokerProps.v
AdminProps.v
ClusterProps.v
GroupProps.v
LeaderProps.v
RunProps.v
ServiceProps.v
