(* ===== verification/Prelude.v ===== *)
(** * Jocko: the wire protocol, the commit log, the replicated store and the broker

    Jocko is a Kafka-compatible message broker.  A client sends requests as
    size-prefixed frames over a connection; the server's connection loop
    decodes them and hands them to the broker, whose handlers append to and
    read from a commit log for each partition replica and answer with response
    frames.  What the cluster agrees on, its nodes, topics, partitions and
    groups, is a store that every broker builds from the same raft log; the
    brokers find each other by gossip, the leader of raft keeps the store in
    step with the members, and a follower of a partition fetches from its
    leader.  This library models the protocol package, both ends of a
    connection, the commit log package, the store with its commands and
    snapshots, the broker with all its handlers, the events of the gossip ring,
    the leader and the replicator, and proves what makes them correct, for one
    goroutine at a time where that is how the code works and for every
    interleaving where several share a connection, a server or a log.

    ** Files

    - [Prelude] (this file): Go's sized integers, bytes and big-endian words,
      the state-and-error monad [M], loops, writes into byte slices, the
      tactics [case_bool], [len_solve] and the hint database [codec].
    - [Encoder] ([src/protocol/encoder.go], [size_field.go], [crc_field.go]):
      the interface [PacketEncoder] as a class with its two instances, the
      counting [LenEncoder] and the writing [ByteEncoder], and [Encode], which
      runs one after the other.  CRC-32 is computed, not assumed.
    - [Decoder] ([decoder.go]): every read of [ByteDecoder]; a read that is not
      guarded in the source panics past the end of the buffer.
    - [Codec]: the loops over arrays and maps, durations and times as the
      messages use them, and the predicate [codec n encL encB dec a] that ties
      an encoding of [n] bytes at least to a decoding, with one lemma for each
      combinator; [enc_safe] says that the two encoder passes agree.
    - [ClientApi], [TopicApi], [GroupApi], [ClusterApi]: one module for each
      message struct of [src/protocol], holding the record [t], its [Encode],
      its [Decode] and its well-formedness [wf].  Elements that the source
      encodes inside a loop of their parent are modules as well.
    - [MessageSets] ([message.go], [message_set.go]): messages with their CRC,
      sets with their size, partial trailing messages.
    - [Wire] ([request.go], [request_header.go], [response.go], [api_key.go]
      and [Server.handleRequest] of [src/jocko/server.go]): frames, the
      dispatch on the API key, the class [ResponseBody] of responses with its
      law [ResponseLaws], the connection loop.
    - [Conn] ([src/jocko/conn.go]): the client's side of a connection, one call
      at a time; [ConnShared]: any number of calls on one connection, with its two
      locks and its two deadlines, as a step relation; [ConnCalls],
      [ConnDeadlines]: invariants of its runs, on the calls and on the deadlines.
    - [LogMessage] ([src/commitlog/message.go], [message_set.go]): accessors
      over the raw bytes of stored messages.
    - [Index] ([index.go]), [Segment] ([segment.go]): the memory-mapped index
      and the segment, over a directory of files.
    - [CommitLog] ([commitlog.go], [delete_cleaner.go], [compact_cleaner.go],
      [reader.go], [util.go]): the log; its segments are shared by pointer and
      so live in a heap.  [holds l b0 msgs] is the abstraction relation: the
      log [l] stands for the sets [msgs], numbered from [b0].
    - [LogReader], [LogCompact]: lemmas on readers and on compaction.
    - [LogService] ([src/jocko/commitlog.go]): the class [CommitLogOps] of the
      operations a broker calls on a log with the laws [CommitLogLaws] it relies
      on, and the class [LogDirs] of directories in which logs are opened; the
      commit log is an instance, for logs that [holds] describes.
    - [IntIndex] ([src/jocko/fsm/index.go]): the keys of the integer indexes.
    - [Structs] ([src/jocko/structs]): the objects of the store, the topic
      configuration, the class [Msgpack] of what can be serialized.
    - [Store] ([src/jocko/fsm/fsm.go], [commands.go], [snapshot.go]): the
      tables, every read and write of them, the commands of the raft log
      ([Apply]), [Persist] and [Restore].  The database, go-memdb, is the class
      [Memdb] with the laws [MemdbLaws]; [Tables], lists of objects and an index,
      is an instance.  The four tables share the shape of their transactions, which is
      defined once ([ensureTxn], [deleteTxn]) and named for each.
    - [StoreSteps]: what entries of the raft log do, as one step for each; what a
      log says, read off its bytes; databases that agree.
    - [StateMachine] ([fsm.go], [snapshot.go]): the state machine that raft calls,
      with its stores by pointer, [New], [Apply], [Restore], [Abandon] and the
      registration of commands and schemas.
    - [Cluster] ([src/jocko/metadata/metadata.go], [broker_lookup.go],
      [replica_lookup.go], [buildPartitions] of [broker.go]): brokers and
      replicas that a broker knows, and the assignment of partitions to brokers.
    - [BrokerState] ([src/jocko/broker.go], [config/config.go], [raftApply] of
      [leader.go]): the state that the handlers share, raft as the class [Raft]
      with the laws [RaftLaws], [withTimeout], calls to other brokers.
    - [Errors] ([src/protocol/error.go]): errors with their codes and texts.
    - [Broker] ([broker.go]): [handleProduce], [handleFetch], [handleOffsets].
    - [TopicAdmin] ([broker.go]): creating and deleting topics, leader-and-ISR
      requests, starting replicas, [becomeLeader] and [becomeFollower].
    - [ClusterWide]: another broker beside the controller, which applies the
      entries that the controller has committed and handles the requests that it
      sent; the class [RaftEntries] of what raft promises about its log.
    - [ClusterInfo] ([broker.go], [metadata.go]): metadata, API versions, the
      offsets topic and coordinators.
    - [Dialer] ([src/jocko/dialer.go]): resolving an address, connecting,
      securing and authenticating a connection.
    - [Commands] ([src/cmd/jocko/main.go], [config/config.go]): the command that
      creates a topic, the default configuration and the defaults of the flags.
    - [GroupAdmin] ([broker.go]): the handlers for consumer groups, and those
      that only panic.
    - [Membership] ([serf.go], [Leave] of [broker.go]): the tags of a member,
      the events of the gossip ring, the bootstrap of raft.
    - [Leader] ([leader.go]): the leader loop, reconciliation of members with
      the store and with the configuration of raft; [Failover]: lemmas on the
      handling of a member that failed.
    - [Run] ([Run] of [broker.go], [handleResponse] of [server.go]): requests
      handed to their handlers and answers written, and [serve], which composes
      them with the connection loop.
    - [ServerSteps] ([server.go], [Run] of [broker.go]): all connections of a
      server, its two bounded channels and its two loops as a step relation.
    - [Lifecycle] ([setupRaft] of [leader.go], [NewBroker] and [Shutdown] of
      [broker.go], [Start] and [Shutdown] of [server.go], [run] of [main.go]): the
      steps that acquire and release what a process holds; [JoinLAN] and the
      periodic report on the state.
    - [Support] ([context.go], [src/log/log.go], [state/store.go]): contexts and
      the spans that trace a request, the loggers, a store that nothing uses.
    - [Replicator] ([replicator.go]): what one response does to the offset and the
      channel; [Replication]: the two goroutines, the closing of the replicator
      and the back-off as a step relation.
    - [Samples]: concrete brokers, on which witnesses are computed.
    - [ConnProps], [ProtocolProps], [LogProps], [StoreProps], [BrokerProps],
      [AdminProps], [ClusterProps], [GroupProps], [LeaderProps], [RunProps],
      [ServiceProps]: the properties, each with a witness where it has hypotheses.

    ** What the theorems show

    Requests and responses survive the wire: the server reads back the requests
    of a stream, but for what [Decode] forgets ([seen], C1), and a client call
    returns the response that the handler of the broker gave (C2); answers come
    in the order of the requests, of their type and, but for two types, their
    version (C18).  Encoding never overruns its buffer (C19),
    message sets are read back (C20) and the loop that reads them ends (C34).

    Many clients see one broker: however the goroutines of a server interleave,
    the answers on each connection are those of one sequence of all requests
    (C3).  Calls that share a connection get their own answers (C4) and can always
    be brought to their end (C24), and the deadline in force is the one that the
    call uses (C25), but two calls that race for their number wait for ever (C38).

    The commit log refines a list of message sets: [Append] adds to its end
    (C5), what was appended is read (C8, C21), and retention deletes a prefix
    with its files (C22).

    The store follows the raft log: keys do not collide (C35), an entry that
    registers or removes an object changes what is found under its key and
    nothing else (C26, C27), indexes only grow (C23), and what is found after a
    whole log is what a function of the bytes of its entries says ([found],
    [lastChange], C11), so brokers that apply the same log agree.  A restore puts a new store in the place of the old one
    and tells its users (C16), but a snapshot keeps nothing (C40).

    A topic that is created is registered with all its partitions and announced
    (C10), unless a call fails or it is refused without effect (C32); another broker that applies
    the entries and then handles the announcement serves what it is to lead (C6),
    one that handles it before does not, and nobody is told (C37).  Metadata
    reports the assignment (C28).  A fetch at the offset that a produce request
    was answered with returns the records (C9), and a new topic takes and returns
    records (C7).  Coordinators do not change (C29), and a member that joins a
    group is in it (C30), but no group ever gets an assignment (C36).  A broker
    knows the brokers that are alive (C14), bootstraps raft once at most (C15), is
    ready for consistent reads exactly while it leads (C31), and is shut down to
    nothing that is open (C33).  The leader keeps a node for each member (C12) and
    moves what a failed broker led (C13).  A replicator appends the sets that the
    answers of the leader ask for ([wanted]), all of them, in order and once (C17),
    but takes nothing from a log that starts at offset 0 (C39).

    The property files hold more theorems of both kinds, among them
    [call_returns_response], [produce_appends], [build_partitions_assigns],
    [leader_and_isr_serves], [fetch_never_completes], [late_produce_panics],
    [hung_up_loses_answers], [closed_fetcher_leaks], [topics_share_directory],
    [following_erases_log], [refused_join_changes_store],
    [broker_zero_failure_panics], [recovered_broker_stays_critical],
    [moved_group_still_indexed],
    [member_tags_roundtrip], [run_releases], [dial_outcome] and
    [create_command_reports_success].

    ** Choices and bounds

    - Go's panics are the outcome [Crash] (or [None]), its errors [Fail].
    - Sized integers are wrapped where the source converts them.  Lengths,
      file positions and log offsets, Go [int] and [int64], are unbounded:
      they count bytes and sets that exist.
    - Maps are iterated in an unspecified order: each pass of an encoder takes
      an order of its own ([map_order]), and the theorems hold for all.
    - Slices are lists: capacity equals length, and appending to a slice never
      writes into another one.  Slicing up to the capacity matters for sets of
      fewer than eight bytes: the replicator reads their offset from the bytes
      behind them, which are arguments there ([recordOffset]); putting an offset
      into such a set in the commit log is taken to panic.
    - Loops that are not structural take fuel: bytes left to read plus one for
      the connection loop, message sets and [BuildIndex] (every round consumes
      a byte or more), the logarithm of the range plus one for the binary
      searches.  A loop of message sets that has not ended has no result, and C34
      shows that it has one; [server_loop_terminates] shows that the connection
      loop ends by itself ([serverLoop], without fuel); the searches are proved to
      return with theirs.
    - Theorems on appending take [MaxSegmentBytes] of at most 4 MiB, so that
      the index of a segment, of 10 MiB and so 1310720 entries, cannot
      overflow with sets of eight bytes or more and its binary search starts
      below the last entry it can miss.
    - File names are kept structured, the directory is a finite map, and the
      mapping of an index reaches its file at [Close].  Disk errors other than
      those of closed or missing files do not occur.
    - The hashes of the compact cleaner and of coordinator keys (libraries) are
      parameters.
    - go-memdb, msgpack, raft and [strings.ToLower] are parameters with named
      laws, and random numbers, timers, clocks, UUIDs and the growth of a buffer
      are arguments of the definitions that use them; [World] collects them for
      [Run].  [commits n r] and [alwaysCommits r] say that raft commits the next
      entries, or all.
    - A call to another broker succeeds or fails as the state says ([calls]); the
      requests made are kept ([sent]).  The members of the gossip ring are part
      of the state, and given with each event.
    - The rounds of [copyAll] and of the loop of a fetch are bounded by the bytes
      of the log: a round that brings nothing spins (the log does not change
      during a fetch), every other consumes a byte or more.  C9 and
      [fetch_never_completes] ask for that fuel and show the result.
    - In the step relations ([ConnShared.step], [ServerSteps.serverStep],
      [Replication.gstep]) a step is what a goroutine does between two points at
      which others can see it: a lock, a channel, the network, a sleep.  The peer
      of a shared connection answers the requests in the order they were written
      ([serve]); a deadline ends a read or a write that waits; a server's client
      may send, close or stop reading at any time.  Times are numbers on one clock
      that only goes on, 0 standing for no deadline.
    - [NextBackOff] of the back-off library returns any length that [backoff]
      allows; its documented end, [Stop] after 15 minutes, is the hypothesis of
      [pauses_end] alone.
    - A handler is one step of the broker: the function that [withTimeout] starts
      runs to its end within the step, whether or not it is waited for, and works
      on the element of the request it was started for.
    - Logs live in directories named after the number of the partition, as in
      the code, so that partitions of the same number of two topics share theirs
      ([disk]); the theorems on new topics are about unused directories.
    - Objects of the store are values, but for groups, which the handlers change
      in place after they read them ([poke], the operation [Write] of [Memdb]).
      The indexes do not notice: [indexed] says that one is right, entries of the
      log and the handlers of members keep it so ([replay_indexed],
      [groupStep_indexed]), and a change of the coordinator does not
      ([moved_group_still_indexed]).
    - Closing a connection drops what the peer sent and the program has not
      read, the contents of the read buffer included.

    ** Not modelled

    Sockets, TLS and the gossip protocol beyond what they answer; parsing of the
    command line, which a library does; the formatting of log lines; the dump of
    values and the hash of [src/jocko/util], which are calls of libraries; test
    support, mocks and the example program.  The locks of the lookups, of the
    commit log and of the index are held by each operation from its start to its
    end, so the operations are single steps; the handlers that [withTimeout]
    leaves in the background are not interleaved with later requests.  Planned:
    those background functions as steps of their own, and a partition with
    replicas on several brokers whose leader changes. *)
From stdpp Require Export base list gmap strings numbers.
From Stdlib Require Export ZArith Lia.
From Stdlib Require Import Strings.Byte.

#[global] Open Scope Z_scope.

(** ** Go's integers

    Every Go integer is a [Z].  [int] is 64 bits wide and only ever holds
    lengths and offsets of in-memory data here, so it is not wrapped; the
    sized integers are wrapped exactly where the source converts. *)
Definition sext (w z : Z) : Z := (z + 2 ^ (w - 1)) mod 2 ^ w - 2 ^ (w - 1).
Definition zext (w z : Z) : Z := z mod 2 ^ w.

Definition int8 : Z -> Z := sext 8.
Definition int16 : Z -> Z := sext 16.
Definition int32 : Z -> Z := sext 32.
Definition int64 : Z -> Z := sext 64.
Definition uint16 : Z -> Z := zext 16.
Definition uint32 : Z -> Z := zext 32.
Definition uint64 : Z -> Z := zext 64.

Definition in_int (w z : Z) : Prop := - 2 ^ (w - 1) <= z < 2 ^ (w - 1).
Definition in_uint (w z : Z) : Prop := 0 <= z < 2 ^ w.

#[global] Instance in_int_dec w z : Decision (in_int w z).
Proof. unfold in_int; apply _. Defined.
#[global] Instance in_uint_dec w z : Decision (in_uint w z).
Proof. unfold in_uint; apply _. Defined.

Lemma pow2_pos w : 0 <= w -> 0 < 2 ^ w.
Proof. intros; apply Z.pow_pos_nonneg; lia. Qed.

Lemma sext_id w z : 0 < w -> in_int w z -> sext w z = z.
Proof.
  unfold in_int, sext; intros Hw Hz.
  assert (2 ^ w = 2 * 2 ^ (w - 1)) by (rewrite <- Z.pow_succ_r by lia; f_equal; lia).
  rewrite Z.mod_small; lia.
Qed.

Lemma sext_range w z : 0 < w -> in_int w (sext w z).
Proof.
  unfold in_int, sext; intros Hw.
  assert (2 ^ w = 2 * 2 ^ (w - 1)) by (rewrite <- Z.pow_succ_r by lia; f_equal; lia).
  pose proof (Z.mod_pos_bound (z + 2 ^ (w - 1)) (2 ^ w) (pow2_pos w ltac:(lia))); lia.
Qed.

(** Converting to the unsigned type and back is the signed conversion: the
    source stores [uint32(in)] and reads back [int32(...)]. *)
Lemma sext_zext w z : 0 < w -> sext w (zext w z) = sext w z.
Proof.
  unfold sext, zext; intros Hw. f_equal.
  rewrite Zplus_mod_idemp_l. reflexivity.
Qed.

Lemma zext_id w z : in_uint w z -> zext w z = z.
Proof. apply Z.mod_small. Qed.

Lemma zext_range w z : 0 <= w -> in_uint w (zext w z).
Proof. intros; apply Z.mod_pos_bound, pow2_pos; lia. Qed.

(** ** Bytes, strings and slices

    A Go byte is a [Byte.byte]; a Go string is a byte sequence and is a Rocq
    [string] (whose characters are 8 bits wide). *)
Abbreviation byte := Init.Byte.byte.
#[global] Instance byte_eq_dec : EqDecision byte := Byte.byte_eq_dec.
#[global] Instance byte_inhabited : Inhabited byte := populate x00.

Definition Z_of_byte (b : byte) : Z := Z.of_N (Byte.to_N b).
Definition byte_of_Z (z : Z) : byte := default x00 (Byte.of_N (Z.to_N (z mod 256))).

Lemma Z_of_byte_range b : 0 <= Z_of_byte b < 256.
Proof. unfold Z_of_byte. pose proof (Byte.to_N_bounded b). lia. Qed.

Lemma Z_of_byte_of_Z z : Z_of_byte (byte_of_Z z) = z mod 256.
Proof.
  unfold byte_of_Z, Z_of_byte.
  pose proof (Z.mod_pos_bound z 256 ltac:(lia)).
  destruct (Byte.of_N (Z.to_N (z mod 256))) as [b|] eqn:E; simpl.
  - apply Byte.to_of_N in E. rewrite E. lia.
  - apply Byte.of_N_None_iff in E. lia.
Qed.

Lemma byte_of_Z_of_byte b : byte_of_Z (Z_of_byte b) = b.
Proof.
  unfold byte_of_Z. pose proof (Z_of_byte_range b).
  rewrite Z.mod_small by lia. unfold Z_of_byte.
  rewrite N2Z.id, Byte.of_to_N. reflexivity.
Qed.

(** [len(x)] *)
Definition len {A} (l : list A) : Z := Z.of_nat (length l).

(** [[]byte(s)] and [string(b)] *)
Definition bytes_of_string : string -> list byte := String.list_byte_of_string.
Definition string_of_bytes : list byte -> string := String.string_of_list_byte.

Lemma string_of_bytes_of_string s : string_of_bytes (bytes_of_string s) = s.
Proof. apply String.string_of_list_byte_of_string. Qed.

Lemma bytes_of_string_of_bytes l : bytes_of_string (string_of_bytes l) = l.
Proof. apply String.list_byte_of_string_of_list_byte. Qed.

Definition slen (s : string) : Z := len (bytes_of_string s).

(** ** Big-endian integers ([encoding/binary]'s [BigEndian]) *)
Fixpoint be_put (n : nat) (z : Z) : list byte :=
  match n with
  | O => []
  | S m => byte_of_Z (Z.shiftr z (8 * Z.of_nat m)) :: be_put m z
  end.

Definition be_step (acc : Z) (b : byte) : Z := acc * 256 + Z_of_byte b.
Definition be_get (bs : list byte) : Z := fold_left be_step bs 0.

Lemma length_be_put n z : length (be_put n z) = n.
Proof. induction n; simpl; congruence. Qed.

Lemma be_get_acc bs : forall acc,
  fold_left be_step bs acc = acc * 256 ^ len bs + be_get bs.
Proof.
  unfold be_get. induction bs as [|b bs IH]; intros acc; simpl.
  - change (len []) with 0. lia.
  - rewrite IH, (IH (be_step 0 b)). unfold be_step, len; simpl length.
    rewrite Nat2Z.inj_succ, Z.pow_succ_r by lia. lia.
Qed.

Lemma be_get_cons b bs : be_get (b :: bs) = Z_of_byte b * 256 ^ len bs + be_get bs.
Proof. unfold be_get at 1; simpl. rewrite be_get_acc. reflexivity. Qed.

Lemma be_get_put n z : be_get (be_put n z) = z mod 2 ^ (8 * Z.of_nat n).
Proof.
  induction n as [|n IH].
  - simpl. rewrite Z.mod_1_r. reflexivity.
  - cbn [be_put]. rewrite be_get_cons, IH, Z_of_byte_of_Z. unfold len.
    rewrite length_be_put, Z.shiftr_div_pow2 by lia.
    replace 256 with (2 ^ 8) by reflexivity. rewrite <- Z.pow_mul_r by lia.
    replace (8 * Z.of_nat (S n)) with (8 * Z.of_nat n + 8) by lia.
    rewrite Z.pow_add_r by lia.
    rewrite (Z.rem_mul_r z (2 ^ (8 * Z.of_nat n)) (2 ^ 8)).
    + lia.
    + pose proof (pow2_pos (8 * Z.of_nat n)); lia.
    + lia.
Qed.

Lemma be_get_range bs : 0 <= be_get bs < 2 ^ (8 * len bs).
Proof.
  induction bs as [|b bs IH]; [cbv; intuition congruence|].
  rewrite be_get_cons. pose proof (Z_of_byte_range b).
  replace (len (b :: bs)) with (len bs + 1) by (unfold len; simpl length; lia).
  rewrite Z.mul_add_distr_l, Z.pow_add_r by (unfold len; lia).
  replace 256 with (2 ^ 8) by reflexivity. rewrite <- Z.pow_mul_r by (unfold len; lia).
  change (2 ^ (8 * 1)) with 256. nia.
Qed.

Lemma be_put_get_gen n bs hi : length bs = n ->
  be_put n (hi * 2 ^ (8 * len bs) + be_get bs) = bs.
Proof.
  revert bs hi; induction n as [|n IH]; intros [|b bs] hi Hl; try discriminate; auto.
  injection Hl as Hl. cbn [be_put]. rewrite be_get_cons.
  assert (Hn : Z.of_nat n = len bs) by (unfold len; lia).
  pose proof (Z_of_byte_range b) as Hb. pose proof (be_get_range bs) as Hr.
  pose proof (pow2_pos (8 * len bs) ltac:(unfold len; lia)) as Hp.
  replace (len (b :: bs)) with (len bs + 1) by (unfold len; simpl length; lia).
  rewrite Z.mul_add_distr_l, Z.pow_add_r by (unfold len; lia).
  replace 256 with (2 ^ 8) by reflexivity. rewrite <- Z.pow_mul_r by (unfold len; lia).
  change (2 ^ (8 * 1)) with 256.
  replace (hi * (2 ^ (8 * len bs) * 256) + (Z_of_byte b * 2 ^ (8 * len bs) + be_get bs))
    with ((hi * 256 + Z_of_byte b) * 2 ^ (8 * len bs) + be_get bs) by ring.
  f_equal.
  - rewrite Hn, Z.shiftr_div_pow2 by (unfold len; lia).
    rewrite Z.div_add_l, Z.div_small, Z.add_0_r by lia.
    unfold byte_of_Z. rewrite Z.add_comm, Z_mod_plus_full.
    fold (byte_of_Z (Z_of_byte b)). apply byte_of_Z_of_byte.
  - apply IH. congruence.
Qed.

Lemma be_put_get bs : be_put (length bs) (be_get bs) = bs.
Proof. rewrite <- (be_put_get_gen (length bs) bs 0 eq_refl) at 3. f_equal; lia. Qed.

Lemma be_put_mod n z : be_put n (z mod 2 ^ (8 * Z.of_nat n)) = be_put n z.
Proof.
  rewrite <- be_get_put.
  pose proof (be_put_get (be_put n z)) as H. rewrite length_be_put in H. exact H.
Qed.

#[global] Arguments be_put : simpl never.
#[global] Arguments be_get : simpl never.

(** ** Effects

    The source threads a mutable receiver (an encoder, a decoder, a broker)
    and returns errors as values; an out-of-range index, a nil dereference or
    an explicit [panic] aborts.  [M S A] is a computation over the state [S]:
    it returns, returns an error with the state reached so far, or panics. *)
Inductive error :=
| ErrInsufficientData
| ErrInvalidStringLength
| ErrInvalidArrayLength
| ErrInvalidByteSliceLength
| EOF
| ErrOther (msg : string).
#[global] Instance error_eq_dec : EqDecision error.
Proof. solve_decision. Defined.

Inductive outcome (S A : Type) : Type :=
| Ret (a : A) (s : S)
| Fail (e : error) (s : S)
| Crash.
Arguments Ret {S A} a s.
Arguments Fail {S A} e s.
Arguments Crash {S A}.

Definition M (S A : Type) : Type := S -> outcome S A.

(** What is returned, if anything is. *)
Definition outcome_result {S A} (o : outcome S A) : option A :=
  match o with Ret a _ => Some a | _ => None end.

#[global] Instance M_ret S : MRet (M S) := fun A a s => Ret a s.
#[global] Instance M_bind S : MBind (M S) := fun A B f m s =>
  match m s with
  | Ret a s' => f a s'
  | Fail e s' => Fail e s'
  | Crash => Crash
  end.

Definition throw {S A} (e : error) : M S A := fun s => Fail e s.
Definition crash {S A} : M S A := fun _ => Crash.
Definition gets {S A} (f : S -> A) : M S A := fun s => Ret (f s) s.
Definition modify {S} (f : S -> S) : M S unit := fun s => Ret tt (f s).

(** [if c { m }] *)
Definition when {S} (c : bool) (m : M S unit) : M S unit := if c then m else mret tt.

(** A call whose error result the source drops. *)
Definition ignore_err {S} (m : M S unit) : M S unit := fun s =>
  match m s with
  | Ret _ s' | Fail _ s' => Ret tt s'
  | Crash => Crash
  end.

(** [for _, x := range xs { f(x) }] with early return on an error. *)
Fixpoint for_each {S A} (xs : list A) (f : A -> M S unit) : M S unit :=
  match xs with
  | [] => mret tt
  | x :: xs => f x ;; for_each xs f
  end.

(** [for i := range out { out[i] = m() }] over [n] fresh cells. *)
Fixpoint repeatM {S A} (n : nat) (m : M S A) : M S (list A) :=
  match n with
  | O => mret []
  | S n => x ← m; xs ← repeatM n m; mret (x :: xs)
  end.

Lemma bind_Ret {S A B} (m : M S A) (f : A -> M S B) s a s' :
  m s = Ret a s' -> (m ≫= f) s = f a s'.
Proof. unfold mbind, M_bind. intros ->. reflexivity. Qed.

Lemma bind_Fail {S A B} (m : M S A) (f : A -> M S B) s e s' :
  m s = Fail e s' -> (m ≫= f) s = Fail e s'.
Proof. unfold mbind, M_bind. intros ->. reflexivity. Qed.

Lemma bind_assoc {S A B C} (m : M S A) (f : A -> M S B) (g : B -> M S C) s :
  ((m ≫= f) ≫= g) s = (m ≫= (fun a => f a ≫= g)) s.
Proof. unfold mbind, M_bind. destruct (m s); reflexivity. Qed.

Lemma bind_inv {S A B} (m : M S A) (f : A -> M S B) s b s' :
  (m ≫= f) s = Ret b s' -> exists a s1, m s = Ret a s1 /\ f a s1 = Ret b s'.
Proof.
  unfold mbind, M_bind. destruct (m s) as [a s1|e s1|]; intros H; try discriminate. eauto.
Qed.

(** ** Slices written in place *)

(** [copy(b[off:], bs)] when there is room for [bs]. *)
Definition write_at (b : list byte) (off : nat) (bs : list byte) : list byte :=
  take off b ++ bs ++ drop (off + length bs) b.

Lemma write_at_app pre old post bs : length old = length bs ->
  write_at (pre ++ old ++ post) (length pre) bs = pre ++ bs ++ post.
Proof.
  intros Hl. unfold write_at. rewrite take_app_length, <- Hl.
  rewrite drop_app, (drop_ge pre) by lia.
  replace (length pre + length old - length pre)%nat with (length old) by lia.
  rewrite drop_app_length. reflexivity.
Qed.

Lemma length_write_at b off bs : (off + length bs <= length b)%nat ->
  length (write_at b off bs) = length b.
Proof. intros. unfold write_at. rewrite !length_app, length_take, length_drop. lia. Qed.

Lemma slice_app {A} (pre bs post : list A) :
  take (length bs) (drop (length pre) (pre ++ bs ++ post)) = bs.
Proof. rewrite drop_app_length, take_app_length. reflexivity. Qed.

Lemma take_app_exact {A} n (l k : list A) : length l = n -> take n (l ++ k) = l.
Proof. intros <-. apply take_app_length. Qed.
Lemma drop_app_exact {A} n (l k : list A) : length l = n -> drop n (l ++ k) = k.
Proof. intros <-. apply drop_app_length. Qed.

Definition zeros (n : nat) : list byte := replicate n x00.

Lemma zeros_add n m : zeros (n + m) = zeros n ++ zeros m.
Proof. apply replicate_add. Qed.

Lemma length_zeros n : length (zeros n) = n.
Proof. apply length_replicate. Qed.

Lemma Forall_elem {A} (P : A -> Prop) l x : Forall P l -> x ∈ l -> P x.
Proof. induction 1; inversion 1; subst; auto. Qed.

(** ** Automation *)

Create HintDb codec.

(** Solve side conditions about lengths of byte sequences. *)
Ltac len_solve :=
  unfold len, zeros in *;
  rewrite ?length_app, ?length_replicate, ?length_be_put in *; simpl length in *; lia.

(** Split a boolean test of the code on the goal or a hypothesis. *)
Ltac case_bool :=
  match goal with
  | |- context [if ?c then _ else _] => destruct c eqn:?
  | H : context [if ?c then _ else _] |- _ => destruct c eqn:?
  end.
