(* ===== verification/Encoder.v ===== *)
(** * Packet encoding

    [src/protocol/encoder.go], [size_field.go] and [crc_field.go]: the
    [PacketEncoder] interface, its two implementations (the length pass
    [LenEncoder] and the writing pass [ByteEncoder]), the fields that are
    filled in after their contents are known, and [Encode], which runs one
    message through both passes.  [encodes] is the contract every [Encode]
    method of the protocol is proved against. *)
From S2P Require Import Prelude.
From Stdlib Require Import Strings.Byte.

(** ** CRC-32 (IEEE), [hash/crc32]'s [ChecksumIEEE] *)
Module Crc32.

Definition poly : Z := 0xEDB88320.

Definition crc_bit (c : Z) : Z :=
  if Z.odd c then Z.lxor (Z.shiftr c 1) poly else Z.shiftr c 1.

Definition crc_byte (c : Z) (b : byte) : Z :=
  Nat.iter 8 crc_bit (Z.lxor c (Z_of_byte b)).

Definition ChecksumIEEE (bs : list byte) : Z :=
  Z.lxor (fold_left crc_byte bs 0xFFFFFFFF) 0xFFFFFFFF.

(** The catalogue's check value for the input "123456789". *)
Example crc_check_value : ChecksumIEEE (bytes_of_string "123456789") = 0xCBF43926.
Proof. reflexivity. Qed.

Lemma lxor_range w a b : 0 < w -> in_uint w a -> in_uint w b -> in_uint w (Z.lxor a b).
Proof.
  unfold in_uint; intros Hw Ha Hb.
  assert (Hn : 0 <= Z.lxor a b) by (apply Z.lxor_nonneg; lia).
  split; [lia|]. destruct (Z.eq_dec (Z.lxor a b) 0) as [->|Hne]; [apply pow2_pos; lia|].
  apply Z.log2_lt_pow2; [lia|].
  assert (Hlog : forall x, 0 <= x < 2 ^ w -> Z.log2 x < w).
  { intros x Hx. destruct (Z.eq_dec x 0) as [->|]; [simpl; lia|]. apply Z.log2_lt_pow2; lia. }
  pose proof (Z.log2_lxor a b ltac:(lia) ltac:(lia)).
  pose proof (Hlog a Ha); pose proof (Hlog b Hb); lia.
Qed.

Lemma crc_bit_range c : in_uint 32 c -> in_uint 32 (crc_bit c).
Proof.
  intros Hc. assert (Hs : in_uint 32 (Z.shiftr c 1)).
  { unfold in_uint in *. rewrite Z.shiftr_div_pow2 by lia. change (2 ^ 1) with 2.
    split; [apply Z.div_pos; lia|apply Z.div_lt_upper_bound; lia]. }
  unfold crc_bit. destruct (Z.odd c); [|exact Hs].
  apply lxor_range; [lia|exact Hs|]. unfold in_uint, poly; lia.
Qed.

Lemma crc_byte_range c b : in_uint 32 c -> in_uint 32 (crc_byte c b).
Proof.
  intros Hc. unfold crc_byte.
  assert (H : in_uint 32 (Z.lxor c (Z_of_byte b))).
  { apply lxor_range; [lia|exact Hc|]. unfold in_uint. pose proof (Z_of_byte_range b); lia. }
  revert H. generalize (Z.lxor c (Z_of_byte b)) as z. intros z Hz.
  do 8 (apply crc_bit_range). exact Hz.
Qed.

Lemma ChecksumIEEE_range bs : in_uint 32 (ChecksumIEEE bs).
Proof.
  unfold ChecksumIEEE. apply lxor_range; [lia| |unfold in_uint; lia].
  assert (H : in_uint 32 0xFFFFFFFF) by (unfold in_uint; lia).
  revert H; generalize 0xFFFFFFFF as c; induction bs as [|b bs IH]; intros c Hc; [exact Hc|].
  simpl. apply IH, crc_byte_range, Hc.
Qed.

End Crc32.

(** ** Fields filled in later: [SizeField] and [CRCField] *)
Inductive PushField :=
| SizeField (StartOffset : nat)
| CRCField (StartOffset : nat).

Definition SaveOffset (f : PushField) (off : nat) : PushField :=
  match f with
  | SizeField _ => SizeField off
  | CRCField _ => CRCField off
  end.

Definition ReserveSize (f : PushField) : nat := 4.

(** [b[lo:hi]]; [None] is the slice-bounds panic. *)
Definition slice {A} (b : list A) (lo hi : nat) : option (list A) :=
  if decide (lo <= hi <= length b)%nat then Some (take (hi - lo) (drop lo b)) else None.

(** [Encoding.PutUintN(b[off:], z)]; [None] when [b] is too short. *)
Definition put_at (n : nat) (b : list byte) (off : nat) (z : Z) : option (list byte) :=
  if decide (off + n <= length b)%nat then Some (write_at b off (be_put n z)) else None.

Definition Fill (f : PushField) (curOffset : nat) (buf : list byte) : option (list byte) :=
  match f with
  | SizeField start =>
      put_at 4 buf start (uint32 (Z.of_nat curOffset - Z.of_nat start - 4))
  | CRCField start =>
      covered ← slice buf (start + 4) curOffset;
      put_at 4 buf start (Crc32.ChecksumIEEE covered)
  end.

(** ** The encoder interface *)
Class PacketEncoder (S : Type) := {
  PutBool : bool -> M S unit;
  PutInt8 : Z -> M S unit;
  PutInt16 : Z -> M S unit;
  PutInt32 : Z -> M S unit;
  PutInt64 : Z -> M S unit;
  PutArrayLength : Z -> M S unit;
  PutRawBytes : list byte -> M S unit;
  PutBytes : option (list byte) -> M S unit;
  PutString : string -> M S unit;
  PutNullableString : option string -> M S unit;
  PutStringArray : list string -> M S unit;
  PutInt32Array : list Z -> M S unit;
  PutInt64Array : list Z -> M S unit;
  Push : PushField -> M S unit;
  Pop : M S unit
}.

Definition MaxInt32 : Z := 2 ^ 31 - 1.
Definition MaxInt16 : Z := 2 ^ 15 - 1.

(** ** [LenEncoder]: the pass that only counts *)
Record LenEncoder := mkLenEncoder { Length : nat; lstack : list Z }.

Module Len.

Definition grow (n : nat) : M LenEncoder unit :=
  modify (fun e => mkLenEncoder (Length e + n) (lstack e)).

Definition PutArrayLength (n : Z) : M LenEncoder unit :=
  if MaxInt32 <? n then throw ErrInvalidArrayLength else grow 4.

Definition PutRawBytes (bs : list byte) : M LenEncoder unit :=
  if MaxInt32 <? len bs then throw ErrInvalidByteSliceLength else grow (length bs).

Definition PutBytes (bs : option (list byte)) : M LenEncoder unit :=
  grow 4 ;;
  match bs with
  | None => mret tt
  | Some bs => PutRawBytes bs
  end.

Definition PutString (s : string) : M LenEncoder unit :=
  grow 2 ;;
  if MaxInt16 <? slen s then throw ErrInvalidStringLength
  else grow (length (bytes_of_string s)).

Definition PutNullableString (s : option string) : M LenEncoder unit :=
  match s with
  | None => grow 2
  | Some s => PutString s
  end.

Definition PutStringArray (ss : list string) : M LenEncoder unit :=
  PutArrayLength (len ss) ;; for_each ss PutString.

Definition PutInt32Array (zs : list Z) : M LenEncoder unit :=
  PutArrayLength (len zs) ;; grow (4 * length zs).

Definition PutInt64Array (zs : list Z) : M LenEncoder unit :=
  PutArrayLength (len zs) ;; grow (8 * length zs).

Definition Push (f : PushField) : M LenEncoder unit := grow (ReserveSize f).

End Len.

#[global] Instance LenEncoder_PacketEncoder : PacketEncoder LenEncoder := {|
  PutBool := fun _ => Len.grow 1;
  PutInt8 := fun _ => Len.grow 1;
  PutInt16 := fun _ => Len.grow 2;
  PutInt32 := fun _ => Len.grow 4;
  PutInt64 := fun _ => Len.grow 8;
  PutArrayLength := Len.PutArrayLength;
  PutRawBytes := Len.PutRawBytes;
  PutBytes := Len.PutBytes;
  PutString := Len.PutString;
  PutNullableString := Len.PutNullableString;
  PutStringArray := Len.PutStringArray;
  PutInt32Array := Len.PutInt32Array;
  PutInt64Array := Len.PutInt64Array;
  Push := Len.Push;
  Pop := mret tt
|}.

(** ** [ByteEncoder]: the pass that writes into the preallocated buffer

    The [stack] of the source grows at its end; the head of the list here is
    its last element. *)
Record ByteEncoder := mkByteEncoder { ebuf : list byte; eoff : nat; estack : list PushField }.

Module Bytes.

(** [Encoding.PutUintN(e.b[e.off:], z); e.off += n] *)
Definition put_uint (n : nat) (z : Z) : M ByteEncoder unit := fun e =>
  match put_at n (ebuf e) (eoff e) z with
  | Some b => Ret tt (mkByteEncoder b (eoff e + n) (estack e))
  | None => Crash
  end.

Definition PutBool (x : bool) : M ByteEncoder unit :=
  if x then put_uint 1 1
  else modify (fun e => mkByteEncoder (ebuf e) (eoff e + 1) (estack e)).

Definition PutInt8 (z : Z) : M ByteEncoder unit := put_uint 1 z.
Definition PutInt16 (z : Z) : M ByteEncoder unit := put_uint 2 (uint16 z).
Definition PutInt32 (z : Z) : M ByteEncoder unit := put_uint 4 (uint32 z).
Definition PutInt64 (z : Z) : M ByteEncoder unit := put_uint 8 (uint64 z).
Definition PutArrayLength (n : Z) : M ByteEncoder unit := PutInt32 (int32 n).

(** [copy(e.b[e.off:], in); e.off += len(in)]: the slice expression panics when
    the offset is past the end, [copy] stops at the end of the buffer. *)
Definition PutRawBytes (bs : list byte) : M ByteEncoder unit := fun e =>
  if decide (eoff e <= length (ebuf e))%nat then
    let n := Nat.min (length bs) (length (ebuf e) - eoff e) in
    Ret tt (mkByteEncoder (write_at (ebuf e) (eoff e) (take n bs))
                          (eoff e + length bs) (estack e))
  else Crash.

Definition PutBytes (bs : option (list byte)) : M ByteEncoder unit :=
  match bs with
  | None => PutInt32 (-1)
  | Some bs => PutInt32 (int32 (len bs)) ;; PutRawBytes bs
  end.

Definition PutString (s : string) : M ByteEncoder unit :=
  PutInt16 (int16 (slen s)) ;; PutRawBytes (bytes_of_string s).

Definition PutNullableString (s : option string) : M ByteEncoder unit :=
  match s with
  | None => PutInt16 (-1)
  | Some s => PutString s
  end.

Definition PutStringArray (ss : list string) : M ByteEncoder unit :=
  PutArrayLength (len ss) ;; for_each ss PutString.

Definition PutInt32Array (zs : list Z) : M ByteEncoder unit :=
  PutArrayLength (len zs) ;; for_each zs PutInt32.

Definition PutInt64Array (zs : list Z) : M ByteEncoder unit :=
  PutArrayLength (len zs) ;; for_each zs PutInt64.

Definition Push (f : PushField) : M ByteEncoder unit :=
  modify (fun e => mkByteEncoder (ebuf e) (eoff e + ReserveSize f)
                                 (SaveOffset f (eoff e) :: estack e)).

Definition Pop : M ByteEncoder unit := fun e =>
  match estack e with
  | [] => Crash
  | f :: rest =>
      match Fill f (eoff e) (ebuf e) with
      | Some b => Ret tt (mkByteEncoder b (eoff e) rest)
      | None => Crash
      end
  end.

End Bytes.

#[global] Instance ByteEncoder_PacketEncoder : PacketEncoder ByteEncoder := {|
  PutBool := Bytes.PutBool;
  PutInt8 := Bytes.PutInt8;
  PutInt16 := Bytes.PutInt16;
  PutInt32 := Bytes.PutInt32;
  PutInt64 := Bytes.PutInt64;
  PutArrayLength := Bytes.PutArrayLength;
  PutRawBytes := Bytes.PutRawBytes;
  PutBytes := Bytes.PutBytes;
  PutString := Bytes.PutString;
  PutNullableString := Bytes.PutNullableString;
  PutStringArray := Bytes.PutStringArray;
  PutInt32Array := Bytes.PutInt32Array;
  PutInt64Array := Bytes.PutInt64Array;
  Push := Bytes.Push;
  Pop := Bytes.Pop
|}.

(** ** [Encode]: the two passes

    A Go [Encoder] is run twice, once per implementation of the interface; the
    two runs are two arguments, so that a map iterated in a different order by
    each run can be expressed. *)
Definition Encode (lenRun : M LenEncoder unit) (byteRun : M ByteEncoder unit)
  : outcome unit (list byte) :=
  match lenRun (mkLenEncoder 0 []) with
  | Ret _ lenEnc =>
      match byteRun (mkByteEncoder (zeros (Length lenEnc)) 0 []) with
      | Ret _ byteEnc => Ret (ebuf byteEnc) tt
      | Fail e _ => Fail e tt
      | Crash => Crash
      end
  | Fail e _ => Fail e tt
  | Crash => Crash
  end.

(** ** The contract of an [Encode] method

    [encodes EL EB bs]: the length pass counts exactly [length bs] bytes and
    the writing pass, run in a zeroed buffer with that much room at the
    current offset, leaves exactly [bs] there and touches nothing else. *)
Definition encodes (EL : M LenEncoder unit) (EB : M ByteEncoder unit) (bs : list byte) : Prop :=
  (forall l, EL l = Ret tt (mkLenEncoder (Length l + length bs) (lstack l))) /\
  (forall pre post stk,
     EB (mkByteEncoder (pre ++ zeros (length bs) ++ post) (length pre) stk) =
     Ret tt (mkByteEncoder (pre ++ bs ++ post) (length pre + length bs) stk)).

Lemma encodes_Encode EL EB bs : encodes EL EB bs -> Encode EL EB = Ret bs tt.
Proof.
  intros [HL HB]. unfold Encode. rewrite HL; simpl.
  specialize (HB [] [] []). simpl in HB. rewrite app_nil_r in HB.
  rewrite HB; simpl. rewrite app_nil_r. reflexivity.
Qed.

Lemma encodes_eq EL EB bs bs' : encodes EL EB bs -> bs = bs' -> encodes EL EB bs'.
Proof. intros ? <-; assumption. Qed.

Lemma encodes_ret : encodes (mret tt) (mret tt) [].
Proof. split; intros; unfold mret, M_ret; f_equal; [destruct l; f_equal|f_equal]; simpl; lia. Qed.

Lemma encodes_seq EL1 EB1 EL2 EB2 bs1 bs2 :
  encodes EL1 EB1 bs1 -> encodes EL2 EB2 bs2 ->
  encodes (EL1 ;; EL2) (EB1 ;; EB2) (bs1 ++ bs2).
Proof.
  intros [HL1 HB1] [HL2 HB2]. split.
  - intros l. erewrite bind_Ret by apply HL1. rewrite HL2. simpl.
    rewrite length_app. do 2 f_equal. lia.
  - intros pre post stk. rewrite length_app, zeros_add, <- app_assoc.
    erewrite bind_Ret by apply HB1.
    rewrite app_assoc, <- length_app. erewrite HB2. rewrite length_app.
    f_equal. f_equal; [rewrite <- !app_assoc; reflexivity|lia].
Qed.

Lemma encodes_uint n z : encodes (Len.grow n) (Bytes.put_uint n z) (be_put n z).
Proof.
  split.
  - intros l. unfold Len.grow, modify. rewrite length_be_put. reflexivity.
  - intros. unfold Bytes.put_uint, put_at; simpl. rewrite length_be_put.
    rewrite decide_True by len_solve.
    rewrite write_at_app by len_solve. reflexivity.
Qed.

(** Resolve the interface to its two implementations, and nothing else. *)
Ltac enc_unfold :=
  cbn [PutBool PutInt8 PutInt16 PutInt32 PutInt64 PutArrayLength PutRawBytes PutBytes
       PutString PutNullableString PutStringArray PutInt32Array PutInt64Array Push Pop
       LenEncoder_PacketEncoder ByteEncoder_PacketEncoder].

Lemma encodes_PutBool x : encodes (PutBool x) (PutBool x) [if x then x01 else x00].
Proof.
  destruct x; [apply (encodes_uint 1 1)|].
  split; intros; unfold modify; reflexivity.
Qed.

Lemma encodes_PutInt8 z : encodes (PutInt8 z) (PutInt8 z) (be_put 1 z).
Proof. apply encodes_uint. Qed.
Lemma encodes_PutInt16 z : encodes (PutInt16 z) (PutInt16 z) (be_put 2 (uint16 z)).
Proof. apply encodes_uint. Qed.
Lemma encodes_PutInt32 z : encodes (PutInt32 z) (PutInt32 z) (be_put 4 (uint32 z)).
Proof. apply encodes_uint. Qed.
Lemma encodes_PutInt64 z : encodes (PutInt64 z) (PutInt64 z) (be_put 8 (uint64 z)).
Proof. apply encodes_uint. Qed.

Lemma encodes_PutArrayLength n : n <= MaxInt32 ->
  encodes (PutArrayLength n) (PutArrayLength n) (be_put 4 (uint32 (int32 n))).
Proof.
  intros Hn. enc_unfold. unfold Len.PutArrayLength.
  rewrite (proj2 (Z.ltb_ge _ _)) by lia. apply encodes_uint.
Qed.

Lemma encodes_PutRawBytes bs : len bs <= MaxInt32 ->
  encodes (PutRawBytes bs) (PutRawBytes bs) bs.
Proof.
  intros Hn. enc_unfold. unfold Len.PutRawBytes.
  rewrite (proj2 (Z.ltb_ge _ _)) by lia. split; [reflexivity|].
  intros pre post stk. unfold Bytes.PutRawBytes; simpl.
  rewrite decide_True by len_solve.
  rewrite Nat.min_l by len_solve. rewrite firstn_all, write_at_app by len_solve.
  reflexivity.
Qed.

Lemma encodes_PutString s : slen s <= MaxInt16 ->
  encodes (PutString s) (PutString s)
    (be_put 2 (uint16 (int16 (slen s))) ++ bytes_of_string s).
Proof.
  intros Hn. enc_unfold. unfold Len.PutString, Bytes.PutString.
  rewrite (proj2 (Z.ltb_ge _ _)) by lia.
  apply encodes_seq; [apply encodes_uint|].
  apply encodes_eq with (bytes_of_string s); [|reflexivity].
  assert (H : len (bytes_of_string s) <= MaxInt32) by (unfold slen, MaxInt16, MaxInt32 in *; lia).
  destruct (encodes_PutRawBytes _ H) as [_ HB]. split; [reflexivity|exact HB].
Qed.

Lemma encodes_PutNullableString_None :
  encodes (PutNullableString None) (PutNullableString None) (be_put 2 (uint16 (-1))).
Proof. apply encodes_uint. Qed.

Lemma encodes_PutBytes_None : encodes (PutBytes None) (PutBytes None) (be_put 4 (uint32 (-1))).
Proof.
  destruct (encodes_uint 4 (uint32 (-1))) as [HL HB]. split; [|exact HB].
  intros l. simpl. unfold Len.PutBytes. erewrite bind_Ret by apply HL. reflexivity.
Qed.

Lemma encodes_PutBytes_Some bs : len bs <= MaxInt32 ->
  encodes (PutBytes (Some bs)) (PutBytes (Some bs)) (be_put 4 (uint32 (int32 (len bs))) ++ bs).
Proof.
  intros Hn. apply encodes_seq; [apply encodes_uint|]. apply encodes_PutRawBytes, Hn.
Qed.

Lemma encodes_for_each {A} (xs : list A) fL fB bss :
  Forall2 (fun x bs => encodes (fL x) (fB x) bs) xs bss ->
  encodes (for_each xs fL) (for_each xs fB) (concat bss).
Proof.
  induction 1; simpl; [apply encodes_ret|]. apply encodes_seq; assumption.
Qed.

(** An array of [n]-byte integers: the length pass adds [n * len] at once. *)
Lemma encodes_ints n (zs : list Z) (f : Z -> Z) :
  encodes (Len.grow (n * length zs)) (for_each zs (fun z => Bytes.put_uint n (f z)))
    (concat ((fun z => be_put n (f z)) <$> zs)).
Proof.
  split.
  - intros l. unfold Len.grow, modify.
    replace (length (concat ((fun z => be_put n (f z)) <$> zs))) with (n * length zs)%nat; [reflexivity|].
    clear l. induction zs as [|z zs IH]; [simpl; lia|].
    rewrite fmap_cons. cbn [concat length]. rewrite length_app, length_be_put, <- IH. lia.
  - apply (encodes_for_each zs (fun _ => Len.grow n)).
    induction zs; constructor; [apply encodes_uint|assumption].
Qed.

Lemma encodes_PutInt32Array zs : len zs <= MaxInt32 ->
  encodes (PutInt32Array zs) (PutInt32Array zs)
    (be_put 4 (uint32 (int32 (len zs))) ++ concat ((fun z => be_put 4 (uint32 z)) <$> zs)).
Proof.
  intros Hn. apply encodes_seq; [apply encodes_PutArrayLength, Hn|].
  apply (encodes_ints 4 zs uint32).
Qed.

Lemma encodes_PutInt64Array zs : len zs <= MaxInt32 ->
  encodes (PutInt64Array zs) (PutInt64Array zs)
    (be_put 4 (uint32 (int32 (len zs))) ++ concat ((fun z => be_put 8 (uint64 z)) <$> zs)).
Proof.
  intros Hn. apply encodes_seq; [apply encodes_PutArrayLength, Hn|].
  apply (encodes_ints 8 zs uint64).
Qed.

(** ** Length and checksum fields *)
Lemma encodes_field EL EB bs (f : PushField) (word : Z) :
  encodes EL EB bs ->
  (forall pre post, Fill (SaveOffset f (length pre)) (length pre + 4 + length bs)
                (pre ++ zeros 4 ++ bs ++ post)
              = Some (pre ++ be_put 4 word ++ bs ++ post)) ->
  encodes (Push f ;; EL ;; Pop) (Push f ;; EB ;; Pop) (be_put 4 word ++ bs).
Proof.
  intros [HL HB] HF. split.
  - intros l. unfold mbind, M_bind; simpl. unfold Len.Push, Len.grow, modify; simpl.
    rewrite HL; simpl. unfold mret, M_ret, ReserveSize. do 2 f_equal. lia.
  - intros pre post stk. unfold mbind, M_bind; enc_unfold. unfold Bytes.Push, modify.
    cbn [ebuf eoff estack].
    rewrite length_app, length_be_put, zeros_add, <- app_assoc.
    specialize (HB (pre ++ zeros 4) post (SaveOffset f (length pre) :: stk)).
    rewrite length_app, length_zeros, <- !app_assoc in HB. unfold ReserveSize. rewrite HB.
    unfold Bytes.Pop; cbn [ebuf eoff estack]. rewrite HF, <- app_assoc. do 2 f_equal; lia.
Qed.

Lemma put_at_field pre post bs z :
  put_at 4 (pre ++ zeros 4 ++ bs ++ post) (length pre) z = Some (pre ++ be_put 4 z ++ bs ++ post).
Proof.
  unfold put_at. rewrite decide_True by len_solve.
  rewrite write_at_app by len_solve. reflexivity.
Qed.

(** A [SizeField] holds the number of bytes that follow it. *)
Lemma encodes_SizeField EL EB bs :
  encodes EL EB bs ->
  encodes (Push (SizeField 0) ;; EL ;; Pop) (Push (SizeField 0) ;; EB ;; Pop)
    (be_put 4 (uint32 (len bs)) ++ bs).
Proof.
  intros H. apply encodes_field; [exact H|]. intros pre post.
  cbn [Fill SaveOffset]. rewrite put_at_field. do 4 f_equal. f_equal. unfold len. lia.
Qed.

(** A [CRCField] holds the CRC-32 of the bytes that follow it. *)
Lemma encodes_CRCField EL EB bs :
  encodes EL EB bs ->
  encodes (Push (CRCField 0) ;; EL ;; Pop) (Push (CRCField 0) ;; EB ;; Pop)
    (be_put 4 (Crc32.ChecksumIEEE bs) ++ bs).
Proof.
  intros H. apply encodes_field; [exact H|]. intros pre post.
  cbn [Fill SaveOffset]. unfold slice. rewrite decide_True by len_solve.
  replace (length pre + 4 + length bs - (length pre + 4))%nat with (length bs) by lia.
  replace (length pre + 4)%nat with (length (pre ++ zeros 4)) by len_solve.
  rewrite app_assoc, slice_app, <- app_assoc. apply put_at_field.
Qed.
