(* ===== verification/Decoder.v ===== *)
(** * Packet decoding

    [src/protocol/decoder.go]: the [ByteDecoder], the only implementation of
    [PacketDecoder], with its bounds checks and its panics, and [reads], the
    contract of a [Decode] method on the bytes it consumes. *)
From S2P Require Import Prelude Encoder.
From Stdlib Require Import Strings.Byte.

(** As in [ByteEncoder], the head of [dstack] is the end of the source's slice. *)
Record ByteDecoder := mkByteDecoder { dbuf : list byte; doff : nat; dstack : list PushField }.

Definition NewDecoder (b : list byte) : ByteDecoder := mkByteDecoder b 0 [].

Definition remaining (d : ByteDecoder) : Z := len (dbuf d) - Z.of_nat (doff d).

(** [d.off += n] and [d.off = len(d.b)] *)
Definition advance (n : nat) : M ByteDecoder unit :=
  modify (fun d => mkByteDecoder (dbuf d) (doff d + n) (dstack d)).
Definition skip_all : M ByteDecoder unit :=
  modify (fun d => mkByteDecoder (dbuf d) (length (dbuf d)) (dstack d)).

(** Set the offset to the end and return the error. *)
Definition insufficient {A} : M ByteDecoder A := skip_all ;; throw ErrInsufficientData.

(** [Encoding.UintN(d.b[d.off:]); d.off += n], panicking when the bytes are not there. *)
Definition get_uint (n : nat) : M ByteDecoder Z := fun d =>
  if decide (doff d + n <= length (dbuf d))%nat
  then Ret (be_get (take n (drop (doff d) (dbuf d))))
           (mkByteDecoder (dbuf d) (doff d + n) (dstack d))
  else Crash.

(** [string(d.b[d.off : d.off+n]); d.off += n] *)
Definition get_bytes (n : nat) : M ByteDecoder (list byte) := fun d =>
  match slice (dbuf d) (doff d) (doff d + n) with
  | Some bs => Ret bs (mkByteDecoder (dbuf d) (doff d + n) (dstack d))
  | None => Crash
  end.

Definition Int8 : M ByteDecoder Z := z ← get_uint 1; mret (int8 z).
Definition Int16 : M ByteDecoder Z := z ← get_uint 2; mret (int16 z).

Definition Bool : M ByteDecoder bool := i ← Int8; mret (i =? 1).

Definition Int32 : M ByteDecoder Z :=
  r ← gets remaining;
  if r <? 4 then insufficient else z ← get_uint 4; mret (int32 z).

Definition Int64 : M ByteDecoder Z :=
  r ← gets remaining;
  if r <? 8 then insufficient else z ← get_uint 8; mret (int64 z).

Definition MaxUint16 : Z := 2 ^ 16 - 1.

Definition ArrayLength : M ByteDecoder Z :=
  r ← gets remaining;
  if r <? 4 then insufficient else
  tmp ← get_uint 4;
  r ← gets remaining;
  if r <? tmp then insufficient
  else if 2 * MaxUint16 <? tmp then throw ErrInvalidArrayLength
  else mret tmp.

Definition Bytes : M ByteDecoder (option (list byte)) :=
  n ← Int32;
  r ← gets remaining;
  if n <? -1 then throw ErrInvalidByteSliceLength
  else if n =? -1 then mret None
  else if n =? 0 then mret (Some [])
  else if r <? n then insufficient
  else bs ← get_bytes (Z.to_nat n); mret (Some bs).

Definition String : M ByteDecoder string :=
  n ← Int16;
  r ← gets remaining;
  if n <? -1 then throw ErrInvalidStringLength
  else if n =? -1 then mret EmptyString
  else if n =? 0 then mret EmptyString
  else if r <? n then insufficient
  else bs ← get_bytes (Z.to_nat n); mret (string_of_bytes bs).

Definition stringLength : M ByteDecoder Z :=
  n ← Int16;
  r ← gets remaining;
  if n <? -1 then throw ErrInvalidStringLength
  else if r <? n then insufficient
  else mret n.

Definition NullableString : M ByteDecoder (option string) :=
  n ← stringLength;
  if n =? -1 then mret None
  else bs ← get_bytes (Z.to_nat n); mret (Some (string_of_bytes bs)).

(** The source's [n < 0] test cannot succeed: [n] is a [uint32] held in an [int]. *)
Definition Int32Array : M ByteDecoder (list Z) :=
  r ← gets remaining;
  if r <? 4 then insufficient else
  n ← get_uint 4;
  r ← gets remaining;
  if r <? 4 * n then insufficient
  else if n =? 0 then mret []
  else if n <? 0 then throw ErrInvalidArrayLength
  else repeatM (Z.to_nat n) (z ← get_uint 4; mret (int32 z)).

Definition Int64Array : M ByteDecoder (list Z) :=
  r ← gets remaining;
  if r <? 4 then insufficient else
  n ← get_uint 4;
  r ← gets remaining;
  if r <? 8 * n then insufficient
  else if n =? 0 then mret []
  else if n <? 0 then throw ErrInvalidArrayLength
  else repeatM (Z.to_nat n) (z ← get_uint 8; mret (int64 z)).

Definition StringArray : M ByteDecoder (list string) :=
  r ← gets remaining;
  if r <? 4 then insufficient else
  n ← get_uint 4;
  if n =? 0 then mret []
  else if n <? 0 then throw ErrInvalidArrayLength
  else repeatM (Z.to_nat n) String.

(** [Check] of the two fields; [None] is a slice-bounds panic. *)
Definition Check (f : PushField) (curOffset : nat) (buf : list byte) : option (option error) :=
  match f with
  | SizeField start =>
      w ← slice buf start (start + 4);
      mret (if uint32 (Z.of_nat curOffset - Z.of_nat start - 4) =? be_get w then None
            else Some (ErrOther "length field invalid"))
  | CRCField start =>
      covered ← slice buf (start + 4) curOffset;
      w ← slice buf start (start + 4);
      mret (if Crc32.ChecksumIEEE covered =? be_get w then None
            else Some (ErrOther "crc didn't match"))
  end.

Definition DPush (f : PushField) : M ByteDecoder unit := fun d =>
  let f := SaveOffset f (doff d) in
  if remaining d <? Z.of_nat (ReserveSize f) then insufficient d
  else Ret tt (mkByteDecoder (dbuf d) (doff d + ReserveSize f) (f :: dstack d)).

Definition DPop : M ByteDecoder unit := fun d =>
  match dstack d with
  | [] => Crash
  | f :: rest =>
      let d' := mkByteDecoder (dbuf d) (doff d) rest in
      match Check f (doff d) (dbuf d) with
      | Some None => Ret tt d'
      | Some (Some e) => Fail e d'
      | None => Crash
      end
  end.

(** [Decode(b, in, version)] *)
Definition Decode {A} (b : list byte) (run : M ByteDecoder A) : outcome unit A :=
  match run (NewDecoder b) with
  | Ret a _ => Ret a tt
  | Fail e _ => Fail e tt
  | Crash => Crash
  end.

(** ** The contract of a [Decode] method

    [reads D bs a]: wherever [bs] starts in the buffer, [D] consumes exactly
    [bs] and returns [a], whatever precedes and follows. *)
Definition reads {A} (D : M ByteDecoder A) (bs : list byte) (a : A) : Prop :=
  forall pre post stk,
    D (mkByteDecoder (pre ++ bs ++ post) (length pre) stk) =
    Ret a (mkByteDecoder (pre ++ bs ++ post) (length pre + length bs) stk).

Lemma reads_Decode {A} (D : M ByteDecoder A) bs a : reads D bs a -> Decode bs D = Ret a tt.
Proof.
  intros H. unfold Decode, NewDecoder. specialize (H [] [] []).
  simpl in H. rewrite app_nil_r in H. rewrite H. reflexivity.
Qed.

Lemma reads_ret {A} (a : A) : reads (mret a) [] a.
Proof. intros pre post stk. unfold mret, M_ret. do 2 f_equal. simpl; lia. Qed.

Lemma reads_eq {A} (D : M ByteDecoder A) bs bs' a : reads D bs a -> bs = bs' -> reads D bs' a.
Proof. intros ? <-; assumption. Qed.

Lemma reads_bind {A B} (D : M ByteDecoder A) (f : A -> M ByteDecoder B) bs1 bs2 a b :
  reads D bs1 a -> reads (f a) bs2 b -> reads (D ≫= f) (bs1 ++ bs2) b.
Proof.
  intros H1 H2 pre post stk. rewrite <- app_assoc.
  erewrite bind_Ret by apply H1.
  rewrite app_assoc, <- length_app, H2, !length_app. do 2 f_equal. lia.
Qed.

Lemma reads_bind_nil {A B} (D : M ByteDecoder A) (f : A -> M ByteDecoder B) bs a b :
  reads D bs a -> reads (f a) [] b -> reads (D ≫= f) bs b.
Proof. intros H1 H2. rewrite <- (app_nil_r bs). eapply reads_bind; eassumption. Qed.

Lemma reads_assoc {A B C} (D : M ByteDecoder A) (f : A -> M ByteDecoder B)
    (g : B -> M ByteDecoder C) bs c :
  reads (D ≫= (fun a => f a ≫= g)) bs c -> reads ((D ≫= f) ≫= g) bs c.
Proof. intros H pre post stk. rewrite bind_assoc. apply H. Qed.

Lemma reads_pure {A B} (a : A) (f : A -> M ByteDecoder B) bs b :
  reads (f a) bs b -> reads (mret a ≫= f) bs b.
Proof. intros H. exact H. Qed.

(** A step that only inspects how much is left. *)
Lemma reads_remaining {A} (f : Z -> M ByteDecoder A) bs a :
  (forall r, len bs <= r -> reads (f r) bs a) -> reads (r ← gets remaining; f r) bs a.
Proof.
  intros H pre post stk. unfold mbind, M_bind, gets.
  apply H. unfold remaining; cbn [dbuf doff]. len_solve.
Qed.

Lemma reads_get_uint n bs : length bs = n -> reads (get_uint n) bs (be_get bs).
Proof.
  intros Hn pre post stk. unfold get_uint; cbn [dbuf doff dstack].
  rewrite decide_True by len_solve. rewrite <- Hn, slice_app. reflexivity.
Qed.

Lemma reads_get_bytes n bs : length bs = n -> reads (get_bytes n) bs bs.
Proof.
  intros Hn pre post stk. unfold get_bytes, slice; cbn [dbuf doff dstack].
  rewrite decide_True by len_solve.
  replace (length pre + n - length pre)%nat with (length bs) by lia.
  rewrite slice_app, Hn. reflexivity.
Qed.

Lemma reads_map {A B} (D : M ByteDecoder A) (g : A -> B) bs a :
  reads D bs a -> reads (x ← D; mret (g x)) bs (g a).
Proof.
  intros H. eapply reads_bind_nil; [exact H|apply reads_ret].
Qed.

Lemma reads_put n z : reads (get_uint n) (be_put n z) (z mod 2 ^ (8 * Z.of_nat n)).
Proof. rewrite <- be_get_put. apply reads_get_uint, length_be_put. Qed.
