(* ===== verification/Codec.v ===== *)
(** * Round trips and encoder safety, compositionally

    [codec] relates an [Encode] method (its two passes) to the matching
    [Decode] method: the bytes written are the bytes read, and reading them
    gives the value back.  [enc_safe] states what every [Encode] method must
    satisfy on any value whatsoever: the length pass reports an error, or the
    writing pass fills the buffer exactly, without a panic.  Both are closed
    under the ways the protocol's methods are put together, so that the
    per-message proofs are applications of the rules below. *)
From S2P Require Import Prelude Encoder Decoder.
From Stdlib Require Import Strings.Byte.

(** ** Shapes shared by the message types *)

(** [e.PutArrayLength(len(xs)); for _, x := range xs { ... }] *)
Definition encodeArray {S} `{PacketEncoder S} {A} (xs : list A) (f : A -> M S unit) : M S unit :=
  PutArrayLength (len xs) ;; for_each xs f.

(** [n := d.ArrayLength(); xs := make([]A, n); for i := range xs { ... }] *)
Definition decodeArray {A} (D : M ByteDecoder A) : M ByteDecoder (list A) :=
  n ← ArrayLength; repeatM (Z.to_nat n) D.

(** [time.Duration] and [time.Time] are nanoseconds; the wire has milliseconds. *)
Definition Millisecond : Z := 1000000.
Definition durationMillis (d : Z) : Z := int32 (Z.quot d Millisecond).
Definition millisDuration (z : Z) : Z := int64 (z * Millisecond).

Definition UnixNano (t : Z) : Z := int64 t.
Definition timeMillis (t : Z) : Z := Z.quot (UnixNano t) Millisecond.
(** [time.Unix(t/1000, (t%1000)*int64(time.Millisecond))] *)
Definition millisTime (t : Z) : Z := Z.quot t 1000 * 1000000000 + Z.rem t 1000 * Millisecond.
(** The zero [time.Time]: January 1, year 1 UTC. *)
Definition zeroTime : Z := -62135596800 * 1000000000.

(** ** Values the wire format can carry *)
Definition wf_string (s : string) : Prop := slen s <= MaxInt16.
Definition wf_nstring (o : option string) : Prop :=
  match o with None => True | Some s => wf_string s end.
Definition wf_bytes (o : option (list byte)) : Prop :=
  match o with None => True | Some bs => len bs <= MaxInt32 end.
Definition wf_array {A} (P : A -> Prop) (xs : list A) : Prop :=
  len xs <= 2 * MaxUint16 /\ Forall P xs.
Definition wf_ints (w : Z) (zs : list Z) : Prop := len zs <= MaxInt32 /\ Forall (in_int w) zs.
Definition wf_duration (d : Z) : Prop :=
  in_int 32 (Z.quot d Millisecond) /\ Z.quot d Millisecond * Millisecond = d.
Definition wf_time (t : Z) : Prop := in_int 64 t /\ Z.quot t Millisecond * Millisecond = t.

#[global] Instance wf_string_dec s : Decision (wf_string s).
Proof. unfold wf_string; apply _. Defined.
#[global] Instance wf_nstring_dec o : Decision (wf_nstring o).
Proof. destruct o; unfold wf_nstring; apply _. Defined.
#[global] Instance wf_bytes_dec o : Decision (wf_bytes o).
Proof. destruct o; unfold wf_bytes; apply _. Defined.
#[global] Instance wf_array_dec {A} (P : A -> Prop) `{forall x, Decision (P x)} xs :
  Decision (wf_array P xs).
Proof. unfold wf_array; apply _. Defined.
#[global] Instance wf_ints_dec w zs : Decision (wf_ints w zs).
Proof. unfold wf_ints; apply _. Defined.
#[global] Instance wf_duration_dec d : Decision (wf_duration d).
Proof. unfold wf_duration; apply _. Defined.
#[global] Instance wf_time_dec t : Decision (wf_time t).
Proof. unfold wf_time; apply _. Defined.

(** ** The relation *)
Definition codec {A} (k : nat) (EL : M LenEncoder unit) (EB : M ByteEncoder unit)
    (D : M ByteDecoder A) (a : A) : Prop :=
  exists bs, (k <= length bs)%nat /\ encodes EL EB bs /\ reads D bs a.

(** What a round trip means for a caller of [Encode] and [Decode]. *)
Definition roundtrips {A} (EL : M LenEncoder unit) (EB : M ByteEncoder unit)
    (D : M ByteDecoder A) (a : A) : Prop :=
  exists bs, Encode EL EB = Ret bs tt /\ Decode bs D = Ret a tt.

Lemma codec_roundtrips {A} k EL EB (D : M ByteDecoder A) a :
  codec k EL EB D a -> roundtrips EL EB D a.
Proof.
  intros (bs & _ & He & Hr). exists bs.
  split; [apply encodes_Encode, He|apply reads_Decode, Hr].
Qed.

Lemma codec_weaken {A} k k' EL EB (D : M ByteDecoder A) a :
  codec k' EL EB D a -> (k <= k')%nat -> codec k EL EB D a.
Proof. intros (bs & Hk & H) ?. exists bs. split; [lia|exact H]. Qed.

Lemma codec_ret {A} (a : A) : codec 0 (mret tt) (mret tt) (mret a) a.
Proof. exists []. split; [simpl; lia|split; [apply encodes_ret|apply reads_ret]]. Qed.

Lemma codec_ret_eq {A} (a b : A) : a = b -> codec 0 (mret tt) (mret tt) (mret a) b.
Proof. intros ->. apply codec_ret. Qed.

Lemma codec_bind {A B} k1 k2 EL1 EB1 EL2 EB2 (D : M ByteDecoder A) (f : A -> M ByteDecoder B) a b :
  codec k1 EL1 EB1 D a -> codec k2 EL2 EB2 (f a) b ->
  codec (k1 + k2) (EL1 ;; EL2) (EB1 ;; EB2) (D ≫= f) b.
Proof.
  intros (bs1 & Hk1 & He1 & Hr1) (bs2 & Hk2 & He2 & Hr2). exists (bs1 ++ bs2).
  split; [rewrite length_app; lia|].
  split; [apply encodes_seq; assumption|eapply reads_bind; eassumption].
Qed.

Lemma codec_enc_assoc {A} k (EL1 EL2 EL3 : M LenEncoder unit) (EB1 EB2 EB3 : M ByteEncoder unit)
    (D : M ByteDecoder A) a :
  codec k (EL1 ;; EL2 ;; EL3) (EB1 ;; EB2 ;; EB3) D a ->
  codec k ((EL1 ;; EL2) ;; EL3) ((EB1 ;; EB2) ;; EB3) D a.
Proof.
  intros (bs & Hk & [HL HB] & Hr). exists bs. split; [exact Hk|]. split; [|exact Hr].
  split; intros; rewrite bind_assoc; auto.
Qed.

(** The last field: the decoder returns the record, the encoder just stops. *)
Lemma codec_last {A B} k EL EB (D : M ByteDecoder A) (f : A -> M ByteDecoder B) a b :
  codec k EL EB D a -> f a = mret b -> codec k EL EB (D ≫= f) b.
Proof.
  intros (bs & Hk & He & Hr) Hf. exists bs. split; [exact Hk|]. split; [exact He|].
  eapply reads_bind_nil; [exact Hr|rewrite Hf; apply reads_ret].
Qed.

(** A decoder step that consumes nothing. *)
Lemma codec_pure {A B} k EL EB (x : A) (f : A -> M ByteDecoder B) b :
  codec k EL EB (f x) b -> codec k EL EB (mret x ≫= f) b.
Proof. intros (bs & Hk & He & Hr). exists bs. split; [exact Hk|]. split; [exact He|exact Hr]. Qed.

Lemma codec_when {A} k c EL EB (D : M ByteDecoder A) a d :
  (c = true -> codec k EL EB D a) -> (c = false -> a = d) ->
  codec 0 (when c EL) (when c EB) (if c then D else mret d) a.
Proof.
  intros Ht Hf. destruct c; simpl.
  - eapply codec_weaken; [apply Ht; reflexivity|lia].
  - rewrite Hf by reflexivity. apply codec_ret.
Qed.

(** ** Scalars *)
Lemma codec_scalar {A} n z EL EB (D : M ByteDecoder A) a :
  encodes EL EB (be_put n z) ->
  (forall bs, bs = be_put n z -> reads D bs a) -> codec n EL EB D a.
Proof.
  intros He Hr. exists (be_put n z). split; [rewrite length_be_put; lia|]. auto.
Qed.

Lemma reads_signed n z w (f : Z -> Z) :
  w = 8 * Z.of_nat n -> (0 < n)%nat -> (forall x, f x = sext w x) -> in_int w z ->
  reads (x ← get_uint n; mret (f x)) (be_put n (zext w z)) z.
Proof.
  intros -> Hn Hf Hz.
  assert (E : z = f ((zext (8 * Z.of_nat n) z) mod 2 ^ (8 * Z.of_nat n))).
  { rewrite Hf. fold (zext (8 * Z.of_nat n) (zext (8 * Z.of_nat n) z)).
    rewrite !sext_zext, sext_id by (assumption || lia). reflexivity. }
  rewrite E at 2. apply reads_map, reads_put.
Qed.

Lemma reads_Int16 z : in_int 16 z -> reads Int16 (be_put 2 (uint16 z)) z.
Proof. apply (reads_signed 2 z 16); auto; lia. Qed.

Lemma reads_checked {A} n (D : M ByteDecoder A) bs a :
  n <= len bs -> reads D bs a ->
  reads (r ← gets remaining; if r <? n then insufficient else D) bs a.
Proof.
  intros Hn Hr. apply reads_remaining. intros r Hle.
  rewrite (proj2 (Z.ltb_ge _ _)) by lia. exact Hr.
Qed.

Lemma reads_Int32 z : in_int 32 z -> reads Int32 (be_put 4 (uint32 z)) z.
Proof. intros. apply reads_checked; [len_solve|apply (reads_signed 4 z 32); auto; lia]. Qed.

Lemma reads_Int64 z : in_int 64 z -> reads Int64 (be_put 8 (uint64 z)) z.
Proof. intros. apply reads_checked; [len_solve|apply (reads_signed 8 z 64); auto; lia]. Qed.

Lemma codec_Int8 z : in_int 8 z -> codec 1 (PutInt8 z) (PutInt8 z) Int8 z.
Proof.
  intros Hz. apply codec_scalar with z; [apply encodes_PutInt8|]. intros bs ->.
  rewrite <- be_put_mod. apply (reads_signed 1 z 8); auto; lia.
Qed.

Lemma codec_Int16 z : in_int 16 z -> codec 2 (PutInt16 z) (PutInt16 z) Int16 z.
Proof.
  intros Hz. eapply codec_scalar; [apply encodes_PutInt16|]. intros bs ->. apply reads_Int16, Hz.
Qed.

Lemma codec_Int32 z : in_int 32 z -> codec 4 (PutInt32 z) (PutInt32 z) Int32 z.
Proof.
  intros Hz. eapply codec_scalar; [apply encodes_PutInt32|]. intros bs ->. apply reads_Int32, Hz.
Qed.

Lemma codec_Int64 z : in_int 64 z -> codec 8 (PutInt64 z) (PutInt64 z) Int64 z.
Proof.
  intros Hz. eapply codec_scalar; [apply encodes_PutInt64|]. intros bs ->. apply reads_Int64, Hz.
Qed.

Lemma codec_Bool x : codec 1 (PutBool x) (PutBool x) Bool x.
Proof.
  exists [if x then x01 else x00]. split; [simpl; lia|]. split; [apply encodes_PutBool|].
  unfold Bool, Int8. destruct x.
  - apply (reads_map (i ← get_uint 1; mret (int8 i)) (fun i => i =? 1) [x01] 1).
    apply (reads_map (get_uint 1) int8 [x01] 1). apply (reads_get_uint 1 [x01] eq_refl).
  - apply (reads_map (i ← get_uint 1; mret (int8 i)) (fun i => i =? 1) [x00] 0).
    apply (reads_map (get_uint 1) int8 [x00] 0). apply (reads_get_uint 1 [x00] eq_refl).
Qed.

(** ** Durations and times *)
Lemma codec_Duration d : wf_duration d ->
  codec 4 (PutInt32 (durationMillis d)) (PutInt32 (durationMillis d))
    (z ← Int32; mret (millisDuration z)) d.
Proof.
  intros [Hr Hd]. eapply codec_last; [apply codec_Int32, sext_range; lia|].
  unfold durationMillis, int32. rewrite sext_id by (assumption || lia).
  unfold millisDuration, int64. rewrite Hd, sext_id; [reflexivity|lia|].
  unfold in_int, Millisecond in *. lia.
Qed.

Lemma codec_Time t : wf_time t ->
  codec 8 (PutInt64 (timeMillis t)) (PutInt64 (timeMillis t)) (z ← Int64; mret (millisTime z)) t.
Proof.
  intros [Hr Ht]. unfold timeMillis, UnixNano, int64. rewrite (sext_id 64 t) by (assumption || lia).
  eapply codec_last; [apply codec_Int64|].
  - unfold in_int, Millisecond in *. lia.
  - f_equal. rewrite <- Ht at 2. unfold millisTime.
    pose proof (Z.quot_rem' (Z.quot t Millisecond) 1000). unfold Millisecond in *. lia.
Qed.

(** ** Strings and byte slices *)
Lemma slen_nonneg s : 0 <= slen s.
Proof. unfold slen, len; lia. Qed.

Lemma wf_string_int16 s : wf_string s -> int16 (slen s) = slen s.
Proof.
  intros H. apply sext_id; [lia|]. pose proof (slen_nonneg s).
  unfold wf_string, MaxInt16, in_int in *. lia.
Qed.

Lemma reads_string_body {A} s (g : string -> A) :
  reads (bs ← get_bytes (Z.to_nat (slen s)); mret (g (string_of_bytes bs)))
    (bytes_of_string s) (g s).
Proof.
  rewrite <- (string_of_bytes_of_string s) at 3.
  apply (reads_map _ (fun bs => g (string_of_bytes bs))), reads_get_bytes.
  unfold slen, len. lia.
Qed.

Lemma slen_0 s : slen s = 0 -> bytes_of_string s = [] /\ s = EmptyString.
Proof.
  intros H. assert (E : bytes_of_string s = []).
  { unfold slen, len in H. destruct (bytes_of_string s); [reflexivity|simpl in H; lia]. }
  split; [exact E|]. rewrite <- (string_of_bytes_of_string s), E. reflexivity.
Qed.

Lemma codec_String s : wf_string s -> codec 2 (PutString s) (PutString s) String s.
Proof.
  intros Hs. eexists. split; [|split; [apply encodes_PutString, Hs|]]; [len_solve|].
  rewrite wf_string_int16 by exact Hs. pose proof (slen_nonneg s).
  eapply reads_bind.
  - apply reads_Int16. unfold wf_string, MaxInt16, in_int in *. lia.
  - apply reads_remaining. intros r Hr.
    rewrite (proj2 (Z.ltb_ge _ _)), (proj2 (Z.eqb_neq _ _)) by lia.
    destruct (Z.eqb_spec (slen s) 0) as [H0|H0].
    + destruct (slen_0 s H0) as [-> ->]. apply reads_ret.
    + rewrite (proj2 (Z.ltb_ge _ _)) by (unfold slen in *; lia).
      apply (reads_string_body s id).
Qed.

Lemma codec_NullableString o : wf_nstring o ->
  codec 2 (PutNullableString o) (PutNullableString o) NullableString o.
Proof.
  destruct o as [s|]; intros Hs.
  - eexists. split; [|split; [apply (encodes_PutString s), Hs|]]; [len_solve|].
    rewrite wf_string_int16 by exact Hs. pose proof (slen_nonneg s).
    unfold NullableString, stringLength. apply reads_assoc. eapply reads_bind.
    + apply reads_Int16. simpl in Hs. unfold wf_string, MaxInt16, in_int in *. lia.
    + apply reads_assoc, reads_remaining. intros r Hr.
      rewrite (proj2 (Z.ltb_ge _ _)), (proj2 (Z.ltb_ge _ _)) by (unfold slen in *; lia).
      apply reads_pure. rewrite (proj2 (Z.eqb_neq _ _)) by lia. apply reads_string_body.
  - eapply codec_scalar; [apply encodes_PutNullableString_None|]. intros bs ->.
    unfold NullableString, stringLength. apply reads_assoc.
    eapply reads_bind_nil; [apply reads_Int16; unfold in_int; lia|].
    apply reads_assoc, reads_remaining. intros r Hr. change (len []) with 0 in Hr.
    rewrite (proj2 (Z.ltb_ge _ _)), (proj2 (Z.ltb_ge _ _)) by lia. apply reads_pure, reads_ret.
Qed.

Lemma codec_Bytes o : wf_bytes o -> codec 4 (PutBytes o) (PutBytes o) Bytes o.
Proof.
  destruct o as [bs|]; intros Hs; simpl in Hs.
  - eexists. split; [|split; [apply encodes_PutBytes_Some, Hs|]]; [len_solve|].
    assert (Hlen : in_int 32 (len bs)) by (unfold MaxInt32, in_int, len in *; lia).
    unfold int32. rewrite sext_id by (assumption || lia).
    eapply reads_bind; [apply reads_Int32, Hlen|].
    apply reads_remaining. intros r Hr.
    assert (0 <= len bs) by (unfold len; lia).
    rewrite (proj2 (Z.ltb_ge _ _)), (proj2 (Z.eqb_neq _ _)) by lia.
    destruct (Z.eqb_spec (len bs) 0) as [H0|H0].
    + destruct bs; [apply reads_ret|unfold len in H0; simpl in H0; lia].
    + rewrite (proj2 (Z.ltb_ge _ _)) by lia.
      apply (reads_map _ Some), reads_get_bytes. unfold len. lia.
  - eapply codec_scalar; [apply encodes_PutBytes_None|]. intros bs ->.
    eapply reads_bind_nil; [apply reads_Int32; unfold in_int; lia|].
    apply reads_remaining. intros r _. apply reads_ret.
Qed.

(** ** Arrays *)
Lemma reads_repeatM {A} (D : M ByteDecoder A) xs bss :
  Forall2 (fun x bs => reads D bs x) xs bss ->
  reads (repeatM (length xs) D) (concat bss) xs.
Proof.
  induction 1 as [|x bs xs bss Hx Hxs IH]; simpl; [apply reads_ret|].
  eapply reads_bind; [exact Hx|]. apply (reads_map _ (cons x)), IH.
Qed.

Lemma codec_Forall2 {A B} k (g : A -> B) (xs : list A) EL EB (D : M ByteDecoder B) :
  (forall x, x ∈ xs -> codec k (EL x) (EB x) D (g x)) ->
  exists bss, (length xs * k <= length (concat bss))%nat /\
    Forall2 (fun x bs => encodes (EL x) (EB x) bs) xs bss /\
    Forall2 (fun x bs => reads D bs x) (g <$> xs) bss.
Proof.
  induction xs as [|x xs IH]; intros H.
  - exists []. simpl. repeat split; [lia|constructor|constructor].
  - destruct (H x) as (bs & Hk & He & Hr); [constructor|].
    destruct IH as (bss & Hks & Hes & Hrs); [intros y Hy; apply H; constructor; exact Hy|].
    exists (bs :: bss). rewrite fmap_cons. simpl. rewrite length_app.
    repeat split; [lia| |]; constructor; assumption.
Qed.

Lemma uint32_len_id n : 0 <= n <= MaxInt32 ->
  (uint32 (int32 n)) mod 2 ^ (8 * Z.of_nat 4) = n.
Proof.
  intros Hn. unfold int32. rewrite sext_id by (unfold in_int, MaxInt32 in *; lia).
  unfold uint32. rewrite zext_id by (unfold in_uint, MaxInt32 in *; lia).
  apply Z.mod_small. unfold MaxInt32 in *. lia.
Qed.

(** An array of which [D] reads back [g x] for each element [x]. *)
Lemma codec_array_map {A B} (g : A -> B) (xs : list A) EL EB (D : M ByteDecoder B) :
  len xs <= 2 * MaxUint16 ->
  (forall x, x ∈ xs -> codec 1 (EL x) (EB x) D (g x)) ->
  codec 4 (encodeArray xs EL) (encodeArray xs EB) (decodeArray D) (g <$> xs).
Proof.
  intros Hn H. destruct (codec_Forall2 1 g xs EL EB D H) as (bss & Hk & Hes & Hrs).
  assert (Hm : 0 <= len xs <= MaxInt32) by (unfold MaxUint16, MaxInt32, len in *; lia).
  eexists. split; [|split]; [|apply encodes_seq;
    [apply encodes_PutArrayLength; lia|apply encodes_for_each, Hes]|]; [len_solve|].
  unfold decodeArray, ArrayLength. apply reads_assoc, reads_remaining. intros r Hr.
  rewrite (proj2 (Z.ltb_ge _ _)) by len_solve. apply reads_assoc.
  eapply reads_bind; [apply reads_put|]. rewrite uint32_len_id by exact Hm.
  apply reads_assoc, reads_remaining. intros r' Hr'.
  rewrite (proj2 (Z.ltb_ge _ _)), (proj2 (Z.ltb_ge _ _)) by (lia || len_solve).
  apply reads_pure. unfold len. rewrite Nat2Z.id, <- (length_fmap g xs). apply reads_repeatM, Hrs.
Qed.

Lemma codec_array {A} (xs : list A) EL EB (D : M ByteDecoder A) :
  len xs <= 2 * MaxUint16 ->
  (forall x, x ∈ xs -> codec 1 (EL x) (EB x) D x) ->
  codec 4 (encodeArray xs EL) (encodeArray xs EB) (decodeArray D) xs.
Proof.
  intros Hn H. rewrite <- (list_fmap_id xs) at 3. apply codec_array_map; assumption.
Qed.

Lemma codec_empty_array {A} (EL : A -> M LenEncoder unit) (EB : A -> M ByteEncoder unit) :
  codec 4 (encodeArray [] EL) (encodeArray [] EB) ArrayLength 0.
Proof.
  eexists. split; [|split]; [|apply encodes_seq; [apply encodes_PutArrayLength|apply encodes_ret]|];
    [len_solve|unfold len, MaxInt32; simpl; lia|].
  rewrite app_nil_r. unfold ArrayLength. apply reads_remaining. intros r Hr.
  rewrite (proj2 (Z.ltb_ge _ _)) by len_solve.
  eapply reads_bind_nil; [apply reads_put|]. rewrite uint32_len_id by (unfold len, MaxInt32; simpl; lia).
  apply reads_remaining. intros r' Hr'. change (len (@nil A)) with 0.
  rewrite (proj2 (Z.ltb_ge _ _)) by (change (len (@nil byte)) with 0 in Hr'; lia). apply reads_ret.
Qed.

(** Arrays of integers and strings have methods of their own. *)
Lemma reads_counted {A} w (xs : list A) (D : M ByteDecoder A) bss (tot : Z -> Z) :
  w = tot (len xs) -> len xs <= MaxInt32 -> w <= len (concat bss) ->
  Forall2 (fun x bs => reads D bs x) xs bss ->
  reads (r ← gets remaining; if r <? 4 then insufficient else
         n ← get_uint 4; r ← gets remaining;
         if r <? tot n then insufficient
         else if n =? 0 then mret [] else if n <? 0 then throw ErrInvalidArrayLength
         else repeatM (Z.to_nat n) D)
    (be_put 4 (uint32 (int32 (len xs))) ++ concat bss) xs.
Proof.
  intros Hw Hn Htot Hrs. assert (0 <= len xs) by (unfold len; lia).
  apply reads_checked; [len_solve|].
  eapply reads_bind; [apply reads_put|]. rewrite uint32_len_id by lia.
  apply reads_remaining. intros r Hr. rewrite (proj2 (Z.ltb_ge _ _)) by lia.
  destruct (Z.eqb_spec (len xs) 0) as [H0|H0].
  - destruct xs; [|unfold len in H0; simpl in H0; lia]. inversion Hrs; subst. apply reads_ret.
  - rewrite (proj2 (Z.ltb_ge _ _)) by lia. unfold len. rewrite Nat2Z.id. apply reads_repeatM, Hrs.
Qed.

Lemma length_concat_be n (f : Z -> Z) zs :
  length (concat ((fun z => be_put n (f z)) <$> zs)) = (n * length zs)%nat.
Proof.
  induction zs; [simpl; lia|].
  rewrite fmap_cons. cbn [concat length]. rewrite length_app, length_be_put, IHzs. lia.
Qed.

Lemma reads_ints n w (f g : Z -> Z) zs :
  w = 8 * Z.of_nat n -> (0 < n)%nat -> (forall x, f x = sext w x) -> (forall x, g x = zext w x) ->
  Forall (in_int w) zs ->
  Forall2 (fun z bs => reads (x ← get_uint n; mret (f x)) bs z) zs ((fun z => be_put n (g z)) <$> zs).
Proof.
  intros Hw Hn Hf Hg. induction 1; constructor; [|assumption].
  rewrite Hg. apply (reads_signed n x w f); assumption.
Qed.

Lemma codec_Int32Array zs : wf_ints 32 zs ->
  codec 4 (PutInt32Array zs) (PutInt32Array zs) Int32Array zs.
Proof.
  intros [Hn Hz]. eexists. split; [|split; [apply encodes_PutInt32Array, Hn|]]; [len_solve|].
  apply (reads_counted (4 * len zs) zs _ _ (fun n => 4 * n)); [reflexivity|exact Hn| |].
  - unfold len. rewrite length_concat_be. lia.
  - apply (reads_ints 4 32 int32 uint32); auto; lia.
Qed.

Lemma codec_Int64Array zs : wf_ints 64 zs ->
  codec 4 (PutInt64Array zs) (PutInt64Array zs) Int64Array zs.
Proof.
  intros [Hn Hz]. eexists. split; [|split; [apply encodes_PutInt64Array, Hn|]]; [len_solve|].
  apply (reads_counted (8 * len zs) zs _ _ (fun n => 8 * n)); [reflexivity|exact Hn| |].
  - unfold len. rewrite length_concat_be. lia.
  - apply (reads_ints 8 64 int64 uint64); auto; lia.
Qed.

Lemma codec_StringArray ss : len ss <= MaxInt32 -> Forall wf_string ss ->
  codec 4 (PutStringArray ss) (PutStringArray ss) StringArray ss.
Proof.
  intros Hn Hs. assert (0 <= len ss) by (unfold len; lia).
  destruct (codec_Forall2 2 id ss PutString PutString String) as (bss & Hk & Hes & Hrs).
  { intros s Hin. apply codec_String. eapply Forall_elem; eassumption. }
  rewrite list_fmap_id in Hrs.
  eexists. split; [|split]; [|apply encodes_seq;
    [apply encodes_PutArrayLength; lia|apply encodes_for_each, Hes]|]; [len_solve|].
  apply reads_checked; [len_solve|].
  eapply reads_bind; [apply reads_put|]. rewrite uint32_len_id by lia.
  destruct (Z.eqb_spec (len ss) 0) as [H0|H0].
  - destruct ss; [|unfold len in H0; simpl in H0; lia]. inversion Hrs; subst. apply reads_ret.
  - rewrite (proj2 (Z.ltb_ge _ _)) by lia. unfold len. rewrite Nat2Z.id. apply reads_repeatM, Hrs.
Qed.

(** ** Maps

    A map is written as an array of pairs in the order the runtime iterates it,
    which may differ between the two passes, and read back by insertion. *)
Definition insert_all {K V} `{Countable K} (kvs : list (K * V)) : gmap K V :=
  foldl (fun m kv => <[fst kv := snd kv]> m) ∅ kvs.

Definition decodeMap {K V} `{Countable K} (D : M ByteDecoder (K * V)) : M ByteDecoder (gmap K V) :=
  kvs ← decodeArray D; mret (insert_all kvs).

Lemma foldl_insert {K V} `{Countable K} (kvs : list (K * V)) (m : gmap K V) :
  NoDup kvs.*1 ->
  foldl (fun m kv => <[fst kv := snd kv]> m) m kvs = list_to_map kvs ∪ m.
Proof.
  revert m. induction kvs as [|[k v] kvs IH]; intros m Hnd; simpl; [rewrite (left_id_L ∅ (∪)); reflexivity|].
  inversion_clear Hnd. rewrite IH by assumption. rewrite <- insert_union_l, <- insert_union_r.
  - reflexivity.
  - apply not_elem_of_list_to_map_1. assumption.
Qed.

Lemma insert_all_perm {K V} `{Countable K} (kvs : list (K * V)) (m : gmap K V) :
  kvs ≡ₚ map_to_list m -> insert_all kvs = m.
Proof.
  intros Hp. assert (Hnd : NoDup kvs.*1).
  { rewrite Hp. apply NoDup_fst_map_to_list. }
  unfold insert_all. rewrite foldl_insert, (right_id_L ∅ (∪)) by exact Hnd.
  rewrite <- (list_to_map_to_list m). apply list_to_map_proper; [exact Hnd|exact Hp].
Qed.

Lemma for_each_len_perm {A} (f : A -> M LenEncoder unit) xs ys :
  xs ≡ₚ ys ->
  (forall x, x ∈ xs -> exists n, forall l, f x l = Ret tt (mkLenEncoder (Length l + n) (lstack l))) ->
  forall l, for_each xs f l = for_each ys f l.
Proof.
  induction 1 as [|x xs ys Hp IH|x y xs|xs ys zs H1 IH1 H2 IH2]; intros Hf l.
  - reflexivity.
  - destruct (Hf x) as [n Hn]; [left|]. cbn [for_each]. erewrite !bind_Ret by apply Hn.
    apply IH. intros z Hz. apply Hf. right; exact Hz.
  - destruct (Hf x) as [n Hn]; [right; left|]. destruct (Hf y) as [m Hm]; [left|].
    cbn [for_each]. erewrite !bind_Ret; [|apply Hm|apply Hn|apply Hn|apply Hm]. cbn [Length lstack].
    do 2 f_equal. lia.
  - rewrite IH1 by exact Hf. apply IH2. intros z Hz. apply Hf. rewrite H1. exact Hz.
Qed.

Lemma codec_map {K V} `{Countable K} (m : gmap K V) (orderL orderB : list (K * V)) EL EB
    (D : M ByteDecoder (K * V)) :
  orderL ≡ₚ map_to_list m -> orderB ≡ₚ map_to_list m -> Z.of_nat (size m) <= 2 * MaxUint16 ->
  (forall k v, m !! k = Some v -> codec 1 (EL (k, v)) (EB (k, v)) D (k, v)) ->
  codec 4 (encodeArray orderL EL) (encodeArray orderB EB) (decodeMap D) m.
Proof.
  intros HL HB Hsz Helt.
  assert (Hlen : forall o, o ≡ₚ map_to_list m -> len o = Z.of_nat (size m)).
  { intros o Ho. unfold len. rewrite Ho, length_map_to_list. reflexivity. }
  assert (Hin : forall x, x ∈ orderB -> codec 1 (EL x) (EB x) D x).
  { intros [k v] Hx. apply Helt. rewrite HB in Hx. apply elem_of_map_to_list, Hx. }
  destruct (codec_array orderB EL EB D) as (bs & Hk & [HeL HeB] & Hr);
    [rewrite Hlen by exact HB; exact Hsz|exact Hin|].
  exists bs. split; [exact Hk|]. split; [split; [|exact HeB]|].
  - intros l. rewrite <- (HeL l). unfold encodeArray.
    rewrite (Hlen orderL HL), (Hlen orderB HB).
    unfold mbind, M_bind. destruct (PutArrayLength (Z.of_nat (size m)) l); try reflexivity.
    apply for_each_len_perm; [rewrite HL, HB; reflexivity|].
    intros x Hx. destruct (Hin x) as (b & _ & [Hb _] & _); [rewrite HB, <- HL; exact Hx|].
    exists (length b). exact Hb.
  - unfold decodeMap. eapply reads_bind_nil; [exact Hr|].
    rewrite (insert_all_perm orderB m HB). apply reads_ret.
Qed.

(** The order in which a run ranges over a map: any enumeration of its pairs. *)
Definition map_order : Type :=
  forall K (HK : EqDecision K) (HC : Countable K) (V : Type), gmap K V -> list (K * V).
Definition valid_order (o : map_order) : Prop :=
  forall K (H : EqDecision K) (H' : Countable K) V (m : gmap K V), o K H H' V m ≡ₚ map_to_list m.
Definition canonical_order : map_order := fun K HK HC V m => map_to_list m.

Lemma canonical_order_valid : valid_order canonical_order.
Proof. intros K H H' V m. reflexivity. Qed.

Definition range (o : map_order) {K V} `{Countable K} (m : gmap K V) : list (K * V) := o K _ _ V m.

(** Maps the wire format can carry. *)
Definition wf_map {K V} `{Countable K} (P : K -> V -> Prop) (m : gmap K V) : Prop :=
  Z.of_nat (size m) <= 2 * MaxUint16 /\ map_Forall P m.
#[global] Instance wf_map_dec {K V} `{Countable K} (P : K -> V -> Prop)
  `{forall k v, Decision (P k v)} (m : gmap K V) : Decision (wf_map P m).
Proof. unfold wf_map; apply _. Defined.

Lemma codec_wf_map {K V} `{Countable K} (P : K -> V -> Prop) (m : gmap K V) oL oB EL EB
    (D : M ByteDecoder (K * V)) :
  valid_order oL -> valid_order oB -> wf_map P m ->
  (forall k v, P k v -> codec 1 (EL (k, v)) (EB (k, v)) D (k, v)) ->
  codec 4 (encodeArray (range oL m) EL) (encodeArray (range oB m) EB) (decodeMap D) m.
Proof.
  intros HL HB [Hsz HP] Helt. apply codec_map; [apply HL|apply HB|exact Hsz|].
  intros k v Hk. apply Helt, (map_Forall_lookup_1 _ _ _ _ HP Hk).
Qed.

(** An [[]int32] written by [PutInt32Array] and read element by element. *)
Lemma for_each_grow {A} (xs : list A) n l :
  for_each xs (fun _ => Len.grow n) l = Len.grow (n * length xs) l.
Proof.
  revert l; induction xs as [|x xs IH]; intros l; cbn [for_each].
  - unfold mret, M_ret, Len.grow, modify. do 2 f_equal. destruct l; simpl; f_equal; lia.
  - erewrite bind_Ret by reflexivity. rewrite IH. unfold Len.grow, modify; simpl. do 2 f_equal. lia.
Qed.

Lemma codec_int32s zs : wf_array (in_int 32) zs ->
  codec 4 (PutInt32Array zs) (PutInt32Array zs) (decodeArray Int32) zs.
Proof.
  intros [Hn Hz].
  destruct (codec_array zs PutInt32 PutInt32 Int32) as (bs & Hk & [HL HB] & Hr); [exact Hn| |].
  { intros z Hin. eapply codec_weaken; [apply codec_Int32; eapply Forall_elem; eassumption|lia]. }
  exists bs. split; [exact Hk|]. split; [split; [|exact HB]|exact Hr].
  intros l. rewrite <- (HL l). unfold encodeArray. enc_unfold. unfold Len.PutInt32Array, mbind, M_bind.
  destruct (Len.PutArrayLength (len zs) l); try reflexivity. rewrite for_each_grow. reflexivity.
Qed.

(** ** Results whose error the source drops *)
Definition ignore_read {A} (d : A) (D : M ByteDecoder A) : M ByteDecoder A := fun s =>
  match D s with
  | Ret a s' => Ret a s'
  | Fail _ s' => Ret d s'
  | Crash => Crash
  end.

Lemma codec_ignore_read {A} k d EL EB (D : M ByteDecoder A) a :
  codec k EL EB D a -> codec k EL EB (ignore_read d D) a.
Proof.
  intros (bs & Hk & He & Hr). exists bs. split; [exact Hk|]. split; [exact He|].
  intros pre post stk. unfold ignore_read. rewrite Hr. reflexivity.
Qed.

Lemma encodes_ignore_err EL EB bs : encodes EL EB bs -> encodes (ignore_err EL) (ignore_err EB) bs.
Proof.
  intros [HL HB]. split; intros; unfold ignore_err; [rewrite HL|rewrite HB]; reflexivity.
Qed.

Lemma codec_ignore_err {A} k EL EB (D : M ByteDecoder A) a :
  codec k EL EB D a -> codec k (ignore_err EL) (ignore_err EB) D a.
Proof.
  intros (bs & Hk & He & Hr). exists bs. split; [exact Hk|].
  split; [apply encodes_ignore_err, He|exact Hr].
Qed.

(** An array whose length's error is dropped: the same when the length fits. *)
Definition encodeArrayUnchecked {S} `{PacketEncoder S} {A} (xs : list A) (f : A -> M S unit) : M S unit :=
  ignore_err (PutArrayLength (len xs)) ;; for_each xs f.

Lemma codec_unchecked {A B} k (xs : list A) EL EB (D : M ByteDecoder B) b :
  len xs <= 2 * MaxUint16 ->
  codec k (encodeArray xs EL) (encodeArray xs EB) D b ->
  codec k (encodeArrayUnchecked xs EL) (encodeArrayUnchecked xs EB) D b.
Proof.
  intros Hn (bs & Hk & [HL HB] & Hr). exists bs. split; [exact Hk|]. split; [|exact Hr].
  assert (Hm : (MaxInt32 <? len xs) = false)
    by (apply Z.ltb_ge; unfold MaxUint16, MaxInt32 in *; lia).
  split.
  - intros l. rewrite <- (HL l). unfold encodeArrayUnchecked, encodeArray, ignore_err, mbind, M_bind.
    enc_unfold. unfold Len.PutArrayLength. rewrite Hm. reflexivity.
  - intros pre post stk. rewrite <- HB.
    unfold encodeArrayUnchecked, encodeArray, ignore_err, mbind, M_bind.
    enc_unfold. unfold Bytes.PutArrayLength, Bytes.PutInt32, Bytes.put_uint.
    destruct (put_at _ _ _ _); reflexivity.
Qed.

(** ** Fields present from some version on

    [since c P d x]: when [c] holds the field is on the wire and satisfies [P];
    otherwise it keeps its zero value [d]. *)
Definition since {A} (c : bool) (P : A -> Prop) (d x : A) : Prop := if c then P x else x = d.
#[global] Instance since_dec {A} `{EqDecision A} c (P : A -> Prop) `{forall x, Decision (P x)} d x :
  Decision (since c P d x).
Proof. destruct c; unfold since; apply _. Defined.

Lemma codec_since {A} k c (P : A -> Prop) EL EB (D : M ByteDecoder A) a d :
  since c P d a -> (P a -> codec k EL EB D a) ->
  codec 0 (when c EL) (when c EB) (if c then D else mret d) a.
Proof. intros H Hc. apply codec_when with k; intros ->; auto. Qed.

Lemma codec_wf_array {A} (P : A -> Prop) (xs : list A) EL EB (D : M ByteDecoder A) :
  wf_array P xs -> (forall x, P x -> codec 1 (EL x) (EB x) D x) ->
  codec 4 (encodeArray xs EL) (encodeArray xs EB) (decodeArray D) xs.
Proof.
  intros [Hn Hx] H. apply codec_array; [exact Hn|].
  intros x Hin. apply H. eapply Forall_elem; eassumption.
Qed.

(** [throttle, err := d.Int32(); ... = time.Duration(throttle) * time.Millisecond] *)
Definition DurationMs : M ByteDecoder Z := z ← Int32; mret (millisDuration z).
(** [t, err := d.Int64(); ... = time.Unix(t/1000, (t%1000)*int64(time.Millisecond))] *)
Definition TimeMs : M ByteDecoder Z := z ← Int64; mret (millisTime z).
Definition wf_strings (ss : list string) : Prop := len ss <= MaxInt32 /\ Forall wf_string ss.
#[global] Instance wf_strings_dec ss : Decision (wf_strings ss).
Proof. unfold wf_strings; apply _. Defined.

Lemma codec_DurationMs d : wf_duration d ->
  codec 4 (PutInt32 (durationMillis d)) (PutInt32 (durationMillis d)) DurationMs d.
Proof. apply codec_Duration. Qed.
Lemma codec_TimeMs t : wf_time t ->
  codec 8 (PutInt64 (timeMillis t)) (PutInt64 (timeMillis t)) TimeMs t.
Proof. apply codec_Time. Qed.
Lemma codec_wf_strings ss : wf_strings ss ->
  codec 4 (PutStringArray ss) (PutStringArray ss) StringArray ss.
Proof. intros [Hn Hs]. apply codec_StringArray; assumption. Qed.

#[export] Hint Resolve codec_Int8 codec_Int16 codec_Int32 codec_Int64 codec_Bool codec_String
  codec_NullableString codec_Bytes codec_Int32Array codec_Int64Array codec_wf_strings
  codec_DurationMs codec_TimeMs : codec.

(** ** Encoding any value at all *)
Definition enc_safe (EL : M LenEncoder unit) (EB : M ByteEncoder unit) : Prop :=
  (exists bs, encodes EL EB bs) \/ (exists e, forall l, exists l', EL l = Fail e l').

(** What [enc_safe] gives a caller of [Encode]: an error and no bytes, or a
    buffer of exactly the length the first pass counted; never a panic. *)
Definition encode_total (EL : M LenEncoder unit) (EB : M ByteEncoder unit) : Prop :=
  (exists bs, Encode EL EB = Ret bs tt /\
     EL (mkLenEncoder 0 []) = Ret tt (mkLenEncoder (length bs) [])) \/
  (exists e, Encode EL EB = Fail e tt).

Lemma enc_safe_total EL EB : enc_safe EL EB -> encode_total EL EB.
Proof.
  intros [[bs H]|[e H]].
  - left. exists bs. split; [apply encodes_Encode, H|]. destruct H as [HL _]. apply HL.
  - right. exists e. destruct (H (mkLenEncoder 0 [])) as [l' E]. unfold Encode. rewrite E. reflexivity.
Qed.

Lemma enc_safe_encodes EL EB bs : encodes EL EB bs -> enc_safe EL EB.
Proof. intros H; left; exists bs; exact H. Qed.

Lemma enc_safe_codec {A} k EL EB (D : M ByteDecoder A) a : codec k EL EB D a -> enc_safe EL EB.
Proof. intros (bs & _ & H & _). left; exists bs; exact H. Qed.

Lemma enc_safe_seq EL1 EB1 EL2 EB2 :
  enc_safe EL1 EB1 -> enc_safe EL2 EB2 -> enc_safe (EL1 ;; EL2) (EB1 ;; EB2).
Proof.
  intros [[bs1 H1]|[e1 H1]] H2.
  - destruct H2 as [[bs2 H2]|[e2 H2]].
    + left. exists (bs1 ++ bs2). apply encodes_seq; assumption.
    + right. exists e2. intros l. destruct H1 as [HL _].
      destruct (H2 (mkLenEncoder (Length l + length bs1) (lstack l))) as [l' E].
      exists l'. erewrite bind_Ret by apply HL. exact E.
  - right. exists e1. intros l. destruct (H1 l) as [l' E]. exists l'.
    erewrite bind_Fail by exact E. reflexivity.
Qed.

Lemma enc_safe_when c EL EB : enc_safe EL EB -> enc_safe (when c EL) (when c EB).
Proof. destruct c; [auto|]. intros _. eapply enc_safe_encodes, encodes_ret. Qed.

Lemma enc_safe_for_each {A} (xs : list A) EL EB :
  (forall x, enc_safe (EL x) (EB x)) -> enc_safe (for_each xs EL) (for_each xs EB).
Proof.
  intros H. induction xs; simpl; [eapply enc_safe_encodes, encodes_ret|].
  apply enc_safe_seq; auto.
Qed.

Lemma enc_safe_ret : enc_safe (mret tt) (mret tt).
Proof. eapply enc_safe_encodes, encodes_ret. Qed.

Lemma enc_safe_PutBool x : enc_safe (PutBool x) (PutBool x).
Proof. eapply enc_safe_encodes, encodes_PutBool. Qed.
Lemma enc_safe_PutInt8 z : enc_safe (PutInt8 z) (PutInt8 z).
Proof. eapply enc_safe_encodes, encodes_PutInt8. Qed.
Lemma enc_safe_PutInt16 z : enc_safe (PutInt16 z) (PutInt16 z).
Proof. eapply enc_safe_encodes, encodes_PutInt16. Qed.
Lemma enc_safe_PutInt32 z : enc_safe (PutInt32 z) (PutInt32 z).
Proof. eapply enc_safe_encodes, encodes_PutInt32. Qed.
Lemma enc_safe_PutInt64 z : enc_safe (PutInt64 z) (PutInt64 z).
Proof. eapply enc_safe_encodes, encodes_PutInt64. Qed.

Lemma enc_safe_PutArrayLength n : enc_safe (PutArrayLength n) (PutArrayLength n).
Proof.
  destruct (Z.ltb_spec MaxInt32 n) as [H|H].
  - right. exists ErrInvalidArrayLength. intros l. exists l. enc_unfold. unfold Len.PutArrayLength.
    rewrite (proj2 (Z.ltb_lt _ _)) by exact H. reflexivity.
  - eapply enc_safe_encodes, encodes_PutArrayLength, H.
Qed.

Lemma enc_safe_PutRawBytes bs : enc_safe (PutRawBytes bs) (PutRawBytes bs).
Proof.
  destruct (Z.ltb_spec MaxInt32 (len bs)) as [H|H].
  - right. exists ErrInvalidByteSliceLength. intros l. exists l. enc_unfold. unfold Len.PutRawBytes.
    rewrite (proj2 (Z.ltb_lt _ _)) by exact H. reflexivity.
  - eapply enc_safe_encodes, encodes_PutRawBytes, H.
Qed.

Lemma enc_safe_PutString s : enc_safe (PutString s) (PutString s).
Proof.
  destruct (Z.ltb_spec MaxInt16 (slen s)) as [H|H].
  - right. exists ErrInvalidStringLength. intros l. eexists. enc_unfold. unfold Len.PutString.
    erewrite bind_Ret by reflexivity. rewrite (proj2 (Z.ltb_lt _ _)) by exact H. reflexivity.
  - eapply enc_safe_encodes, encodes_PutString, H.
Qed.

Lemma enc_safe_PutNullableString o : enc_safe (PutNullableString o) (PutNullableString o).
Proof.
  destruct o as [s|]; [apply (enc_safe_PutString s)|].
  eapply enc_safe_encodes, encodes_PutNullableString_None.
Qed.

Lemma enc_safe_PutBytes o : enc_safe (PutBytes o) (PutBytes o).
Proof.
  destruct o as [bs|]; [|eapply enc_safe_encodes, encodes_PutBytes_None].
  apply (enc_safe_seq (Len.grow 4)); [|apply enc_safe_PutRawBytes].
  eapply enc_safe_encodes, encodes_uint.
Qed.

Lemma enc_safe_PutStringArray ss : enc_safe (PutStringArray ss) (PutStringArray ss).
Proof.
  apply enc_safe_seq; [apply enc_safe_PutArrayLength|].
  apply enc_safe_for_each, enc_safe_PutString.
Qed.

Lemma enc_safe_PutInt32Array zs : enc_safe (PutInt32Array zs) (PutInt32Array zs).
Proof.
  apply enc_safe_seq; [apply enc_safe_PutArrayLength|].
  eapply enc_safe_encodes, (encodes_ints 4 zs uint32).
Qed.

Lemma enc_safe_PutInt64Array zs : enc_safe (PutInt64Array zs) (PutInt64Array zs).
Proof.
  apply enc_safe_seq; [apply enc_safe_PutArrayLength|].
  eapply enc_safe_encodes, (encodes_ints 8 zs uint64).
Qed.

Lemma enc_safe_array {A} (xs : list A) EL EB :
  (forall x, enc_safe (EL x) (EB x)) -> enc_safe (encodeArray xs EL) (encodeArray xs EB).
Proof.
  intros H. apply enc_safe_seq; [apply enc_safe_PutArrayLength|apply enc_safe_for_each, H].
Qed.

(** A map ranged over in two different orders by the two passes. *)
Lemma for_each_cases {A} (xs : list A) EL EB :
  (forall x, enc_safe (EL x) (EB x)) ->
  (forall x, x ∈ xs -> exists bs, encodes (EL x) (EB x) bs) \/
  (exists e, forall l, exists l', for_each xs EL l = Fail e l').
Proof.
  intros H. induction xs as [|x xs IH]; [left; intros x Hx; inversion Hx|].
  destruct (H x) as [[bs Hx]|[e He]].
  - destruct IH as [IH|[e IH]].
    + left. intros y Hy. inversion Hy; subst; [exists bs; exact Hx|auto].
    + right. exists e. intros l. destruct Hx as [HL _].
      destruct (IH (mkLenEncoder (Length l + length bs) (lstack l))) as [l' E]. exists l'.
      cbn [for_each]. erewrite bind_Ret by apply HL. exact E.
  - right. exists e. intros l. destruct (He l) as [l' E]. exists l'.
    cbn [for_each]. erewrite bind_Fail by exact E. reflexivity.
Qed.

Lemma enc_safe_array_perm {A} (xs ys : list A) EL EB :
  xs ≡ₚ ys -> (forall x, enc_safe (EL x) (EB x)) ->
  enc_safe (encodeArray xs EL) (encodeArray ys EB).
Proof.
  intros Hp H. unfold encodeArray.
  assert (Hl : len xs = len ys) by (unfold len; rewrite Hp; reflexivity). rewrite Hl.
  apply enc_safe_seq; [apply enc_safe_PutArrayLength|].
  destruct (for_each_cases xs EL EB H) as [Hx|Hx]; [|right; exact Hx].
  left. assert (Hy : exists bss, Forall2 (fun y bs => encodes (EL y) (EB y) bs) ys bss).
  { assert (Hys : forall y, y ∈ ys -> exists bs, encodes (EL y) (EB y) bs)
      by (intros y Hy; apply Hx; rewrite Hp; exact Hy).
    clear -Hys. induction ys as [|y ys IH]; [exists []; constructor|].
    destruct (Hys y) as [bs Hb]; [left|]. destruct IH as [bss Hbs]; [intros; apply Hys; right; assumption|].
    exists (bs :: bss). constructor; assumption. }
  destruct Hy as [bss Hy]. exists (concat bss).
  destruct (encodes_for_each ys EL EB bss Hy) as [HL HB]. split; [|exact HB].
  intros l. rewrite <- (HL l). apply for_each_len_perm; [exact Hp|].
  intros x Hin. destruct (Hx x Hin) as [bs [Hb _]]. exists (length bs). exact Hb.
Qed.

Lemma enc_safe_range {K V} `{Countable K} oL oB (m : gmap K V) EL EB :
  valid_order oL -> valid_order oB -> (forall x, enc_safe (EL x) (EB x)) ->
  enc_safe (encodeArray (range oL m) EL) (encodeArray (range oB m) EB).
Proof.
  intros HL HB. apply enc_safe_array_perm. unfold range.
  rewrite (HL K _ _ V m), (HB K _ _ V m). reflexivity.
Qed.

(** A field around a body: safe whichever of the two fields it is. *)
Lemma enc_safe_field EL EB f :
  enc_safe EL EB -> f = SizeField 0 \/ f = CRCField 0 ->
  enc_safe (Push f ;; EL ;; Pop) (Push f ;; EB ;; Pop).
Proof.
  intros [[bs H]|[e H]] Hf.
  - destruct Hf as [-> | ->];
      eapply enc_safe_encodes; [apply encodes_SizeField, H|apply encodes_CRCField, H].
  - right. exists e. intros l. destruct (H (mkLenEncoder (Length l + 4) (lstack l))) as [l' E].
    exists l'. erewrite bind_Ret by reflexivity. erewrite bind_Fail by exact E. reflexivity.
Qed.

#[export] Hint Resolve enc_safe_ret enc_safe_PutBool enc_safe_PutInt8 enc_safe_PutInt16
  enc_safe_PutInt32 enc_safe_PutInt64 enc_safe_PutArrayLength enc_safe_PutRawBytes enc_safe_PutString
  enc_safe_PutNullableString enc_safe_PutBytes enc_safe_PutStringArray enc_safe_PutInt32Array
  enc_safe_PutInt64Array : codec.

(** ** Automation for the message types *)

(** Prove [enc_safe] of an [Encode] method by following its text. *)
Ltac enc_safe_go :=
  repeat lazymatch goal with
    | |- enc_safe (encodeArray (range _ _) _) _ =>
        apply enc_safe_range; [assumption|assumption|intros ?]
    | |- enc_safe (encodeArray _ _) _ => apply enc_safe_array; intros ?
    | |- enc_safe (_ ;; _) _ => apply enc_safe_seq
    | |- enc_safe (when _ _) _ => apply enc_safe_when
    | |- enc_safe (for_each _ _) _ => apply enc_safe_for_each; intros ?
    | |- _ => first [solve [auto with codec nocore] | case_bool]
    end.

(** Prove [codec] of an [Encode]/[Decode] pair field by field. *)
Ltac codec_head :=
  first
    [ solve [eauto with codec nocore]
    | eapply codec_since; [eassumption|intros; codec_head]
    | eapply codec_wf_array;
        [eassumption|intros; eapply codec_weaken; [solve [eauto with codec nocore]|lia]] ].
Ltac eta_record :=
  first [reflexivity
        | match goal with |- _ = mret ?r => destruct r; reflexivity end
        | match goal with |- _ = ?r => destruct r; reflexivity end].
Ltac codec_step :=
  lazymatch goal with
  | |- codec _ _ _ (mret _ ≫= _) _ => apply codec_pure
  | |- codec _ (_ ;; _) _ _ _ => eapply codec_bind; [codec_head|cbv beta]
  | |- codec _ (mret tt) _ (mret _) _ => eapply codec_ret_eq; eta_record
  | |- codec _ _ _ (_ ≫= _) _ => eapply codec_last; [codec_head|eta_record]
  end.
Ltac codec_go := repeat codec_step.

(** Prove [codec] for a record by its fields, from its well-formedness [H]. *)
Ltac codec_record H :=
  intros H;
  repeat match goal with
         | K : _ /\ _ |- _ => destruct K
         end;
  eapply codec_weaken; [codec_go|lia].
