(* ===== verification/ClientApi.v ===== *)
(** * Requests and responses of producers, consumers and topic administration

    One module per type of [src/protocol]: the struct, its [Encode] and
    [Decode] methods, the values its wire format can carry at a version, and
    the lemmas that the two methods are inverse ([codec_*]) and that encoding
    any value is safe ([safe_*]).  [APIVersion] is the version the methods
    branch on; [Decode] takes it as its argument, as in the source. *)
From S2P Require Import Prelude Encoder Decoder Codec.

(** ** Produce: [produce_request.go], [produce_response.go] *)
Module Data.
Record t := mk { Partition : Z; RecordSet : option (list byte) }.
#[global] Instance eq_dec : EqDecision t. Proof. solve_decision. Defined.

Definition Encode `{PacketEncoder E} (d : t) : M E unit :=
  PutInt32 (Partition d) ;; PutBytes (RecordSet d).
Definition Decode : M ByteDecoder t :=
  partition ← Int32; recordSet ← Bytes; mret (mk partition recordSet).

Definition wf (d : t) : Prop := in_int 32 (Partition d) /\ wf_bytes (RecordSet d).
#[global] Instance wf_dec d : Decision (wf d). Proof. unfold wf; apply _. Defined.

Lemma codec_Data d : wf d -> codec 8 (Encode d) (Encode d) Decode d.
Proof. unfold Encode, Decode, wf. codec_record H. Qed.
Lemma safe_Data d : enc_safe (Encode d) (Encode d).
Proof. unfold Encode; enc_safe_go. Qed.
End Data.
#[export] Hint Resolve Data.codec_Data Data.safe_Data : codec.

Module TopicData.
Record t := mk { Topic : string; Data : list Data.t }.
#[global] Instance eq_dec : EqDecision t. Proof. solve_decision. Defined.

Definition Encode `{PacketEncoder E} (td : t) : M E unit :=
  PutString (Topic td) ;; encodeArray (Data td) Data.Encode.
Definition Decode : M ByteDecoder t :=
  topic ← String; data ← decodeArray Data.Decode; mret (mk topic data).

Definition wf (td : t) : Prop := wf_string (Topic td) /\ wf_array Data.wf (Data td).
#[global] Instance wf_dec td : Decision (wf td). Proof. unfold wf; apply _. Defined.

Lemma codec_TopicData td : wf td -> codec 6 (Encode td) (Encode td) Decode td.
Proof. unfold Encode, Decode, wf. codec_record H. Qed.
Lemma safe_TopicData td : enc_safe (Encode td) (Encode td).
Proof. unfold Encode; enc_safe_go. Qed.
End TopicData.
#[export] Hint Resolve TopicData.codec_TopicData TopicData.safe_TopicData : codec.

Module ProduceRequest.
Record t := mk {
  APIVersion : Z;
  TransactionalID : option string;
  Acks : Z;
  Timeout : Z;
  TopicData : list TopicData.t }.
#[global] Instance eq_dec : EqDecision t. Proof. solve_decision. Defined.

Definition Encode `{PacketEncoder E} (r : t) : M E unit :=
  when (3 <=? APIVersion r) (PutNullableString (TransactionalID r)) ;;
  PutInt16 (Acks r) ;;
  PutInt32 (durationMillis (Timeout r)) ;;
  encodeArray (TopicData r) TopicData.Encode.
Definition Decode (version : Z) : M ByteDecoder t :=
  transactionalID ← (if 3 <=? version then NullableString else mret None);
  acks ← Int16;
  timeout ← DurationMs;
  topicData ← decodeArray TopicData.Decode;
  mret (mk version transactionalID acks timeout topicData).

Definition wf (r : t) : Prop :=
  since (3 <=? APIVersion r) wf_nstring None (TransactionalID r) /\ in_int 16 (Acks r) /\
  wf_duration (Timeout r) /\ wf_array TopicData.wf (TopicData r).
#[global] Instance wf_dec r : Decision (wf r). Proof. unfold wf; apply _. Defined.

Lemma codec_ProduceRequest r : wf r -> codec 10 (Encode r) (Encode r) (Decode (APIVersion r)) r.
Proof. unfold Encode, Decode, wf. codec_record H. Qed.
Lemma safe_ProduceRequest r : enc_safe (Encode r) (Encode r).
Proof. unfold Encode; enc_safe_go. Qed.
End ProduceRequest.

Module ProducePartitionResponse.
Record t := mk {
  Partition : Z; ErrorCode : Z; BaseOffset : Z; LogAppendTime : Z; LogStartOffset : Z }.
#[global] Instance eq_dec : EqDecision t. Proof. solve_decision. Defined.

Definition Encode `{PacketEncoder E} (version : Z) (p : t) : M E unit :=
  PutInt32 (Partition p) ;;
  PutInt16 (ErrorCode p) ;;
  when (2 <=? version) (PutInt64 (BaseOffset p) ;; PutInt64 (timeMillis (LogAppendTime p))) ;;
  when (5 <=? version) (PutInt64 (LogStartOffset p)).

(** [BaseOffset] is read at every version, although it is written from version 2 on. *)
Definition Decode (version : Z) : M ByteDecoder t :=
  partition ← Int32;
  errorCode ← Int16;
  baseOffset ← Int64;
  logAppendTime ← (if 2 <=? version then TimeMs else mret zeroTime);
  logStartOffset ← (if 5 <=? version then Int64 else mret 0);
  mret (mk partition errorCode baseOffset logAppendTime logStartOffset).

Definition wf (version : Z) (p : t) : Prop :=
  2 <= version /\ in_int 32 (Partition p) /\ in_int 16 (ErrorCode p) /\ in_int 64 (BaseOffset p) /\
  wf_time (LogAppendTime p) /\ since (5 <=? version) (in_int 64) 0 (LogStartOffset p).
#[global] Instance wf_dec v p : Decision (wf v p). Proof. unfold wf; apply _. Defined.

Lemma codec_ProducePartitionResponse v p : wf v p -> codec 22 (Encode v p) (Encode v p) (Decode v) p.
Proof.
  unfold Encode, Decode, wf. intros (Hv & H). destruct_and? H.
  rewrite !(proj2 (Z.leb_le 2 v)) by exact Hv. unfold when at 1 3.
  eapply codec_weaken; [do 2 codec_step; apply codec_enc_assoc; codec_go|lia].
Qed.
Lemma safe_ProducePartitionResponse v p : enc_safe (Encode v p) (Encode v p).
Proof. unfold Encode; enc_safe_go. Qed.
End ProducePartitionResponse.
#[export] Hint Resolve ProducePartitionResponse.codec_ProducePartitionResponse
  ProducePartitionResponse.safe_ProducePartitionResponse : codec.

Module ProduceTopicResponse.
Record t := mk { Topic : string; PartitionResponses : list ProducePartitionResponse.t }.
#[global] Instance eq_dec : EqDecision t. Proof. solve_decision. Defined.

Definition Encode `{PacketEncoder E} (version : Z) (r : t) : M E unit :=
  PutString (Topic r) ;;
  encodeArray (PartitionResponses r) (ProducePartitionResponse.Encode version).
Definition Decode (version : Z) : M ByteDecoder t :=
  topic ← String;
  ps ← decodeArray (ProducePartitionResponse.Decode version);
  mret (mk topic ps).

Definition wf (version : Z) (r : t) : Prop :=
  wf_string (Topic r) /\ wf_array (ProducePartitionResponse.wf version) (PartitionResponses r).
#[global] Instance wf_dec v r : Decision (wf v r). Proof. unfold wf; apply _. Defined.

Lemma codec_ProduceTopicResponse v r : wf v r -> codec 6 (Encode v r) (Encode v r) (Decode v) r.
Proof. unfold Encode, Decode, wf. codec_record H. Qed.
Lemma safe_ProduceTopicResponse v r : enc_safe (Encode v r) (Encode v r).
Proof. unfold Encode; enc_safe_go. Qed.
End ProduceTopicResponse.
#[export] Hint Resolve ProduceTopicResponse.codec_ProduceTopicResponse
  ProduceTopicResponse.safe_ProduceTopicResponse : codec.

Module ProduceResponse.
Record t := mk {
  APIVersion : Z; Responses : list ProduceTopicResponse.t; ThrottleTime : Z }.
#[global] Instance eq_dec : EqDecision t. Proof. solve_decision. Defined.

Definition Encode `{PacketEncoder E} (r : t) : M E unit :=
  encodeArray (Responses r) (ProduceTopicResponse.Encode (APIVersion r)) ;;
  when (1 <=? APIVersion r) (PutInt32 (durationMillis (ThrottleTime r))).
Definition Decode (version : Z) : M ByteDecoder t :=
  responses ← decodeArray (ProduceTopicResponse.Decode version);
  throttle ← (if 1 <=? version then DurationMs else mret 0);
  mret (mk version responses throttle).

Definition wf (r : t) : Prop :=
  wf_array (ProduceTopicResponse.wf (APIVersion r)) (Responses r) /\
  since (1 <=? APIVersion r) wf_duration 0 (ThrottleTime r).
#[global] Instance wf_dec r : Decision (wf r). Proof. unfold wf; apply _. Defined.

Lemma codec_ProduceResponse r : wf r -> codec 4 (Encode r) (Encode r) (Decode (APIVersion r)) r.
Proof. unfold Encode, Decode, wf. codec_record H. Qed.
Lemma safe_ProduceResponse r : enc_safe (Encode r) (Encode r).
Proof. unfold Encode; enc_safe_go. Qed.
End ProduceResponse.

(** ** Fetch: [fetch_request.go], [fetch_response.go] *)
Module FetchPartition.
Record t := mk { Partition : Z; FetchOffset : Z; MaxBytes : Z }.
#[global] Instance eq_dec : EqDecision t. Proof. solve_decision. Defined.

Definition Encode `{PacketEncoder E} (p : t) : M E unit :=
  PutInt32 (Partition p) ;; PutInt64 (FetchOffset p) ;; PutInt32 (MaxBytes p).
Definition Decode : M ByteDecoder t :=
  partition ← Int32; fetchOffset ← Int64; maxBytes ← Int32;
  mret (mk partition fetchOffset maxBytes).

Definition wf (p : t) : Prop :=
  in_int 32 (Partition p) /\ in_int 64 (FetchOffset p) /\ in_int 32 (MaxBytes p).
#[global] Instance wf_dec p : Decision (wf p). Proof. unfold wf; apply _. Defined.

Lemma codec_FetchPartition p : wf p -> codec 16 (Encode p) (Encode p) Decode p.
Proof. unfold Encode, Decode, wf. codec_record H. Qed.
Lemma safe_FetchPartition p : enc_safe (Encode p) (Encode p).
Proof. unfold Encode; enc_safe_go. Qed.
End FetchPartition.
#[export] Hint Resolve FetchPartition.codec_FetchPartition FetchPartition.safe_FetchPartition : codec.

Module FetchTopic.
Record t := mk { Topic : string; Partitions : list FetchPartition.t }.
#[global] Instance eq_dec : EqDecision t. Proof. solve_decision. Defined.

Definition Encode `{PacketEncoder E} (x : t) : M E unit :=
  PutString (Topic x) ;; encodeArray (Partitions x) FetchPartition.Encode.
Definition Decode : M ByteDecoder t :=
  topic ← String; ps ← decodeArray FetchPartition.Decode; mret (mk topic ps).

Definition wf (x : t) : Prop := wf_string (Topic x) /\ wf_array FetchPartition.wf (Partitions x).
#[global] Instance wf_dec x : Decision (wf x). Proof. unfold wf; apply _. Defined.

Lemma codec_FetchTopic x : wf x -> codec 6 (Encode x) (Encode x) Decode x.
Proof. unfold Encode, Decode, wf. codec_record H. Qed.
Lemma safe_FetchTopic x : enc_safe (Encode x) (Encode x).
Proof. unfold Encode; enc_safe_go. Qed.
End FetchTopic.
#[export] Hint Resolve FetchTopic.codec_FetchTopic FetchTopic.safe_FetchTopic : codec.

Module FetchRequest.
Record t := mk {
  APIVersion : Z; ReplicaID : Z; MaxWaitTime : Z; MinBytes : Z; MaxBytes : Z;
  IsolationLevel : Z; Topics : list FetchTopic.t }.
#[global] Instance eq_dec : EqDecision t. Proof. solve_decision. Defined.

Definition Encode `{PacketEncoder E} (r : t) : M E unit :=
  (if ReplicaID r =? 0 then PutInt32 (-1) else PutInt32 (ReplicaID r)) ;;
  PutInt32 (durationMillis (MaxWaitTime r)) ;;
  PutInt32 (MinBytes r) ;;
  when (3 <=? APIVersion r) (PutInt32 (MaxBytes r)) ;;
  when (4 <=? APIVersion r) (PutInt8 (IsolationLevel r)) ;;
  encodeArray (Topics r) FetchTopic.Encode.
Definition Decode (version : Z) : M ByteDecoder t :=
  replicaID ← Int32;
  maxWaitTime ← DurationMs;
  minBytes ← Int32;
  maxBytes ← (if 3 <=? version then Int32 else mret 0);
  isolationLevel ← (if 4 <=? version then Int8 else mret 0);
  topics ← decodeArray FetchTopic.Decode;
  mret (mk version replicaID maxWaitTime minBytes maxBytes isolationLevel topics).

(** Replica 0 is written as a client's -1, so it does not survive. *)
Definition wf (r : t) : Prop :=
  ReplicaID r <> 0 /\ in_int 32 (ReplicaID r) /\ wf_duration (MaxWaitTime r) /\
  in_int 32 (MinBytes r) /\ since (3 <=? APIVersion r) (in_int 32) 0 (MaxBytes r) /\
  since (4 <=? APIVersion r) (in_int 8) 0 (IsolationLevel r) /\
  wf_array FetchTopic.wf (Topics r).
#[global] Instance wf_dec r : Decision (wf r). Proof. unfold wf; apply _. Defined.

Lemma codec_FetchRequest r : wf r -> codec 16 (Encode r) (Encode r) (Decode (APIVersion r)) r.
Proof.
  unfold Encode, Decode, wf. intros (Hid & H). rewrite (proj2 (Z.eqb_neq _ _)) by exact Hid.
  revert H. codec_record H.
Qed.
Lemma safe_FetchRequest r : enc_safe (Encode r) (Encode r).
Proof. unfold Encode; enc_safe_go. Qed.
End FetchRequest.

Module AbortedTransaction.
Record t := mk { ProducerID : Z; FirstOffset : Z }.
#[global] Instance eq_dec : EqDecision t. Proof. solve_decision. Defined.

Definition Encode `{PacketEncoder E} (x : t) : M E unit :=
  PutInt64 (ProducerID x) ;; PutInt64 (FirstOffset x).
Definition Decode : M ByteDecoder t :=
  producerID ← Int64; firstOffset ← Int64; mret (mk producerID firstOffset).

Definition wf (x : t) : Prop := in_int 64 (ProducerID x) /\ in_int 64 (FirstOffset x).
#[global] Instance wf_dec x : Decision (wf x). Proof. unfold wf; apply _. Defined.

Lemma codec_AbortedTransaction x : wf x -> codec 16 (Encode x) (Encode x) Decode x.
Proof. unfold Encode, Decode, wf. codec_record H. Qed.
Lemma safe_AbortedTransaction x : enc_safe (Encode x) (Encode x).
Proof. unfold Encode; enc_safe_go. Qed.
End AbortedTransaction.
#[export] Hint Resolve AbortedTransaction.codec_AbortedTransaction
  AbortedTransaction.safe_AbortedTransaction : codec.

Module FetchPartitionResponse.
Record t := mk {
  Partition : Z; ErrorCode : Z; HighWatermark : Z; LastStableOffset : Z;
  AbortedTransactions : list AbortedTransaction.t; RecordSet : option (list byte) }.
#[global] Instance eq_dec : EqDecision t. Proof. solve_decision. Defined.

Definition Encode `{PacketEncoder E} (version : Z) (r : t) : M E unit :=
  PutInt32 (Partition r) ;;
  PutInt16 (ErrorCode r) ;;
  PutInt64 (HighWatermark r) ;;
  when (4 <=? version)
    (PutInt64 (LastStableOffset r) ;;
     encodeArray (AbortedTransactions r) AbortedTransaction.Encode) ;;
  PutBytes (RecordSet r).
Definition Decode (version : Z) : M ByteDecoder t :=
  partition ← Int32;
  errorCode ← Int16;
  highWatermark ← Int64;
  '(lastStableOffset, abortedTransactions) ←
    (if 4 <=? version then
       lastStableOffset ← Int64;
       abortedTransactions ← decodeArray AbortedTransaction.Decode;
       mret (lastStableOffset, abortedTransactions)
     else mret (0, []));
  recordSet ← Bytes;
  mret (mk partition errorCode highWatermark lastStableOffset abortedTransactions recordSet).

Definition wf_txn (x : Z * list AbortedTransaction.t) : Prop :=
  in_int 64 (fst x) /\ wf_array AbortedTransaction.wf (snd x).
#[global] Instance wf_txn_dec x : Decision (wf_txn x). Proof. unfold wf_txn; apply _. Defined.
Definition wf (version : Z) (r : t) : Prop :=
  in_int 32 (Partition r) /\ in_int 16 (ErrorCode r) /\ in_int 64 (HighWatermark r) /\
  since (4 <=? version) wf_txn (0, []) (LastStableOffset r, AbortedTransactions r) /\
  wf_bytes (RecordSet r).
#[global] Instance wf_dec v r : Decision (wf v r). Proof. unfold wf; apply _. Defined.

Lemma codec_txn lso txns : wf_txn (lso, txns) ->
  codec 12 (PutInt64 lso ;; encodeArray txns AbortedTransaction.Encode)
    (PutInt64 lso ;; encodeArray txns AbortedTransaction.Encode)
    (lastStableOffset ← Int64;
     abortedTransactions ← decodeArray AbortedTransaction.Decode;
     mret (lastStableOffset, abortedTransactions)) (lso, txns).
Proof. unfold wf_txn; cbn [fst snd]. codec_record H. Qed.

Lemma codec_FetchPartitionResponse v r : wf v r -> codec 18 (Encode v r) (Encode v r) (Decode v) r.
Proof.
  unfold Encode, Decode, wf. intros (? & ? & ? & Ht & ?).
  eapply codec_weaken; [do 3 codec_step|].
  - eapply codec_bind; [eapply codec_since; [exact Ht|apply codec_txn]|cbv beta iota]. codec_go.
  - lia.
Qed.
Lemma safe_FetchPartitionResponse v r : enc_safe (Encode v r) (Encode v r).
Proof. unfold Encode; enc_safe_go. Qed.
End FetchPartitionResponse.
#[export] Hint Resolve FetchPartitionResponse.codec_FetchPartitionResponse
  FetchPartitionResponse.safe_FetchPartitionResponse : codec.

Module FetchTopicResponse.
Record t := mk { Topic : string; PartitionResponses : list FetchPartitionResponse.t }.
#[global] Instance eq_dec : EqDecision t. Proof. solve_decision. Defined.

Definition Encode `{PacketEncoder E} (version : Z) (r : t) : M E unit :=
  PutString (Topic r) ;; encodeArray (PartitionResponses r) (FetchPartitionResponse.Encode version).
Definition Decode (version : Z) : M ByteDecoder t :=
  topic ← String; ps ← decodeArray (FetchPartitionResponse.Decode version); mret (mk topic ps).

Definition wf (version : Z) (r : t) : Prop :=
  wf_string (Topic r) /\ wf_array (FetchPartitionResponse.wf version) (PartitionResponses r).
#[global] Instance wf_dec v r : Decision (wf v r). Proof. unfold wf; apply _. Defined.

Lemma codec_FetchTopicResponse v r : wf v r -> codec 6 (Encode v r) (Encode v r) (Decode v) r.
Proof. unfold Encode, Decode, wf. codec_record H. Qed.
Lemma safe_FetchTopicResponse v r : enc_safe (Encode v r) (Encode v r).
Proof. unfold Encode; enc_safe_go. Qed.
End FetchTopicResponse.
#[export] Hint Resolve FetchTopicResponse.codec_FetchTopicResponse
  FetchTopicResponse.safe_FetchTopicResponse : codec.

Module FetchResponse.
Record t := mk { APIVersion : Z; ThrottleTime : Z; Responses : list FetchTopicResponse.t }.
#[global] Instance eq_dec : EqDecision t. Proof. solve_decision. Defined.

Definition Encode `{PacketEncoder E} (r : t) : M E unit :=
  when (1 <=? APIVersion r) (PutInt32 (durationMillis (ThrottleTime r))) ;;
  encodeArray (Responses r) (FetchTopicResponse.Encode (APIVersion r)).
Definition Decode (version : Z) : M ByteDecoder t :=
  throttle ← (if 1 <=? version then DurationMs else mret 0);
  responses ← decodeArray (FetchTopicResponse.Decode version);
  mret (mk version throttle responses).

Definition wf (r : t) : Prop :=
  since (1 <=? APIVersion r) wf_duration 0 (ThrottleTime r) /\
  wf_array (FetchTopicResponse.wf (APIVersion r)) (Responses r).
#[global] Instance wf_dec r : Decision (wf r). Proof. unfold wf; apply _. Defined.

Lemma codec_FetchResponse r : wf r -> codec 4 (Encode r) (Encode r) (Decode (APIVersion r)) r.
Proof. unfold Encode, Decode, wf. codec_record H. Qed.
Lemma safe_FetchResponse r : enc_safe (Encode r) (Encode r).
Proof. unfold Encode; enc_safe_go. Qed.
End FetchResponse.

(** ** Offsets: [offsets_request.go], [offsets_response.go] *)
Module OffsetsPartition.
Record t := mk { Partition : Z; Timestamp : Z; MaxNumOffsets : Z }.
#[global] Instance eq_dec : EqDecision t. Proof. solve_decision. Defined.

Definition Encode `{PacketEncoder E} (version : Z) (p : t) : M E unit :=
  PutInt32 (Partition p) ;; PutInt64 (Timestamp p) ;;
  when (version =? 0) (PutInt32 (MaxNumOffsets p)).
Definition Decode (version : Z) : M ByteDecoder t :=
  partition ← Int32; timestamp ← Int64;
  maxNumOffsets ← (if version =? 0 then Int32 else mret 0);
  mret (mk partition timestamp maxNumOffsets).

Definition wf (version : Z) (p : t) : Prop :=
  in_int 32 (Partition p) /\ in_int 64 (Timestamp p) /\
  since (version =? 0) (in_int 32) 0 (MaxNumOffsets p).
#[global] Instance wf_dec v p : Decision (wf v p). Proof. unfold wf; apply _. Defined.

Lemma codec_OffsetsPartition v p : wf v p -> codec 12 (Encode v p) (Encode v p) (Decode v) p.
Proof. unfold Encode, Decode, wf. codec_record H. Qed.
Lemma safe_OffsetsPartition v p : enc_safe (Encode v p) (Encode v p).
Proof. unfold Encode; enc_safe_go. Qed.
End OffsetsPartition.
#[export] Hint Resolve OffsetsPartition.codec_OffsetsPartition
  OffsetsPartition.safe_OffsetsPartition : codec.

Module OffsetsTopic.
Record t := mk { Topic : string; Partitions : list OffsetsPartition.t }.
#[global] Instance eq_dec : EqDecision t. Proof. solve_decision. Defined.

Definition Encode `{PacketEncoder E} (version : Z) (x : t) : M E unit :=
  PutString (Topic x) ;; encodeArray (Partitions x) (OffsetsPartition.Encode version).
Definition Decode (version : Z) : M ByteDecoder t :=
  topic ← String; ps ← decodeArray (OffsetsPartition.Decode version); mret (mk topic ps).

Definition wf (version : Z) (x : t) : Prop :=
  wf_string (Topic x) /\ wf_array (OffsetsPartition.wf version) (Partitions x).
#[global] Instance wf_dec v x : Decision (wf v x). Proof. unfold wf; apply _. Defined.

Lemma codec_OffsetsTopic v x : wf v x -> codec 6 (Encode v x) (Encode v x) (Decode v) x.
Proof. unfold Encode, Decode, wf. codec_record H. Qed.
Lemma safe_OffsetsTopic v x : enc_safe (Encode v x) (Encode v x).
Proof. unfold Encode; enc_safe_go. Qed.
End OffsetsTopic.
#[export] Hint Resolve OffsetsTopic.codec_OffsetsTopic OffsetsTopic.safe_OffsetsTopic : codec.

Module OffsetsRequest.
Record t := mk {
  APIVersion : Z; ReplicaID : Z; IsolationLevel : Z; Topics : list OffsetsTopic.t }.
#[global] Instance eq_dec : EqDecision t. Proof. solve_decision. Defined.

(** The replica id on the wire is always a client's -1. *)
Definition Encode `{PacketEncoder E} (r : t) : M E unit :=
  PutInt32 (-1) ;;
  when (2 <=? APIVersion r) (PutInt8 (IsolationLevel r)) ;;
  encodeArray (Topics r) (OffsetsTopic.Encode (APIVersion r)).
Definition Decode (version : Z) : M ByteDecoder t :=
  replicaID ← Int32;
  isolationLevel ← (if 2 <=? version then Int8 else mret 0);
  topics ← decodeArray (OffsetsTopic.Decode version);
  mret (mk version replicaID isolationLevel topics).

Definition wf (r : t) : Prop :=
  ReplicaID r = -1 /\ since (2 <=? APIVersion r) (in_int 8) 0 (IsolationLevel r) /\
  wf_array (OffsetsTopic.wf (APIVersion r)) (Topics r).
#[global] Instance wf_dec r : Decision (wf r). Proof. unfold wf; apply _. Defined.

Lemma codec_OffsetsRequest r : wf r -> codec 8 (Encode r) (Encode r) (Decode (APIVersion r)) r.
Proof.
  unfold Encode, Decode, wf. intros (Hid & H). rewrite <- Hid at 1 2.
  assert (in_int 32 (ReplicaID r)) by (rewrite Hid; unfold in_int; lia).
  revert H. codec_record H.
Qed.
Lemma safe_OffsetsRequest r : enc_safe (Encode r) (Encode r).
Proof. unfold Encode; enc_safe_go. Qed.
End OffsetsRequest.

Module PartitionResponse.
Record t := mk {
  Partition : Z; ErrorCode : Z; Timestamp : Z; Offsets : list Z; Offset : Z }.
#[global] Instance eq_dec : EqDecision t. Proof. solve_decision. Defined.

Definition Encode `{PacketEncoder E} (version : Z) (p : t) : M E unit :=
  PutInt32 (Partition p) ;;
  PutInt16 (ErrorCode p) ;;
  when (version =? 0) (PutInt64Array (Offsets p)) ;;
  when (1 <=? version) (PutInt64 (timeMillis (Timestamp p)) ;; PutInt64 (Offset p)).
Definition Decode (version : Z) : M ByteDecoder t :=
  partition ← Int32;
  errorCode ← Int16;
  offsets ← (if version =? 0 then Int64Array else mret []);
  '(timestamp, offset) ←
    (if 1 <=? version then timestamp ← TimeMs; offset ← Int64; mret (timestamp, offset)
     else mret (zeroTime, 0));
  mret (mk partition errorCode timestamp offsets offset).

Definition wf_at (x : Z * Z) : Prop := wf_time (fst x) /\ in_int 64 (snd x).
#[global] Instance wf_at_dec x : Decision (wf_at x). Proof. unfold wf_at; apply _. Defined.
Definition wf (version : Z) (p : t) : Prop :=
  in_int 32 (Partition p) /\ in_int 16 (ErrorCode p) /\
  since (version =? 0) (wf_ints 64) [] (Offsets p) /\
  since (1 <=? version) wf_at (zeroTime, 0) (Timestamp p, Offset p).
#[global] Instance wf_dec v p : Decision (wf v p). Proof. unfold wf; apply _. Defined.

Lemma codec_at t o : wf_at (t, o) ->
  codec 16 (PutInt64 (timeMillis t) ;; PutInt64 o) (PutInt64 (timeMillis t) ;; PutInt64 o)
    (timestamp ← TimeMs; offset ← Int64; mret (timestamp, offset)) (t, o).
Proof. unfold wf_at; cbn [fst snd]. codec_record H. Qed.

Lemma codec_PartitionResponse v p : wf v p -> codec 6 (Encode v p) (Encode v p) (Decode v) p.
Proof.
  unfold Encode, Decode, wf. intros (? & ? & ? & Ha).
  eapply codec_weaken; [do 3 codec_step|].
  - eapply codec_last; [eapply codec_since; [exact Ha|apply codec_at]|eta_record].
  - lia.
Qed.
Lemma safe_PartitionResponse v p : enc_safe (Encode v p) (Encode v p).
Proof. unfold Encode; enc_safe_go. Qed.
End PartitionResponse.
#[export] Hint Resolve PartitionResponse.codec_PartitionResponse
  PartitionResponse.safe_PartitionResponse : codec.

Module OffsetResponse.
Record t := mk { Topic : string; PartitionResponses : list PartitionResponse.t }.
#[global] Instance eq_dec : EqDecision t. Proof. solve_decision. Defined.

Definition Encode `{PacketEncoder E} (version : Z) (x : t) : M E unit :=
  PutString (Topic x) ;; encodeArray (PartitionResponses x) (PartitionResponse.Encode version).
Definition Decode (version : Z) : M ByteDecoder t :=
  topic ← String; ps ← decodeArray (PartitionResponse.Decode version); mret (mk topic ps).

Definition wf (version : Z) (x : t) : Prop :=
  wf_string (Topic x) /\ wf_array (PartitionResponse.wf version) (PartitionResponses x).
#[global] Instance wf_dec v x : Decision (wf v x). Proof. unfold wf; apply _. Defined.

Lemma codec_OffsetResponse v x : wf v x -> codec 6 (Encode v x) (Encode v x) (Decode v) x.
Proof. unfold Encode, Decode, wf. codec_record H. Qed.
Lemma safe_OffsetResponse v x : enc_safe (Encode v x) (Encode v x).
Proof. unfold Encode; enc_safe_go. Qed.
End OffsetResponse.
#[export] Hint Resolve OffsetResponse.codec_OffsetResponse OffsetResponse.safe_OffsetResponse : codec.

Module OffsetsResponse.
Record t := mk { APIVersion : Z; ThrottleTime : Z; Responses : list OffsetResponse.t }.
#[global] Instance eq_dec : EqDecision t. Proof. solve_decision. Defined.

Definition Encode `{PacketEncoder E} (r : t) : M E unit :=
  when (2 <=? APIVersion r) (PutInt32 (durationMillis (ThrottleTime r))) ;;
  encodeArray (Responses r) (OffsetResponse.Encode (APIVersion r)).

(** [Decode] leaves [APIVersion] alone: a fresh struct keeps 0. *)
Definition Decode (version : Z) : M ByteDecoder t :=
  throttle ← (if 2 <=? version then DurationMs else mret 0);
  responses ← decodeArray (OffsetResponse.Decode version);
  mret (mk 0 throttle responses).

Definition wf (r : t) : Prop :=
  since (2 <=? APIVersion r) wf_duration 0 (ThrottleTime r) /\
  wf_array (OffsetResponse.wf (APIVersion r)) (Responses r).
#[global] Instance wf_dec r : Decision (wf r). Proof. unfold wf; apply _. Defined.

Lemma codec_OffsetsResponse r : wf r ->
  codec 4 (Encode r) (Encode r) (Decode (APIVersion r)) (mk 0 (ThrottleTime r) (Responses r)).
Proof. unfold Encode, Decode, wf. codec_record H. Qed.
Lemma safe_OffsetsResponse r : enc_safe (Encode r) (Encode r).
Proof. unfold Encode; enc_safe_go. Qed.
End OffsetsResponse.

(** ** Metadata: [metadata_request.go], [metadata_response.go] *)
Module MetadataRequest.
Record t := mk { APIVersion : Z; Topics : list string; AllowAutoTopicCreation : bool }.
#[global] Instance eq_dec : EqDecision t. Proof. solve_decision. Defined.

Definition Encode `{PacketEncoder E} (r : t) : M E unit :=
  PutStringArray (Topics r) ;;
  when (4 <=? APIVersion r) (PutBool (AllowAutoTopicCreation r)).
Definition Decode (version : Z) : M ByteDecoder t :=
  topics ← StringArray;
  allow ← (if 4 <=? version then Bool else mret false);
  mret (mk version topics allow).

Definition wf (r : t) : Prop :=
  wf_strings (Topics r) /\
  since (4 <=? APIVersion r) (fun _ => True) false (AllowAutoTopicCreation r).
#[global] Instance wf_dec r : Decision (wf r). Proof. unfold wf; apply _. Defined.

Lemma codec_MetadataRequest r : wf r -> codec 4 (Encode r) (Encode r) (Decode (APIVersion r)) r.
Proof. unfold Encode, Decode, wf. codec_record H. Qed.
Lemma safe_MetadataRequest r : enc_safe (Encode r) (Encode r).
Proof. unfold Encode; enc_safe_go. Qed.
End MetadataRequest.

Module Broker.
Record t := mk { NodeID : Z; Host : string; Port : Z }.
#[global] Instance eq_dec : EqDecision t. Proof. solve_decision. Defined.

Definition Encode `{PacketEncoder E} (b : t) : M E unit :=
  PutInt32 (NodeID b) ;; PutString (Host b) ;; PutInt32 (Port b).
Definition Decode : M ByteDecoder t :=
  nodeID ← Int32; host ← String; port ← Int32; mret (mk nodeID host port).

Definition wf (b : t) : Prop := in_int 32 (NodeID b) /\ wf_string (Host b) /\ in_int 32 (Port b).
#[global] Instance wf_dec b : Decision (wf b). Proof. unfold wf; apply _. Defined.

Lemma codec_Broker b : wf b -> codec 10 (Encode b) (Encode b) Decode b.
Proof. unfold Encode, Decode, wf. codec_record H. Qed.
Lemma safe_Broker b : enc_safe (Encode b) (Encode b).
Proof. unfold Encode; enc_safe_go. Qed.
End Broker.
#[export] Hint Resolve Broker.codec_Broker Broker.safe_Broker : codec.

Module PartitionMetadata.
Record t := mk {
  PartitionErrorCode : Z; PartitionID : Z; Leader : Z; Replicas : list Z; ISR : list Z }.
#[global] Instance eq_dec : EqDecision t. Proof. solve_decision. Defined.

Definition Encode `{PacketEncoder E} (p : t) : M E unit :=
  PutInt16 (PartitionErrorCode p) ;; PutInt32 (PartitionID p) ;; PutInt32 (Leader p) ;;
  PutInt32Array (Replicas p) ;; PutInt32Array (ISR p).

(** The error of the last array is not looked at. *)
Definition Decode : M ByteDecoder t :=
  code ← Int16; id ← Int32; leader ← Int32; replicas ← Int32Array;
  isr ← ignore_read [] Int32Array;
  mret (mk code id leader replicas isr).

Definition wf (p : t) : Prop :=
  in_int 16 (PartitionErrorCode p) /\ in_int 32 (PartitionID p) /\ in_int 32 (Leader p) /\
  wf_ints 32 (Replicas p) /\ wf_ints 32 (ISR p).
#[global] Instance wf_dec p : Decision (wf p). Proof. unfold wf; apply _. Defined.

Lemma codec_PartitionMetadata p : wf p -> codec 18 (Encode p) (Encode p) Decode p.
Proof.
  unfold Encode, Decode, wf. intros H; destruct_and? H.
  eapply codec_weaken; [do 4 codec_step|].
  - eapply codec_last; [eapply codec_ignore_read, codec_Int32Array; eassumption|eta_record].
  - lia.
Qed.
Lemma safe_PartitionMetadata p : enc_safe (Encode p) (Encode p).
Proof. unfold Encode; enc_safe_go. Qed.
End PartitionMetadata.
#[export] Hint Resolve PartitionMetadata.codec_PartitionMetadata
  PartitionMetadata.safe_PartitionMetadata : codec.

Module TopicMetadata.
Record t := mk {
  TopicErrorCode : Z; Topic : string; PartitionMetadata : list PartitionMetadata.t }.
#[global] Instance eq_dec : EqDecision t. Proof. solve_decision. Defined.

Definition Encode `{PacketEncoder E} (m : t) : M E unit :=
  PutInt16 (TopicErrorCode m) ;; PutString (Topic m) ;;
  encodeArray (PartitionMetadata m) PartitionMetadata.Encode.
Definition Decode : M ByteDecoder t :=
  code ← Int16; topic ← String; ps ← decodeArray PartitionMetadata.Decode;
  mret (mk code topic ps).

Definition wf (m : t) : Prop :=
  in_int 16 (TopicErrorCode m) /\ wf_string (Topic m) /\
  wf_array PartitionMetadata.wf (PartitionMetadata m).
#[global] Instance wf_dec m : Decision (wf m). Proof. unfold wf; apply _. Defined.

Lemma codec_TopicMetadata m : wf m -> codec 8 (Encode m) (Encode m) Decode m.
Proof. unfold Encode, Decode, wf. codec_record H. Qed.
Lemma safe_TopicMetadata m : enc_safe (Encode m) (Encode m).
Proof. unfold Encode; enc_safe_go. Qed.
End TopicMetadata.
#[export] Hint Resolve TopicMetadata.codec_TopicMetadata TopicMetadata.safe_TopicMetadata : codec.

Module MetadataResponse.
Record t := mk {
  APIVersion : Z; Brokers : list Broker.t; ControllerID : Z; TopicMetadata : list TopicMetadata.t }.
#[global] Instance eq_dec : EqDecision t. Proof. solve_decision. Defined.

Definition Encode `{PacketEncoder E} (r : t) : M E unit :=
  encodeArray (Brokers r) Broker.Encode ;;
  when (1 <=? APIVersion r) (PutInt32 (ControllerID r)) ;;
  encodeArray (TopicMetadata r) TopicMetadata.Encode.
Definition Decode (version : Z) : M ByteDecoder t :=
  brokers ← decodeArray Broker.Decode;
  controllerID ← (if 1 <=? version then Int32 else mret 0);
  topics ← decodeArray TopicMetadata.Decode;
  mret (mk version brokers controllerID topics).

Definition wf (r : t) : Prop :=
  wf_array Broker.wf (Brokers r) /\ since (1 <=? APIVersion r) (in_int 32) 0 (ControllerID r) /\
  wf_array TopicMetadata.wf (TopicMetadata r).
#[global] Instance wf_dec r : Decision (wf r). Proof. unfold wf; apply _. Defined.

Lemma codec_MetadataResponse r : wf r -> codec 8 (Encode r) (Encode r) (Decode (APIVersion r)) r.
Proof. unfold Encode, Decode, wf. codec_record H. Qed.
Lemma safe_MetadataResponse r : enc_safe (Encode r) (Encode r).
Proof. unfold Encode; enc_safe_go. Qed.
End MetadataResponse.
