(* ===== verification/TopicApi.v ===== *)
(** * Topic administration and version negotiation

    [api_versions_requests.go], [api_versions_response.go],
    [create_topic_requests.go], [create_topics_response.go],
    [delete_topic_request.go], [delete_topic_response.go] of [src/protocol]. *)
From S2P Require Import Prelude Encoder Decoder Codec.

(** ** API versions *)
Module APIVersionsRequest.
Record t := mk { APIVersion : Z }.
#[global] Instance eq_dec : EqDecision t. Proof. solve_decision. Defined.
Definition Encode `{PacketEncoder E} (r : t) : M E unit := mret tt.
Definition Decode (version : Z) : M ByteDecoder t := mret (mk version).

Lemma codec_APIVersionsRequest r : codec 0 (Encode r) (Encode r) (Decode (APIVersion r)) r.
Proof. unfold Encode, Decode. codec_go. Qed.
Lemma safe_APIVersionsRequest r : enc_safe (Encode r) (Encode r).
Proof. unfold Encode; enc_safe_go. Qed.
End APIVersionsRequest.

Module APIVersion.
Record t := mk { APIKey : Z; MinVersion : Z; MaxVersion : Z }.
#[global] Instance eq_dec : EqDecision t. Proof. solve_decision. Defined.

Definition Encode `{PacketEncoder E} (av : t) : M E unit :=
  PutInt16 (APIKey av) ;; PutInt16 (MinVersion av) ;; PutInt16 (MaxVersion av).
Definition Decode : M ByteDecoder t :=
  key ← Int16; minVersion ← Int16; maxVersion ← Int16; mret (mk key minVersion maxVersion).

Definition wf (av : t) : Prop :=
  in_int 16 (APIKey av) /\ in_int 16 (MinVersion av) /\ in_int 16 (MaxVersion av).
#[global] Instance wf_dec av : Decision (wf av). Proof. unfold wf; apply _. Defined.

Lemma codec_APIVersion av : wf av -> codec 6 (Encode av) (Encode av) Decode av.
Proof. unfold Encode, Decode, wf. codec_record H. Qed.
Lemma safe_APIVersion av : enc_safe (Encode av) (Encode av).
Proof. unfold Encode; enc_safe_go. Qed.
End APIVersion.
#[export] Hint Resolve APIVersion.codec_APIVersion APIVersion.safe_APIVersion : codec.

(** [APIVersions], the table of [api_versions.go] the broker answers with. *)
Definition APIVersions : list APIVersion.t := [
  APIVersion.mk 0 0 5; APIVersion.mk 1 0 3; APIVersion.mk 2 0 2; APIVersion.mk 3 0 1;
  APIVersion.mk 4 0 1; APIVersion.mk 5 0 0; APIVersion.mk 10 0 1; APIVersion.mk 11 0 1;
  APIVersion.mk 12 0 1; APIVersion.mk 13 0 1; APIVersion.mk 14 0 1; APIVersion.mk 15 0 1;
  APIVersion.mk 16 0 1; APIVersion.mk 18 0 1; APIVersion.mk 19 0 1; APIVersion.mk 20 0 1].

Module APIVersionsResponse.
Record t := mk {
  APIVersion : Z; ErrorCode : Z; APIVersions : list APIVersion.t; ThrottleTime : Z }.
#[global] Instance eq_dec : EqDecision t. Proof. solve_decision. Defined.

Definition Encode `{PacketEncoder E} (c : t) : M E unit :=
  PutInt16 (ErrorCode c) ;;
  encodeArray (APIVersions c) APIVersion.Encode ;;
  when (1 <=? APIVersion c) (PutInt32 (durationMillis (ThrottleTime c))).

(** The error code that [Encode] writes first is not read. *)
Definition Decode (version : Z) : M ByteDecoder t :=
  versions ← decodeArray APIVersion.Decode;
  throttle ← (if 1 <=? version then DurationMs else mret 0);
  mret (mk version 0 versions throttle).

Lemma safe_APIVersionsResponse c : enc_safe (Encode c) (Encode c).
Proof. unfold Encode; enc_safe_go. Qed.

(** A response carrying one entry, written and read back by this package: the
    two bytes of the error code shift everything the decoder reads. *)
Example apiversions_response_not_inverse :
  exists bs, Encoder.Encode (Encode (mk 0 0 [APIVersion.mk 0 0 5] 0))
               (Encode (mk 0 0 [APIVersion.mk 0 0 5] 0)) = Ret bs tt /\
    Decoder.Decode bs (Decode 0) = Ret (mk 0 0 [] 0) tt.
Proof. eexists. split; [reflexivity|vm_compute; reflexivity]. Qed.
End APIVersionsResponse.

(** ** Create topics *)
Module CreateTopicRequest.
Record t := mk {
  Topic : string; NumPartitions : Z; ReplicationFactor : Z;
  ReplicaAssignment : gmap Z (list Z); Configs : gmap string (option string) }.
#[global] Instance eq_dec : EqDecision t. Proof. solve_decision. Defined.

Definition EncodeAssignment `{PacketEncoder E} (pa : Z * list Z) : M E unit :=
  PutInt32 (fst pa) ;; PutInt32Array (snd pa).
Definition DecodeAssignment : M ByteDecoder (Z * list Z) :=
  pid ← Int32; reps ← decodeArray Int32; mret (pid, reps).
Definition EncodeConfig `{PacketEncoder E} (kv : string * option string) : M E unit :=
  PutString (fst kv) ;; PutNullableString (snd kv).
Definition DecodeConfig : M ByteDecoder (string * option string) :=
  k ← String; v ← NullableString; mret (k, v).

Definition Encode `{PacketEncoder E} (o : map_order) (r : t) : M E unit :=
  PutString (Topic r) ;;
  PutInt32 (NumPartitions r) ;;
  PutInt16 (ReplicationFactor r) ;;
  encodeArray (range o (ReplicaAssignment r)) EncodeAssignment ;;
  encodeArray (range o (Configs r)) EncodeConfig.
Definition Decode : M ByteDecoder t :=
  topic ← String;
  numPartitions ← Int32;
  replicationFactor ← Int16;
  ra ← decodeMap DecodeAssignment;
  configs ← decodeMap DecodeConfig;
  mret (mk topic numPartitions replicationFactor ra configs).

Definition wf (r : t) : Prop :=
  wf_string (Topic r) /\ in_int 32 (NumPartitions r) /\ in_int 16 (ReplicationFactor r) /\
  wf_map (fun pid reps => in_int 32 pid /\ wf_array (in_int 32) reps) (ReplicaAssignment r) /\
  wf_map (fun k v => wf_string k /\ wf_nstring v) (Configs r).
#[global] Instance wf_dec r : Decision (wf r). Proof. unfold wf; apply _. Defined.

Lemma codec_Assignment pid reps : in_int 32 pid /\ wf_array (in_int 32) reps ->
  codec 1 (EncodeAssignment (pid, reps)) (EncodeAssignment (pid, reps)) DecodeAssignment (pid, reps).
Proof.
  unfold EncodeAssignment, DecodeAssignment; cbn [fst snd]. intros [? ?].
  eapply codec_weaken; [|apply (Nat.le_add_r 1 7)].
  eapply (codec_bind 4 4); [apply codec_Int32; assumption|]. eapply codec_last; [apply codec_int32s; assumption|reflexivity].
Qed.

Lemma codec_Config k v : wf_string k /\ wf_nstring v ->
  codec 1 (EncodeConfig (k, v)) (EncodeConfig (k, v)) DecodeConfig (k, v).
Proof. unfold EncodeConfig, DecodeConfig; cbn [fst snd]. codec_record H. Qed.

Lemma codec_CreateTopicRequest oL oB r : valid_order oL -> valid_order oB -> wf r ->
  codec 16 (Encode oL r) (Encode oB r) Decode r.
Proof.
  unfold Encode, Decode, wf. intros HL HB (? & ? & ? & Hra & Hcfg).
  eapply codec_weaken; [do 3 codec_step|].
  - eapply codec_bind; [eapply codec_wf_map; [exact HL|exact HB|exact Hra|apply codec_Assignment]|].
    eapply codec_last; [eapply codec_wf_map; [exact HL|exact HB|exact Hcfg|apply codec_Config]|].
    eta_record.
  - lia.
Qed.

Lemma safe_CreateTopicRequest oL oB r : valid_order oL -> valid_order oB ->
  enc_safe (Encode oL r) (Encode oB r).
Proof. intros HL HB. unfold Encode, EncodeAssignment, EncodeConfig; enc_safe_go. Qed.
End CreateTopicRequest.
#[export] Hint Resolve CreateTopicRequest.safe_CreateTopicRequest : codec.

Module CreateTopicRequests.
Record t := mk {
  APIVersion : Z; Requests : list CreateTopicRequest.t; Timeout : Z; ValidateOnly : bool }.
#[global] Instance eq_dec : EqDecision t. Proof. solve_decision. Defined.

Definition Encode `{PacketEncoder E} (o : map_order) (r : t) : M E unit :=
  encodeArray (Requests r) (CreateTopicRequest.Encode o) ;;
  PutInt32 (durationMillis (Timeout r)) ;;
  when (1 <=? APIVersion r) (PutBool (ValidateOnly r)).

(** [Decode] does not store the version: the struct keeps version 0. *)
Definition Decode (version : Z) : M ByteDecoder t :=
  requests ← decodeArray CreateTopicRequest.Decode;
  timeout ← DurationMs;
  validateOnly ← (if 1 <=? version then Bool else mret false);
  mret (mk 0 requests timeout validateOnly).

Definition wf (r : t) : Prop :=
  wf_array CreateTopicRequest.wf (Requests r) /\ wf_duration (Timeout r) /\
  since (1 <=? APIVersion r) (fun _ => True) false (ValidateOnly r).
#[global] Instance wf_dec r : Decision (wf r). Proof. unfold wf; apply _. Defined.

Lemma codec_CreateTopicRequests oL oB r : valid_order oL -> valid_order oB -> wf r ->
  codec 8 (Encode oL r) (Encode oB r) (Decode (APIVersion r))
    (mk 0 (Requests r) (Timeout r) (ValidateOnly r)).
Proof.
  unfold Encode, Decode, wf. intros HL HB (Hreq & ? & ?). eapply codec_weaken.
  - eapply codec_bind; [|cbv beta; codec_go]. eapply codec_wf_array; [exact Hreq|]. intros x Hx.
    eapply codec_weaken; [apply CreateTopicRequest.codec_CreateTopicRequest; assumption|lia].
  - lia.
Qed.
Lemma safe_CreateTopicRequests oL oB r : valid_order oL -> valid_order oB ->
  enc_safe (Encode oL r) (Encode oB r).
Proof. intros HL HB. unfold Encode; enc_safe_go. Qed.
End CreateTopicRequests.

Module TopicErrorCode.
Record t := mk { Topic : string; ErrorCode : Z; ErrorMessage : option string }.
#[global] Instance eq_dec : EqDecision t. Proof. solve_decision. Defined.
End TopicErrorCode.

Module CreateTopicsResponse.
Import TopicErrorCode.
Record t := mk { APIVersion : Z; ThrottleTime : Z; TopicErrorCodes : list TopicErrorCode.t }.
#[global] Instance eq_dec : EqDecision t. Proof. solve_decision. Defined.

Definition EncodeCode `{PacketEncoder E} (version : Z) (x : TopicErrorCode.t) : M E unit :=
  PutString (Topic x) ;; PutInt16 (ErrorCode x) ;;
  when (1 <=? version) (PutNullableString (ErrorMessage x)).
Definition DecodeCode (version : Z) : M ByteDecoder TopicErrorCode.t :=
  topic ← String; errorCode ← Int16;
  errorMessage ← (if 1 <=? version then NullableString else mret None);
  mret (TopicErrorCode.mk topic errorCode errorMessage).
Definition wf_code (version : Z) (x : TopicErrorCode.t) : Prop :=
  wf_string (Topic x) /\ in_int 16 (ErrorCode x) /\
  since (1 <=? version) wf_nstring None (ErrorMessage x).
#[global] Instance wf_code_dec v x : Decision (wf_code v x). Proof. unfold wf_code; apply _. Defined.

Definition Encode `{PacketEncoder E} (c : t) : M E unit :=
  when (2 <=? APIVersion c) (PutInt32 (durationMillis (ThrottleTime c))) ;;
  encodeArray (TopicErrorCodes c) (EncodeCode (APIVersion c)).
Definition Decode (version : Z) : M ByteDecoder t :=
  throttle ← (if 2 <=? version then DurationMs else mret 0);
  codes ← decodeArray (DecodeCode version);
  mret (mk version throttle codes).

Definition wf (c : t) : Prop :=
  since (2 <=? APIVersion c) wf_duration 0 (ThrottleTime c) /\
  wf_array (wf_code (APIVersion c)) (TopicErrorCodes c).
#[global] Instance wf_dec c : Decision (wf c). Proof. unfold wf; apply _. Defined.

Lemma codec_CreateCode v x : wf_code v x -> codec 4 (EncodeCode v x) (EncodeCode v x) (DecodeCode v) x.
Proof. unfold EncodeCode, DecodeCode, wf_code. codec_record H. Qed.
#[local] Hint Resolve codec_CreateCode : codec.
Lemma codec_CreateTopicsResponse c : wf c -> codec 4 (Encode c) (Encode c) (Decode (APIVersion c)) c.
Proof. unfold Encode, Decode, wf. codec_record H. Qed.
Lemma safe_CreateTopicsResponse c : enc_safe (Encode c) (Encode c).
Proof. unfold Encode, EncodeCode; enc_safe_go. Qed.
End CreateTopicsResponse.

(** ** Delete topics *)
Module DeleteTopicsRequest.
Record t := mk { APIVersion : Z; Topics : list string; Timeout : Z }.
#[global] Instance eq_dec : EqDecision t. Proof. solve_decision. Defined.

Definition Encode `{PacketEncoder E} (r : t) : M E unit :=
  PutStringArray (Topics r) ;; PutInt32 (durationMillis (Timeout r)).
Definition Decode (version : Z) : M ByteDecoder t :=
  topics ← StringArray; timeout ← DurationMs; mret (mk version topics timeout).

Definition wf (r : t) : Prop := wf_strings (Topics r) /\ wf_duration (Timeout r).
#[global] Instance wf_dec r : Decision (wf r). Proof. unfold wf; apply _. Defined.

Lemma codec_DeleteTopicsRequest r : wf r -> codec 8 (Encode r) (Encode r) (Decode (APIVersion r)) r.
Proof. unfold Encode, Decode, wf. codec_record H. Qed.
Lemma safe_DeleteTopicsRequest r : enc_safe (Encode r) (Encode r).
Proof. unfold Encode; enc_safe_go. Qed.
End DeleteTopicsRequest.

Module DeleteTopicsResponse.
Import TopicErrorCode.
Record t := mk { APIVersion : Z; ThrottleTime : Z; TopicErrorCodes : list TopicErrorCode.t }.
#[global] Instance eq_dec : EqDecision t. Proof. solve_decision. Defined.

(** No error of the encoder is looked at. *)
Definition EncodeCode `{PacketEncoder E} (x : TopicErrorCode.t) : M E unit :=
  ignore_err (PutString (Topic x)) ;; PutInt16 (ErrorCode x).
Definition DecodeCode : M ByteDecoder TopicErrorCode.t :=
  topic ← String; errorCode ← Int16; mret (TopicErrorCode.mk topic errorCode None).
Definition wf_code (x : TopicErrorCode.t) : Prop :=
  wf_string (Topic x) /\ in_int 16 (ErrorCode x) /\ ErrorMessage x = None.
#[global] Instance wf_code_dec x : Decision (wf_code x). Proof. unfold wf_code; apply _. Defined.

Definition Encode `{PacketEncoder E} (c : t) : M E unit :=
  when (1 <=? APIVersion c) (PutInt32 (durationMillis (ThrottleTime c))) ;;
  encodeArrayUnchecked (TopicErrorCodes c) EncodeCode.
Definition Decode (version : Z) : M ByteDecoder t :=
  throttle ← (if 1 <=? version then DurationMs else mret 0);
  codes ← decodeArray DecodeCode;
  mret (mk version throttle codes).

Definition wf (c : t) : Prop :=
  since (1 <=? APIVersion c) wf_duration 0 (ThrottleTime c) /\ wf_array wf_code (TopicErrorCodes c).
#[global] Instance wf_dec c : Decision (wf c). Proof. unfold wf; apply _. Defined.

Lemma codec_DeleteCode x : wf_code x -> codec 4 (EncodeCode x) (EncodeCode x) DecodeCode x.
Proof.
  unfold EncodeCode, DecodeCode, wf_code. destruct x as [tp code msg]; cbn [Topic ErrorCode ErrorMessage].
  intros (Ht & Hc & ->). eapply (codec_bind 2 2); [apply codec_ignore_err, codec_String, Ht|].
  eapply codec_last; [apply codec_Int16, Hc|reflexivity].
Qed.

Lemma codec_DeleteTopicsResponse c : wf c -> codec 4 (Encode c) (Encode c) (Decode (APIVersion c)) c.
Proof.
  unfold Encode, Decode, wf. intros [Ht Hc].
  assert (Hcodes : codec 4 (encodeArrayUnchecked (TopicErrorCodes c) EncodeCode)
    (encodeArrayUnchecked (TopicErrorCodes c) EncodeCode) (decodeArray DecodeCode) (TopicErrorCodes c)).
  { apply codec_unchecked; [apply Hc|]. eapply codec_wf_array; [exact Hc|]. intros x Hx.
    eapply codec_weaken; [apply codec_DeleteCode, Hx|lia]. }
  eapply codec_weaken; [codec_step; eapply codec_last; [exact Hcodes|eta_record]|lia].
Qed.
End DeleteTopicsResponse.
