(* ===== verification/GroupApi.v ===== *)
(** * Consumer-group requests and responses

    [find_coordinator_*.go], [join_group_*.go], [sync_group_*.go],
    [heartbeat_*.go], [leave_group_*.go], [list_groups_*.go],
    [describe_groups_*.go], [offset_commit_*.go] and [offset_fetch_*.go] of
    [src/protocol].  Where the two methods of a type are not inverse, the
    lemma states what is read back instead. *)
From S2P Require Import Prelude Encoder Decoder Codec.

(** ** Find coordinator *)
Module FindCoordinatorRequest.
Record t := mk { APIVersion : Z; CoordinatorKey : string; CoordinatorType : Z }.
#[global] Instance eq_dec : EqDecision t. Proof. solve_decision. Defined.

Definition Encode `{PacketEncoder E} (r : t) : M E unit :=
  PutString (CoordinatorKey r) ;;
  when (1 <=? APIVersion r) (PutInt8 (CoordinatorType r)).
Definition Decode (version : Z) : M ByteDecoder t :=
  key ← String; ty ← (if 1 <=? version then Int8 else mret 0); mret (mk version key ty).

Definition wf (r : t) : Prop :=
  wf_string (CoordinatorKey r) /\ since (1 <=? APIVersion r) (in_int 8) 0 (CoordinatorType r).
#[global] Instance wf_dec r : Decision (wf r). Proof. unfold wf; apply _. Defined.

Lemma codec_FindCoordinatorRequest r : wf r ->
  codec 2 (Encode r) (Encode r) (Decode (APIVersion r)) r.
Proof. unfold Encode, Decode, wf. codec_record H. Qed.
Lemma safe_FindCoordinatorRequest r : enc_safe (Encode r) (Encode r).
Proof. unfold Encode; enc_safe_go. Qed.
End FindCoordinatorRequest.

Module Coordinator.
Record t := mk { NodeID : Z; Host : string; Port : Z }.
#[global] Instance eq_dec : EqDecision t. Proof. solve_decision. Defined.
End Coordinator.

Module FindCoordinatorResponse.
Record t := mk {
  APIVersion : Z; ThrottleTime : Z; ErrorCode : Z; ErrorMessage : option string;
  Coordinator : Coordinator.t }.
#[global] Instance eq_dec : EqDecision t. Proof. solve_decision. Defined.

Definition Encode `{PacketEncoder E} (r : t) : M E unit :=
  when (1 <=? APIVersion r) (PutInt32 (durationMillis (ThrottleTime r))) ;;
  PutInt16 (ErrorCode r) ;;
  when (1 <=? APIVersion r) (PutNullableString (ErrorMessage r)) ;;
  PutInt32 (Coordinator.NodeID (Coordinator r)) ;;
  PutString (Coordinator.Host (Coordinator r)) ;;
  PutInt32 (Coordinator.Port (Coordinator r)).
Definition Decode (version : Z) : M ByteDecoder t :=
  throttle ← (if 1 <=? version then DurationMs else mret 0);
  errorCode ← Int16;
  errorMessage ← (if 1 <=? version then NullableString else mret None);
  nodeID ← Int32; host ← String; port ← Int32;
  mret (mk version throttle errorCode errorMessage (Coordinator.mk nodeID host port)).

Definition wf (r : t) : Prop :=
  since (1 <=? APIVersion r) wf_duration 0 (ThrottleTime r) /\ in_int 16 (ErrorCode r) /\
  since (1 <=? APIVersion r) wf_nstring None (ErrorMessage r) /\
  in_int 32 (Coordinator.NodeID (Coordinator r)) /\ wf_string (Coordinator.Host (Coordinator r)) /\
  in_int 32 (Coordinator.Port (Coordinator r)).
#[global] Instance wf_dec r : Decision (wf r). Proof. unfold wf; apply _. Defined.

Lemma codec_FindCoordinatorResponse r : wf r ->
  codec 12 (Encode r) (Encode r) (Decode (APIVersion r)) r.
Proof.
  unfold Encode, Decode, wf. destruct r as [v tt ec em [n h p]]. cbn [APIVersion ThrottleTime
    ErrorCode ErrorMessage Coordinator Coordinator.NodeID Coordinator.Host Coordinator.Port].
  codec_record H.
Qed.
Lemma safe_FindCoordinatorResponse r : enc_safe (Encode r) (Encode r).
Proof. unfold Encode; enc_safe_go. Qed.
End FindCoordinatorResponse.

(** ** Join group *)
Module GroupProtocol.
Record t := mk { ProtocolName : string; ProtocolMetadata : option (list byte) }.
#[global] Instance eq_dec : EqDecision t. Proof. solve_decision. Defined.

Definition Encode `{PacketEncoder E} (p : t) : M E unit :=
  PutString (ProtocolName p) ;; PutBytes (ProtocolMetadata p).
Definition Decode : M ByteDecoder t := name ← String; md ← Bytes; mret (mk name md).

Lemma safe_GroupProtocol p : enc_safe (Encode p) (Encode p).
Proof. unfold Encode; enc_safe_go. Qed.
End GroupProtocol.
#[export] Hint Resolve GroupProtocol.safe_GroupProtocol : codec.

Module JoinGroupRequest.
Record t := mk {
  APIVersion : Z; GroupID : string; SessionTimeout : Z; RebalanceTimeout : Z; MemberID : string;
  ProtocolType : string; GroupProtocols : list GroupProtocol.t }.
#[global] Instance eq_dec : EqDecision t. Proof. solve_decision. Defined.

(** The number of group protocols is not written. *)
Definition Encode `{PacketEncoder E} (r : t) : M E unit :=
  PutString (GroupID r) ;;
  PutInt32 (SessionTimeout r) ;;
  when (1 <=? APIVersion r) (PutInt32 (RebalanceTimeout r)) ;;
  PutString (MemberID r) ;;
  PutString (ProtocolType r) ;;
  for_each (GroupProtocols r) GroupProtocol.Encode.
Definition Decode (version : Z) : M ByteDecoder t :=
  groupID ← String;
  sessionTimeout ← Int32;
  rebalanceTimeout ← (if 1 <=? version then Int32 else mret 0);
  memberID ← String;
  protocolType ← String;
  groupProtocols ← decodeArray GroupProtocol.Decode;
  mret (mk version groupID sessionTimeout rebalanceTimeout memberID protocolType groupProtocols).

Lemma safe_JoinGroupRequest r : enc_safe (Encode r) (Encode r).
Proof. unfold Encode; enc_safe_go. Qed.

(** What this package writes for a request without protocols, it cannot read. *)
Example join_group_request_not_inverse :
  exists bs, Encoder.Encode (Encode (mk 0 "g" 1 0 "" "consumer" []))
               (Encode (mk 0 "g" 1 0 "" "consumer" [])) = Ret bs tt /\
    Decoder.Decode bs (Decode 0) = Fail ErrInsufficientData tt.
Proof. eexists. split; [vm_compute; reflexivity|vm_compute; reflexivity]. Qed.
End JoinGroupRequest.

Module Member.
Record t := mk { MemberID : string; MemberMetadata : option (list byte) }.
#[global] Instance eq_dec : EqDecision t. Proof. solve_decision. Defined.

Definition Encode `{PacketEncoder E} (m : t) : M E unit :=
  PutString (MemberID m) ;; PutBytes (MemberMetadata m).
Definition Decode : M ByteDecoder t := id ← String; md ← Bytes; mret (mk id md).

Definition wf (m : t) : Prop := wf_string (MemberID m) /\ wf_bytes (MemberMetadata m).
#[global] Instance wf_dec m : Decision (wf m). Proof. unfold wf; apply _. Defined.

Lemma codec_Member m : wf m -> codec 6 (Encode m) (Encode m) Decode m.
Proof. unfold Encode, Decode, wf. codec_record H. Qed.
Lemma safe_Member m : enc_safe (Encode m) (Encode m).
Proof. unfold Encode; enc_safe_go. Qed.
End Member.
#[export] Hint Resolve Member.codec_Member Member.safe_Member : codec.

Module JoinGroupResponse.
Record t := mk {
  APIVersion : Z; ThrottleTime : Z; ErrorCode : Z; GenerationID : Z; GroupProtocol : string;
  LeaderID : string; MemberID : string; Members : list Member.t }.
#[global] Instance eq_dec : EqDecision t. Proof. solve_decision. Defined.

(** The throttle time is written from version 1 on and read from version 2 on. *)
Definition Encode `{PacketEncoder E} (r : t) : M E unit :=
  when (1 <=? APIVersion r) (PutInt32 (durationMillis (ThrottleTime r))) ;;
  PutInt16 (ErrorCode r) ;;
  PutInt32 (GenerationID r) ;;
  PutString (GroupProtocol r) ;;
  PutString (LeaderID r) ;;
  PutString (MemberID r) ;;
  encodeArray (Members r) Member.Encode.
Definition Decode (version : Z) : M ByteDecoder t :=
  throttle ← (if 2 <=? version then DurationMs else mret 0);
  errorCode ← Int16; generationID ← Int32; groupProtocol ← String; leaderID ← String;
  memberID ← String; members ← decodeArray Member.Decode;
  mret (mk version throttle errorCode generationID groupProtocol leaderID memberID members).

Definition wf (r : t) : Prop :=
  APIVersion r <> 1 /\ since (1 <=? APIVersion r) wf_duration 0 (ThrottleTime r) /\
  in_int 16 (ErrorCode r) /\ in_int 32 (GenerationID r) /\ wf_string (GroupProtocol r) /\
  wf_string (LeaderID r) /\ wf_string (MemberID r) /\ wf_array Member.wf (Members r).
#[global] Instance wf_dec r : Decision (wf r). Proof. unfold wf; apply _. Defined.

Lemma codec_JoinGroupResponse r : wf r -> codec 16 (Encode r) (Encode r) (Decode (APIVersion r)) r.
Proof.
  unfold Encode, Decode, wf. intros [Hv H].
  replace (2 <=? APIVersion r) with (1 <=? APIVersion r)
    by (destruct (Z.leb_spec 1 (APIVersion r)), (Z.leb_spec 2 (APIVersion r)); lia).
  revert H. codec_record H.
Qed.
Lemma safe_JoinGroupResponse r : enc_safe (Encode r) (Encode r).
Proof. unfold Encode; enc_safe_go. Qed.
End JoinGroupResponse.

(** ** Sync group *)
Module GroupAssignment.
Record t := mk { MemberID : string; MemberAssignment : option (list byte) }.
#[global] Instance eq_dec : EqDecision t. Proof. solve_decision. Defined.

Definition Encode `{PacketEncoder E} (m : t) : M E unit :=
  PutString (MemberID m) ;; PutBytes (MemberAssignment m).
Definition Decode : M ByteDecoder t := id ← String; a ← Bytes; mret (mk id a).

Definition wf (m : t) : Prop := wf_string (MemberID m) /\ wf_bytes (MemberAssignment m).
#[global] Instance wf_dec m : Decision (wf m). Proof. unfold wf; apply _. Defined.

Lemma codec_GroupAssignment m : wf m -> codec 6 (Encode m) (Encode m) Decode m.
Proof. unfold Encode, Decode, wf. codec_record H. Qed.
Lemma safe_GroupAssignment m : enc_safe (Encode m) (Encode m).
Proof. unfold Encode; enc_safe_go. Qed.
End GroupAssignment.
#[export] Hint Resolve GroupAssignment.codec_GroupAssignment
  GroupAssignment.safe_GroupAssignment : codec.

Module SyncGroupRequest.
Record t := mk {
  APIVersion : Z; GroupID : string; GenerationID : Z; MemberID : string;
  GroupAssignments : list GroupAssignment.t }.
#[global] Instance eq_dec : EqDecision t. Proof. solve_decision. Defined.

Definition Encode `{PacketEncoder E} (r : t) : M E unit :=
  PutString (GroupID r) ;; PutInt32 (GenerationID r) ;; PutString (MemberID r) ;;
  encodeArray (GroupAssignments r) GroupAssignment.Encode.
Definition Decode (version : Z) : M ByteDecoder t :=
  groupID ← String; generationID ← Int32; memberID ← String;
  assignments ← decodeArray GroupAssignment.Decode;
  mret (mk version groupID generationID memberID assignments).

Definition wf (r : t) : Prop :=
  wf_string (GroupID r) /\ in_int 32 (GenerationID r) /\ wf_string (MemberID r) /\
  wf_array GroupAssignment.wf (GroupAssignments r).
#[global] Instance wf_dec r : Decision (wf r). Proof. unfold wf; apply _. Defined.

Lemma codec_SyncGroupRequest r : wf r -> codec 12 (Encode r) (Encode r) (Decode (APIVersion r)) r.
Proof. unfold Encode, Decode, wf. codec_record H. Qed.
Lemma safe_SyncGroupRequest r : enc_safe (Encode r) (Encode r).
Proof. unfold Encode; enc_safe_go. Qed.
End SyncGroupRequest.

Module SyncGroupResponse.
Record t := mk {
  APIVersion : Z; ThrottleTime : Z; ErrorCode : Z; MemberAssignment : option (list byte) }.
#[global] Instance eq_dec : EqDecision t. Proof. solve_decision. Defined.

Definition Encode `{PacketEncoder E} (r : t) : M E unit :=
  when (1 <=? APIVersion r) (PutInt32 (durationMillis (ThrottleTime r))) ;;
  PutInt16 (ErrorCode r) ;; PutBytes (MemberAssignment r).
Definition Decode (version : Z) : M ByteDecoder t :=
  throttle ← (if 1 <=? version then DurationMs else mret 0);
  errorCode ← Int16; assignment ← Bytes;
  mret (mk version throttle errorCode assignment).

Definition wf (r : t) : Prop :=
  since (1 <=? APIVersion r) wf_duration 0 (ThrottleTime r) /\ in_int 16 (ErrorCode r) /\
  wf_bytes (MemberAssignment r).
#[global] Instance wf_dec r : Decision (wf r). Proof. unfold wf; apply _. Defined.

Lemma codec_SyncGroupResponse r : wf r -> codec 6 (Encode r) (Encode r) (Decode (APIVersion r)) r.
Proof. unfold Encode, Decode, wf. codec_record H. Qed.
Lemma safe_SyncGroupResponse r : enc_safe (Encode r) (Encode r).
Proof. unfold Encode; enc_safe_go. Qed.
End SyncGroupResponse.

(** ** Heartbeat and leave group *)
Module HeartbeatRequest.
Record t := mk { APIVersion : Z; GroupID : string; GroupGenerationID : Z; MemberID : string }.
#[global] Instance eq_dec : EqDecision t. Proof. solve_decision. Defined.

Definition Encode `{PacketEncoder E} (r : t) : M E unit :=
  PutString (GroupID r) ;; PutInt32 (GroupGenerationID r) ;; PutString (MemberID r).
Definition Decode (version : Z) : M ByteDecoder t :=
  groupID ← String; gen ← Int32; memberID ← String; mret (mk version groupID gen memberID).

Definition wf (r : t) : Prop :=
  wf_string (GroupID r) /\ in_int 32 (GroupGenerationID r) /\ wf_string (MemberID r).
#[global] Instance wf_dec r : Decision (wf r). Proof. unfold wf; apply _. Defined.

Lemma codec_HeartbeatRequest r : wf r -> codec 8 (Encode r) (Encode r) (Decode (APIVersion r)) r.
Proof. unfold Encode, Decode, wf. codec_record H. Qed.
Lemma safe_HeartbeatRequest r : enc_safe (Encode r) (Encode r).
Proof. unfold Encode; enc_safe_go. Qed.
End HeartbeatRequest.

Module HeartbeatResponse.
Record t := mk { APIVersion : Z; ThrottleTime : Z; ErrorCode : Z }.
#[global] Instance eq_dec : EqDecision t. Proof. solve_decision. Defined.

(** The throttle time is never written, but read from version 1 on (and
    divided by a millisecond instead of multiplied). *)
Definition Encode `{PacketEncoder E} (r : t) : M E unit := PutInt16 (ErrorCode r).
Definition Decode (version : Z) : M ByteDecoder t :=
  throttle ← (if 1 <=? version then z ← Int32; mret (Z.quot z Millisecond) else mret 0);
  errorCode ← Int16;
  mret (mk version throttle errorCode).

Definition wf (r : t) : Prop := APIVersion r < 1 /\ ThrottleTime r = 0 /\ in_int 16 (ErrorCode r).
#[global] Instance wf_dec r : Decision (wf r). Proof. unfold wf; apply _. Defined.

Lemma codec_HeartbeatResponse r : wf r -> codec 2 (Encode r) (Encode r) (Decode (APIVersion r)) r.
Proof.
  unfold Encode, Decode, wf. intros (Hv & Ht & He).
  rewrite (proj2 (Z.leb_gt _ _)) by exact Hv. apply codec_pure.
  eapply codec_last; [apply codec_Int16, He|]. destruct r; simpl in *; subst. reflexivity.
Qed.
Lemma safe_HeartbeatResponse r : enc_safe (Encode r) (Encode r).
Proof. unfold Encode; enc_safe_go. Qed.
End HeartbeatResponse.

Module LeaveGroupRequest.
Record t := mk { APIVersion : Z; GroupID : string; MemberID : string }.
#[global] Instance eq_dec : EqDecision t. Proof. solve_decision. Defined.

Definition Encode `{PacketEncoder E} (r : t) : M E unit :=
  PutString (GroupID r) ;; PutString (MemberID r).
Definition Decode (version : Z) : M ByteDecoder t :=
  groupID ← String; memberID ← String; mret (mk version groupID memberID).

Definition wf (r : t) : Prop := wf_string (GroupID r) /\ wf_string (MemberID r).
#[global] Instance wf_dec r : Decision (wf r). Proof. unfold wf; apply _. Defined.

Lemma codec_LeaveGroupRequest r : wf r -> codec 4 (Encode r) (Encode r) (Decode (APIVersion r)) r.
Proof. unfold Encode, Decode, wf. codec_record H. Qed.
Lemma safe_LeaveGroupRequest r : enc_safe (Encode r) (Encode r).
Proof. unfold Encode; enc_safe_go. Qed.
End LeaveGroupRequest.

Module LeaveGroupResponse.
Record t := mk { APIVersion : Z; ThrottleTime : Z; ErrorCode : Z }.
#[global] Instance eq_dec : EqDecision t. Proof. solve_decision. Defined.

Definition Encode `{PacketEncoder E} (r : t) : M E unit :=
  when (1 <=? APIVersion r) (PutInt32 (durationMillis (ThrottleTime r))) ;; PutInt16 (ErrorCode r).
Definition Decode (version : Z) : M ByteDecoder t :=
  throttle ← (if 1 <=? version then DurationMs else mret 0);
  errorCode ← Int16; mret (mk version throttle errorCode).

Definition wf (r : t) : Prop :=
  since (1 <=? APIVersion r) wf_duration 0 (ThrottleTime r) /\ in_int 16 (ErrorCode r).
#[global] Instance wf_dec r : Decision (wf r). Proof. unfold wf; apply _. Defined.

Lemma codec_LeaveGroupResponse r : wf r -> codec 2 (Encode r) (Encode r) (Decode (APIVersion r)) r.
Proof. unfold Encode, Decode, wf. codec_record H. Qed.
Lemma safe_LeaveGroupResponse r : enc_safe (Encode r) (Encode r).
Proof. unfold Encode; enc_safe_go. Qed.
End LeaveGroupResponse.

(** ** List groups *)
Module ListGroupsRequest.
Record t := mk { APIVersion : Z }.
#[global] Instance eq_dec : EqDecision t. Proof. solve_decision. Defined.

Definition Encode `{PacketEncoder E} (r : t) : M E unit := mret tt.
Definition Decode (version : Z) : M ByteDecoder t := mret (mk version).

Lemma codec_ListGroupsRequest r : codec 0 (Encode r) (Encode r) (Decode (APIVersion r)) r.
Proof. destruct r. apply codec_ret. Qed.
Lemma safe_ListGroupsRequest r : enc_safe (Encode r) (Encode r).
Proof. unfold Encode; enc_safe_go. Qed.
End ListGroupsRequest.

Module ListGroup.
Record t := mk { GroupID : string; ProtocolType : string }.
#[global] Instance eq_dec : EqDecision t. Proof. solve_decision. Defined.

Definition Encode `{PacketEncoder E} (g : t) : M E unit :=
  PutString (GroupID g) ;; PutString (ProtocolType g).
Definition Decode : M ByteDecoder t := groupID ← String; ty ← String; mret (mk groupID ty).

Definition wf (g : t) : Prop := wf_string (GroupID g) /\ wf_string (ProtocolType g).
#[global] Instance wf_dec g : Decision (wf g). Proof. unfold wf; apply _. Defined.

Lemma codec_ListGroup g : wf g -> codec 4 (Encode g) (Encode g) Decode g.
Proof. unfold Encode, Decode, wf. codec_record H. Qed.
Lemma safe_ListGroup g : enc_safe (Encode g) (Encode g).
Proof. unfold Encode; enc_safe_go. Qed.
End ListGroup.
#[export] Hint Resolve ListGroup.codec_ListGroup ListGroup.safe_ListGroup : codec.

Module ListGroupsResponse.
Record t := mk { APIVersion : Z; ThrottleTime : Z; ErrorCode : Z; Groups : list ListGroup.t }.
#[global] Instance eq_dec : EqDecision t. Proof. solve_decision. Defined.

Definition Encode `{PacketEncoder E} (r : t) : M E unit :=
  when (1 <=? APIVersion r) (PutInt32 (durationMillis (ThrottleTime r))) ;;
  PutInt16 (ErrorCode r) ;; encodeArray (Groups r) ListGroup.Encode.
Definition Decode (version : Z) : M ByteDecoder t :=
  throttle ← (if 1 <=? version then DurationMs else mret 0);
  errorCode ← Int16; groups ← decodeArray ListGroup.Decode;
  mret (mk version throttle errorCode groups).

Definition wf (r : t) : Prop :=
  since (1 <=? APIVersion r) wf_duration 0 (ThrottleTime r) /\ in_int 16 (ErrorCode r) /\
  wf_array ListGroup.wf (Groups r).
#[global] Instance wf_dec r : Decision (wf r). Proof. unfold wf; apply _. Defined.

Lemma codec_ListGroupsResponse r : wf r -> codec 6 (Encode r) (Encode r) (Decode (APIVersion r)) r.
Proof. unfold Encode, Decode, wf. codec_record H. Qed.
Lemma safe_ListGroupsResponse r : enc_safe (Encode r) (Encode r).
Proof. unfold Encode; enc_safe_go. Qed.
End ListGroupsResponse.

(** ** Describe groups *)
Module DescribeGroupsRequest.
Record t := mk { APIVersion : Z; GroupIDs : list string }.
#[global] Instance eq_dec : EqDecision t. Proof. solve_decision. Defined.

Definition Encode `{PacketEncoder E} (r : t) : M E unit := PutStringArray (GroupIDs r).
Definition Decode (version : Z) : M ByteDecoder t := ids ← StringArray; mret (mk version ids).

Definition wf (r : t) : Prop := wf_strings (GroupIDs r).
#[global] Instance wf_dec r : Decision (wf r). Proof. unfold wf; apply _. Defined.

Lemma codec_DescribeGroupsRequest r : wf r ->
  codec 4 (Encode r) (Encode r) (Decode (APIVersion r)) r.
Proof. unfold Encode, Decode, wf. codec_record H. Qed.
Lemma safe_DescribeGroupsRequest r : enc_safe (Encode r) (Encode r).
Proof. unfold Encode; enc_safe_go. Qed.
End DescribeGroupsRequest.

Module GroupMember.
Record t := mk {
  ClientID : string; ClientHost : string; GroupMemberMetadata : option (list byte);
  GroupMemberAssignment : option (list byte) }.
#[global] Instance eq_dec : EqDecision t. Proof. solve_decision. Defined.

Definition Encode `{PacketEncoder E} (r : t) : M E unit :=
  PutString (ClientID r) ;; PutString (ClientHost r) ;;
  PutBytes (GroupMemberMetadata r) ;; PutBytes (GroupMemberAssignment r).
Definition Decode : M ByteDecoder t :=
  id ← String; host ← String; md ← Bytes; a ← Bytes; mret (mk id host md a).

Definition wf (r : t) : Prop :=
  wf_string (ClientID r) /\ wf_string (ClientHost r) /\ wf_bytes (GroupMemberMetadata r) /\
  wf_bytes (GroupMemberAssignment r).
#[global] Instance wf_dec r : Decision (wf r). Proof. unfold wf; apply _. Defined.

Lemma codec_GroupMember r : wf r -> codec 12 (Encode r) (Encode r) Decode r.
Proof. unfold Encode, Decode, wf. codec_record H. Qed.
Lemma safe_GroupMember r : enc_safe (Encode r) (Encode r).
Proof. unfold Encode; enc_safe_go. Qed.
End GroupMember.
#[export] Hint Resolve GroupMember.codec_GroupMember GroupMember.safe_GroupMember : codec.

(** The members are a map from member ids, iterated in the runtime's order. *)
Module Group.
Record t := mk {
  ErrorCode : Z; GroupID : string; State : string; ProtocolType : string; Protocol : string;
  GroupMembers : gmap string GroupMember.t }.
#[global] Instance eq_dec : EqDecision t. Proof. solve_decision. Defined.

Definition EncodeMember `{PacketEncoder E} (km : string * GroupMember.t) : M E unit :=
  PutString (fst km) ;; GroupMember.Encode (snd km).
Definition DecodeMember : M ByteDecoder (string * GroupMember.t) :=
  id ← String; m ← GroupMember.Decode; mret (id, m).
Definition Encode `{PacketEncoder E} (o : map_order) (r : t) : M E unit :=
  PutInt16 (ErrorCode r) ;; PutString (GroupID r) ;; PutString (State r) ;;
  PutString (ProtocolType r) ;; PutString (Protocol r) ;;
  encodeArray (range o (GroupMembers r)) EncodeMember.
Definition Decode : M ByteDecoder t :=
  errorCode ← Int16; groupID ← String; state ← String; ty ← String; protocol ← String;
  members ← decodeMap DecodeMember;
  mret (mk errorCode groupID state ty protocol members).

Definition wf (r : t) : Prop :=
  in_int 16 (ErrorCode r) /\ wf_string (GroupID r) /\ wf_string (State r) /\
  wf_string (ProtocolType r) /\ wf_string (Protocol r) /\
  wf_map (fun id m => wf_string id /\ GroupMember.wf m) (GroupMembers r).
#[global] Instance wf_dec r : Decision (wf r). Proof. unfold wf; apply _. Defined.

Lemma codec_GroupEntry id m : wf_string id /\ GroupMember.wf m ->
  codec 1 (EncodeMember (id, m)) (EncodeMember (id, m)) DecodeMember (id, m).
Proof. unfold EncodeMember, DecodeMember; cbn [fst snd]. codec_record H. Qed.

Lemma codec_Group oL oB r : valid_order oL -> valid_order oB -> wf r ->
  codec 14 (Encode oL r) (Encode oB r) Decode r.
Proof.
  unfold Encode, Decode, wf. intros HL HB (? & ? & ? & ? & ? & Hm).
  eapply codec_weaken; [do 5 codec_step|].
  - eapply codec_last; [eapply codec_wf_map; [exact HL|exact HB|exact Hm|apply codec_GroupEntry]|].
    eta_record.
  - lia.
Qed.
Lemma safe_Group oL oB r : valid_order oL -> valid_order oB ->
  enc_safe (Encode oL r) (Encode oB r).
Proof. intros HL HB. unfold Encode, EncodeMember; enc_safe_go. Qed.
End Group.
#[export] Hint Resolve Group.codec_Group Group.safe_Group : codec.

Module DescribeGroupsResponse.
Record t := mk { APIVersion : Z; ThrottleTime : Z; Groups : list Group.t }.
#[global] Instance eq_dec : EqDecision t. Proof. solve_decision. Defined.

Definition Encode `{PacketEncoder E} (o : map_order) (r : t) : M E unit :=
  when (1 <=? APIVersion r) (PutInt32 (durationMillis (ThrottleTime r))) ;;
  encodeArray (Groups r) (Group.Encode o).
Definition Decode (version : Z) : M ByteDecoder t :=
  throttle ← (if 1 <=? version then DurationMs else mret 0);
  groups ← decodeArray Group.Decode;
  mret (mk version throttle groups).

Definition wf (r : t) : Prop :=
  since (1 <=? APIVersion r) wf_duration 0 (ThrottleTime r) /\ wf_array Group.wf (Groups r).
#[global] Instance wf_dec r : Decision (wf r). Proof. unfold wf; apply _. Defined.

Lemma codec_DescribeGroupsResponse oL oB r : valid_order oL -> valid_order oB -> wf r ->
  codec 4 (Encode oL r) (Encode oB r) (Decode (APIVersion r)) r.
Proof. intros HL HB. unfold Encode, Decode, wf. codec_record H. Qed.
Lemma safe_DescribeGroupsResponse oL oB r : valid_order oL -> valid_order oB ->
  enc_safe (Encode oL r) (Encode oB r).
Proof. intros HL HB. unfold Encode; enc_safe_go. Qed.
End DescribeGroupsResponse.

(** ** Offset commit

    The decoding loops of both types range over the slice's elements by value:
    what is read is stored in the loop variable and lost, so the decoded slice
    has the right length and zero elements. *)
Definition decodeLost {A B} (zero : B) (D : M ByteDecoder A) : M ByteDecoder (list B) :=
  xs ← decodeArray D; mret ((fun _ => zero) <$> xs).

Lemma codec_decodeLost {A A' B} (P : A -> Prop) (g : A -> A') (zero : B) (xs : list A) EL EB
    (D : M ByteDecoder A') :
  wf_array P xs -> (forall x, P x -> codec 1 (EL x) (EB x) D (g x)) ->
  codec 4 (encodeArray xs EL) (encodeArray xs EB) (decodeLost zero D) ((fun _ => zero) <$> xs).
Proof.
  intros [Hn Hx] H. eapply codec_last.
  - apply (codec_array_map g); [exact Hn|]. intros x Hin. apply H. eapply Forall_elem; eassumption.
  - cbv beta. f_equal. rewrite <- list_fmap_compose. reflexivity.
Qed.

Module OffsetCommitPartitionRequest.
Record t := mk { Partition : Z; Offset : Z; Timestamp : Z; Metadata : option string }.
#[global] Instance eq_dec : EqDecision t. Proof. solve_decision. Defined.

Definition Encode `{PacketEncoder E} (p : t) : M E unit :=
  PutInt32 (Partition p) ;; PutInt64 (Offset p) ;; PutNullableString (Metadata p).
Definition Decode (version : Z) : M ByteDecoder t :=
  partition ← Int32; offset ← Int64;
  timestamp ← (if 1 <=? version then Int64 else mret 0);
  metadata ← NullableString; mret (mk partition offset timestamp metadata).

Definition wf (p : t) : Prop :=
  in_int 32 (Partition p) /\ in_int 64 (Offset p) /\ Timestamp p = 0 /\ wf_nstring (Metadata p).
#[global] Instance wf_dec p : Decision (wf p). Proof. unfold wf; apply _. Defined.

Lemma codec_OffsetCommitPartitionRequest p : wf p -> codec 14 (Encode p) (Encode p) (Decode 0) p.
Proof.
  unfold Encode, Decode, wf. change (1 <=? 0) with false. cbn iota.
  destruct p as [pa off ts md]; cbn [Partition Offset Timestamp Metadata].
  intros (? & ? & -> & ?). eapply codec_weaken; [do 2 codec_step; apply codec_pure; codec_go|lia].
Qed.
Lemma safe_OffsetCommitPartitionRequest p : enc_safe (Encode p) (Encode p).
Proof. unfold Encode; enc_safe_go. Qed.
End OffsetCommitPartitionRequest.
#[export] Hint Resolve OffsetCommitPartitionRequest.codec_OffsetCommitPartitionRequest
  OffsetCommitPartitionRequest.safe_OffsetCommitPartitionRequest : codec.

Module OffsetCommitTopicRequest.
Record t := mk { Topic : string; Partitions : list OffsetCommitPartitionRequest.t }.
#[global] Instance eq_dec : EqDecision t. Proof. solve_decision. Defined.

Definition zero : t := mk "" [].
Definition zeroPartition := OffsetCommitPartitionRequest.mk 0 0 0 None.

(** The topic's name is neither written nor read. *)
Definition Encode `{PacketEncoder E} (r : t) : M E unit :=
  encodeArray (Partitions r) OffsetCommitPartitionRequest.Encode.
Definition Decode (version : Z) : M ByteDecoder t :=
  partitions ← decodeLost zeroPartition (OffsetCommitPartitionRequest.Decode version);
  mret (mk "" partitions).

Definition wf (r : t) : Prop := wf_array OffsetCommitPartitionRequest.wf (Partitions r).
#[global] Instance wf_dec r : Decision (wf r). Proof. unfold wf; apply _. Defined.

Lemma codec_OffsetCommitTopicRequest r : wf r ->
  codec 4 (Encode r) (Encode r) (Decode 0) (mk "" ((fun _ => zeroPartition) <$> Partitions r)).
Proof.
  intros H. eapply codec_last; [|reflexivity]. apply (codec_decodeLost _ id _ _ _ _ _ H). intros p Hp.
  eapply codec_weaken;
    [apply OffsetCommitPartitionRequest.codec_OffsetCommitPartitionRequest, Hp|lia].
Qed.
Lemma safe_OffsetCommitTopicRequest r : enc_safe (Encode r) (Encode r).
Proof. unfold Encode; enc_safe_go. Qed.
End OffsetCommitTopicRequest.
#[export] Hint Resolve OffsetCommitTopicRequest.safe_OffsetCommitTopicRequest : codec.

Module OffsetCommitRequest.
Record t := mk {
  APIVersion : Z; GroupID : string; GenerationID : Z; MemberID : string; RetentionTime : Z;
  Topics : list OffsetCommitTopicRequest.t }.
#[global] Instance eq_dec : EqDecision t. Proof. solve_decision. Defined.

(** [Encode] writes version 0 whatever the version. *)
Definition Encode `{PacketEncoder E} (r : t) : M E unit :=
  PutString (GroupID r) ;; encodeArray (Topics r) OffsetCommitTopicRequest.Encode.
Definition Decode (version : Z) : M ByteDecoder t :=
  groupID ← String;
  generationID ← (if 1 <=? version then Int32 else mret 0);
  memberID ← (if 1 <=? version then String else mret EmptyString);
  retentionTime ← (if 2 <=? version then Int64 else mret 0);
  topics ← decodeLost OffsetCommitTopicRequest.zero (OffsetCommitTopicRequest.Decode version);
  mret (mk version groupID generationID memberID retentionTime topics).

Definition wf (r : t) : Prop :=
  wf_string (GroupID r) /\ wf_array OffsetCommitTopicRequest.wf (Topics r).
#[global] Instance wf_dec r : Decision (wf r). Proof. unfold wf; apply _. Defined.

(** What version 0 reads back: the group and the number of topics. *)
Lemma codec_OffsetCommitRequest r : wf r ->
  codec 6 (Encode r) (Encode r) (Decode 0)
    (mk 0 (GroupID r) 0 EmptyString 0 ((fun _ => OffsetCommitTopicRequest.zero) <$> Topics r)).
Proof.
  intros [Hg Ht]. unfold Encode, Decode. eapply (codec_bind 2 4); [apply codec_String, Hg|].
  change (1 <=? 0) with false. change (2 <=? 0) with false. cbv beta iota. do 3 apply codec_pure.
  eapply codec_last; [|reflexivity]. eapply codec_decodeLost; [exact Ht|]. intros x Hx.
  eapply codec_weaken; [apply OffsetCommitTopicRequest.codec_OffsetCommitTopicRequest, Hx|lia].
Qed.
Lemma safe_OffsetCommitRequest r : enc_safe (Encode r) (Encode r).
Proof. unfold Encode; enc_safe_go. Qed.
End OffsetCommitRequest.

Module OffsetCommitPartitionResponse.
Record t := mk { Partition : Z; ErrorCode : Z }.
#[global] Instance eq_dec : EqDecision t. Proof. solve_decision. Defined.

Definition Encode `{PacketEncoder E} (p : t) : M E unit :=
  PutInt32 (Partition p) ;; PutInt16 (ErrorCode p).
Definition Decode : M ByteDecoder t := partition ← Int32; ec ← Int16; mret (mk partition ec).

Definition wf (p : t) : Prop := in_int 32 (Partition p) /\ in_int 16 (ErrorCode p).
#[global] Instance wf_dec p : Decision (wf p). Proof. unfold wf; apply _. Defined.

Lemma codec_OffsetCommitPartitionResponse p : wf p -> codec 6 (Encode p) (Encode p) Decode p.
Proof. unfold Encode, Decode, wf. codec_record H. Qed.
Lemma safe_OffsetCommitPartitionResponse p : enc_safe (Encode p) (Encode p).
Proof. unfold Encode; enc_safe_go. Qed.
End OffsetCommitPartitionResponse.
#[export] Hint Resolve OffsetCommitPartitionResponse.codec_OffsetCommitPartitionResponse
  OffsetCommitPartitionResponse.safe_OffsetCommitPartitionResponse : codec.

Module OffsetCommitTopicResponse.
Record t := mk { Topic : string; PartitionResponses : list OffsetCommitPartitionResponse.t }.
#[global] Instance eq_dec : EqDecision t. Proof. solve_decision. Defined.

Definition zero : t := mk "" [].
Definition zeroPartition := OffsetCommitPartitionResponse.mk 0 0.

Definition Encode `{PacketEncoder E} (r : t) : M E unit :=
  PutString (Topic r) ;; encodeArray (PartitionResponses r) OffsetCommitPartitionResponse.Encode.
Definition Decode : M ByteDecoder t :=
  topic ← String;
  partitions ← decodeLost zeroPartition OffsetCommitPartitionResponse.Decode;
  mret (mk topic partitions).

Definition wf (r : t) : Prop :=
  wf_string (Topic r) /\ wf_array OffsetCommitPartitionResponse.wf (PartitionResponses r).
#[global] Instance wf_dec r : Decision (wf r). Proof. unfold wf; apply _. Defined.

Lemma codec_OffsetCommitTopicResponse r : wf r ->
  codec 6 (Encode r) (Encode r) Decode
    (mk (Topic r) ((fun _ => zeroPartition) <$> PartitionResponses r)).
Proof.
  intros [Ht Hp]. eapply (codec_bind 2 4); [apply codec_String, Ht|].
  eapply codec_last; [|reflexivity]. apply (codec_decodeLost _ id _ _ _ _ _ Hp). intros p H.
  eapply codec_weaken;
    [apply OffsetCommitPartitionResponse.codec_OffsetCommitPartitionResponse, H|lia].
Qed.
Lemma safe_OffsetCommitTopicResponse r : enc_safe (Encode r) (Encode r).
Proof. unfold Encode; enc_safe_go. Qed.
End OffsetCommitTopicResponse.
#[export] Hint Resolve OffsetCommitTopicResponse.safe_OffsetCommitTopicResponse : codec.

Module OffsetCommitResponse.
Record t := mk { APIVersion : Z; ThrottleTime : Z; Responses : list OffsetCommitTopicResponse.t }.
#[global] Instance eq_dec : EqDecision t. Proof. solve_decision. Defined.

Definition Encode `{PacketEncoder E} (r : t) : M E unit :=
  when (3 <=? APIVersion r) (PutInt32 (durationMillis (ThrottleTime r))) ;;
  encodeArray (Responses r) OffsetCommitTopicResponse.Encode.
Definition Decode (version : Z) : M ByteDecoder t :=
  throttle ← (if 3 <=? version then DurationMs else mret 0);
  responses ← decodeLost OffsetCommitTopicResponse.zero OffsetCommitTopicResponse.Decode;
  mret (mk version throttle responses).

Definition wf (r : t) : Prop :=
  since (3 <=? APIVersion r) wf_duration 0 (ThrottleTime r) /\
  wf_array OffsetCommitTopicResponse.wf (Responses r).
#[global] Instance wf_dec r : Decision (wf r). Proof. unfold wf; apply _. Defined.

Lemma codec_OffsetCommitResponse r : wf r ->
  codec 4 (Encode r) (Encode r) (Decode (APIVersion r))
    (mk (APIVersion r) (ThrottleTime r)
       ((fun _ => OffsetCommitTopicResponse.zero) <$> Responses r)).
Proof.
  intros [Ht Hr]. unfold Encode, Decode. eapply codec_weaken; [codec_step|].
  - eapply codec_last; [|reflexivity]. eapply codec_decodeLost; [exact Hr|]. intros x Hx.
    eapply codec_weaken; [apply OffsetCommitTopicResponse.codec_OffsetCommitTopicResponse, Hx|lia].
  - lia.
Qed.
Lemma safe_OffsetCommitResponse r : enc_safe (Encode r) (Encode r).
Proof. unfold Encode; enc_safe_go. Qed.
End OffsetCommitResponse.

(** ** Offset fetch *)
Module OffsetFetchTopicRequest.
Record t := mk { Topic : string; Partitions : list Z }.
#[global] Instance eq_dec : EqDecision t. Proof. solve_decision. Defined.

Definition Encode `{PacketEncoder E} (r : t) : M E unit :=
  PutString (Topic r) ;; PutInt32Array (Partitions r).
Definition Decode : M ByteDecoder t := topic ← String; ps ← Int32Array; mret (mk topic ps).

Definition wf (r : t) : Prop := wf_string (Topic r) /\ wf_ints 32 (Partitions r).
#[global] Instance wf_dec r : Decision (wf r). Proof. unfold wf; apply _. Defined.

Lemma codec_OffsetFetchTopicRequest r : wf r -> codec 6 (Encode r) (Encode r) Decode r.
Proof. unfold Encode, Decode, wf. codec_record H. Qed.
Lemma safe_OffsetFetchTopicRequest r : enc_safe (Encode r) (Encode r).
Proof. unfold Encode; enc_safe_go. Qed.
End OffsetFetchTopicRequest.
#[export] Hint Resolve OffsetFetchTopicRequest.codec_OffsetFetchTopicRequest
  OffsetFetchTopicRequest.safe_OffsetFetchTopicRequest : codec.

Module OffsetFetchRequest.
Record t := mk { APIVersion : Z; GroupID : string; Topics : list OffsetFetchTopicRequest.t }.
#[global] Instance eq_dec : EqDecision t. Proof. solve_decision. Defined.

Definition Encode `{PacketEncoder E} (r : t) : M E unit :=
  PutString (GroupID r) ;; encodeArray (Topics r) OffsetFetchTopicRequest.Encode.
Definition Decode (version : Z) : M ByteDecoder t :=
  groupID ← String; topics ← decodeArray OffsetFetchTopicRequest.Decode;
  mret (mk version groupID topics).

Definition wf (r : t) : Prop :=
  wf_string (GroupID r) /\ wf_array OffsetFetchTopicRequest.wf (Topics r).
#[global] Instance wf_dec r : Decision (wf r). Proof. unfold wf; apply _. Defined.

Lemma codec_OffsetFetchRequest r : wf r -> codec 6 (Encode r) (Encode r) (Decode (APIVersion r)) r.
Proof. unfold Encode, Decode, wf. codec_record H. Qed.
Lemma safe_OffsetFetchRequest r : enc_safe (Encode r) (Encode r).
Proof. unfold Encode; enc_safe_go. Qed.
End OffsetFetchRequest.

Module OffsetFetchPartition.
Record t := mk { Partition : Z; Offset : Z; Metadata : option string; ErrorCode : Z }.
#[global] Instance eq_dec : EqDecision t. Proof. solve_decision. Defined.

(** The offset is an [int16] here. *)
Definition Encode `{PacketEncoder E} (p : t) : M E unit :=
  PutInt32 (Partition p) ;; PutInt16 (Offset p) ;; PutNullableString (Metadata p) ;;
  PutInt16 (ErrorCode p).
Definition Decode : M ByteDecoder t :=
  partition ← Int32; offset ← Int16; md ← NullableString; ec ← Int16;
  mret (mk partition offset md ec).

Definition wf (p : t) : Prop :=
  in_int 32 (Partition p) /\ in_int 16 (Offset p) /\ wf_nstring (Metadata p) /\
  in_int 16 (ErrorCode p).
#[global] Instance wf_dec p : Decision (wf p). Proof. unfold wf; apply _. Defined.

Lemma codec_OffsetFetchPartition p : wf p -> codec 10 (Encode p) (Encode p) Decode p.
Proof. unfold Encode, Decode, wf. codec_record H. Qed.
Lemma safe_OffsetFetchPartition p : enc_safe (Encode p) (Encode p).
Proof. unfold Encode; enc_safe_go. Qed.
End OffsetFetchPartition.
#[export] Hint Resolve OffsetFetchPartition.codec_OffsetFetchPartition
  OffsetFetchPartition.safe_OffsetFetchPartition : codec.

Module OffsetFetchTopicResponse.
Record t := mk { Topic : string; Partitions : list OffsetFetchPartition.t }.
#[global] Instance eq_dec : EqDecision t. Proof. solve_decision. Defined.

Definition zero : t := mk "" [].
Definition zeroPartition := OffsetFetchPartition.mk 0 0 None 0.

Definition Encode `{PacketEncoder E} (r : t) : M E unit :=
  PutString (Topic r) ;; encodeArray (Partitions r) OffsetFetchPartition.Encode.
Definition Decode : M ByteDecoder t :=
  topic ← String;
  partitions ← decodeLost zeroPartition OffsetFetchPartition.Decode;
  mret (mk topic partitions).

Definition wf (r : t) : Prop :=
  wf_string (Topic r) /\ wf_array OffsetFetchPartition.wf (Partitions r).
#[global] Instance wf_dec r : Decision (wf r). Proof. unfold wf; apply _. Defined.

Lemma codec_OffsetFetchTopicResponse r : wf r ->
  codec 6 (Encode r) (Encode r) Decode (mk (Topic r) ((fun _ => zeroPartition) <$> Partitions r)).
Proof.
  intros [Ht Hp]. eapply (codec_bind 2 4); [apply codec_String, Ht|].
  eapply codec_last; [|reflexivity]. apply (codec_decodeLost _ id _ _ _ _ _ Hp). intros p H.
  eapply codec_weaken; [apply OffsetFetchPartition.codec_OffsetFetchPartition, H|lia].
Qed.
Lemma safe_OffsetFetchTopicResponse r : enc_safe (Encode r) (Encode r).
Proof. unfold Encode; enc_safe_go. Qed.
End OffsetFetchTopicResponse.
#[export] Hint Resolve OffsetFetchTopicResponse.safe_OffsetFetchTopicResponse : codec.

Module OffsetFetchResponse.
Record t := mk { APIVersion : Z; Responses : list OffsetFetchTopicResponse.t }.
#[global] Instance eq_dec : EqDecision t. Proof. solve_decision. Defined.

Definition Encode `{PacketEncoder E} (r : t) : M E unit :=
  encodeArray (Responses r) OffsetFetchTopicResponse.Encode.
Definition Decode (version : Z) : M ByteDecoder t :=
  responses ← decodeLost OffsetFetchTopicResponse.zero OffsetFetchTopicResponse.Decode;
  mret (mk version responses).

Definition wf (r : t) : Prop := wf_array OffsetFetchTopicResponse.wf (Responses r).
#[global] Instance wf_dec r : Decision (wf r). Proof. unfold wf; apply _. Defined.

Lemma codec_OffsetFetchResponse r : wf r ->
  codec 4 (Encode r) (Encode r) (Decode (APIVersion r))
    (mk (APIVersion r) ((fun _ => OffsetFetchTopicResponse.zero) <$> Responses r)).
Proof.
  intros Hr. eapply codec_last; [|reflexivity]. eapply codec_decodeLost; [exact Hr|]. intros x Hx.
  eapply codec_weaken; [apply OffsetFetchTopicResponse.codec_OffsetFetchTopicResponse, Hx|lia].
Qed.
Lemma safe_OffsetFetchResponse r : enc_safe (Encode r) (Encode r).
Proof. unfold Encode; enc_safe_go. Qed.
End OffsetFetchResponse.
