(* ===== verification/ClusterApi.v ===== *)
(** * Cluster and configuration requests and responses

    [leader_and_isr_*.go], [stop_replica_*.go], [update_metadata_*.go],
    [controlled_shutdown_*.go], [sasl_handshake_*.go], [alter_configs_*.go]
    and [describe_configs_*.go] of [src/protocol]. *)
From S2P Require Import Prelude Encoder Decoder Codec.

(** ** Leader and ISR *)
Module PartitionState.
Record t := mk {
  Topic : string; Partition : Z; ControllerEpoch : Z; Leader : Z; LeaderEpoch : Z;
  ISR : list Z; ZKVersion : Z; Replicas : list Z; IsNew : bool }.
#[global] Instance eq_dec : EqDecision t. Proof. solve_decision. Defined.

(** [IsNew] is written from version 1 on and never read. *)
Definition Encode `{PacketEncoder E} (version : Z) (p : t) : M E unit :=
  PutString (Topic p) ;; PutInt32 (Partition p) ;; PutInt32 (ControllerEpoch p) ;;
  PutInt32 (Leader p) ;; PutInt32 (LeaderEpoch p) ;; PutInt32Array (ISR p) ;;
  PutInt32 (ZKVersion p) ;; PutInt32Array (Replicas p) ;;
  when (1 <=? version) (PutBool (IsNew p)).
Definition Decode : M ByteDecoder t :=
  topic ← String; partition ← Int32; cepoch ← Int32; leader ← Int32; lepoch ← Int32;
  isr ← Int32Array; zk ← Int32; replicas ← Int32Array;
  mret (mk topic partition cepoch leader lepoch isr zk replicas false).

Definition wf (p : t) : Prop :=
  wf_string (Topic p) /\ in_int 32 (Partition p) /\ in_int 32 (ControllerEpoch p) /\
  in_int 32 (Leader p) /\ in_int 32 (LeaderEpoch p) /\ wf_ints 32 (ISR p) /\
  in_int 32 (ZKVersion p) /\ wf_ints 32 (Replicas p) /\ IsNew p = false.
#[global] Instance wf_dec p : Decision (wf p). Proof. unfold wf; apply _. Defined.

Lemma codec_PartitionState v p : v < 1 -> wf p -> codec 30 (Encode v p) (Encode v p) Decode p.
Proof.
  intros Hv. unfold Encode, Decode, wf. rewrite (proj2 (Z.leb_gt _ _)) by exact Hv. cbn [when].
  destruct p; cbn [Topic Partition ControllerEpoch Leader LeaderEpoch ISR ZKVersion Replicas IsNew].
  intros (? & ? & ? & ? & ? & ? & ? & ? & ->). eapply codec_weaken; [codec_go|lia].
Qed.
Lemma safe_PartitionState v p : enc_safe (Encode v p) (Encode v p).
Proof. unfold Encode; enc_safe_go. Qed.
End PartitionState.
#[export] Hint Resolve PartitionState.codec_PartitionState PartitionState.safe_PartitionState : codec.

Module LiveLeader.
Record t := mk { ID : Z; Host : string; Port : Z }.
#[global] Instance eq_dec : EqDecision t. Proof. solve_decision. Defined.

Definition Encode `{PacketEncoder E} (l : t) : M E unit :=
  PutInt32 (ID l) ;; PutString (Host l) ;; PutInt32 (Port l).
Definition Decode : M ByteDecoder t := id ← Int32; host ← String; port ← Int32; mret (mk id host port).

Definition wf (l : t) : Prop := in_int 32 (ID l) /\ wf_string (Host l) /\ in_int 32 (Port l).
#[global] Instance wf_dec l : Decision (wf l). Proof. unfold wf; apply _. Defined.

Lemma codec_LiveLeader l : wf l -> codec 10 (Encode l) (Encode l) Decode l.
Proof. unfold Encode, Decode, wf. codec_record H. Qed.
Lemma safe_LiveLeader l : enc_safe (Encode l) (Encode l).
Proof. unfold Encode; enc_safe_go. Qed.
End LiveLeader.
#[export] Hint Resolve LiveLeader.codec_LiveLeader LiveLeader.safe_LiveLeader : codec.

Module LeaderAndISRRequest.
Record t := mk {
  APIVersion : Z; ControllerID : Z; ControllerEpoch : Z;
  PartitionStates : list PartitionState.t; LiveLeaders : list LiveLeader.t }.
#[global] Instance eq_dec : EqDecision t. Proof. solve_decision. Defined.

Definition Encode `{PacketEncoder E} (r : t) : M E unit :=
  PutInt32 (ControllerID r) ;; PutInt32 (ControllerEpoch r) ;;
  encodeArray (PartitionStates r) (PartitionState.Encode (APIVersion r)) ;;
  encodeArray (LiveLeaders r) LiveLeader.Encode.
Definition Decode (version : Z) : M ByteDecoder t :=
  cid ← Int32; cepoch ← Int32;
  states ← decodeArray PartitionState.Decode;
  leaders ← decodeArray LiveLeader.Decode;
  mret (mk version cid cepoch states leaders).

Definition wf (r : t) : Prop :=
  APIVersion r < 1 /\ in_int 32 (ControllerID r) /\ in_int 32 (ControllerEpoch r) /\
  wf_array PartitionState.wf (PartitionStates r) /\ wf_array LiveLeader.wf (LiveLeaders r).
#[global] Instance wf_dec r : Decision (wf r). Proof. unfold wf; apply _. Defined.

Lemma codec_LeaderAndISRRequest r : wf r ->
  codec 16 (Encode r) (Encode r) (Decode (APIVersion r)) r.
Proof. unfold Encode, Decode, wf. codec_record H. Qed.
Lemma safe_LeaderAndISRRequest r : enc_safe (Encode r) (Encode r).
Proof. unfold Encode; enc_safe_go. Qed.
End LeaderAndISRRequest.

Module LeaderAndISRPartition.
Record t := mk { Topic : string; Partition : Z; ErrorCode : Z }.
#[global] Instance eq_dec : EqDecision t. Proof. solve_decision. Defined.

Definition Encode `{PacketEncoder E} (p : t) : M E unit :=
  PutString (Topic p) ;; PutInt32 (Partition p) ;; PutInt16 (ErrorCode p).
Definition Decode : M ByteDecoder t :=
  topic ← String; partition ← Int32; ec ← Int16; mret (mk topic partition ec).

Definition wf (p : t) : Prop :=
  wf_string (Topic p) /\ in_int 32 (Partition p) /\ in_int 16 (ErrorCode p).
#[global] Instance wf_dec p : Decision (wf p). Proof. unfold wf; apply _. Defined.

Lemma codec_LeaderAndISRPartition p : wf p -> codec 8 (Encode p) (Encode p) Decode p.
Proof. unfold Encode, Decode, wf. codec_record H. Qed.
Lemma safe_LeaderAndISRPartition p : enc_safe (Encode p) (Encode p).
Proof. unfold Encode; enc_safe_go. Qed.
End LeaderAndISRPartition.
#[export] Hint Resolve LeaderAndISRPartition.codec_LeaderAndISRPartition
  LeaderAndISRPartition.safe_LeaderAndISRPartition : codec.

Module LeaderAndISRResponse.
Record t := mk { APIVersion : Z; ErrorCode : Z; Partitions : list LeaderAndISRPartition.t }.
#[global] Instance eq_dec : EqDecision t. Proof. solve_decision. Defined.

Definition Encode `{PacketEncoder E} (r : t) : M E unit :=
  PutInt16 (ErrorCode r) ;; encodeArray (Partitions r) LeaderAndISRPartition.Encode.
Definition Decode (version : Z) : M ByteDecoder t :=
  ec ← Int16; partitions ← decodeArray LeaderAndISRPartition.Decode;
  mret (mk version ec partitions).

Definition wf (r : t) : Prop :=
  in_int 16 (ErrorCode r) /\ wf_array LeaderAndISRPartition.wf (Partitions r).
#[global] Instance wf_dec r : Decision (wf r). Proof. unfold wf; apply _. Defined.

Lemma codec_LeaderAndISRResponse r : wf r ->
  codec 6 (Encode r) (Encode r) (Decode (APIVersion r)) r.
Proof. unfold Encode, Decode, wf. codec_record H. Qed.
Lemma safe_LeaderAndISRResponse r : enc_safe (Encode r) (Encode r).
Proof. unfold Encode; enc_safe_go. Qed.
End LeaderAndISRResponse.

(** ** Stop replica *)
Module StopReplicaPartition.
Record t := mk { Topic : string; Partition : Z }.
#[global] Instance eq_dec : EqDecision t. Proof. solve_decision. Defined.

Definition Encode `{PacketEncoder E} (p : t) : M E unit :=
  PutString (Topic p) ;; PutInt32 (Partition p).
Definition Decode : M ByteDecoder t := topic ← String; partition ← Int32; mret (mk topic partition).

Definition wf (p : t) : Prop := wf_string (Topic p) /\ in_int 32 (Partition p).
#[global] Instance wf_dec p : Decision (wf p). Proof. unfold wf; apply _. Defined.

Lemma codec_StopReplicaPartition p : wf p -> codec 6 (Encode p) (Encode p) Decode p.
Proof. unfold Encode, Decode, wf. codec_record H. Qed.
Lemma safe_StopReplicaPartition p : enc_safe (Encode p) (Encode p).
Proof. unfold Encode; enc_safe_go. Qed.
End StopReplicaPartition.
#[export] Hint Resolve StopReplicaPartition.codec_StopReplicaPartition
  StopReplicaPartition.safe_StopReplicaPartition : codec.

Module StopReplicaRequest.
Record t := mk {
  APIVersion : Z; ControllerID : Z; ControllerEpoch : Z; DeletePartitions : bool;
  Partitions : list StopReplicaPartition.t }.
#[global] Instance eq_dec : EqDecision t. Proof. solve_decision. Defined.

(** The flag is written as an [int8] and read as a [bool]. *)
Definition EncodeFlag `{PacketEncoder E} (b : bool) : M E unit := if b then PutInt8 1 else PutInt8 0.
Definition Encode `{PacketEncoder E} (r : t) : M E unit :=
  PutInt32 (ControllerID r) ;; PutInt32 (ControllerEpoch r) ;;
  EncodeFlag (DeletePartitions r) ;;
  encodeArray (Partitions r) StopReplicaPartition.Encode.
Definition Decode (version : Z) : M ByteDecoder t :=
  cid ← Int32; cepoch ← Int32; del ← Bool;
  partitions ← decodeArray StopReplicaPartition.Decode;
  mret (mk version cid cepoch del partitions).

Definition wf (r : t) : Prop :=
  in_int 32 (ControllerID r) /\ in_int 32 (ControllerEpoch r) /\
  wf_array StopReplicaPartition.wf (Partitions r).
#[global] Instance wf_dec r : Decision (wf r). Proof. unfold wf; apply _. Defined.

Lemma codec_EncodeFlag b : codec 1 (EncodeFlag b) (EncodeFlag b) Bool b.
Proof.
  assert (Hz : in_int 8 (if b then 1 else 0)) by (destruct b; unfold in_int; lia).
  assert (E : codec 1 (EncodeFlag b) (EncodeFlag b) Int8 (if b then 1 else 0))
    by (destruct b; apply (codec_Int8 _ Hz)).
  eapply codec_last; [exact E|destruct b; reflexivity].
Qed.
Lemma safe_EncodeFlag b : enc_safe (EncodeFlag b) (EncodeFlag b).
Proof. eapply enc_safe_codec, codec_EncodeFlag. Qed.
#[local] Hint Resolve codec_EncodeFlag safe_EncodeFlag : codec.

Lemma codec_StopReplicaRequest r : wf r ->
  codec 13 (Encode r) (Encode r) (Decode (APIVersion r)) r.
Proof. unfold Encode, Decode, wf. codec_record H. Qed.
Lemma safe_StopReplicaRequest r : enc_safe (Encode r) (Encode r).
Proof. unfold Encode; enc_safe_go. Qed.
End StopReplicaRequest.

Module StopReplicaResponsePartition.
Record t := mk { Topic : string; Partition : Z; ErrorCode : Z }.
#[global] Instance eq_dec : EqDecision t. Proof. solve_decision. Defined.

Definition Encode `{PacketEncoder E} (p : t) : M E unit :=
  PutString (Topic p) ;; PutInt32 (Partition p) ;; PutInt16 (ErrorCode p).

Lemma safe_StopReplicaResponsePartition p : enc_safe (Encode p) (Encode p).
Proof. unfold Encode; enc_safe_go. Qed.
End StopReplicaResponsePartition.
#[export] Hint Resolve StopReplicaResponsePartition.safe_StopReplicaResponsePartition : codec.

Module StopReplicaResponse.
Record t := mk { ErrorCode : Z; Partitions : list StopReplicaResponsePartition.t }.
#[global] Instance eq_dec : EqDecision t. Proof. solve_decision. Defined.

Definition Encode `{PacketEncoder E} (r : t) : M E unit :=
  PutInt16 (ErrorCode r) ;; encodeArray (Partitions r) StopReplicaResponsePartition.Encode.
(** The slice has nil pointers, whose fields the loop assigns: a panic as soon
    as there is one partition. *)
Definition Decode : M ByteDecoder t :=
  ec ← Int16; n ← ArrayLength;
  if n =? 0 then mret (mk ec []) else crash.

Definition wf (r : t) : Prop := in_int 16 (ErrorCode r) /\ Partitions r = [].
#[global] Instance wf_dec r : Decision (wf r). Proof. unfold wf; apply _. Defined.

Lemma codec_StopReplicaResponse r : wf r -> codec 6 (Encode r) (Encode r) Decode r.
Proof.
  unfold Encode, Decode, wf. destruct r as [ec ps]; cbn [ErrorCode Partitions]. intros [He ->].
  eapply (codec_bind 2 4); [apply codec_Int16, He|].
  eapply codec_last; [apply codec_empty_array|reflexivity].
Qed.
Lemma safe_StopReplicaResponse r : enc_safe (Encode r) (Encode r).
Proof. unfold Encode; enc_safe_go. Qed.

(** One partition in the response: decoding it panics. *)
Example stop_replica_response_panics :
  exists bs, Encoder.Encode (Encode (mk 0 [StopReplicaResponsePartition.mk "t" 0 0]))
               (Encode (mk 0 [StopReplicaResponsePartition.mk "t" 0 0])) = Ret bs tt /\
    Decoder.Decode bs Decode = Crash.
Proof. eexists. split; [vm_compute; reflexivity|vm_compute; reflexivity]. Qed.
End StopReplicaResponse.

(** ** Messages without fields *)

(** [UpdateMetadataRequest], [ControlledShutdownRequest] and
    [SaslHandshakeRequest]: nothing is written, and [Decode] does not even
    store the version. *)
Module EmptyRequest.
Record t := mk { APIVersion : Z }.
Definition Encode `{PacketEncoder E} (r : t) : M E unit := mret tt.
Definition Decode (version : Z) : M ByteDecoder t := mret (mk 0).

Lemma codec_EmptyRequest r v : codec 0 (Encode r) (Encode r) (Decode v) (mk 0).
Proof. apply codec_ret. Qed.
End EmptyRequest.

(** [UpdateMetadataResponse] and [SaslHandshakeResponse]. *)
Module EmptyResponse.
Record t := mk { }.
Definition Encode `{PacketEncoder E} (r : t) : M E unit := mret tt.
Definition Decode (version : Z) : M ByteDecoder t := mret mk.

Lemma codec_EmptyResponse r v : codec 0 (Encode r) (Encode r) (Decode v) r.
Proof. destruct r. apply codec_ret. Qed.
End EmptyResponse.

Module ControlledShutdownResponse.
Record t := mk { APIVersion : Z }.
Definition Encode `{PacketEncoder E} (r : t) : M E unit := mret tt.
Definition Decode (version : Z) : M ByteDecoder t := mret (mk version).

Lemma codec_ControlledShutdownResponse r :
  codec 0 (Encode r) (Encode r) (Decode (APIVersion r)) r.
Proof. destruct r. apply codec_ret. Qed.
End ControlledShutdownResponse.

(** ** Alter configs *)
Module AlterConfigsEntry.
Record t := mk { Name : string; Value : option string }.
#[global] Instance eq_dec : EqDecision t. Proof. solve_decision. Defined.

Definition Encode `{PacketEncoder E} (r : t) : M E unit :=
  PutString (Name r) ;; PutNullableString (Value r).
Definition Decode : M ByteDecoder t := name ← String; value ← NullableString; mret (mk name value).

Definition wf (r : t) : Prop := wf_string (Name r) /\ wf_nstring (Value r).
#[global] Instance wf_dec r : Decision (wf r). Proof. unfold wf; apply _. Defined.

Lemma codec_AlterConfigsEntry r : wf r -> codec 4 (Encode r) (Encode r) Decode r.
Proof. unfold Encode, Decode, wf. codec_record H. Qed.
Lemma safe_AlterConfigsEntry r : enc_safe (Encode r) (Encode r).
Proof. unfold Encode; enc_safe_go. Qed.
End AlterConfigsEntry.
#[export] Hint Resolve AlterConfigsEntry.codec_AlterConfigsEntry
  AlterConfigsEntry.safe_AlterConfigsEntry : codec.

Module AlterConfigsResource.
Record t := mk { Type_ : Z; Name : string; Entries : list AlterConfigsEntry.t }.
#[global] Instance eq_dec : EqDecision t. Proof. solve_decision. Defined.

Definition Encode `{PacketEncoder E} (r : t) : M E unit :=
  PutInt8 (Type_ r) ;; PutString (Name r) ;; encodeArray (Entries r) AlterConfigsEntry.Encode.
Definition Decode : M ByteDecoder t :=
  ty ← Int8; name ← String; entries ← decodeArray AlterConfigsEntry.Decode;
  mret (mk ty name entries).

Definition wf (r : t) : Prop :=
  in_int 8 (Type_ r) /\ wf_string (Name r) /\ wf_array AlterConfigsEntry.wf (Entries r).
#[global] Instance wf_dec r : Decision (wf r). Proof. unfold wf; apply _. Defined.

Lemma codec_AlterConfigsResource r : wf r -> codec 7 (Encode r) (Encode r) Decode r.
Proof. unfold Encode, Decode, wf. codec_record H. Qed.
Lemma safe_AlterConfigsResource r : enc_safe (Encode r) (Encode r).
Proof. unfold Encode; enc_safe_go. Qed.
End AlterConfigsResource.
#[export] Hint Resolve AlterConfigsResource.codec_AlterConfigsResource
  AlterConfigsResource.safe_AlterConfigsResource : codec.

Module AlterConfigsRequest.
Record t := mk { APIVersion : Z; Resources : list AlterConfigsResource.t; ValidateOnly : bool }.
#[global] Instance eq_dec : EqDecision t. Proof. solve_decision. Defined.

Definition Encode `{PacketEncoder E} (r : t) : M E unit :=
  encodeArray (Resources r) AlterConfigsResource.Encode ;; PutBool (ValidateOnly r).
Definition Decode (version : Z) : M ByteDecoder t :=
  resources ← decodeArray AlterConfigsResource.Decode; vo ← Bool; mret (mk version resources vo).

Definition wf (r : t) : Prop := wf_array AlterConfigsResource.wf (Resources r).
#[global] Instance wf_dec r : Decision (wf r). Proof. unfold wf; apply _. Defined.

Lemma codec_AlterConfigsRequest r : wf r ->
  codec 5 (Encode r) (Encode r) (Decode (APIVersion r)) r.
Proof. unfold Encode, Decode, wf. codec_record H. Qed.
Lemma safe_AlterConfigsRequest r : enc_safe (Encode r) (Encode r).
Proof. unfold Encode; enc_safe_go. Qed.
End AlterConfigsRequest.

Module AlterConfigResourceResponse.
Record t := mk { ErrorCode : Z; ErrorMessage : option string; Type_ : Z; Name : string }.
#[global] Instance eq_dec : EqDecision t. Proof. solve_decision. Defined.

Definition Encode `{PacketEncoder E} (r : t) : M E unit :=
  PutInt16 (ErrorCode r) ;; PutNullableString (ErrorMessage r) ;; PutInt8 (Type_ r) ;;
  PutString (Name r).
Definition Decode : M ByteDecoder t :=
  ec ← Int16; msg ← NullableString; ty ← Int8; name ← String; mret (mk ec msg ty name).

Definition wf (r : t) : Prop :=
  in_int 16 (ErrorCode r) /\ wf_nstring (ErrorMessage r) /\ in_int 8 (Type_ r) /\
  wf_string (Name r).
#[global] Instance wf_dec r : Decision (wf r). Proof. unfold wf; apply _. Defined.

Lemma codec_AlterConfigResourceResponse r : wf r -> codec 7 (Encode r) (Encode r) Decode r.
Proof. unfold Encode, Decode, wf. codec_record H. Qed.
End AlterConfigResourceResponse.
#[export] Hint Resolve AlterConfigResourceResponse.codec_AlterConfigResourceResponse : codec.

Module AlterConfigsResponse.
Record t := mk {
  APIVersion : Z; ThrottleTime : Z; Resources : list AlterConfigResourceResponse.t }.
#[global] Instance eq_dec : EqDecision t. Proof. solve_decision. Defined.

(** The error of [PutArrayLength] is not looked at. *)
Definition Encode `{PacketEncoder E} (r : t) : M E unit :=
  PutInt32 (durationMillis (ThrottleTime r)) ;;
  encodeArrayUnchecked (Resources r) AlterConfigResourceResponse.Encode.
Definition Decode (version : Z) : M ByteDecoder t :=
  throttle ← DurationMs; resources ← decodeArray AlterConfigResourceResponse.Decode;
  mret (mk version throttle resources).

Definition wf (r : t) : Prop :=
  wf_duration (ThrottleTime r) /\ wf_array AlterConfigResourceResponse.wf (Resources r).
#[global] Instance wf_dec r : Decision (wf r). Proof. unfold wf; apply _. Defined.

Lemma codec_AlterConfigsResponse r : wf r ->
  codec 8 (Encode r) (Encode r) (Decode (APIVersion r)) r.
Proof.
  intros [Ht Hr]. unfold Encode, Decode. eapply (codec_bind 4 4); [apply codec_DurationMs, Ht|].
  eapply codec_last; [apply codec_unchecked; [apply Hr|]|].
  - eapply codec_wf_array; [exact Hr|]. intros x Hx.
    eapply codec_weaken;
      [apply AlterConfigResourceResponse.codec_AlterConfigResourceResponse, Hx|lia].
  - eta_record.
Qed.
End AlterConfigsResponse.

(** ** Describe configs *)
Module DescribeConfigsResource.
Record t := mk { Type_ : Z; Name : string; ConfigNames : list string }.
#[global] Instance eq_dec : EqDecision t. Proof. solve_decision. Defined.

Definition Encode `{PacketEncoder E} (r : t) : M E unit :=
  PutInt8 (Type_ r) ;; PutString (Name r) ;; PutStringArray (ConfigNames r).
Definition Decode : M ByteDecoder t :=
  ty ← Int8; name ← String; names ← StringArray; mret (mk ty name names).

Definition wf (r : t) : Prop :=
  in_int 8 (Type_ r) /\ wf_string (Name r) /\ wf_strings (ConfigNames r).
#[global] Instance wf_dec r : Decision (wf r). Proof. unfold wf; apply _. Defined.

Lemma codec_DescribeConfigsResource r : wf r -> codec 7 (Encode r) (Encode r) Decode r.
Proof. unfold Encode, Decode, wf. codec_record H. Qed.
Lemma safe_DescribeConfigsResource r : enc_safe (Encode r) (Encode r).
Proof. unfold Encode; enc_safe_go. Qed.
End DescribeConfigsResource.
#[export] Hint Resolve DescribeConfigsResource.codec_DescribeConfigsResource
  DescribeConfigsResource.safe_DescribeConfigsResource : codec.

Module DescribeConfigsRequest.
Record t := mk {
  APIVersion : Z; Resources : list DescribeConfigsResource.t; IncludeSynonyms : bool }.
#[global] Instance eq_dec : EqDecision t. Proof. solve_decision. Defined.

Definition Encode `{PacketEncoder E} (r : t) : M E unit :=
  encodeArray (Resources r) DescribeConfigsResource.Encode ;;
  when (1 <=? APIVersion r) (PutBool (IncludeSynonyms r)).
Definition Decode (version : Z) : M ByteDecoder t :=
  resources ← decodeArray DescribeConfigsResource.Decode;
  synonyms ← (if 1 <=? version then Bool else mret false);
  mret (mk version resources synonyms).

Definition wf (r : t) : Prop :=
  wf_array DescribeConfigsResource.wf (Resources r) /\
  since (1 <=? APIVersion r) (fun _ => True) false (IncludeSynonyms r).
#[global] Instance wf_dec r : Decision (wf r). Proof. unfold wf; apply _. Defined.

Lemma codec_DescribeConfigsRequest r : wf r ->
  codec 4 (Encode r) (Encode r) (Decode (APIVersion r)) r.
Proof. unfold Encode, Decode, wf. codec_record H. Qed.
Lemma safe_DescribeConfigsRequest r : enc_safe (Encode r) (Encode r).
Proof. unfold Encode; enc_safe_go. Qed.
End DescribeConfigsRequest.

Module DescribeConfigsSynonym.
Record t := mk { Name : string; Value : option string; Source : Z }.
#[global] Instance eq_dec : EqDecision t. Proof. solve_decision. Defined.

Definition Encode `{PacketEncoder E} (r : t) : M E unit :=
  PutString (Name r) ;; PutNullableString (Value r) ;; PutInt8 (Source r).
Definition Decode : M ByteDecoder t :=
  name ← String; value ← NullableString; source ← Int8; mret (mk name value source).

Definition wf (r : t) : Prop := wf_string (Name r) /\ wf_nstring (Value r) /\ in_int 8 (Source r).
#[global] Instance wf_dec r : Decision (wf r). Proof. unfold wf; apply _. Defined.

Lemma codec_DescribeConfigsSynonym r : wf r -> codec 5 (Encode r) (Encode r) Decode r.
Proof. unfold Encode, Decode, wf. codec_record H. Qed.
Lemma safe_DescribeConfigsSynonym r : enc_safe (Encode r) (Encode r).
Proof. unfold Encode; enc_safe_go. Qed.
End DescribeConfigsSynonym.
#[export] Hint Resolve DescribeConfigsSynonym.codec_DescribeConfigsSynonym
  DescribeConfigsSynonym.safe_DescribeConfigsSynonym : codec.

Module DescribeConfigsEntry.
Record t := mk {
  Name : string; Value : option string; ReadOnly : bool; IsDefault : bool; IsSensitive : bool;
  Synonyms : list DescribeConfigsSynonym.t }.
#[global] Instance eq_dec : EqDecision t. Proof. solve_decision. Defined.

Definition Encode `{PacketEncoder E} (version : Z) (r : t) : M E unit :=
  PutString (Name r) ;; PutNullableString (Value r) ;; PutBool (ReadOnly r) ;;
  PutBool (IsDefault r) ;; PutBool (IsSensitive r) ;;
  when (1 <=? version) (encodeArray (Synonyms r) DescribeConfigsSynonym.Encode).
Definition Decode (version : Z) : M ByteDecoder t :=
  name ← String; value ← NullableString; ro ← Bool; def ← Bool; sens ← Bool;
  syns ← (if 1 <=? version then decodeArray DescribeConfigsSynonym.Decode else mret []);
  mret (mk name value ro def sens syns).

Definition wf (version : Z) (r : t) : Prop :=
  wf_string (Name r) /\ wf_nstring (Value r) /\
  since (1 <=? version) (wf_array DescribeConfigsSynonym.wf) [] (Synonyms r).
#[global] Instance wf_dec v r : Decision (wf v r). Proof. unfold wf; apply _. Defined.

Lemma codec_DescribeConfigsEntry v r : wf v r -> codec 7 (Encode v r) (Encode v r) (Decode v) r.
Proof. unfold Encode, Decode, wf. codec_record H. Qed.
Lemma safe_DescribeConfigsEntry v r : enc_safe (Encode v r) (Encode v r).
Proof. unfold Encode; enc_safe_go. Qed.
End DescribeConfigsEntry.
#[export] Hint Resolve DescribeConfigsEntry.codec_DescribeConfigsEntry
  DescribeConfigsEntry.safe_DescribeConfigsEntry : codec.

Module DescribeConfigsResourceResponse.
Record t := mk {
  ErrorCode : Z; ErrorMessage : option string; Type_ : Z; Name : string;
  ConfigEntries : list DescribeConfigsEntry.t }.
#[global] Instance eq_dec : EqDecision t. Proof. solve_decision. Defined.

Definition Encode `{PacketEncoder E} (version : Z) (r : t) : M E unit :=
  PutInt16 (ErrorCode r) ;; PutNullableString (ErrorMessage r) ;; PutInt8 (Type_ r) ;;
  PutString (Name r) ;; encodeArray (ConfigEntries r) (DescribeConfigsEntry.Encode version).
Definition Decode (version : Z) : M ByteDecoder t :=
  ec ← Int16; msg ← NullableString; ty ← Int8; name ← String;
  entries ← decodeArray (DescribeConfigsEntry.Decode version);
  mret (mk ec msg ty name entries).

Definition wf (version : Z) (r : t) : Prop :=
  in_int 16 (ErrorCode r) /\ wf_nstring (ErrorMessage r) /\ in_int 8 (Type_ r) /\
  wf_string (Name r) /\ wf_array (DescribeConfigsEntry.wf version) (ConfigEntries r).
#[global] Instance wf_dec v r : Decision (wf v r). Proof. unfold wf; apply _. Defined.

Lemma codec_DescribeConfigsResourceResponse v r : wf v r ->
  codec 11 (Encode v r) (Encode v r) (Decode v) r.
Proof. unfold Encode, Decode, wf. codec_record H. Qed.
Lemma safe_DescribeConfigsResourceResponse v r : enc_safe (Encode v r) (Encode v r).
Proof. unfold Encode; enc_safe_go. Qed.
End DescribeConfigsResourceResponse.
#[export] Hint Resolve DescribeConfigsResourceResponse.codec_DescribeConfigsResourceResponse
  DescribeConfigsResourceResponse.safe_DescribeConfigsResourceResponse : codec.

Module DescribeConfigsResponse.
Record t := mk {
  APIVersion : Z; ThrottleTime : Z; Resources : list DescribeConfigsResourceResponse.t }.
#[global] Instance eq_dec : EqDecision t. Proof. solve_decision. Defined.

Definition Encode `{PacketEncoder E} (r : t) : M E unit :=
  PutInt32 (durationMillis (ThrottleTime r)) ;;
  encodeArray (Resources r) (DescribeConfigsResourceResponse.Encode (APIVersion r)).
Definition Decode (version : Z) : M ByteDecoder t :=
  throttle ← DurationMs;
  resources ← decodeArray (DescribeConfigsResourceResponse.Decode version);
  mret (mk version throttle resources).

Definition wf (r : t) : Prop :=
  wf_duration (ThrottleTime r) /\
  wf_array (DescribeConfigsResourceResponse.wf (APIVersion r)) (Resources r).
#[global] Instance wf_dec r : Decision (wf r). Proof. unfold wf; apply _. Defined.

Lemma codec_DescribeConfigsResponse r : wf r ->
  codec 8 (Encode r) (Encode r) (Decode (APIVersion r)) r.
Proof. unfold Encode, Decode, wf. codec_record H. Qed.
Lemma safe_DescribeConfigsResponse r : enc_safe (Encode r) (Encode r).
Proof. unfold Encode; enc_safe_go. Qed.
End DescribeConfigsResponse.
