(* ===== verification/MessageSets.v ===== *)
(** * Messages and message sets

    [message.go] and [message_set.go] of [src/protocol]: a message under its
    CRC, a set of messages under its offset and size.  [MessageSet.Decode]
    reads messages until the buffer is exhausted. *)
From S2P Require Import Prelude Encoder Decoder Codec.

(** ** Push and Pop around a decoder *)
Definition framed {A} (f : PushField) (D : M ByteDecoder A) : M ByteDecoder A :=
  DPush f ;; a ← D; DPop ;; mret a.

(** What [Fill] writes, [Check] accepts. *)
Lemma reads_framed {A} f w (D : M ByteDecoder A) bs a :
  f = SizeField 0 \/ f = CRCField 0 ->
  (forall pre post,
     Check (SaveOffset f (length pre)) (length pre + 4 + length bs)
       (pre ++ be_put 4 w ++ bs ++ post) = Some None) ->
  reads D bs a -> reads (framed f D) (be_put 4 w ++ bs) a.
Proof.
  intros Hf Hc Hr pre post stk. unfold framed.
  assert (HP : DPush f (mkByteDecoder (pre ++ (be_put 4 w ++ bs) ++ post) (length pre) stk) =
    Ret tt (mkByteDecoder (pre ++ (be_put 4 w ++ bs) ++ post) (length pre + 4)
              (SaveOffset f (length pre) :: stk))).
  { unfold DPush, remaining; cbn [dbuf doff dstack].
    clear Hc Hr. destruct Hf as [-> | ->]; cbn [SaveOffset]; unfold ReserveSize;
      (rewrite (proj2 (Z.ltb_ge _ _)) by len_solve); reflexivity. }
  erewrite bind_Ret by exact HP.
  specialize (Hr (pre ++ be_put 4 w) post (SaveOffset f (length pre) :: stk)).
  rewrite length_app, length_be_put, <- !app_assoc in Hr. rewrite <- app_assoc.
  erewrite bind_Ret by exact Hr.
  unfold mbind, M_bind, DPop; cbn [dstack doff dbuf]. rewrite Hc. unfold mret, M_ret.
  do 2 f_equal. rewrite length_app, length_be_put. lia.
Qed.

Lemma slice_mid {A} (pre mid post : list A) n :
  n = (length pre + length mid)%nat -> slice (pre ++ mid ++ post) (length pre) n = Some mid.
Proof.
  intros ->. unfold slice. rewrite decide_True by (rewrite !length_app; lia).
  replace (length pre + length mid - length pre)%nat with (length mid) by lia.
  rewrite slice_app. reflexivity.
Qed.

Lemma check_word pre w rest : slice (pre ++ be_put 4 w ++ rest) (length pre) (length pre + 4) =
  Some (be_put 4 w).
Proof. apply slice_mid. rewrite length_be_put. reflexivity. Qed.

Lemma codec_SizeField {A} k EL EB (D : M ByteDecoder A) a :
  codec k EL EB D a ->
  codec (4 + k) (Push (SizeField 0) ;; EL ;; Pop) (Push (SizeField 0) ;; EB ;; Pop)
    (framed (SizeField 0) D) a.
Proof.
  intros (bs & Hk & He & Hr). eexists. split; [|split; [apply encodes_SizeField, He|]]; [len_solve|].
  apply reads_framed; [auto| |exact Hr]. intros pre post. cbn [SaveOffset Check].
  rewrite check_word. cbn. rewrite be_get_put.
  replace (Z.of_nat (length pre + 4 + length bs) - Z.of_nat (length pre) - 4) with (len bs)
    by (unfold len; lia).
  unfold uint32, zext. rewrite Z.mod_mod by lia. rewrite Z.eqb_refl. reflexivity.
Qed.

Lemma codec_CRCField {A} k EL EB (D : M ByteDecoder A) a :
  codec k EL EB D a ->
  codec (4 + k) (Push (CRCField 0) ;; EL ;; Pop) (Push (CRCField 0) ;; EB ;; Pop)
    (framed (CRCField 0) D) a.
Proof.
  intros (bs & Hk & He & Hr). eexists. split; [|split; [apply encodes_CRCField, He|]]; [len_solve|].
  apply reads_framed; [auto| |exact Hr]. intros pre post. cbn [SaveOffset Check].
  rewrite check_word.
  rewrite (app_assoc pre). replace (length pre + 4)%nat with (length (pre ++ be_put 4 (Crc32.ChecksumIEEE bs)))
    by len_solve.
  rewrite slice_mid by len_solve. cbn. rewrite be_get_put, Z.mod_small, Z.eqb_refl; [reflexivity|].
  apply Crc32.ChecksumIEEE_range.
Qed.

(** A field whose check fails: the decoder returns the error of the check. *)
Lemma framed_rejects {A} f w (D : M ByteDecoder A) bs a e :
  f = SizeField 0 \/ f = CRCField 0 ->
  Check (SaveOffset f 0) (4 + length bs) (be_put 4 w ++ bs) = Some (Some e) ->
  reads D bs a -> Decode (be_put 4 w ++ bs) (framed f D) = Fail e tt.
Proof.
  intros Hf Hc Hr. unfold Decode, framed, NewDecoder.
  assert (HP : DPush f (mkByteDecoder (be_put 4 w ++ bs) 0 []) =
    Ret tt (mkByteDecoder (be_put 4 w ++ bs) 4 [SaveOffset f 0])).
  { unfold DPush, remaining; cbn [dbuf doff dstack].
    destruct Hf as [-> | ->]; cbn [SaveOffset]; unfold ReserveSize;
      (rewrite (proj2 (Z.ltb_ge _ _)) by len_solve); reflexivity. }
  erewrite bind_Ret by exact HP.
  specialize (Hr (be_put 4 w) [] [SaveOffset f 0]). rewrite app_nil_r, length_be_put in Hr.
  erewrite bind_Ret by exact Hr. unfold mbind, M_bind, DPop; cbn [dstack doff dbuf]. rewrite Hc. reflexivity.
Qed.

Module Message.
Record t := mk {
  Crc : Z; MagicByte : Z; Attributes : Z; Timestamp : Z;
  Key : option (list byte); Value : option (list byte) }.
#[global] Instance eq_dec : EqDecision t. Proof. solve_decision. Defined.

(** The fields between [Push] and [Pop]. *)
Definition EncodeFields `{PacketEncoder E} (m : t) : M E unit :=
  PutInt8 (MagicByte m) ;;
  PutInt8 (Attributes m) ;;
  when (0 <? MagicByte m) (PutInt64 (timeMillis (Timestamp m))) ;;
  PutBytes (Key m) ;;
  PutBytes (Value m).
Definition Encode `{PacketEncoder E} (m : t) : M E unit :=
  Push (CRCField 0) ;; EncodeFields m ;; Pop.

(** The [Crc] field of the struct is never set. *)
Definition DecodeFields : M ByteDecoder t :=
  magic ← Int8;
  attributes ← Int8;
  timestamp ← (if 0 <? magic then TimeMs else mret zeroTime);
  key ← Bytes;
  value ← Bytes;
  mret (mk 0 magic attributes timestamp key value).
Definition Decode : M ByteDecoder t := framed (CRCField 0) DecodeFields.

Definition wf (m : t) : Prop :=
  Crc m = 0 /\ in_int 8 (MagicByte m) /\ in_int 8 (Attributes m) /\
  since (0 <? MagicByte m) wf_time zeroTime (Timestamp m) /\ wf_bytes (Key m) /\ wf_bytes (Value m).
#[global] Instance wf_dec m : Decision (wf m). Proof. unfold wf; apply _. Defined.

Lemma codec_fields m : wf m -> codec 10 (EncodeFields m) (EncodeFields m) DecodeFields m.
Proof.
  unfold EncodeFields, DecodeFields, wf.
  destruct m; cbn [Crc MagicByte Attributes Timestamp Key Value]. intros (-> & H).
  revert H. codec_record H.
Qed.

Lemma codec_Message m : wf m -> codec 14 (Encode m) (Encode m) Decode m.
Proof. intros H. apply (codec_CRCField 10), codec_fields, H. Qed.

(** With any other checksum in front of them, the fields are rejected. *)
Lemma wrong_crc m : wf m -> exists bs, Encoder.Encode (Encode m) (Encode m) = Ret bs tt /\
  forall w, in_uint 32 w -> w <> be_get (take 4 bs) ->
    Decoder.Decode (be_put 4 w ++ drop 4 bs) Decode = Fail (ErrOther "crc didn't match") tt.
Proof.
  intros Hm. destruct (codec_fields m Hm) as (fs & _ & He & Hr).
  eexists. split; [apply encodes_Encode, encodes_CRCField, He|]. intros w Hw Hne.
  rewrite (take_app_exact 4), be_get_put, Z.mod_small in Hne
    by (apply length_be_put || apply Crc32.ChecksumIEEE_range).
  rewrite (drop_app_exact 4) by apply length_be_put.
  eapply framed_rejects; [auto| |exact Hr]. cbn [SaveOffset Check].
  assert (H1 : slice (be_put 4 w ++ fs) 0 4 = Some (be_put 4 w)) by apply (check_word [] w fs).
  assert (H2 : slice (be_put 4 w ++ fs) 4 (4 + length fs) = Some fs).
  { pose proof (slice_mid (be_put 4 w) fs [] (4 + length fs)) as H.
    rewrite app_nil_r, length_be_put in H. apply H. reflexivity. }
  change (0 + 4)%nat with 4%nat. rewrite H2, H1. cbn [mbind option_bind mret option_ret].
  rewrite be_get_put, Z.mod_small by exact Hw. rewrite (proj2 (Z.eqb_neq _ _)) by congruence. reflexivity.
Qed.
Lemma safe_Message m : enc_safe (Encode m) (Encode m).
Proof.
  unfold Encode. apply enc_safe_field; [|auto]. unfold EncodeFields; enc_safe_go.
Qed.
End Message.
#[export] Hint Resolve Message.codec_Message Message.safe_Message : codec.

(** ** Progress of decoders

    A decoder that returns has consumed at least [k] bytes of the buffer, has
    not gone past its end and has not changed it. *)
Definition consumes {A} (k : nat) (D : M ByteDecoder A) : Prop := forall d a d',
  (doff d <= length (dbuf d))%nat -> D d = Ret a d' ->
  dbuf d' = dbuf d /\ (doff d + k <= doff d' <= length (dbuf d))%nat.

Lemma consumes_ret {A} (a : A) : consumes 0 (mret a).
Proof. intros d a' d' Hd [= _ <-]. split; [reflexivity|lia]. Qed.

Lemma consumes_bind {A B} j k (D : M ByteDecoder A) (f : A -> M ByteDecoder B) :
  consumes j D -> (forall a, consumes k (f a)) -> consumes (j + k) (D ≫= f).
Proof.
  intros HD Hf d b d' Hd H. unfold mbind, M_bind in H. destruct (D d) as [a d1|e d1|] eqn:E; try discriminate.
  destruct (HD _ _ _ Hd E) as [E1 H1]. destruct (Hf a d1 b d') as [E2 H2]; [rewrite E1; lia|exact H|].
  rewrite E1 in *. split; [congruence|lia].
Qed.

Lemma consumes_weaken {A} j k (D : M ByteDecoder A) : consumes j D -> (k <= j)%nat -> consumes k D.
Proof. intros H Hk d a d' Hd E. destruct (H _ _ _ Hd E) as [E1 H1]. split; [exact E1|lia]. Qed.

Lemma consumes_throw {A} k e : consumes k (throw e : M ByteDecoder A).
Proof. intros d a d' _ H. discriminate. Qed.

Lemma consumes_insufficient {A} k : consumes k (insufficient : M ByteDecoder A).
Proof. intros d a d' _ H. discriminate. Qed.

Lemma consumes_remaining {A} k (f : Z -> M ByteDecoder A) :
  (forall r, consumes k (f r)) -> consumes k (r ← gets remaining; f r).
Proof. intros H d a d' Hd E. exact (H _ _ _ _ Hd E). Qed.

Lemma consumes_if {A} k (b : bool) (D1 D2 : M ByteDecoder A) :
  consumes k D1 -> consumes k D2 -> consumes k (if b then D1 else D2).
Proof. destruct b; auto. Qed.

Lemma consumes_get_uint n : consumes n (get_uint n).
Proof.
  intros d a d' Hd. unfold get_uint. case_decide; [|discriminate]. intros [= _ <-].
  cbn [dbuf doff]. split; [reflexivity|lia].
Qed.

Lemma consumes_get_bytes n : consumes n (get_bytes n).
Proof.
  intros d a d' Hd. unfold get_bytes, slice. case_decide; [|discriminate]. intros [= _ <-].
  cbn [dbuf doff]. split; [reflexivity|lia].
Qed.

Lemma consumes_DPush f : consumes 4 (DPush f).
Proof.
  intros d a d' Hd. unfold DPush. destruct (Z.ltb_spec (remaining d) (Z.of_nat (ReserveSize (SaveOffset f (doff d))))).
  - discriminate.
  - intros [= _ <-]. unfold remaining, len, ReserveSize in *. cbn [dbuf doff]. split; [reflexivity|lia].
Qed.

Lemma consumes_DPop : consumes 0 DPop.
Proof.
  intros d a d' Hd. unfold DPop. destruct (dstack d) as [|f stk]; [discriminate|].
  destruct (Check f (doff d) (dbuf d)) as [[e|]|]; try discriminate. intros [= _ <-].
  cbn [dbuf doff]. split; [reflexivity|lia].
Qed.

Lemma consumes_Int8 : consumes 1 Int8.
Proof. apply (consumes_bind 1 0); [apply consumes_get_uint|intros; apply consumes_ret]. Qed.
Lemma consumes_Int32 : consumes 0 Int32.
Proof.
  apply consumes_remaining; intros r. apply consumes_if; [apply consumes_insufficient|].
  eapply consumes_weaken;
    [apply (consumes_bind 4 0); [apply consumes_get_uint|intros; apply consumes_ret]|lia].
Qed.
Lemma consumes_Int64 : consumes 0 Int64.
Proof.
  apply consumes_remaining; intros r. apply consumes_if; [apply consumes_insufficient|].
  eapply consumes_weaken;
    [apply (consumes_bind 8 0); [apply consumes_get_uint|intros; apply consumes_ret]|lia].
Qed.
Lemma consumes_Bytes : consumes 0 Bytes.
Proof.
  apply (consumes_bind 0 0); [apply consumes_Int32|]. intros n. apply consumes_remaining; intros r.
  repeat apply consumes_if; try apply consumes_throw; try apply consumes_ret;
    try apply consumes_insufficient.
  eapply consumes_weaken;
    [apply (consumes_bind (Z.to_nat n) 0); [apply consumes_get_bytes|intros; apply consumes_ret]|lia].
Qed.
Lemma consumes_TimeMs : consumes 0 TimeMs.
Proof. apply (consumes_bind 0 0); [apply consumes_Int64|intros; apply consumes_ret]. Qed.

Lemma consumes_Message : consumes 4 Message.Decode.
Proof.
  unfold Message.Decode, framed. apply (consumes_bind 4 0); [apply consumes_DPush|intros _].
  apply (consumes_bind 0 0).
  - eapply consumes_weaken; [|apply (Nat.le_0_l 1)].
    apply (consumes_bind 1 0); [apply consumes_Int8|intros magic].
    eapply consumes_weaken; [|apply (Nat.le_0_l 1)].
    apply (consumes_bind 1 0); [apply consumes_Int8|intros attrs].
    apply (consumes_bind 0 0); [apply consumes_if; [apply consumes_TimeMs|apply consumes_ret]|intros ts].
    apply (consumes_bind 0 0); [apply consumes_Bytes|intros key].
    apply (consumes_bind 0 0); [apply consumes_Bytes|intros value]. apply consumes_ret.
  - intros m. apply (consumes_bind 0 0); [apply consumes_DPop|intros _; apply consumes_ret].
Qed.

Module MessageSet.
Record t := mk {
  Offset : Z; Size : Z; Messages : list Message.t; PartialTrailingMessages : bool }.
#[global] Instance eq_dec : EqDecision t. Proof. solve_decision. Defined.

(** [Size] is computed by the size field, not taken from the struct. *)
Definition Encode `{PacketEncoder E} (ms : t) : M E unit :=
  PutInt64 (Offset ms) ;;
  Push (SizeField 0) ;; for_each (Messages ms) Message.Encode ;; Pop.

(** [for d.remaining() > 0 { ... }].  [None] is a loop that has not ended after
    [fuel] rounds, which is told apart from every way in which the source ends
    it.  Every round that goes on consumes at least the four bytes of a CRC, so
    that as many rounds as there are bytes are enough ([decodeMessages_ends]). *)
Fixpoint decodeMessages (fuel : nat) (acc : list Message.t) (d : ByteDecoder)
  : option (outcome ByteDecoder (list Message.t * bool)) :=
  if 0 <? remaining d then
    match fuel with
    | O => None
    | S fuel =>
        match Message.Decode d with
        | Ret m d' => decodeMessages fuel (acc ++ [m]) d'
        | Fail ErrInsufficientData d' => Some (Ret (acc, true) d')
        | Fail e d' => Some (Fail e d')
        | Crash => Some Crash
        end
    end
  else Some (Ret (acc, false) d).

(** The loop as a step of [Decode]; there is always a result. *)
Definition decodeAll : M ByteDecoder (list Message.t * bool) := fun d =>
  default Crash (decodeMessages (Z.to_nat (remaining d)) [] d).

Definition Decode : M ByteDecoder t :=
  offset ← Int64;
  size ← Int32;
  mp ← decodeAll;
  mret (mk offset size (fst mp) (snd mp)).

Definition wf (ms : t) : Prop := in_int 64 (Offset ms) /\ Forall Message.wf (Messages ms).
#[global] Instance wf_dec ms : Decision (wf ms). Proof. unfold wf; apply _. Defined.

Lemma safe_MessageSet ms : enc_safe (Encode ms) (Encode ms).
Proof.
  unfold Encode. apply enc_safe_seq; [auto with codec|]. apply enc_safe_field; [|auto].
  apply enc_safe_for_each. intros m. apply Message.safe_Message.
Qed.

(** The loop ends by itself, within as many rounds as there are bytes. *)
Lemma decodeMessages_ends fuel acc d : (doff d <= length (dbuf d))%nat -> remaining d <= Z.of_nat fuel ->
  exists r, forall fuel', (fuel <= fuel')%nat -> decodeMessages fuel' acc d = Some r.
Proof.
  revert acc d. induction fuel as [|fuel IH]; intros acc d Hd Hf.
  - exists (Ret (acc, false) d). intros fuel' _. destruct fuel'; cbn [decodeMessages];
      rewrite (proj2 (Z.ltb_ge _ _)) by lia; reflexivity.
  - destruct (Z.ltb_spec 0 (remaining d)) as [Hr|Hr].
    + destruct (Message.Decode d) as [m d'|e d'|] eqn:E.
      * destruct (consumes_Message _ _ _ Hd E) as [Eb Ho].
        destruct (IH (acc ++ [m]) d') as [r Hr']; [rewrite Eb; lia|unfold remaining, len in *; rewrite Eb; lia|].
        exists r. intros [|fuel'] Hle; [lia|]. cbn [decodeMessages]. rewrite (proj2 (Z.ltb_lt _ _)), E by exact Hr.
        apply Hr'. lia.
      * exists (match e with ErrInsufficientData => Ret (acc, true) d' | _ => Fail e d' end).
        intros [|fuel'] Hle; [lia|]. cbn [decodeMessages]. rewrite (proj2 (Z.ltb_lt _ _)), E by exact Hr.
        destruct e; reflexivity.
      * exists Crash. intros [|fuel'] Hle; [lia|]. cbn [decodeMessages]. rewrite (proj2 (Z.ltb_lt _ _)), E by exact Hr.
        reflexivity.
    + exists (Ret (acc, false) d). intros fuel' _. destruct fuel'; cbn [decodeMessages];
        rewrite (proj2 (Z.ltb_ge _ _)) by lia; reflexivity.
Qed.

(** Messages written one after the other up to the end of the buffer. *)
Lemma decodeMessages_app fuel acc msgs bss pre rest stk :
  Forall2 (fun m bs => (4 <= length bs)%nat /\ reads Message.Decode bs m) msgs bss ->
  decodeMessages (length msgs + fuel) acc (mkByteDecoder (pre ++ concat bss ++ rest) (length pre) stk) =
  decodeMessages fuel (acc ++ msgs)
    (mkByteDecoder (pre ++ concat bss ++ rest) (length (pre ++ concat bss)) stk).
Proof.
  intros H. revert acc pre. induction H as [|m bs msgs bss [Hl Hm] _ IH]; intros acc pre.
  - rewrite !app_nil_r. reflexivity.
  - cbn [concat length Nat.add decodeMessages]. rewrite <- (app_assoc bs).
    rewrite (proj2 (Z.ltb_lt _ _)) by (unfold remaining; cbn [dbuf doff]; len_solve).
    rewrite Hm. rewrite app_assoc, <- length_app, IH, <- !app_assoc. reflexivity.
Qed.

(** A rest too short for a CRC ends the loop: nothing left is the end of the
    set, and one to three bytes a message cut off. *)
Lemma decodeMessages_tail fuel acc pre tail stk :
  (length tail < 4)%nat -> (length tail <= fuel)%nat ->
  exists d, decodeMessages fuel acc (mkByteDecoder (pre ++ tail) (length pre) stk) =
    Some (Ret (acc, negb (bool_decide (tail = []))) d).
Proof.
  intros Ht Hf. destruct tail as [|b tail].
  - rewrite app_nil_r. destruct fuel; cbn [decodeMessages];
      rewrite (proj2 (Z.ltb_ge _ _)) by (unfold remaining, len; cbn [dbuf doff]; lia);
      eexists; reflexivity.
  - destruct fuel as [|fuel]; [simpl in Hf; lia|]. cbn [decodeMessages].
    rewrite (proj2 (Z.ltb_lt _ _)) by (unfold remaining; cbn [dbuf doff]; len_solve).
    set (d := mkByteDecoder _ _ _).
    assert (Hd : DPush (CRCField 0) d = insufficient d).
    { unfold DPush. rewrite (proj2 (Z.ltb_lt _ _)); [reflexivity|].
      unfold ReserveSize, remaining, d; cbn [dbuf doff]. len_solve. }
    unfold Message.Decode, framed. erewrite bind_Fail by exact Hd. eexists; reflexivity.
Qed.

Lemma messages_bytes msgs : Forall Message.wf msgs ->
  exists bss, encodes (for_each msgs Message.Encode) (for_each msgs Message.Encode) (concat bss) /\
    Forall2 (fun m bs => (4 <= length bs)%nat /\ reads Message.Decode bs m) msgs bss.
Proof.
  intros H. assert (Hb : exists bss, Forall2 (fun m bs => encodes (Message.Encode m) (Message.Encode m) bs) msgs bss /\
    Forall2 (fun m bs => (4 <= length bs)%nat /\ reads Message.Decode bs m) msgs bss).
  { induction H as [|m msgs Hm _ (bss & He & Hr)]; [exists []; split; constructor|].
    destruct (Message.codec_Message m Hm) as (bs & Hk & Hm1 & Hm2). exists (bs :: bss).
    split; constructor; [exact Hm1|exact He|split; [lia|exact Hm2]|exact Hr]. }
  destruct Hb as (bss & He & Hr). exists bss. split; [apply encodes_for_each, He|exact Hr].
Qed.

Lemma length_messages msgs bss :
  Forall2 (fun m bs => (4 <= length bs)%nat /\ reads Message.Decode bs m) msgs bss ->
  (length msgs <= length (concat bss))%nat.
Proof.
  induction 1 as [|m bs msgs bss [Hl _] _ IH]; [simpl; lia|]. simpl. rewrite length_app. lia.
Qed.

Lemma decode_after_header o sz b8 b4 rest :
  reads Int64 b8 o -> reads Int32 b4 sz ->
  Decode (NewDecoder ((b8 ++ b4) ++ rest)) =
  (mp ← decodeAll; mret (mk o sz (fst mp) (snd mp)))
    (mkByteDecoder ((b8 ++ b4) ++ rest) (length (b8 ++ b4)) []).
Proof.
  intros H8 H4. unfold Decode, NewDecoder. rewrite <- app_assoc.
  erewrite bind_Ret by apply (H8 [] (b4 ++ rest) []).
  erewrite bind_Ret by apply (H4 b8 rest []). rewrite length_app. reflexivity.
Qed.

Lemma reads_Int32_wrap z : reads Int32 (be_put 4 (uint32 z)) (int32 z).
Proof.
  unfold int32. rewrite <- (sext_zext 32 z) by lia. fold (uint32 z).
  pose proof (reads_checked 4 (x ← get_uint 4; mret (int32 x)) (be_put 4 (uint32 z)) (int32 (uint32 z))) as H.
  apply H; [len_solve|]. rewrite <- (Z.mod_small (uint32 z) (2 ^ (8 * Z.of_nat 4))) at 2
    by apply (zext_range 32 z ltac:(lia)).
  apply reads_map, reads_put.
Qed.

(** What the set's bytes, followed by up to three more, are read as. *)
Lemma decode_MessageSet ms : wf ms -> exists bs,
  Encoder.Encode (Encode ms) (Encode ms) = Ret bs tt /\
  forall tail, (length tail < 4)%nat ->
    Decoder.Decode (bs ++ tail) Decode =
    Ret (mk (Offset ms) (int32 (len bs - 12)) (Messages ms) (negb (bool_decide (tail = [])))) tt.
Proof.
  intros [Ho Hm]. destruct (messages_bytes _ Hm) as (bss & He & Hr).
  eexists. split; [apply encodes_Encode, encodes_seq; [apply encodes_PutInt64|apply encodes_SizeField, He]|].
  intros tail Ht. unfold Decoder.Decode. rewrite (app_assoc (be_put 8 _)), <- (app_assoc (_ ++ _)).
  erewrite decode_after_header by (apply (reads_Int64 _ Ho) || apply reads_Int32_wrap).
  unfold decodeAll, mbind, M_bind at 1. set (pre := be_put 8 _ ++ be_put 4 _). set (n := Z.to_nat _).
  assert (Hn : n = (length (Messages ms) + (n - length (Messages ms)))%nat /\
               (length tail <= n - length (Messages ms))%nat).
  { pose proof (length_messages _ _ Hr). unfold n, remaining, len; cbn [dbuf doff].
    rewrite !length_app. lia. }
  destruct Hn as [Hn Htl]. rewrite Hn.
  rewrite (decodeMessages_app _ _ _ _ _ _ _ Hr), app_assoc.
  destruct (decodeMessages_tail (n - length (Messages ms)) ([] ++ Messages ms) (pre ++ concat bss) tail [] Ht Htl)
    as [d E]. rewrite E. unfold mret, M_ret. cbn [default from_option fst snd app].
  replace (len (pre ++ concat bss) - 12) with (len (concat bss)); [reflexivity|].
  unfold pre. len_solve.
Qed.
End MessageSet.
