(* ===== verification/Wire.v ===== *)
(** * Requests on the wire and the server's connection loop

    [request_header.go], [request.go], [response.go] and [api_key.go] of
    [src/protocol], and the reading loop of [src/jocko/server.go]
    ([Server.handleRequest]): frames are cut out of a byte stream, their
    header decoded, the body chosen by API key and decoded. *)
From S2P Require Import Prelude Encoder Decoder Codec ClientApi TopicApi GroupApi ClusterApi MessageSets.

(** ** API keys *)
Definition ProduceKey : Z := 0.
Definition FetchKey : Z := 1.
Definition OffsetsKey : Z := 2.
Definition MetadataKey : Z := 3.
Definition LeaderAndISRKey : Z := 4.
Definition StopReplicaKey : Z := 5.
Definition UpdateMetadataKey : Z := 6.
Definition ControlledShutdownKey : Z := 7.
Definition OffsetCommitKey : Z := 8.
Definition OffsetFetchKey : Z := 9.
Definition FindCoordinatorKey : Z := 10.
Definition JoinGroupKey : Z := 11.
Definition HeartbeatKey : Z := 12.
Definition LeaveGroupKey : Z := 13.
Definition SyncGroupKey : Z := 14.
Definition DescribeGroupsKey : Z := 15.
Definition ListGroupsKey : Z := 16.
Definition SaslHandshakeKey : Z := 17.
Definition APIVersionsKey : Z := 18.
Definition CreateTopicsKey : Z := 19.
Definition DeleteTopicsKey : Z := 20.
Definition DescribeConfigsKey : Z := 32.
Definition AlterConfigsKey : Z := 33.

(** ** Request bodies: the implementations of the interface [Body] *)
Inductive Body :=
| Produce (r : ProduceRequest.t)
| Fetch (r : FetchRequest.t)
| Offsets (r : OffsetsRequest.t)
| Metadata (r : MetadataRequest.t)
| LeaderAndISR (r : LeaderAndISRRequest.t)
| StopReplica (r : StopReplicaRequest.t)
| UpdateMetadata (r : EmptyRequest.t)
| ControlledShutdown (r : EmptyRequest.t)
| OffsetCommit (r : OffsetCommitRequest.t)
| OffsetFetch (r : OffsetFetchRequest.t)
| FindCoordinator (r : FindCoordinatorRequest.t)
| JoinGroup (r : JoinGroupRequest.t)
| Heartbeat (r : HeartbeatRequest.t)
| LeaveGroup (r : LeaveGroupRequest.t)
| SyncGroup (r : SyncGroupRequest.t)
| DescribeGroups (r : DescribeGroupsRequest.t)
| ListGroups (r : ListGroupsRequest.t)
| SaslHandshake (r : EmptyRequest.t)
| APIVersions (r : APIVersionsRequest.t)
| CreateTopics (r : CreateTopicRequests.t)
| DeleteTopics (r : DeleteTopicsRequest.t)
| DescribeConfigs (r : DescribeConfigsRequest.t)
| AlterConfigs (r : AlterConfigsRequest.t).

Definition Key (b : Body) : Z :=
  match b with
  | Produce _ => ProduceKey | Fetch _ => FetchKey | Offsets _ => OffsetsKey
  | Metadata _ => MetadataKey | LeaderAndISR _ => LeaderAndISRKey | StopReplica _ => StopReplicaKey
  | UpdateMetadata _ => UpdateMetadataKey | ControlledShutdown _ => ControlledShutdownKey
  | OffsetCommit _ => OffsetCommitKey | OffsetFetch _ => OffsetFetchKey
  | FindCoordinator _ => FindCoordinatorKey | JoinGroup _ => JoinGroupKey
  | Heartbeat _ => HeartbeatKey | LeaveGroup _ => LeaveGroupKey | SyncGroup _ => SyncGroupKey
  | DescribeGroups _ => DescribeGroupsKey | ListGroups _ => ListGroupsKey
  | SaslHandshake _ => SaslHandshakeKey | APIVersions _ => APIVersionsKey
  | CreateTopics _ => CreateTopicsKey | DeleteTopics _ => DeleteTopicsKey
  | DescribeConfigs _ => DescribeConfigsKey | AlterConfigs _ => AlterConfigsKey
  end.

Definition Version (b : Body) : Z :=
  match b with
  | Produce r => ProduceRequest.APIVersion r | Fetch r => FetchRequest.APIVersion r
  | Offsets r => OffsetsRequest.APIVersion r | Metadata r => MetadataRequest.APIVersion r
  | LeaderAndISR r => LeaderAndISRRequest.APIVersion r
  | StopReplica r => StopReplicaRequest.APIVersion r
  | UpdateMetadata r | ControlledShutdown r | SaslHandshake r => EmptyRequest.APIVersion r
  | OffsetCommit r => OffsetCommitRequest.APIVersion r
  | OffsetFetch r => OffsetFetchRequest.APIVersion r
  | FindCoordinator r => FindCoordinatorRequest.APIVersion r
  | JoinGroup r => JoinGroupRequest.APIVersion r | Heartbeat r => HeartbeatRequest.APIVersion r
  | LeaveGroup r => LeaveGroupRequest.APIVersion r | SyncGroup r => SyncGroupRequest.APIVersion r
  | DescribeGroups r => DescribeGroupsRequest.APIVersion r
  | ListGroups r => ListGroupsRequest.APIVersion r
  | APIVersions r => APIVersionsRequest.APIVersion r
  | CreateTopics r => CreateTopicRequests.APIVersion r
  | DeleteTopics r => DeleteTopicsRequest.APIVersion r
  | DescribeConfigs r => DescribeConfigsRequest.APIVersion r
  | AlterConfigs r => AlterConfigsRequest.APIVersion r
  end.

Definition encodeBody `{PacketEncoder E} (o : map_order) (b : Body) : M E unit :=
  match b with
  | Produce r => ProduceRequest.Encode r | Fetch r => FetchRequest.Encode r
  | Offsets r => OffsetsRequest.Encode r | Metadata r => MetadataRequest.Encode r
  | LeaderAndISR r => LeaderAndISRRequest.Encode r | StopReplica r => StopReplicaRequest.Encode r
  | UpdateMetadata r | ControlledShutdown r | SaslHandshake r => EmptyRequest.Encode r
  | OffsetCommit r => OffsetCommitRequest.Encode r | OffsetFetch r => OffsetFetchRequest.Encode r
  | FindCoordinator r => FindCoordinatorRequest.Encode r
  | JoinGroup r => JoinGroupRequest.Encode r | Heartbeat r => HeartbeatRequest.Encode r
  | LeaveGroup r => LeaveGroupRequest.Encode r | SyncGroup r => SyncGroupRequest.Encode r
  | DescribeGroups r => DescribeGroupsRequest.Encode r | ListGroups r => ListGroupsRequest.Encode r
  | APIVersions r => APIVersionsRequest.Encode r | CreateTopics r => CreateTopicRequests.Encode o r
  | DeleteTopics r => DeleteTopicsRequest.Encode r
  | DescribeConfigs r => DescribeConfigsRequest.Encode r
  | AlterConfigs r => AlterConfigsRequest.Encode r
  end.

(** The [switch header.APIKey] of [handleRequest]: a key without a case leaves
    [req] nil. *)
Definition decodeBody (key version : Z) : option (M ByteDecoder Body) :=
  let D {A} (c : A -> Body) (d : M ByteDecoder A) := Some (x ← d; mret (c x)) in
  match key with
  | 0 => D Produce (ProduceRequest.Decode version)
  | 1 => D Fetch (FetchRequest.Decode version)
  | 2 => D Offsets (OffsetsRequest.Decode version)
  | 3 => D Metadata (MetadataRequest.Decode version)
  | 4 => D LeaderAndISR (LeaderAndISRRequest.Decode version)
  | 5 => D StopReplica (StopReplicaRequest.Decode version)
  | 6 => D UpdateMetadata (EmptyRequest.Decode version)
  | 7 => D ControlledShutdown (EmptyRequest.Decode version)
  | 8 => D OffsetCommit (OffsetCommitRequest.Decode version)
  | 9 => D OffsetFetch (OffsetFetchRequest.Decode version)
  | 10 => D FindCoordinator (FindCoordinatorRequest.Decode version)
  | 11 => D JoinGroup (JoinGroupRequest.Decode version)
  | 12 => D Heartbeat (HeartbeatRequest.Decode version)
  | 13 => D LeaveGroup (LeaveGroupRequest.Decode version)
  | 14 => D SyncGroup (SyncGroupRequest.Decode version)
  | 15 => D DescribeGroups (DescribeGroupsRequest.Decode version)
  | 16 => D ListGroups (ListGroupsRequest.Decode version)
  | 17 => D SaslHandshake (EmptyRequest.Decode version)
  | 18 => D APIVersions (APIVersionsRequest.Decode version)
  | 19 => D CreateTopics (CreateTopicRequests.Decode version)
  | 20 => D DeleteTopics (DeleteTopicsRequest.Decode version)
  | _ => None
  end.

(** ** The request header *)
Module RequestHeader.
Record t := mk { Size : Z; APIKey : Z; APIVersion : Z; CorrelationID : Z; ClientID : string }.
#[global] Instance eq_dec : EqDecision t. Proof. solve_decision. Defined.

(** [if err := ...; err != nil { panic(err) }] *)
Definition must {S} (m : M S unit) : M S unit := fun s =>
  match m s with Ret a s' => Ret a s' | Fail _ _ => Crash | Crash => Crash end.

Definition Encode `{PacketEncoder E} (r : t) : M E unit :=
  PutInt32 (Size r) ;; PutInt16 (APIKey r) ;; PutInt16 (APIVersion r) ;;
  PutInt32 (CorrelationID r) ;; must (PutString (ClientID r)).
Definition Decode : M ByteDecoder t :=
  size ← Int32; key ← Int16; version ← Int16; correlationID ← Int32; clientID ← String;
  mret (mk size key version correlationID clientID).

Definition wf (r : t) : Prop :=
  in_int 32 (Size r) /\ in_int 16 (APIKey r) /\ in_int 16 (APIVersion r) /\
  in_int 32 (CorrelationID r) /\ wf_string (ClientID r).
#[global] Instance wf_dec r : Decision (wf r). Proof. unfold wf; apply _. Defined.

Lemma codec_must {A} k EL EB (D : M ByteDecoder A) a :
  codec k EL EB D a -> codec k (must EL) (must EB) D a.
Proof.
  intros (bs & Hk & [HL HB] & Hr). exists bs. split; [exact Hk|]. split; [|exact Hr].
  split; intros; unfold must; [rewrite HL|rewrite HB]; reflexivity.
Qed.

Lemma codec_RequestHeader r : wf r -> codec 14 (Encode r) (Encode r) Decode r.
Proof.
  unfold Encode, Decode, wf. intros (? & ? & ? & ? & ?). eapply codec_weaken; [do 4 codec_step|].
  - eapply codec_last; [apply codec_must, codec_String; assumption|eta_record].
  - lia.
Qed.
End RequestHeader.

(** ** Requests *)
Module Request.
Record t := mk { CorrelationID : Z; ClientID : string; body : Body }.

Definition EncodeFields `{PacketEncoder E} (o : map_order) (r : t) : M E unit :=
  PutInt16 (Key (body r)) ;; PutInt16 (Version (body r)) ;; PutInt32 (CorrelationID r) ;;
  PutString (ClientID r) ;; encodeBody o (body r).
Definition Encode `{PacketEncoder E} (o : map_order) (r : t) : M E unit :=
  Push (SizeField 0) ;; EncodeFields o r ;; Pop.
End Request.

(** ** Response bodies

    The interface [ResponseBody] of [response.go]: [Encode] and [Decode]. *)
Class ResponseBody (B : Type) := {
  resp_encode : forall E, PacketEncoder E -> map_order -> B -> M E unit;
  resp_decode : Z -> M ByteDecoder B }.

(** What a client of the interface relies on: the bodies valid at a version are
    read back as [resp_seen] (the value itself, unless [Decode] drops fields). *)
Class ResponseLaws (B : Type) `{ResponseBody B} := {
  resp_wf : Z -> B -> Prop;
  resp_seen : B -> B;
  resp_codec : forall oL oB v b, valid_order oL -> valid_order oB -> resp_wf v b ->
    codec 0 (resp_encode _ _ oL b) (resp_encode _ _ oB b) (resp_decode v) (resp_seen b) }.

Module Response.
Section response.
Context {B : Type} `{ResponseBody B}.
Record t := mk { Size : Z; CorrelationID : Z; body : B }.

Definition EncodeFields `{PacketEncoder E} (o : map_order) (r : t) : M E unit :=
  PutInt32 (CorrelationID r) ;; resp_encode E _ o (body r).
Definition Encode `{PacketEncoder E} (o : map_order) (r : t) : M E unit :=
  Push (SizeField 0) ;; EncodeFields o r ;; Pop.

(** The receiver is a copy: the size and correlation id that are read are
    lost, while the body is reached through its pointer. *)
Definition Decode (r : t) (version : Z) : M ByteDecoder t :=
  Int32 ;; Int32 ;; b ← resp_decode version; mret (mk (Size r) (CorrelationID r) b).
End response.
Arguments t B : clear implicits.
End Response.

(** ** What the server reads back of a body

    Most bodies come back as they are.  [CreateTopicRequests] and the bodies
    without fields forget their version, and an offset commit keeps only its
    group and the number of its topics. *)
Definition seen (b : Body) : Body :=
  match b with
  | CreateTopics r => CreateTopics (CreateTopicRequests.mk 0 (CreateTopicRequests.Requests r)
      (CreateTopicRequests.Timeout r) (CreateTopicRequests.ValidateOnly r))
  | UpdateMetadata _ => UpdateMetadata (EmptyRequest.mk 0)
  | ControlledShutdown _ => ControlledShutdown (EmptyRequest.mk 0)
  | SaslHandshake _ => SaslHandshake (EmptyRequest.mk 0)
  | OffsetCommit r => OffsetCommit (OffsetCommitRequest.mk 0 (OffsetCommitRequest.GroupID r) 0
      EmptyString 0 ((fun _ => OffsetCommitTopicRequest.zero) <$> OffsetCommitRequest.Topics r))
  | b => b
  end.

(** Bodies of which nothing is forgotten. *)
Definition whole (b : Body) : Prop :=
  match b with
  | OffsetCommit _ => False
  | CreateTopics r => CreateTopicRequests.APIVersion r = 0
  | UpdateMetadata r | ControlledShutdown r | SaslHandshake r => EmptyRequest.APIVersion r = 0
  | _ => True
  end.
#[global] Instance whole_dec b : Decision (whole b). Proof. destruct b; unfold whole; apply _. Defined.
Lemma seen_whole b : whole b -> seen b = b.
Proof. destruct b as [| | | | | |[]|[]| | | | | | | | | |[]| |[]| | |]; cbn; try reflexivity; try contradiction; intros ->; reflexivity. Qed.

(** Bodies the server can read: those with a case in its switch whose [Encode]
    and [Decode] agree, with fields in the range of the wire. *)
Definition wf_body (b : Body) : Prop :=
  match b with
  | Produce r => ProduceRequest.wf r | Fetch r => FetchRequest.wf r
  | Offsets r => OffsetsRequest.wf r | Metadata r => MetadataRequest.wf r
  | LeaderAndISR r => LeaderAndISRRequest.wf r | StopReplica r => StopReplicaRequest.wf r
  | UpdateMetadata _ | ControlledShutdown _ | SaslHandshake _ | ListGroups _ | APIVersions _ => True
  | OffsetCommit r => OffsetCommitRequest.APIVersion r = 0 /\ OffsetCommitRequest.wf r
  | OffsetFetch r => OffsetFetchRequest.wf r
  | FindCoordinator r => FindCoordinatorRequest.wf r
  | Heartbeat r => HeartbeatRequest.wf r | LeaveGroup r => LeaveGroupRequest.wf r
  | SyncGroup r => SyncGroupRequest.wf r | DescribeGroups r => DescribeGroupsRequest.wf r
  | CreateTopics r => CreateTopicRequests.wf r | DeleteTopics r => DeleteTopicsRequest.wf r
  | JoinGroup _ | DescribeConfigs _ | AlterConfigs _ => False
  end.
#[global] Instance wf_body_dec b : Decision (wf_body b).
Proof. destruct b; unfold wf_body; apply _. Defined.

Lemma codec_ctor {A B} k EL EB (D : M ByteDecoder A) (c : A -> B) a :
  codec k EL EB D a -> codec 0 EL EB (x ← D; mret (c x)) (c a).
Proof.
  intros H. eapply codec_weaken; [eapply codec_last; [exact H|reflexivity]|lia].
Qed.

Lemma codec_Body oL oB b : valid_order oL -> valid_order oB -> wf_body b ->
  exists D, decodeBody (Key b) (Version b) = Some D /\
    codec 0 (encodeBody oL b) (encodeBody oB b) D (seen b).
Proof.
  intros HL HB.
  destruct b; cbn [wf_body Key Version encodeBody seen]; intros H; try contradiction;
    (eexists; split; [reflexivity|]).
  - eapply codec_ctor, ProduceRequest.codec_ProduceRequest, H.
  - eapply codec_ctor, FetchRequest.codec_FetchRequest, H.
  - eapply codec_ctor, OffsetsRequest.codec_OffsetsRequest, H.
  - eapply codec_ctor, MetadataRequest.codec_MetadataRequest, H.
  - eapply codec_ctor, LeaderAndISRRequest.codec_LeaderAndISRRequest, H.
  - eapply codec_ctor, StopReplicaRequest.codec_StopReplicaRequest, H.
  - eapply codec_ctor, EmptyRequest.codec_EmptyRequest.
  - eapply codec_ctor, EmptyRequest.codec_EmptyRequest.
  - destruct H as [-> H]. eapply codec_ctor, OffsetCommitRequest.codec_OffsetCommitRequest, H.
  - eapply codec_ctor, OffsetFetchRequest.codec_OffsetFetchRequest, H.
  - eapply codec_ctor, FindCoordinatorRequest.codec_FindCoordinatorRequest, H.
  - eapply codec_ctor, HeartbeatRequest.codec_HeartbeatRequest, H.
  - eapply codec_ctor, LeaveGroupRequest.codec_LeaveGroupRequest, H.
  - eapply codec_ctor, SyncGroupRequest.codec_SyncGroupRequest, H.
  - eapply codec_ctor, DescribeGroupsRequest.codec_DescribeGroupsRequest, H.
  - eapply codec_ctor, ListGroupsRequest.codec_ListGroupsRequest.
  - eapply codec_ctor, EmptyRequest.codec_EmptyRequest.
  - eapply codec_ctor, APIVersionsRequest.codec_APIVersionsRequest.
  - eapply codec_ctor, CreateTopicRequests.codec_CreateTopicRequests; assumption.
  - eapply codec_ctor, DeleteTopicsRequest.codec_DeleteTopicsRequest, H.
Qed.

Lemma safe_Body oL oB b : valid_order oL -> valid_order oB ->
  enc_safe (encodeBody oL b) (encodeBody oB b).
Proof.
  intros HL HB. destruct b; cbn [encodeBody].
  - apply ProduceRequest.safe_ProduceRequest.
  - apply FetchRequest.safe_FetchRequest.
  - apply OffsetsRequest.safe_OffsetsRequest.
  - apply MetadataRequest.safe_MetadataRequest.
  - apply LeaderAndISRRequest.safe_LeaderAndISRRequest.
  - apply StopReplicaRequest.safe_StopReplicaRequest.
  - apply enc_safe_ret.
  - apply enc_safe_ret.
  - apply OffsetCommitRequest.safe_OffsetCommitRequest.
  - apply OffsetFetchRequest.safe_OffsetFetchRequest.
  - apply FindCoordinatorRequest.safe_FindCoordinatorRequest.
  - apply JoinGroupRequest.safe_JoinGroupRequest.
  - apply HeartbeatRequest.safe_HeartbeatRequest.
  - apply LeaveGroupRequest.safe_LeaveGroupRequest.
  - apply SyncGroupRequest.safe_SyncGroupRequest.
  - apply DescribeGroupsRequest.safe_DescribeGroupsRequest.
  - apply ListGroupsRequest.safe_ListGroupsRequest.
  - apply enc_safe_ret.
  - apply APIVersionsRequest.safe_APIVersionsRequest.
  - apply CreateTopicRequests.safe_CreateTopicRequests; assumption.
  - apply DeleteTopicsRequest.safe_DeleteTopicsRequest.
  - apply DescribeConfigsRequest.safe_DescribeConfigsRequest.
  - apply AlterConfigsRequest.safe_AlterConfigsRequest.
Qed.

Lemma safe_Request oL oB r : valid_order oL -> valid_order oB ->
  enc_safe (Request.Encode oL r) (Request.Encode oB r).
Proof.
  intros HL HB. unfold Request.Encode. apply enc_safe_field; [|auto].
  unfold Request.EncodeFields. do 4 (apply enc_safe_seq; [auto with codec|]).
  apply safe_Body; assumption.
Qed.

Lemma Key_range b : in_int 16 (Key b).
Proof. destruct b; unfold in_int; cbv; intuition congruence. Qed.

(** ** The connection loop *)
Inductive read_result :=
| Closed                                              (* [break]: the deferred [conn.Close()] *)
| Panicked
| Got (h : RequestHeader.t) (b : Body) (rest : list byte).

(** One round of the loop on the bytes still to arrive on [conn]. *)
Definition readRequest (conn : list byte) : read_result :=
  if decide (length conn < 4)%nat then Closed else
  let p := take 4 conn in
  let size := be_get p in
  if size =? 0 then Closed else
  let n := Z.to_nat (uint32 (size + 4)) in
  if decide (n < 4)%nat then Panicked else
  if decide (length (drop 4 conn) < n - 4)%nat then Panicked else
  let b := p ++ take (n - 4) (drop 4 conn) in
  match RequestHeader.Decode (NewDecoder b) with
  | Ret h d =>
      match decodeBody (RequestHeader.APIKey h) (RequestHeader.APIVersion h) with
      | Some D =>
          match D d with
          | Ret body _ => Got h body (drop (n - 4) (drop 4 conn))
          | _ => Panicked
          end
      | None => Panicked
      end
  | _ => Panicked
  end.

(** The requests put on [requestCh], and whether the loop ended by a panic. *)
Fixpoint handleRequests (fuel : nat) (conn : list byte) : list (RequestHeader.t * Body) * bool :=
  match fuel with
  | O => ([], false)
  | S fuel =>
      match readRequest conn with
      | Closed => ([], false)
      | Panicked => ([], true)
      | Got h b rest => let '(rs, panicked) := handleRequests fuel rest in ((h, b) :: rs, panicked)
      end
  end.

(** Each round consumes the four bytes of a size at least. *)
Definition handleRequest (conn : list byte) : list (RequestHeader.t * Body) * bool :=
  handleRequests (S (length conn)) conn.

Lemma readRequest_progress conn h b rest :
  readRequest conn = Got h b rest -> (length rest < length conn)%nat.
Proof.
  unfold readRequest. case_decide as H4; [discriminate|]. case_bool; [discriminate|].
  case_decide as Hn; [discriminate|]. case_decide as Hr; [discriminate|].
  destruct (RequestHeader.Decode _) as [h' d|e d|]; try discriminate.
  destruct (decodeBody _ _) as [D|]; [|discriminate].
  destruct (D d); try discriminate. intros [= _ _ <-]. rewrite !length_drop. lia.
Qed.

Lemma handleRequests_fuel fuel fuel' conn :
  (length conn < fuel)%nat -> (fuel <= fuel')%nat ->
  handleRequests fuel conn = handleRequests fuel' conn.
Proof.
  revert fuel' conn. induction fuel as [|fuel IH]; intros fuel' conn Hf Hle; [lia|].
  destruct fuel' as [|fuel']; [lia|]. cbn [handleRequests].
  destruct (readRequest conn) as [| |h b rest] eqn:E; try reflexivity.
  apply readRequest_progress in E. rewrite (IH fuel') by lia. reflexivity.
Qed.

(** The loop of [handleRequest] as it runs, round by round: a derivation is a run
    that has ended, closed by the peer or in a panic. *)
Inductive serverLoop : list byte -> list (RequestHeader.t * Body) -> bool -> Prop :=
| loop_closed conn : readRequest conn = Closed -> serverLoop conn [] false
| loop_panic conn : readRequest conn = Panicked -> serverLoop conn [] true
| loop_got conn h b rest rs p : readRequest conn = Got h b rest -> serverLoop rest rs p -> serverLoop conn ((h, b) :: rs) p.

Lemma handleRequests_runs fuel conn : (length conn < fuel)%nat ->
  serverLoop conn (fst (handleRequests fuel conn)) (snd (handleRequests fuel conn)).
Proof.
  revert conn. induction fuel as [|fuel IH]; intros conn Hf; [lia|]. cbn [handleRequests].
  destruct (readRequest conn) as [| |h b rest] eqn:E; [constructor; exact E..|].
  pose proof (readRequest_progress _ _ _ _ E) as Hp. specialize (IH rest ltac:(lia)).
  destruct (handleRequests fuel rest) as [rs p]. econstructor; eassumption.
Qed.

(** ** Frames *)
Definition wf_request (r : Request.t) : Prop :=
  in_int 32 (Request.CorrelationID r) /\ wf_string (Request.ClientID r) /\
  in_int 16 (Version (Request.body r)) /\ wf_body (Request.body r).
#[global] Instance wf_request_dec r : Decision (wf_request r). Proof. unfold wf_request; apply _. Defined.

(** The header the server sees for a request sent as a frame of [n] bytes. *)
Definition header_of (r : Request.t) (n : Z) : RequestHeader.t :=
  RequestHeader.mk (n - 4) (Key (Request.body r)) (Version (Request.body r))
    (Request.CorrelationID r) (Request.ClientID r).

(** The header of a request is read as its four fields are written. *)
Definition readHeader : M ByteDecoder (Z * Z * Z * string) :=
  key ← Int16; version ← Int16; correlationID ← Int32; clientID ← String;
  mret (key, version, correlationID, clientID).

Lemma codec_header_fields r : wf_request r ->
  codec 10
    (PutInt16 (Key (Request.body r)) ;; PutInt16 (Version (Request.body r)) ;;
     PutInt32 (Request.CorrelationID r) ;; PutString (Request.ClientID r))
    (PutInt16 (Key (Request.body r)) ;; PutInt16 (Version (Request.body r)) ;;
     PutInt32 (Request.CorrelationID r) ;; PutString (Request.ClientID r))
    readHeader
    (Key (Request.body r), Version (Request.body r), Request.CorrelationID r, Request.ClientID r).
Proof.
  intros (? & ? & ? & _). pose proof (Key_range (Request.body r)). unfold readHeader.
  eapply codec_weaken; [codec_go|lia].
Qed.

Lemma readHeader_spec size d :
  (x ← readHeader; let '(k, v, c, i) := x in mret (RequestHeader.mk size k v c i)) d =
  (key ← Int16; version ← Int16; correlationID ← Int32; clientID ← String;
   mret (RequestHeader.mk size key version correlationID clientID)) d.
Proof.
  unfold readHeader, mbind, M_bind. destruct (Int16 d) as [k d1|e d1|]; try reflexivity.
  destruct (Int16 d1) as [v d2|e d2|]; try reflexivity.
  destruct (Int32 d2) as [c d3|e d3|]; try reflexivity.
  destruct (String d3) as [i d4|e d4|]; reflexivity.
Qed.

Lemma reads_RequestHeader size hb k v c i :
  reads readHeader hb (k, v, c, i) ->
  reads RequestHeader.Decode (be_put 4 (uint32 size) ++ hb) (RequestHeader.mk (int32 size) k v c i).
Proof.
  intros H. unfold RequestHeader.Decode. eapply reads_bind; [apply MessageSet.reads_Int32_wrap|].
  intros pre post stk. rewrite <- readHeader_spec. erewrite bind_Ret by apply H. reflexivity.
Qed.

Lemma seq_assoc4 {S} (a b c d e : M S unit) s :
  (a ;; b ;; c ;; d ;; e) s = ((a ;; b ;; c ;; d) ;; e) s.
Proof.
  unfold mbind, M_bind. destruct (a s) as [? s1|? s1|]; try reflexivity.
  destruct (b s1) as [? s2|? s2|]; try reflexivity. destruct (c s2) as [? s3|? s3|]; reflexivity.
Qed.

(** The bytes of a request: a size, a header and a body that the server's
    decoders read back. *)
Lemma request_bytes oL oB r : valid_order oL -> valid_order oB -> wf_request r ->
  exists hb bb D, (10 <= length hb)%nat /\
    Encode (Request.Encode oL r) (Request.Encode oB r) =
      Ret (be_put 4 (uint32 (len (hb ++ bb))) ++ hb ++ bb) tt /\
    reads readHeader hb (Key (Request.body r), Version (Request.body r),
      Request.CorrelationID r, Request.ClientID r) /\
    decodeBody (Key (Request.body r)) (Version (Request.body r)) = Some D /\
    reads D bb (seen (Request.body r)).
Proof.
  intros HL HB Hr. destruct (codec_header_fields r Hr) as (hb & Hk & Hh & Hrh).
  destruct (codec_Body oL oB (Request.body r) HL HB (proj2 (proj2 (proj2 Hr)))) as (D & ED & bb & _ & Hb & Hrb).
  exists hb, bb, D. split; [exact Hk|]. split; [|auto].
  apply encodes_Encode. unfold Request.Encode. apply encodes_SizeField.
  destruct (encodes_seq _ _ _ _ _ _ Hh Hb) as [EL EB]. split; intros.
  - rewrite <- EL. apply seq_assoc4.
  - rewrite <- EB. apply seq_assoc4.
Qed.

(** One round of the loop on a stream that starts with a frame. *)
Lemma readRequest_frame hb bb D k v c i b rest :
  (1 <= length hb)%nat -> len (hb ++ bb) + 4 <= MaxInt32 ->
  reads readHeader hb (k, v, c, i) -> decodeBody k v = Some D -> reads D bb b ->
  readRequest ((be_put 4 (uint32 (len (hb ++ bb))) ++ hb ++ bb) ++ rest) =
  Got (RequestHeader.mk (len (hb ++ bb)) k v c i) b rest.
Proof.
  intros Hl Hn Hh HD Hb. set (n := len (hb ++ bb)) in *.
  assert (Hpos : 0 < n) by (unfold n; len_solve).
  assert (Hu : uint32 n = n) by (apply zext_id; unfold in_uint, MaxInt32 in *; lia).
  assert (Hu4 : uint32 (n + 4) = n + 4) by (apply zext_id; unfold in_uint, MaxInt32 in *; lia).
  unfold readRequest. rewrite Hu. rewrite <- app_assoc.
  rewrite decide_False by (rewrite !length_app, length_be_put; lia).
  rewrite (take_app_exact 4), (drop_app_exact 4) by apply length_be_put.
  rewrite be_get_put, Z.mod_small by (unfold MaxInt32 in *; lia).
  rewrite (proj2 (Z.eqb_neq _ _)), Hu4 by lia.
  assert (En : (Z.to_nat (n + 4) - 4)%nat = length (hb ++ bb)) by (unfold n, len in *; lia).
  rewrite En, decide_False by lia.
  rewrite decide_False by (rewrite (length_app (hb ++ bb) rest); lia).
  rewrite take_app_length, drop_app_length.
  pose proof (reads_RequestHeader n hb k v c i Hh [] bb []) as R.
  rewrite app_nil_l, length_nil, Nat.add_0_l, <- !app_assoc, Hu in R.
  unfold NewDecoder. rewrite R.
  cbn [RequestHeader.APIKey RequestHeader.APIVersion]. rewrite HD.
  pose proof (Hb (be_put 4 n ++ hb) [] []) as RB. rewrite app_nil_r, <- app_assoc in RB.
  rewrite RB. unfold int32. rewrite sext_id by (unfold in_int, MaxInt32 in *; lia). reflexivity.
Qed.

(** A client's requests, as frames on a connection in the order they were
    sent, are what the server reads, each with its header. *)
Lemma handleRequest_stream oL oB rs frames : valid_order oL -> valid_order oB ->
  Forall2 (fun r bs => wf_request r /\ Encode (Request.Encode oL r) (Request.Encode oB r) = Ret bs tt /\
             len bs <= MaxInt32) rs frames ->
  handleRequest (concat frames) =
  (zip_with (fun r bs => (header_of r (len bs), seen (Request.body r))) rs frames, false).
Proof.
  intros HL HB H. unfold handleRequest.
  assert (Hgen : forall fuel, (length (concat frames) < fuel)%nat -> handleRequests fuel (concat frames) =
    (zip_with (fun r bs => (header_of r (len bs), seen (Request.body r))) rs frames, false));
    [|apply Hgen; lia].
  induction H as [|r bs rs frames (Hw & He & Hn) _ IH]; intros fuel Hf;
    (destruct fuel as [|fuel]; [lia|]); [reflexivity|].
  destruct (request_bytes oL oB r HL HB Hw) as (hb & bb & D & Hl & Eb & Hh & HD & Hb).
  rewrite He in Eb.
  assert (E : bs = be_put 4 (uint32 (len (hb ++ bb))) ++ hb ++ bb) by congruence.
  clear Eb. subst bs. cbn [concat] in *. cbn [handleRequests].
  erewrite readRequest_frame; [|lia| |exact Hh|exact HD|exact Hb];
    [|revert Hn; unfold len; rewrite !length_app, length_be_put; lia].
  rewrite IH by (revert Hf; rewrite !length_app, length_be_put; lia).
  cbn [zip_with]. unfold header_of. do 4 f_equal.
  unfold len. rewrite !length_app, length_be_put. lia.
Qed.

(** ** The response types *)
Ltac solve_codec0 lem := eapply codec_weaken; [eapply lem; eassumption|lia].

#[global] Instance ProduceResponse_body : ResponseBody ProduceResponse.t := {|
  resp_encode E _ o := ProduceResponse.Encode; resp_decode := ProduceResponse.Decode |}.
#[global, program] Instance ProduceResponse_laws : ResponseLaws ProduceResponse.t := {|
  resp_wf v b := ProduceResponse.APIVersion b = v /\ ProduceResponse.wf b; resp_seen := id |}.
Next Obligation. intros oL oB v b HL HB [<- Hw]. solve_codec0 ProduceResponse.codec_ProduceResponse. Qed.
#[global] Instance FetchResponse_body : ResponseBody FetchResponse.t := {|
  resp_encode E _ o := FetchResponse.Encode; resp_decode := FetchResponse.Decode |}.
#[global, program] Instance FetchResponse_laws : ResponseLaws FetchResponse.t := {|
  resp_wf v b := FetchResponse.APIVersion b = v /\ FetchResponse.wf b; resp_seen := id |}.
Next Obligation. intros oL oB v b HL HB [<- Hw]. solve_codec0 FetchResponse.codec_FetchResponse. Qed.
#[global] Instance MetadataResponse_body : ResponseBody MetadataResponse.t := {|
  resp_encode E _ o := MetadataResponse.Encode; resp_decode := MetadataResponse.Decode |}.
#[global, program] Instance MetadataResponse_laws : ResponseLaws MetadataResponse.t := {|
  resp_wf v b := MetadataResponse.APIVersion b = v /\ MetadataResponse.wf b; resp_seen := id |}.
Next Obligation. intros oL oB v b HL HB [<- Hw]. solve_codec0 MetadataResponse.codec_MetadataResponse. Qed.
#[global] Instance CreateTopicsResponse_body : ResponseBody CreateTopicsResponse.t := {|
  resp_encode E _ o := CreateTopicsResponse.Encode; resp_decode := CreateTopicsResponse.Decode |}.
#[global, program] Instance CreateTopicsResponse_laws : ResponseLaws CreateTopicsResponse.t := {|
  resp_wf v b := CreateTopicsResponse.APIVersion b = v /\ CreateTopicsResponse.wf b; resp_seen := id |}.
Next Obligation. intros oL oB v b HL HB [<- Hw]. solve_codec0 CreateTopicsResponse.codec_CreateTopicsResponse. Qed.
#[global] Instance DeleteTopicsResponse_body : ResponseBody DeleteTopicsResponse.t := {|
  resp_encode E _ o := DeleteTopicsResponse.Encode; resp_decode := DeleteTopicsResponse.Decode |}.
#[global, program] Instance DeleteTopicsResponse_laws : ResponseLaws DeleteTopicsResponse.t := {|
  resp_wf v b := DeleteTopicsResponse.APIVersion b = v /\ DeleteTopicsResponse.wf b; resp_seen := id |}.
Next Obligation. intros oL oB v b HL HB [<- Hw]. solve_codec0 DeleteTopicsResponse.codec_DeleteTopicsResponse. Qed.
#[global] Instance FindCoordinatorResponse_body : ResponseBody FindCoordinatorResponse.t := {|
  resp_encode E _ o := FindCoordinatorResponse.Encode; resp_decode := FindCoordinatorResponse.Decode |}.
#[global, program] Instance FindCoordinatorResponse_laws : ResponseLaws FindCoordinatorResponse.t := {|
  resp_wf v b := FindCoordinatorResponse.APIVersion b = v /\ FindCoordinatorResponse.wf b; resp_seen := id |}.
Next Obligation. intros oL oB v b HL HB [<- Hw]. solve_codec0 FindCoordinatorResponse.codec_FindCoordinatorResponse. Qed.
#[global] Instance JoinGroupResponse_body : ResponseBody JoinGroupResponse.t := {|
  resp_encode E _ o := JoinGroupResponse.Encode; resp_decode := JoinGroupResponse.Decode |}.
#[global, program] Instance JoinGroupResponse_laws : ResponseLaws JoinGroupResponse.t := {|
  resp_wf v b := JoinGroupResponse.APIVersion b = v /\ JoinGroupResponse.wf b; resp_seen := id |}.
Next Obligation. intros oL oB v b HL HB [<- Hw]. solve_codec0 JoinGroupResponse.codec_JoinGroupResponse. Qed.
#[global] Instance SyncGroupResponse_body : ResponseBody SyncGroupResponse.t := {|
  resp_encode E _ o := SyncGroupResponse.Encode; resp_decode := SyncGroupResponse.Decode |}.
#[global, program] Instance SyncGroupResponse_laws : ResponseLaws SyncGroupResponse.t := {|
  resp_wf v b := SyncGroupResponse.APIVersion b = v /\ SyncGroupResponse.wf b; resp_seen := id |}.
Next Obligation. intros oL oB v b HL HB [<- Hw]. solve_codec0 SyncGroupResponse.codec_SyncGroupResponse. Qed.
#[global] Instance HeartbeatResponse_body : ResponseBody HeartbeatResponse.t := {|
  resp_encode E _ o := HeartbeatResponse.Encode; resp_decode := HeartbeatResponse.Decode |}.
#[global, program] Instance HeartbeatResponse_laws : ResponseLaws HeartbeatResponse.t := {|
  resp_wf v b := HeartbeatResponse.APIVersion b = v /\ HeartbeatResponse.wf b; resp_seen := id |}.
Next Obligation. intros oL oB v b HL HB [<- Hw]. solve_codec0 HeartbeatResponse.codec_HeartbeatResponse. Qed.
#[global] Instance LeaveGroupResponse_body : ResponseBody LeaveGroupResponse.t := {|
  resp_encode E _ o := LeaveGroupResponse.Encode; resp_decode := LeaveGroupResponse.Decode |}.
#[global, program] Instance LeaveGroupResponse_laws : ResponseLaws LeaveGroupResponse.t := {|
  resp_wf v b := LeaveGroupResponse.APIVersion b = v /\ LeaveGroupResponse.wf b; resp_seen := id |}.
Next Obligation. intros oL oB v b HL HB [<- Hw]. solve_codec0 LeaveGroupResponse.codec_LeaveGroupResponse. Qed.
#[global] Instance ListGroupsResponse_body : ResponseBody ListGroupsResponse.t := {|
  resp_encode E _ o := ListGroupsResponse.Encode; resp_decode := ListGroupsResponse.Decode |}.
#[global, program] Instance ListGroupsResponse_laws : ResponseLaws ListGroupsResponse.t := {|
  resp_wf v b := ListGroupsResponse.APIVersion b = v /\ ListGroupsResponse.wf b; resp_seen := id |}.
Next Obligation. intros oL oB v b HL HB [<- Hw]. solve_codec0 ListGroupsResponse.codec_ListGroupsResponse. Qed.
#[global] Instance LeaderAndISRResponse_body : ResponseBody LeaderAndISRResponse.t := {|
  resp_encode E _ o := LeaderAndISRResponse.Encode; resp_decode := LeaderAndISRResponse.Decode |}.
#[global, program] Instance LeaderAndISRResponse_laws : ResponseLaws LeaderAndISRResponse.t := {|
  resp_wf v b := LeaderAndISRResponse.APIVersion b = v /\ LeaderAndISRResponse.wf b; resp_seen := id |}.
Next Obligation. intros oL oB v b HL HB [<- Hw]. solve_codec0 LeaderAndISRResponse.codec_LeaderAndISRResponse. Qed.
#[global] Instance AlterConfigsResponse_body : ResponseBody AlterConfigsResponse.t := {|
  resp_encode E _ o := AlterConfigsResponse.Encode; resp_decode := AlterConfigsResponse.Decode |}.
#[global, program] Instance AlterConfigsResponse_laws : ResponseLaws AlterConfigsResponse.t := {|
  resp_wf v b := AlterConfigsResponse.APIVersion b = v /\ AlterConfigsResponse.wf b; resp_seen := id |}.
Next Obligation. intros oL oB v b HL HB [<- Hw]. solve_codec0 AlterConfigsResponse.codec_AlterConfigsResponse. Qed.
#[global] Instance DescribeConfigsResponse_body : ResponseBody DescribeConfigsResponse.t := {|
  resp_encode E _ o := DescribeConfigsResponse.Encode; resp_decode := DescribeConfigsResponse.Decode |}.
#[global, program] Instance DescribeConfigsResponse_laws : ResponseLaws DescribeConfigsResponse.t := {|
  resp_wf v b := DescribeConfigsResponse.APIVersion b = v /\ DescribeConfigsResponse.wf b; resp_seen := id |}.
Next Obligation. intros oL oB v b HL HB [<- Hw]. solve_codec0 DescribeConfigsResponse.codec_DescribeConfigsResponse. Qed.
#[global] Instance DescribeGroupsResponse_body : ResponseBody DescribeGroupsResponse.t := {|
  resp_encode E _ o := DescribeGroupsResponse.Encode o; resp_decode := DescribeGroupsResponse.Decode |}.
#[global, program] Instance DescribeGroupsResponse_laws : ResponseLaws DescribeGroupsResponse.t := {|
  resp_wf v b := DescribeGroupsResponse.APIVersion b = v /\ DescribeGroupsResponse.wf b; resp_seen := id |}.
Next Obligation. intros oL oB v b HL HB [<- Hw]. solve_codec0 DescribeGroupsResponse.codec_DescribeGroupsResponse. Qed.
#[global] Instance OffsetsResponse_body : ResponseBody OffsetsResponse.t := {|
  resp_encode E _ o := OffsetsResponse.Encode; resp_decode := OffsetsResponse.Decode |}.
#[global, program] Instance OffsetsResponse_laws : ResponseLaws OffsetsResponse.t := {|
  resp_wf v b := OffsetsResponse.APIVersion b = v /\ OffsetsResponse.wf b;
  resp_seen b := OffsetsResponse.mk 0 (OffsetsResponse.ThrottleTime b) (OffsetsResponse.Responses b) |}.
Next Obligation. intros oL oB v b HL HB [<- Hw]. solve_codec0 OffsetsResponse.codec_OffsetsResponse. Qed.
#[global] Instance OffsetCommitResponse_body : ResponseBody OffsetCommitResponse.t := {|
  resp_encode E _ o := OffsetCommitResponse.Encode; resp_decode := OffsetCommitResponse.Decode |}.
#[global, program] Instance OffsetCommitResponse_laws : ResponseLaws OffsetCommitResponse.t := {|
  resp_wf v b := OffsetCommitResponse.APIVersion b = v /\ OffsetCommitResponse.wf b;
  resp_seen b := OffsetCommitResponse.mk (OffsetCommitResponse.APIVersion b)
    (OffsetCommitResponse.ThrottleTime b)
    ((fun _ => OffsetCommitTopicResponse.zero) <$> OffsetCommitResponse.Responses b) |}.
Next Obligation. intros oL oB v b HL HB [<- Hw]. solve_codec0 OffsetCommitResponse.codec_OffsetCommitResponse. Qed.
#[global] Instance OffsetFetchResponse_body : ResponseBody OffsetFetchResponse.t := {|
  resp_encode E _ o := OffsetFetchResponse.Encode; resp_decode := OffsetFetchResponse.Decode |}.
#[global, program] Instance OffsetFetchResponse_laws : ResponseLaws OffsetFetchResponse.t := {|
  resp_wf v b := OffsetFetchResponse.APIVersion b = v /\ OffsetFetchResponse.wf b;
  resp_seen b := OffsetFetchResponse.mk (OffsetFetchResponse.APIVersion b)
    ((fun _ => OffsetFetchTopicResponse.zero) <$> OffsetFetchResponse.Responses b) |}.
Next Obligation. intros oL oB v b HL HB [<- Hw]. solve_codec0 OffsetFetchResponse.codec_OffsetFetchResponse. Qed.
#[global] Instance StopReplicaResponse_body : ResponseBody StopReplicaResponse.t := {|
  resp_encode E _ o := StopReplicaResponse.Encode; resp_decode v := StopReplicaResponse.Decode |}.
#[global, program] Instance StopReplicaResponse_laws : ResponseLaws StopReplicaResponse.t := {|
  resp_wf v b := StopReplicaResponse.wf b; resp_seen := id |}.
Next Obligation. intros oL oB v b HL HB Hw. solve_codec0 StopReplicaResponse.codec_StopReplicaResponse. Qed.
#[global] Instance EmptyResponse_body : ResponseBody EmptyResponse.t := {|
  resp_encode E _ o := EmptyResponse.Encode; resp_decode := EmptyResponse.Decode |}.
#[global, program] Instance EmptyResponse_laws : ResponseLaws EmptyResponse.t := {|
  resp_wf v b := True; resp_seen := id |}.
Next Obligation. intros. apply EmptyResponse.codec_EmptyResponse. Qed.
#[global] Instance ControlledShutdownResponse_body : ResponseBody ControlledShutdownResponse.t := {|
  resp_encode E _ o := ControlledShutdownResponse.Encode;
  resp_decode := ControlledShutdownResponse.Decode |}.
#[global, program] Instance ControlledShutdownResponse_laws :
    ResponseLaws ControlledShutdownResponse.t := {|
  resp_wf v b := ControlledShutdownResponse.APIVersion b = v; resp_seen := id |}.
Next Obligation. intros oL oB v b HL HB <-. apply ControlledShutdownResponse.codec_ControlledShutdownResponse. Qed.

(** [APIVersionsResponse] has the methods but not the law
    ([apiversions_response_not_inverse]). *)
#[global] Instance APIVersionsResponse_body : ResponseBody APIVersionsResponse.t := {|
  resp_encode E _ o := APIVersionsResponse.Encode; resp_decode := APIVersionsResponse.Decode |}.
