(* ===== verification/Conn.v ===== *)
(** * The client side of a connection

    [src/jocko/conn.go]: numbering a request, writing its frame, waiting for
    the response with the same correlation id and decoding it, as one goroutine
    sees it; [ConnShared] adds the locks, the deadlines and other goroutines. *)
From S2P Require Import Prelude Encoder Decoder Codec ClientApi TopicApi GroupApi ClusterApi MessageSets Wire.

(** [inbox] is what the peer still delivers, [outbox] what has been written. *)
Record Conn := mkConn {
  clientID : string; correlationID : Z; inbox : list byte; outbox : list byte; closed : bool }.

(** How a call on the connection ends; [Spinning]: [waitResponse] loops forever. *)
Inductive result (A : Type) :=
| Done (a : A) (c : Conn)
| Err (e : error) (c : Conn)
| Spinning
| Panic.
Arguments Done {A} a c.
Arguments Err {A} e c.
Arguments Spinning {A}.
Arguments Panic {A}.

Definition Close (c : Conn) : Conn := mkConn (clientID c) (correlationID c) [] (outbox c) true.

(** The buffer size of [bufio.NewReader], beyond which [Peek] fails. *)
Definition bufSize : Z := 4096.

Section operations.
Context (oL oB : map_order).

Definition writeRequest (body : Body) (c : Conn) : outcome Conn unit :=
  let req := Request.mk (correlationID c) (clientID c) body in
  match Encode (Request.Encode oL req) (Request.Encode oB req) with
  | Ret b _ =>
      if closed c then Fail (ErrOther "use of closed network connection") c
      else Ret tt (mkConn (clientID c) (correlationID c) (inbox c) (outbox c ++ b) false)
  | Fail e _ => Fail e c
  | Crash => Crash
  end.

(** An error of [write] closes the connection but is not returned. *)
Definition doRequest (body : Body) (c : Conn) : outcome Conn Z :=
  let id := int32 (correlationID c + 1) in
  let c := mkConn (clientID c) id (inbox c) (outbox c) (closed c) in
  match writeRequest body c with
  | Ret _ c' => Ret id c'
  | Fail _ c' => Ret id (Close c')
  | Crash => Crash
  end.

(** An error of [Peek] is turned into size 0 and id 0. *)
Definition peekResponseSizeAndID (c : Conn) : Z * Z :=
  if decide (length (inbox c) < 8)%nat then (0, 0)
  else (int32 (be_get (take 4 (inbox c))), int32 (be_get (take 4 (drop 4 (inbox c))))).

Definition discard (n : nat) (c : Conn) : Conn :=
  mkConn (clientID c) (correlationID c) (drop n (inbox c)) (outbox c) (closed c).

(** Without another goroutine to take it, a response with another id (or a
    peer that is gone) is met again and again. *)
Definition waitResponse (id : Z) (c : Conn) : option (Z * Conn) :=
  let '(rsz, rid) := peekResponseSizeAndID c in
  if id =? rid then Some (int32 (rsz - 4), discard 8 c) else None.

Definition readResponse {A} (D : M ByteDecoder A) (size : Z) (c : Conn) : result A :=
  if size <? 0 then Err (ErrOther "bufio: negative count") c
  else if bufSize <? size then Err (ErrOther "bufio: buffer full") c
  else if len (inbox c) <? size then Err EOF c
  else match Decode (take (Z.to_nat size) (inbox c)) D with
       | Ret a _ => Done a (discard (Z.to_nat size) c)
       | Fail e _ => Err e (discard (Z.to_nat size) c)
       | Crash => Panic
       end.

(** [do], with the request's version used to decode the response. *)
Definition do {B} `{ResponseBody B} (body : Body) (c : Conn) : result B :=
  match doRequest body c with
  | Ret id c =>
      match waitResponse id c with
      | Some (size, c) =>
          match readResponse (resp_decode (Version body)) size c with
          | Err e c => Err e (Close c)
          | r => r
          end
      | None => Spinning
      end
  | Fail e c => Err e c
  | Crash => Panic
  end.

(** The exported operations. *)
Definition LeaderAndISR (r : LeaderAndISRRequest.t) : Conn -> result LeaderAndISRResponse.t := do (LeaderAndISR r).
Definition CreateTopics (r : CreateTopicRequests.t) : Conn -> result CreateTopicsResponse.t := do (CreateTopics r).
Definition Produce (r : ProduceRequest.t) : Conn -> result ProduceResponse.t := do (Produce r).
Definition Offsets (r : OffsetsRequest.t) : Conn -> result OffsetsResponse.t := do (Offsets r).
Definition StopReplica (r : StopReplicaRequest.t) : Conn -> result StopReplicaResponse.t := do (StopReplica r).
Definition UpdateMetadata (r : EmptyRequest.t) : Conn -> result EmptyResponse.t := do (UpdateMetadata r).
Definition ControlledShutdown (r : EmptyRequest.t) : Conn -> result ControlledShutdownResponse.t := do (ControlledShutdown r).
Definition OffsetCommit (r : OffsetCommitRequest.t) : Conn -> result OffsetCommitResponse.t := do (OffsetCommit r).
Definition SaslHandshake (r : EmptyRequest.t) : Conn -> result EmptyResponse.t := do (SaslHandshake r).
Definition OffsetFetch (r : OffsetFetchRequest.t) : Conn -> result OffsetFetchResponse.t := do (OffsetFetch r).
Definition FindCoordinator (r : FindCoordinatorRequest.t) : Conn -> result FindCoordinatorResponse.t := do (FindCoordinator r).
Definition Heartbeat (r : HeartbeatRequest.t) : Conn -> result HeartbeatResponse.t := do (Heartbeat r).
Definition LeaveGroup (r : LeaveGroupRequest.t) : Conn -> result LeaveGroupResponse.t := do (LeaveGroup r).
Definition SyncGroup (r : SyncGroupRequest.t) : Conn -> result SyncGroupResponse.t := do (SyncGroup r).
Definition DescribeGroups (r : DescribeGroupsRequest.t) : Conn -> result DescribeGroupsResponse.t := do (DescribeGroups r).
Definition ListGroups (r : ListGroupsRequest.t) : Conn -> result ListGroupsResponse.t := do (ListGroups r).
Definition APIVersions (r : APIVersionsRequest.t) : Conn -> result APIVersionsResponse.t := do (APIVersions r).
Definition DeleteTopics (r : DeleteTopicsRequest.t) : Conn -> result DeleteTopicsResponse.t := do (DeleteTopics r).
Definition JoinGroup (r : JoinGroupRequest.t) : Conn -> result JoinGroupResponse.t := do (JoinGroup r).
Definition Metadata (r : MetadataRequest.t) : Conn -> result MetadataResponse.t := do (Metadata r).
Definition Fetch (r : FetchRequest.t) : Conn -> result FetchResponse.t := do (Fetch r).
Definition AlterConfigs (r : AlterConfigsRequest.t) : Conn -> result AlterConfigsResponse.t := do (AlterConfigs r).
Definition DescribeConfigs (r : DescribeConfigsRequest.t) : Conn -> result DescribeConfigsResponse.t := do (DescribeConfigs r).

(** The frame of a response: a size, the correlation id and a body. *)
Lemma response_bytes {B} `{ResponseLaws B} v (r : Response.t B) :
  valid_order oL -> valid_order oB -> resp_wf v (Response.body r) ->
  exists bb, Encode (Response.Encode oL r) (Response.Encode oB r) =
      Ret (be_put 4 (uint32 (len bb + 4)) ++ be_put 4 (uint32 (Response.CorrelationID r)) ++ bb) tt /\
    reads (resp_decode v) bb (resp_seen (Response.body r)).
Proof.
  intros HL HB Hw. destruct (resp_codec oL oB v _ HL HB Hw) as (bb & _ & He & Hr).
  exists bb. split; [|exact Hr]. apply encodes_Encode. unfold Response.Encode.
  pose proof (encodes_SizeField _ _ _ (encodes_seq _ _ _ _ _ _
    (encodes_PutInt32 (Response.CorrelationID r)) He)) as HS.
  replace (len bb + 4) with (len (be_put 4 (uint32 (Response.CorrelationID r)) ++ bb)) by len_solve.
  exact HS.
Qed.

(** Peeking at the frame of a response. *)
Lemma peek_frame c n id bb rest :
  inbox c = (be_put 4 (uint32 n) ++ be_put 4 (uint32 id) ++ bb) ++ rest ->
  peekResponseSizeAndID c = (int32 n, int32 id).
Proof.
  intros E. unfold peekResponseSizeAndID. rewrite E.
  rewrite decide_False by (rewrite !length_app, !length_be_put; lia).
  rewrite <- !app_assoc, (take_app_exact 4), (drop_app_exact 4) by apply length_be_put.
  rewrite (take_app_exact 4) by apply length_be_put.
  assert (Hw : forall z, int32 (be_get (be_put 4 (uint32 z))) = int32 z).
  { intros z. rewrite be_get_put, Z.mod_small by apply (zext_range 32 z ltac:(lia)).
    unfold int32, uint32. apply sext_zext. lia. }
  rewrite !Hw. reflexivity.
Qed.

(** A response whose body fits the buffer, at the front of the inbox. *)
Lemma wait_and_read {A} (D : M ByteDecoder A) c id bb rest a :
  in_int 32 id -> len bb <= bufSize ->
  inbox c = (be_put 4 (uint32 (len bb + 4)) ++ be_put 4 (uint32 id) ++ bb) ++ rest ->
  reads D bb a ->
  exists c1, waitResponse id c = Some (len bb, c1) /\
    readResponse D (len bb) c1 =
      Done a (mkConn (clientID c) (correlationID c) rest (outbox c) (closed c)).
Proof.
  intros Hid Hn E Hr. unfold waitResponse. rewrite (peek_frame _ _ _ _ _ E).
  replace (int32 id) with id by (symmetry; apply sext_id; [lia|assumption]). rewrite Z.eqb_refl.
  assert (Hsz : int32 (int32 (len bb + 4) - 4) = len bb).
  { unfold int32. rewrite (sext_id 32 (len bb + 4)), sext_id; unfold in_int, bufSize, len in *; lia. }
  rewrite Hsz. eexists. split; [reflexivity|]. unfold readResponse, discard; cbn [inbox clientID correlationID outbox closed].
  assert (Ed : drop 8 (inbox c) = bb ++ rest).
  { rewrite E, <- app_assoc, app_assoc, <- !app_assoc, app_assoc.
    apply drop_app_exact. rewrite length_app, !length_be_put. reflexivity. }
  rewrite Ed, (proj2 (Z.ltb_ge (len bb) 0)), (proj2 (Z.ltb_ge bufSize (len bb))) by (unfold len in *; lia).
  rewrite (proj2 (Z.ltb_ge _ _)) by len_solve.
  unfold len. rewrite Nat2Z.id, take_app_length, drop_app_length.
  rewrite (reads_Decode _ _ _ Hr). reflexivity.
Qed.
End operations.

(** The outcome of a call whose response is at the front of the inbox: the
    frame of the request has been written, the response taken off the inbox. *)
Lemma do_exchange {B} `{ResponseLaws B} oL oB body c (r : Response.t B) frame rest :
  valid_order oL -> valid_order oB -> closed c = false ->
  wf_request (Request.mk (int32 (correlationID c + 1)) (clientID c) body) ->
  resp_wf (Version body) (Response.body r) ->
  Response.CorrelationID r = int32 (correlationID c + 1) ->
  Encode (Response.Encode oL r) (Response.Encode oB r) = Ret frame tt ->
  len frame <= bufSize + 8 -> inbox c = frame ++ rest ->
  exists req,
    Encode (Request.Encode oL (Request.mk (int32 (correlationID c + 1)) (clientID c) body))
      (Request.Encode oB (Request.mk (int32 (correlationID c + 1)) (clientID c) body)) = Ret req tt /\
    do oL oB body c =
      Done (resp_seen (Response.body r))
        (mkConn (clientID c) (int32 (correlationID c + 1)) rest (outbox c ++ req) false).
Proof.
  intros HL HB Hc Hw Hv Hid Hf Hn Hin.
  destruct (request_bytes oL oB _ HL HB Hw) as (hb & bb & D & _ & Ereq & _).
  eexists. split; [exact Ereq|]. unfold do, doRequest, writeRequest.
  cbn [clientID correlationID inbox outbox closed]. rewrite Ereq, Hc.
  destruct (response_bytes oL oB (Version body) r HL HB Hv) as (rb & Er & Hr).
  rewrite Hf in Er.
  assert (Ef : frame = be_put 4 (uint32 (len rb + 4)) ++ be_put 4 (uint32 (Response.CorrelationID r)) ++ rb)
    by congruence.
  clear Er. rewrite Hid in Ef. subst frame.
  destruct (wait_and_read (resp_decode (Version body))
    (mkConn (clientID c) (int32 (correlationID c + 1)) (inbox c)
       (outbox c ++ be_put 4 (uint32 (len (hb ++ bb))) ++ hb ++ bb) false)
    (int32 (correlationID c + 1)) rb rest (resp_seen (Response.body r)))
    as (c1 & Ew & Erd);
    [apply sext_range; lia|revert Hn; unfold len; rewrite !length_app, !length_be_put; lia
    |exact Hin|exact Hr|].
  rewrite Ew, Erd. reflexivity.
Qed.
