(* ===== verification/ConnShared.v ===== *)
(** * A client connection shared by goroutines

    [src/jocko/conn.go]: the two mutexes, the deadlines and the interleaving of
    several calls of [do] on one [Conn].  A section that runs under a mutex is
    cut where another goroutine can come between: the deadlines have a mutex of
    their own and change at any time.  Deadlines are times of the clock, 0 is
    the zero time (none). *)
From S2P Require Import Prelude Encoder Decoder Codec ClientApi TopicApi GroupApi ClusterApi MessageSets Wire Conn.
Open Scope Z_scope.

(** ** [connDeadline] and the deadlines of the network connection *)
Record netConn := mkNet { readDeadline : Z; writeDeadline : Z }.
Definition SetConnReadDeadline (t : Z) (n : netConn) : netConn := mkNet t (writeDeadline n).
Definition SetConnWriteDeadline (t : Z) (n : netConn) : netConn := mkNet (readDeadline n) t.

(** [rconn] and [wconn] point to the connection or are nil. *)
Record connDeadline := mkDeadline { value : Z; rconn : bool; wconn : bool }.
Definition zeroDeadline : connDeadline := mkDeadline 0 false false.

Definition deadline (d : connDeadline) : Z := value d.

Definition setDeadline (t : Z) (d : connDeadline) (n : netConn) : connDeadline * netConn :=
  let d := mkDeadline t (rconn d) (wconn d) in
  let n := if rconn d then SetConnReadDeadline t n else n in
  let n := if wconn d then SetConnWriteDeadline t n else n in
  (d, n).

Definition setConnReadDeadline (d : connDeadline) (n : netConn) : connDeadline * netConn :=
  (mkDeadline (value d) true (wconn d), SetConnReadDeadline (value d) n).

Definition setConnWriteDeadline (d : connDeadline) (n : netConn) : connDeadline * netConn :=
  (mkDeadline (value d) (rconn d) true, SetConnWriteDeadline (value d) n).

Definition unsetConnReadDeadline (d : connDeadline) : connDeadline :=
  mkDeadline (value d) false (wconn d).

Definition unsetConnWriteDeadline (d : connDeadline) : connDeadline :=
  mkDeadline (value d) (rconn d) false.

(** Which of its two deadlines the connection hands to [do]. *)
Inductive side := ReadSide | WriteSide.
#[export] Instance side_eq_dec : EqDecision side.
Proof. solve_decision. Defined.

(** [LeaderAndISR] and [CreateTopics] are write operations, all others read
    operations. *)
Definition operationSide (b : Body) : side :=
  match b with
  | Wire.LeaderAndISR _ | Wire.CreateTopics _ => WriteSide
  | _ => ReadSide
  end.

(** ** The state that the goroutines share *)
Section shared.
Context {A : Type}.

(** Where a call of [do] stands: [Writing] holds [wlock], [Peeking] and
    [Reading] hold [rlock]; [Written] has unlocked and not yet read
    [c.correlationID], the value that [doRequest] returns. *)
Inductive pc :=
| Start
| Writing (id : Z)
| Written (id : Z)
| Waiting (id : Z)
| Peeking (id : Z)
| Reading (size : Z)
| Returned (r : A + error).

(** [peer] is what the peer has sent and the connection not yet received,
    [gone] that it has closed its side, [now] the clock. *)
Record world := mkWorld {
  conn : Conn; net : netConn; deadlines : side -> connDeadline;
  rlock : option nat; wlock : option nat; now : Z; peer : list byte; gone : bool;
  requests : list (Z * Body); calls : list (Body * pc) }.

Definition put_deadline (s : side) (dn : connDeadline * netConn) (w : world) : world :=
  mkWorld (conn w) dn.2 (fun s' => if decide (s' = s) then dn.1 else deadlines w s')
    (rlock w) (wlock w) (now w) (peer w) (gone w) (requests w) (calls w).
Definition put_conn (c : Conn) (w : world) : world :=
  mkWorld c (net w) (deadlines w) (rlock w) (wlock w) (now w) (peer w) (gone w) (requests w) (calls w).
Definition put_rlock (l : option nat) (w : world) : world :=
  mkWorld (conn w) (net w) (deadlines w) l (wlock w) (now w) (peer w) (gone w) (requests w) (calls w).
Definition put_wlock (l : option nat) (w : world) : world :=
  mkWorld (conn w) (net w) (deadlines w) (rlock w) l (now w) (peer w) (gone w) (requests w) (calls w).
Definition put_call (i : nat) (b : Body) (p : pc) (w : world) : world :=
  mkWorld (conn w) (net w) (deadlines w) (rlock w) (wlock w) (now w) (peer w) (gone w) (requests w)
    (<[i := (b, p)]> (calls w)).

(** [Conn.SetDeadline], [SetReadDeadline] and [SetWriteDeadline]. *)
Definition SetReadDeadline (t : Z) (w : world) : world :=
  put_deadline ReadSide (setDeadline t (deadlines w ReadSide) (net w)) w.
Definition SetWriteDeadline (t : Z) (w : world) : world :=
  put_deadline WriteSide (setDeadline t (deadlines w WriteSide) (net w)) w.
Definition SetDeadline (t : Z) (w : world) : world := SetWriteDeadline t (SetReadDeadline t w).

(** [c.conn.Close]: what the buffered reader already holds, a prefix of the
    bytes on their way, stays readable. *)
Definition closeConn (k : nat) (w : world) : world :=
  let c := conn w in
  mkWorld (mkConn (clientID c) (correlationID c) (take k (inbox c)) (outbox c) true)
    (net w) (deadlines w) (rlock w) (wlock w) (now w) [] true (requests w) (calls w).

Definition expired (d : Z) (w : world) : bool := negb (d =? 0) && (d <=? now w).

(** The connection brings no further bytes: it is closed, the peer has gone or
    the read deadline has passed. *)
Definition noMoreInput (w : world) : bool :=
  closed (conn w) || gone w || expired (readDeadline (net w)) w.

(** [Peek(size)] returns early on a bad size, and when the buffer is full. *)
Definition readReturns (size : Z) (w : world) : bool :=
  (size <? 0) || (Z.min size bufSize <=? len (inbox (conn w))) || noMoreInput w.

Context (oL oB : map_order).
Context (serve : Z -> Body -> list byte) (read : Body -> M ByteDecoder A).

(** ** The steps of [do] *)

(** [doRequest]: lock, [c.correlationID++], set the write deadline. *)
Definition beginRequest (i : nat) (b : Body) (w : world) : world :=
  let c := conn w in
  let id := int32 (correlationID c + 1) in
  let s := operationSide b in
  let w := put_conn (mkConn (clientID c) id (inbox c) (outbox c) (closed c)) w in
  let w := put_deadline s (setConnWriteDeadline (deadlines w s) (net w)) w in
  put_call i b (Writing id) (put_wlock (Some i) w).

(** The rest of the locked section, when [write] succeeds: unset the deadline
    and unlock.  The peer, unless it has gone, gets the request and answers it. *)
Definition endRequest (i : nat) (b : Body) (id : Z) (c : Conn) (w : world) : world :=
  let s := operationSide b in
  let w := put_deadline s (unsetConnWriteDeadline (deadlines w s), net w) w in
  let w := put_call i b (Written id) (put_wlock None w) in
  mkWorld c (net w) (deadlines w) (rlock w) (wlock w) (now w)
    (peer w ++ (if gone w then [] else serve (correlationID c) b)) (gone w) (requests w ++ [(correlationID c, b)]) (calls w).

(** When it fails, the connection is closed as well. *)
Definition failRequest (i : nat) (b : Body) (id : Z) (c : Conn) (k : nat) (w : world) : world :=
  let s := operationSide b in
  let w := put_deadline s (unsetConnWriteDeadline (deadlines w s), net w) w in
  put_call i b (Written id) (put_wlock None (closeConn k (put_conn c w))).

(** [return c.correlationID, nil], after the unlock. *)
Definition takeID (i : nat) (b : Body) (w : world) : world :=
  put_call i b (Waiting (correlationID (conn w))) w.

(** A round of the loop of [waitResponse]: lock and set the read deadline ... *)
Definition beginPeek (i : nat) (b : Body) (id : Z) (w : world) : world :=
  let s := operationSide b in
  let w := put_deadline s (setConnReadDeadline (deadlines w s) (net w)) w in
  put_call i b (Peeking id) (put_rlock (Some i) w).

(** ... then keep the lock and skip the header when the id matches, and unlock
    otherwise, with the deadline left set. *)
Definition endPeek (i : nat) (b : Body) (id : Z) (head : Z * Z) (w : world) : world :=
  if id =? head.2 then
    put_call i b (Reading (int32 (head.1 - 4))) (put_conn (discard 8 (conn w)) w)
  else put_call i b (Waiting id) (put_rlock None w).

(** The rest of [do]: the connection is closed on an error. *)
Definition endRead (i : nat) (b : Body) (r : result A) (k : nat) (w : world) : option world :=
  let s := operationSide b in
  let w := put_rlock None (put_deadline s (unsetConnReadDeadline (deadlines w s), net w) w) in
  match r with
  | Done a c => Some (put_call i b (Returned (inl a)) (put_conn c w))
  | Err e c => Some (put_call i b (Returned (inr e)) (closeConn k (put_conn c w)))
  | Spinning | Panic => None
  end.

(** ** The interleaving

    A step of a call, or a change around it: bytes arrive, the clock goes on, a
    deadline is set, the peer leaves, the connection is closed. *)
Inductive step : world -> world -> Prop :=
| StepBegin i b w : calls w !! i = Some (b, Start) -> wlock w = None ->
    step w (beginRequest i b w)
| StepWrite i b id c w : calls w !! i = Some (b, Writing id) ->
    expired (writeDeadline (net w)) w = false ->
    writeRequest oL oB b (conn w) = Ret tt c -> step w (endRequest i b id c w)
| StepWriteFail i b id e c k w : calls w !! i = Some (b, Writing id) ->
    writeRequest oL oB b (conn w) = Fail e c -> step w (failRequest i b id c k w)
| StepWriteCut i b id out k w : calls w !! i = Some (b, Writing id) ->
    (expired (writeDeadline (net w)) w || gone w) = true ->
    step w (failRequest i b id
      (mkConn (clientID (conn w)) (correlationID (conn w)) (inbox (conn w))
         (outbox (conn w) ++ out) (closed (conn w))) k w)
| StepTakeID i b id w : calls w !! i = Some (b, Written id) -> step w (takeID i b w)
| StepPeek i b id w : calls w !! i = Some (b, Waiting id) -> rlock w = None ->
    step w (beginPeek i b id w)
| StepPeeked i b id w : calls w !! i = Some (b, Peeking id) -> (* [Peek(8)] blocks until then *) 8 <= len (inbox (conn w)) ->
    step w (endPeek i b id (peekResponseSizeAndID (conn w)) w)
| StepPeekFail i b id w : calls w !! i = Some (b, Peeking id) -> noMoreInput w = true ->
    step w (endPeek i b id (0, 0) w)
| StepRead i b size k w w' : calls w !! i = Some (b, Reading size) -> readReturns size w = true ->
    endRead i b (readResponse (read b) size (conn w)) k w = Some w' -> step w w'
| StepReadFail i b size e k w w' : calls w !! i = Some (b, Reading size) -> noMoreInput w = true ->
    endRead i b (Err e (conn w)) k w = Some w' -> step w w'
| StepDeliver n w : closed (conn w) = false ->
    step w (let c := conn w in
      mkWorld (mkConn (clientID c) (correlationID c) (inbox c ++ take n (peer w)) (outbox c) (closed c))
        (net w) (deadlines w) (rlock w) (wlock w) (now w) (drop n (peer w)) (gone w) (requests w) (calls w))
| StepTick t w : now w <= t ->
    step w (mkWorld (conn w) (net w) (deadlines w) (rlock w) (wlock w) t (peer w) (gone w) (requests w) (calls w))
| StepSetRead t w : step w (SetReadDeadline t w)
| StepSetWrite t w : step w (SetWriteDeadline t w)
| StepGone n w : step w (mkWorld (conn w) (net w) (deadlines w) (rlock w) (wlock w) (now w)
      (take n (peer w)) true (requests w) (calls w))
| StepClose k w : step w (closeConn k w).

(** A connection as [NewConn] makes it, with the calls that will be made. *)
Definition NewConn (clientID : string) : Conn := mkConn clientID 0 [] [] false.
Definition start (clientID : string) (bodies : list Body) : world :=
  mkWorld (NewConn clientID) (mkNet 0 0) (fun _ => zeroDeadline) None None 0 [] false []
    (map (fun b => (b, Start)) bodies).
End shared.
Arguments pc : clear implicits.
Arguments world : clear implicits.

(** ** Lemmas on the bookkeeping *)
Section facts.
Context {A : Type} (oL oB : map_order).
Context (serve : Z -> Body -> list byte) (read : Body -> M ByteDecoder A).
Implicit Types w : world A.

(** The id that the call has been given and not yet had an answer for. *)
Definition awaits (p : pc A) : option Z :=
  match p with Written id | Waiting id | Peeking id => Some id | _ => None end.
Definition holdsRead (p : pc A) : bool :=
  match p with Peeking _ | Reading _ => true | _ => false end.

(** The frame of a response to [b] numbered [id]: the body [bb] is read as [a]. *)
Definition frame (id : Z) (b : Body) (bb : list byte) (a : A) : Prop :=
  serve id b = be_put 4 (uint32 (len bb + 4)) ++ be_put 4 (uint32 id) ++ bb /\
  len bb <= bufSize /\ reads (read b) bb a.
Definition servable (b : Body) : Prop := forall id, in_int 32 id -> exists bb a, frame id b bb a.

Definition owner w (id : Z) (i : nat) (b : Body) : Prop :=
  exists p, calls w !! i = Some (b, p) /\ awaits p = Some id.

(** Who holds the mutexes. *)
Record locks w : Prop := {
  l_writing : forall i b id, calls w !! i = Some (b, Writing id) ->
    wlock w = Some i /\ id = correlationID (conn w);
  l_wlock : forall i, wlock w = Some i -> exists b id, calls w !! i = Some (b, Writing id);
  l_reading : forall i b p, calls w !! i = Some (b, p) -> holdsRead p = true -> rlock w = Some i;
  l_rlock : forall i, rlock w = Some i ->
    exists b p, calls w !! i = Some (b, p) /\ holdsRead p = true }.

Ltac calls_cases :=
  repeat match goal with
  | H : <[_ := _]> _ !! _ = Some _ |- _ =>
      apply list_lookup_insert_Some in H as [(? & ? & ?)|(? & H)]; simplify_eq
  end.

(** The call [i] goes from [p] to [p'] and nothing changes for the others. *)
Lemma locks_put i b p p' w w' : locks w -> calls w !! i = Some (b, p) ->
  calls w' = <[i := (b, p')]> (calls w) ->
  wlock w' = (match p' with Writing _ => Some i | _ => if p is Writing _ then None else wlock w end) ->
  rlock w' = (if holdsRead p' then Some i else if holdsRead p then None else rlock w) ->
  (match p' with Writing id => wlock w = None /\ id = correlationID (conn w')
   | _ => correlationID (conn w') = correlationID (conn w) end) ->
  (holdsRead p' = true -> holdsRead p = true \/ rlock w = None) -> locks w'.
Proof.
  intros [L1 L2 L3 L4] Hi Ec Ew Er Hw Hr.
  assert (Hlt : (i < length (calls w))%nat) by (eapply lookup_lt_Some, Hi).
  constructor; rewrite Ec.
  - intros j b' id Hj. calls_cases.
    + rewrite Ew. split; [reflexivity|apply Hw].
    + destruct (L1 _ _ _ Hj) as [Hl ->].
      destruct p'; try (rewrite Hw, Ew; split; [|reflexivity]; destruct p; [exact Hl| |exact Hl..];
        destruct (L1 _ _ _ Hi); congruence).
      destruct Hw as [Hn _]. congruence.
  - intros j Hj. rewrite Ew in Hj.
    destruct (decide (i = j)) as [<-|Hne].
    + rewrite list_lookup_insert_eq by exact Hlt.
      destruct p'; try (destruct p; [| |..]; try discriminate Hj;
        destruct (L2 _ Hj) as (b' & id' & E); congruence). eauto.
    + rewrite list_lookup_insert_ne by exact Hne. destruct p'; try congruence;
        destruct p; try discriminate Hj; exact (L2 _ Hj).
  - intros j b' q Hj Hq. calls_cases; [rewrite Er, Hq; reflexivity|].
    pose proof (L3 _ _ _ Hj Hq) as Hl. rewrite Er. destruct (holdsRead p') eqn:E'.
    + destruct (Hr eq_refl) as [Hp|Hn]; [pose proof (L3 _ _ _ Hi Hp); congruence|congruence].
    + destruct (holdsRead p) eqn:Ep; [pose proof (L3 _ _ _ Hi Ep); congruence|exact Hl].
  - intros j Hj. rewrite Er in Hj. destruct (decide (i = j)) as [<-|Hne].
    + rewrite list_lookup_insert_eq by exact Hlt. exists b, p'. split; [reflexivity|].
      destruct (holdsRead p') eqn:E'; [reflexivity|].
      destruct (holdsRead p) eqn:Ep; [discriminate|].
      destruct (L4 _ Hj) as (b' & q & E & Hq). congruence.
    + rewrite list_lookup_insert_ne by exact Hne.
      destruct (holdsRead p'); [congruence|]. destruct (holdsRead p); [discriminate|eauto].
Qed.

(** Nothing that concerns the mutexes changes. *)
Lemma locks_same w w' : locks w -> calls w' = calls w -> wlock w' = wlock w ->
  rlock w' = rlock w -> correlationID (conn w') = correlationID (conn w) -> locks w'.
Proof. intros [] E1 E2 E3 E4. constructor; rewrite ?E1, ?E2, ?E3, ?E4; assumption. Qed.

Lemma writeRequest_ok b c c' : writeRequest oL oB b c = Ret tt c' ->
  exists bs, c' = mkConn (clientID c) (correlationID c) (inbox c) (outbox c ++ bs) false /\
    closed c = false.
Proof.
  unfold writeRequest. destruct Encode as [bs ?|?|]; [|discriminate..].
  destruct (closed c); [discriminate|]. intros [= <-]. eauto.
Qed.

Lemma writeRequest_fail b c e c' : writeRequest oL oB b c = Fail e c' -> c' = c.
Proof.
  unfold writeRequest. destruct Encode as [bs ?|?|]; [|congruence..].
  destruct (closed c); congruence.
Qed.

Lemma discard_0 c : c = discard 0 c.
Proof. destruct c; reflexivity. Qed.

(** What [readResponse] leaves of the connection. *)
Lemma readResponse_conn (D : M ByteDecoder A) size c : match readResponse D size c with
  | Done _ c' | Err _ c' => exists n, c' = discard n c
  | Spinning => False | Panic => True end.
Proof.
  pose proof (discard_0 c) as H0.
  unfold readResponse. destruct (size <? 0); [eauto|]. destruct (bufSize <? size); [eauto|].
  destruct (_ <? size); [eauto|]. destruct Decode; eauto.
Qed.

(** The call [i], how it stands after a step, and that the step moved it. *)
Lemma endRead_inv i b size r k w w' : calls w !! i = Some (b, Reading size) ->
  (match r with Done _ c' | Err _ c' => exists n, c' = discard n (conn w) | Spinning => False | Panic => True end) ->
  endRead i b r k w = Some w' ->
  exists x, calls w' = <[i := (b, Returned x)]> (calls w) /\ wlock w' = wlock w /\ rlock w' = None /\
    correlationID (conn w') = correlationID (conn w) /\ requests w' = requests w.
Proof.
  intros Hi Hr He. unfold endRead in He. destruct r; try discriminate; destruct Hr as [n ->];
    injection He as <-; eexists; repeat split.
Qed.

Lemma locks_peeked i b id h w : locks w -> calls w !! i = Some (b, Peeking id) ->
  locks (endPeek i b id h w).
Proof.
  intros Hl Hi. pose proof (l_reading _ Hl _ _ _ Hi eq_refl) as Hr. unfold endPeek.
  destruct (id =? _); (eapply locks_put; [exact Hl|exact Hi|reflexivity|reflexivity|
    first [exact Hr|reflexivity]|reflexivity|left; reflexivity]).
Qed.

Lemma locks_step w w' : step oL oB serve read w w' -> locks w -> locks w'.
Proof.
  intros Hs Hl. inversion Hs as
    [i b w0 Hi Hw|i b id c w0 Hi He Hw|i b id e c k w0 Hi Hw|i b id out k w0 Hi He|i b id w0 Hi
    |i b id w0 Hi Hr|i b id w0 Hi Hn|i b id w0 Hi Hn|i b size k w0 w1 Hi Hr He|i b size e k w0 w1 Hi Hr He
    |n w0 Hc|t w0 Ht|t w0|t w0|n w0|k w0]; subst w0;
    try (eapply locks_same; [exact Hl|reflexivity..]).
  - eapply locks_put; [exact Hl|exact Hi|reflexivity|reflexivity|reflexivity|split; [exact Hw|reflexivity]|discriminate].
  - destruct (writeRequest_ok _ _ _ Hw) as (bs & -> & _).
    eapply locks_put; [exact Hl|exact Hi|reflexivity|reflexivity|reflexivity|reflexivity|discriminate].
  - pose proof (writeRequest_fail _ _ _ _ Hw) as ->.
    eapply locks_put; [exact Hl|exact Hi|reflexivity|reflexivity|reflexivity|reflexivity|discriminate].
  - eapply locks_put; [exact Hl|exact Hi|reflexivity|reflexivity|reflexivity|reflexivity|discriminate].
  - eapply locks_put; [exact Hl|exact Hi|reflexivity|reflexivity|reflexivity|reflexivity|discriminate].
  - eapply locks_put; [exact Hl|exact Hi|reflexivity|reflexivity|reflexivity|reflexivity|right; exact Hr].
  - apply (locks_peeked _ _ _ _ _ Hl Hi).
  - apply (locks_peeked _ _ _ _ _ Hl Hi).
  - destruct (endRead_inv _ _ _ _ _ _ _ Hi (readResponse_conn _ _ _) He) as (x & E1 & E2 & E3 & E4 & _).
    eapply locks_put; [exact Hl|exact Hi|exact E1|exact E2|exact E3|exact E4|discriminate].
  - destruct (endRead_inv _ _ _ (Err e (conn w)) _ _ _ Hi (ex_intro _ 0%nat (discard_0 (conn w))) He)
      as (x & E1 & E2 & E3 & E4 & _).
    eapply locks_put; [exact Hl|exact Hi|exact E1|exact E2|exact E3|exact E4|discriminate].
Qed.
End facts.
