(* ===== verification/ConnCalls.v ===== *)
(** * Calls that share a connection get their own answers

    What holds of every interleaving of calls on a [Conn] in which no request is
    begun between the unlock of another and its reading of [c.correlationID]
    ([src/jocko/conn.go], [doRequest]); and what happens otherwise. *)
From S2P Require Import Prelude Encoder Decoder Codec ClientApi TopicApi GroupApi ClusterApi MessageSets Wire Conn ConnShared.
Open Scope Z_scope.

Section calls.
Context {A : Type} (oL oB : map_order).
Context (serve : Z -> Body -> list byte) (read : Body -> M ByteDecoder A).
Implicit Types w : world A.

(** A step that gives no new number while a call has yet to read its own. *)
Definition quiet w w' : Prop :=
  step oL oB serve read w w' /\
  (correlationID (conn w') <> correlationID (conn w) ->
   forall i b id, calls w !! i <> Some (b, Written id)).

(** The first [m] requests are answered, each later one belongs to one call. *)
Record numbered (m : nat) w : Prop := {
  n_ids : forall k q, requests w !! k = Some q -> q.1 = Z.of_nat k + 1;
  n_corr : correlationID (conn w) = Z.of_nat (length (requests w)) + (if wlock w is Some _ then 1 else 0);
  n_written : forall i b id, calls w !! i = Some (b, Written id) ->
    wlock w = None /\ id = correlationID (conn w);
  n_own : forall id i b, owner w id i b -> exists k, (m <= k)%nat /\ requests w !! k = Some (id, b);
  n_inj : forall id i j b b', owner w id i b -> owner w id j b' -> i = j;
  n_all : forall k, (m <= k < length (requests w))%nat -> exists i b, owner w (Z.of_nat k + 1) i b;
  n_m : (m <= length (requests w))%nat }.

(** The bytes on their way: the rest [pre] of the response that is being read,
    then the answers to the requests from the [m]-th on. *)
Record flow (m : nat) (pre : list byte) w : Prop := {
  f_reading : forall i b size, calls w !! i = Some (b, Reading size) ->
    size = len pre /\ exists id a, (id, b) ∈ requests w /\ frame serve read id b pre a;
  f_idle : rlock w = None \/ (exists i b id, calls w !! i = Some (b, Peeking id)) -> pre = [];
  f_stream : let rest := pre ++ concat (map (fun q => serve q.1 q.2) (drop m (requests w))) in
    inbox (conn w) ++ peer w `prefix_of` rest /\ (gone w = false -> inbox (conn w) ++ peer w = rest);
  f_servable : forall i b p, calls w !! i = Some (b, p) -> servable serve read b;
  f_returned : forall i b r, calls w !! i = Some (b, Returned r) ->
    exists a id bb, r = inl a /\ (id, b) ∈ requests w /\ frame serve read id b bb a }.

Lemma owner_put i b p p' w w' : calls w !! i = Some (b, p) ->
  calls w' = <[i := (b, p')]> (calls w) -> forall id j b',
  owner w' id j b' <-> (j = i /\ b' = b /\ awaits p' = Some id) \/ (j <> i /\ owner w id j b').
Proof.
  intros Hi Ec id j b'. assert (Hlt : (i < length (calls w))%nat) by (eapply lookup_lt_Some, Hi).
  unfold owner. rewrite Ec. split.
  - intros (q & Hq & Ha). apply list_lookup_insert_Some in Hq as [(-> & E & _)|(Hne & Hq)].
    + injection E as -> ->. auto.
    + right. split; [congruence|eauto].
  - intros [(-> & -> & Ha)|(Hne & q & Hq & Ha)].
    + exists p'. rewrite list_lookup_insert_eq by exact Hlt. auto.
    + exists q. rewrite list_lookup_insert_ne by congruence. auto.
Qed.

Lemma owner_keep i b p p' w w' : calls w !! i = Some (b, p) ->
  calls w' = <[i := (b, p')]> (calls w) -> awaits p' = awaits p -> forall id j b',
  owner w' id j b' <-> owner w id j b'.
Proof.
  intros Hi Ec Ea id j b'. rewrite (owner_put _ _ _ _ _ _ Hi Ec), Ea. split.
  - intros [(-> & -> & Ha)|(_ & Ho)]; [exists p; auto|exact Ho].
  - intros (q & Hq & Ha). destruct (decide (j = i)) as [->|]; [|right; split; [assumption|exists q; auto]].
    left. rewrite Hi in Hq. injection Hq as <- <-. auto.
Qed.

(** A step that leaves the owners of the numbers alone. *)
Lemma numbered_keep m w w' : numbered m w -> requests w' = requests w -> 
  (forall id i b, owner w' id i b <-> owner w id i b) ->
  correlationID (conn w') = Z.of_nat (length (requests w)) + (if wlock w' is Some _ then 1 else 0) ->
  (forall i b id, calls w' !! i = Some (b, Written id) ->
     wlock w' = None /\ id = correlationID (conn w')) -> numbered m w'.
Proof.
  intros [N1 N2 N3 N4 N5 N6 N7] Er Ho Ec Hw. constructor; rewrite ?Er; auto.
  - intros id i b H. apply N4 with i, Ho, H.
  - intros id i j b b' H H'. apply (N5 id i j b b'); apply Ho; assumption.
  - intros k Hk. destruct (N6 k Hk) as (i & b & H). exists i, b. apply Ho, H.
Qed.

(** The same where a call goes from [p] to [p'] and waits for the same number. *)
Lemma numbered_put m i b p p' w w' : numbered m w -> calls w !! i = Some (b, p) ->
  calls w' = <[i := (b, p')]> (calls w) -> awaits p' = awaits p ->
  (forall id, p' <> Written id) -> requests w' = requests w -> wlock w' = wlock w ->
  correlationID (conn w') = correlationID (conn w) -> numbered m w'.
Proof.
  intros N Hi Ec Ea Hp Er Ew Ek. apply (numbered_keep m w); [exact N|exact Er|eapply owner_keep; eauto| |].
  - rewrite Ew, Ek. apply (n_corr _ _ N).
  - rewrite Ew, Ek, Ec. intros j b' id Hj.
    apply list_lookup_insert_Some in Hj as [(-> & E & _)|(_ & Hj)]; [|apply (n_written _ _ N _ _ _ Hj)].
    injection E as <- E. destruct (Hp _ E).
Qed.

(** The number of a new request does not wrap around. *)
Lemma numbered_begin m i b w : numbered m w -> calls w !! i = Some (b, Start) -> wlock w = None ->
  Z.of_nat (length (requests w)) < 2 ^ 31 - 1 ->
  (forall j b' id, calls w !! j <> Some (b', Written id)) -> numbered m (beginRequest i b w).
Proof.
  intros N Hi Hw Hb Hq. pose proof (n_corr _ _ N) as Hc. rewrite Hw in Hc.
  apply (numbered_keep m w); [exact N|reflexivity|eapply owner_keep; [exact Hi|reflexivity..]| |].
  - cbn. rewrite Hc, Z.add_0_r. unfold int32. apply sext_id; [lia|unfold in_int; lia].
  - intros j b' id Hj. cbn in Hj.
    apply list_lookup_insert_Some in Hj as [(-> & E & _)|(_ & Hj)]; [discriminate E|destruct (Hq _ _ _ Hj)].
Qed.

(** A request that was written belongs to its call. *)
Lemma numbered_write m i b id c w : numbered m w -> locks w ->
  calls w !! i = Some (b, Writing id) -> correlationID c = correlationID (conn w) ->
  numbered m (endRequest serve i b id c w).
Proof.
  intros [N1 N2 N3 N4 N5 N6 N7] L Hi Ec. destruct (l_writing _ L _ _ _ Hi) as [Hl ->].
  rewrite Hl in N2. pose proof (owner_put _ _ _ (Written (correlationID (conn w))) w
    (endRequest serve i b (correlationID (conn w)) c w) Hi eq_refl) as Ho.
  assert (Hold : forall id j b', owner w id j b' -> id <> correlationID (conn w)).
  { intros id j b' H ->. destruct (N4 _ _ _ H) as (k & _ & E). pose proof (N1 _ _ E) as E1.
    apply lookup_lt_Some in E. cbn in E1. lia. }
  constructor; cbn [requests endRequest conn wlock calls put_call put_wlock put_deadline]; rewrite ?Ec, ?length_app; cbn [length].
  - intros k q Hk. apply lookup_app_Some in Hk as [Hk|(Hge & Hk)]; [exact (N1 _ _ Hk)|].
    destruct (k - length (requests w))%nat eqn:E; [|discriminate]. injection Hk as <-. cbn. lia.
  - rewrite N2. cbn. lia.
  - intros j b' id Hj. apply list_lookup_insert_Some in Hj as [(-> & E & _)|(_ & Hj)].
    + injection E as <- <-. auto.
    + destruct (N3 _ _ _ Hj). congruence.
  - intros id j b' H. apply Ho in H as [(-> & -> & E)|(_ & H)].
    + injection E as <-. exists (length (requests w)). split; [exact N7|]. rewrite lookup_app_r, Nat.sub_diag by lia. reflexivity.
    + destruct (N4 _ _ _ H) as (k & Hk & E). exists k. split; [exact Hk|]. apply lookup_app_l_Some, E.
  - intros id j j' b1 b2 H1 H2. apply Ho in H1 as [(-> & -> & E1)|(_ & H1)]; apply Ho in H2 as [(-> & -> & E2)|(_ & H2)];
      [reflexivity| | |exact (N5 _ _ _ _ _ H1 H2)].
    + injection E1 as <-. destruct (Hold _ _ _ H2 eq_refl).
    + injection E2 as <-. destruct (Hold _ _ _ H1 eq_refl).
  - intros k [Hm Hk]. destruct (decide (k = length (requests w))) as [->|Hne].
    + exists i, b. apply Ho. left. cbn. rewrite N2. auto.
    + destruct (N6 k) as (j & b' & H); [lia|]. exists j, b'. apply Ho.
      destruct (decide (j = i)) as [->|]; [|auto]. destruct H as (q & Hq & Ha).
      rewrite Hi in Hq. injection Hq as <- <-. discriminate Ha.
  - lia.
Qed.

(** The answer to the oldest request is taken by its call. *)
Lemma numbered_match m i b h w : numbered m w -> (m < length (requests w))%nat ->
  calls w !! i = Some (b, Peeking (Z.of_nat m + 1)) -> h.2 = Z.of_nat m + 1 ->
  numbered (S m) (endPeek i b (Z.of_nat m + 1) h w) /\ requests w !! m = Some (Z.of_nat m + 1, b).
Proof.
  intros [N1 N2 N3 N4 N5 N6 N7] Hm Hi Eh. unfold endPeek. rewrite Eh, Z.eqb_refl.
  set (w' := put_call _ _ _ _).
  pose proof (owner_put _ _ _ (Reading (int32 (h.1 - 4))) w w' Hi eq_refl) as Ho.
  assert (Hmine : owner w (Z.of_nat m + 1) i b) by (exists (Peeking (Z.of_nat m + 1)); auto).
  assert (Hk : forall k id b', requests w !! k = Some (id, b') -> id = Z.of_nat k + 1) by (intros k id b' Hk; exact (N1 _ _ Hk)).
  split; [constructor; try assumption|].
  - intros j b' id Hj. cbn in Hj. apply list_lookup_insert_Some in Hj as [(-> & E & _)|(_ & Hj)]; [discriminate|eauto].
  - intros id j b' H. apply Ho in H as [(-> & -> & E)|(Hne & H)]; [discriminate|].
    destruct (N4 _ _ _ H) as (k & Hle & E). exists k. split; [|exact E].
    destruct (decide (k = m)) as [->|]; [|lia]. pose proof (Hk _ _ _ E) as ->.
    destruct (Hne (N5 _ _ _ _ _ H Hmine)).
  - intros id j j' b1 b2 H1 H2. apply Ho in H1 as [(_ & _ & E1)|(_ & H1)]; [discriminate|].
    apply Ho in H2 as [(_ & _ & E2)|(_ & H2)]; [discriminate|]. eauto.
  - intros k Hr. destruct (N6 k) as (j & b' & H); [subst w'; cbn in Hr; lia|]. exists j, b'. apply Ho. right.
    split; [|exact H]. intros ->. destruct H as (q & Hq & Ha). rewrite Hi in Hq. injection Hq as <- <-.
    injection Ha as Ha. lia.
  - destruct (N4 _ _ _ Hmine) as (k & Hle & E). pose proof (Hk _ _ _ E) as Ek.
    replace m with k at 1 by lia. exact E.
Qed.

(** ** The bytes *)
Lemma split_front (x y h r : list byte) : x ++ y `prefix_of` h ++ r -> (length h <= length x)%nat ->
  x = h ++ drop (length h) x /\ drop (length h) x ++ y `prefix_of` r /\
  (x ++ y = h ++ r -> drop (length h) x ++ y = r).
Proof.
  intros [z Hz] Hl. assert (Ex : x = h ++ drop (length h) x).
  { rewrite <- (take_drop (length h) x) at 1. f_equal.
    apply (f_equal (take (length h))) in Hz. rewrite <- !app_assoc in Hz.
    rewrite take_app_length, take_app_le in Hz by lia. symmetry. exact Hz. }
  split; [exact Ex|]. rewrite Ex in Hz at 1. rewrite <- !app_assoc in Hz. apply app_inv_head in Hz.
  split; [exists z; rewrite <- app_assoc; exact Hz|].
  intros E. rewrite Ex in E at 1. rewrite <- app_assoc in E. apply app_inv_head in E. exact E.
Qed.

(** A call moves on without touching the bytes. *)
Lemma flow_put m pre i b p p' w w' : flow m pre w -> calls w !! i = Some (b, p) ->
  calls w' = <[i := (b, p')]> (calls w) -> requests w' = requests w ->
  inbox (conn w') ++ peer w' = inbox (conn w) ++ peer w -> gone w' = gone w ->
  (rlock w' = None \/ (exists id, p' = Peeking id) ->
   rlock w = None \/ exists j b0 id, calls w !! j = Some (b0, Peeking id)) ->
  match p' with Reading _ | Returned _ => False | _ => True end -> flow m pre w'.
Proof.
  intros [F1 F2 F3 F4 F5] Hi Ec Er Eb Eg Hr Hp. constructor; rewrite ?Ec, ?Er, ?Eb, ?Eg; auto.
  - intros j b' size Hj. apply list_lookup_insert_Some in Hj as [(-> & E & _)|(_ & Hj)]; [|eauto].
    injection E as <- ->. destruct Hp.
  - intros H. apply F2. destruct H as [H|(j & b' & id & H)]; [apply Hr; auto|].
    apply list_lookup_insert_Some in H as [(-> & E & _)|(_ & H)]; [|eauto].
    injection E as <- ->. apply Hr. eauto.
  - intros j b' q Hj. apply list_lookup_insert_Some in Hj as [(-> & E & _)|(_ & Hj)]; [|eauto].
    injection E as <- ->. eauto.
  - intros j b' r Hj. apply list_lookup_insert_Some in Hj as [(-> & E & _)|(_ & Hj)]; [|eauto].
    injection E as <- ->. destruct Hp.
Qed.

(** The peer answers a request behind the others. *)
Lemma flow_write m pre i b id c w : flow m pre w -> locks w -> (m <= length (requests w))%nat ->
  calls w !! i = Some (b, Writing id) -> inbox c = inbox (conn w) ->
  flow m pre (endRequest serve i b id c w).
Proof.
  intros [F1 F2 F3 F4 F5] L Hm Hi Ec. constructor; cbn [endRequest calls put_call put_wlock put_deadline rlock requests].
  - intros j b' size Hj. apply list_lookup_insert_Some in Hj as [(-> & E & _)|(_ & Hj)]; [discriminate|].
    destruct (F1 _ _ _ Hj) as (-> & id' & a & Hin & Hf). split; [reflexivity|].
    exists id', a. split; [apply elem_of_app; auto|exact Hf].
  - intros [H|(j & b' & id' & H)]; apply F2; [auto|].
    apply list_lookup_insert_Some in H as [(-> & E & _)|(_ & H)]; [discriminate|eauto 6].
  - cbn. rewrite Ec, drop_app_le, map_app, concat_app by exact Hm. cbn. rewrite app_nil_r.
    cbn in F3. destruct F3 as [[z Hp] Hg]. destruct (gone w).
    + split; [|discriminate]. rewrite app_nil_r. exists (z ++ serve (correlationID c) b).
      rewrite app_assoc, Hp, <- !app_assoc. reflexivity.
    + specialize (Hg eq_refl). rewrite app_assoc, Hg, <- app_assoc. split; [reflexivity|auto].
  - intros j b' q Hj. apply list_lookup_insert_Some in Hj as [(-> & E & _)|(_ & Hj)]; [|eauto].
    injection E as <- <-. eauto.
  - intros j b' r Hj. apply list_lookup_insert_Some in Hj as [(-> & E & _)|(_ & Hj)]; [discriminate|].
    destruct (F5 _ _ _ Hj) as (a & id' & bb & -> & Hin & Hf). exists a, id', bb.
    split; [reflexivity|]. split; [apply elem_of_app; auto|exact Hf].
Qed.

(** The oldest request that is not answered and the frame of its answer. *)
Lemma next_frame m w : numbered m w -> flow m [] w -> (m < length (requests w))%nat ->
  Z.of_nat (length (requests w)) < 2 ^ 31 - 1 ->
  exists b bb a, requests w !! m = Some (Z.of_nat m + 1, b) /\ frame serve read (Z.of_nat m + 1) b bb a /\
    drop m (requests w) = (Z.of_nat m + 1, b) :: drop (S m) (requests w).
Proof.
  intros N F Hm Hb. destruct (n_all _ _ N m) as (i & b & Ho); [lia|].
  destruct (n_own _ _ N _ _ _ Ho) as (k & Hk & E). pose proof (n_ids _ _ N _ _ E) as Ek. cbn in Ek.
  assert (k = m) as -> by lia. destruct Ho as (p & Hp & _).
  destruct (f_servable _ _ _ F _ _ _ Hp (Z.of_nat m + 1)) as (bb & a & Hf); [unfold in_int; lia|].
  exists b, bb, a. auto using drop_S.
Qed.

(** What a peek at the bytes that have come shows. *)
Lemma peek_next m w : numbered m w -> flow m [] w -> 8 <= len (inbox (conn w)) ->
  Z.of_nat (length (requests w)) < 2 ^ 31 - 1 ->
  exists b bb a, frame serve read (Z.of_nat m + 1) b bb a /\
    drop m (requests w) = (Z.of_nat m + 1, b) :: drop (S m) (requests w) /\
    requests w !! m = Some (Z.of_nat m + 1, b) /\
    peekResponseSizeAndID (conn w) = (len bb + 4, Z.of_nat m + 1).
Proof.
  intros N F Hl Hb. destruct (f_stream _ _ _ F) as [Hs _].
  assert (Hm : (m < length (requests w))%nat).
  { destruct (decide (m < length (requests w))%nat) as [H|H]; [exact H|].
    rewrite drop_ge in Hs by lia. destruct Hs as [z Hz]. apply (f_equal length) in Hz.
    rewrite !length_app in Hz. unfold len in Hl. cbn in Hz. lia. }
  destruct (next_frame m w N F Hm Hb) as (b & bb & a & Er & Hf & Ed). exists b, bb, a.
  repeat split; try assumption; try apply Hf. destruct Hf as (Ef & Hn & _).
  rewrite Ed in Hs. cbn [map concat fst snd app] in Hs. rewrite Ef in Hs.
  rewrite app_assoc, <- app_assoc in Hs.
  destruct (split_front (inbox (conn w)) (peer w)
    (be_put 4 (uint32 (len bb + 4)) ++ be_put 4 (uint32 (Z.of_nat m + 1))) (bb ++ concat (map (fun q => serve q.1 q.2) (drop (S m) (requests w))))) as (Ei & _ & _).
  { rewrite <- !app_assoc in Hs |- *. exact Hs. }
  { rewrite length_app, !length_be_put. unfold len in Hl. lia. }
  rewrite <- (app_nil_r (inbox (conn w))) in Ei. rewrite <- (app_assoc (be_put 4 _)) in Ei.
  rewrite (peek_frame (conn w) (len bb + 4) (Z.of_nat m + 1) (drop 8 (inbox (conn w))) []).
  - f_equal; apply sext_id; unfold in_int, len, bufSize in *; lia.
  - rewrite app_nil_r in Ei |- *. rewrite Ei at 1. rewrite length_app, !length_be_put. reflexivity.
Qed.

(** The header of the answer is skipped by its call, which then reads the body. *)
Lemma flow_match m i b bb a w : flow m [] w -> 8 <= len (inbox (conn w)) -> locks w ->
  frame serve read (Z.of_nat m + 1) b bb a ->
  drop m (requests w) = (Z.of_nat m + 1, b) :: drop (S m) (requests w) ->
  calls w !! i = Some (b, Peeking (Z.of_nat m + 1)) ->
  flow (S m) bb (endPeek i b (Z.of_nat m + 1) (len bb + 4, Z.of_nat m + 1) w).
Proof.
  intros [F1 F2 F3 F4 F5] Hl L Hf Ed Hi. unfold endPeek. cbn [fst snd]. rewrite Z.eqb_refl.
  pose proof (l_reading _ L _ _ _ Hi eq_refl) as Hlock.
  destruct Hf as (Ef & Hn & Hr). pose proof (Zle_0_nat (length bb)) as Hbb.
  replace (int32 (len bb + 4 - 4)) with (len bb)
    by (symmetry; rewrite Z.add_simpl_r; apply sext_id; unfold in_int, len, bufSize in *; lia).
  constructor; cbn [calls put_call put_conn rlock].
  - intros j b' size Hj. apply list_lookup_insert_Some in Hj as [(-> & E & _)|(Hne & Hj)].
    + injection E as <- <-. split; [reflexivity|]. exists (Z.of_nat m + 1), a.
      split; [|split; auto]. cbn. rewrite <- (take_drop m (requests w)), Ed. apply elem_of_app. right. left.
    + pose proof (l_reading _ L _ _ _ Hj eq_refl). congruence.
  - intros [H|(j & b' & id' & H)]; [congruence|].
    apply list_lookup_insert_Some in H as [(-> & E & _)|(Hne & H)]; [discriminate|].
    pose proof (l_reading _ L _ _ _ H eq_refl). congruence.
  - rewrite Ed in F3. cbn [map concat fst snd app] in F3. rewrite Ef, (app_assoc (be_put 4 _)), <- (app_assoc (_ ++ _)) in F3.
    destruct F3 as [Hp Hg]. destruct (split_front _ _ _ _ Hp) as (_ & Hp' & Hg').
    { rewrite length_app, !length_be_put. unfold len in Hl. lia. }
    rewrite length_app, !length_be_put in Hp', Hg'. cbn. split; [exact Hp'|]. intros H. apply Hg', Hg, H.
  - intros j b' q Hj. apply list_lookup_insert_Some in Hj as [(-> & E & _)|(_ & Hj)]; [|eauto].
    injection E as <- <-. eauto.
  - intros j b' r Hj. apply list_lookup_insert_Some in Hj as [(-> & E & _)|(_ & Hj)]; [discriminate|eauto].
Qed.

(** The body is read once all of it has come. *)
Lemma read_body m pre i b size w : flow m pre w -> calls w !! i = Some (b, Reading size) ->
  len pre <= len (inbox (conn w)) ->
  exists id a, (id, b) ∈ requests w /\ frame serve read id b pre a /\
    readResponse (read b) size (conn w) = Done a (discard (length pre) (conn w)).
Proof.
  intros [F1 F2 F3 F4 F5] Hi Hge. destruct (F1 _ _ _ Hi) as (-> & id & a & Hin & Hf).
  exists id, a. split; [exact Hin|]. split; [exact Hf|]. destruct Hf as (Ef & Hn & Hr). unfold readResponse.
  rewrite (proj2 (Z.ltb_ge (len pre) 0)), (proj2 (Z.ltb_ge bufSize (len pre))),
    (proj2 (Z.ltb_ge _ _) Hge) by (unfold len in *; lia).
  destruct F3 as [Hp _]. destruct (split_front _ _ _ _ Hp) as (Ei & _); [unfold len in *; lia|].
  assert (Et : take (length pre) (inbox (conn w)) = pre) by (rewrite Ei; apply take_app_length).
  unfold len. rewrite Nat2Z.id, Et, (reads_Decode _ _ _ Hr). reflexivity.
Qed.

Lemma flow_read m pre i b size k w w' : flow m pre w -> locks w ->
  calls w !! i = Some (b, Reading size) ->
  endRead i b (readResponse (read b) size (conn w)) k w = Some w' ->
  closed (conn w') = true \/ flow m [] w'.
Proof.
  intros F L Hi He. destruct (Z.ltb_spec (len (inbox (conn w))) (len pre)) as [Hlt|Hge].
  { destruct (f_reading _ _ _ F _ _ _ Hi) as (-> & id & a & _ & Ef & Hn & Hr). unfold readResponse in He.
    rewrite (proj2 (Z.ltb_ge (len pre) 0)), (proj2 (Z.ltb_ge bufSize (len pre))),
      (proj2 (Z.ltb_lt _ _) Hlt) in He by (unfold len in *; lia).
    injection He as <-. left. reflexivity. }
  destruct (read_body _ _ _ _ _ _ F Hi Hge) as (id & a & Hin & Hf & Er). rewrite Er in He.
  injection He as <-. right. destruct F as [F1 F2 [Hp Hg] F4 F5].
  destruct (split_front _ _ _ _ Hp) as (_ & Hp' & Hg'); [unfold len in *; lia|].
  constructor; cbn [calls put_call put_conn rlock put_rlock put_deadline].
  - intros j b' size' Hj. apply list_lookup_insert_Some in Hj as [(-> & E & _)|(Hne & Hj)]; [discriminate|].
    pose proof (l_reading _ L _ _ _ Hj eq_refl). pose proof (l_reading _ L _ _ _ Hi eq_refl). congruence.
  - reflexivity.
  - cbn. split; [exact Hp'|]. intros H. apply Hg', Hg, H.
  - intros j b' q Hj. apply list_lookup_insert_Some in Hj as [(-> & E & _)|(_ & Hj)]; [|eauto].
    injection E as <- <-. eauto.
  - intros j b' r Hj. apply list_lookup_insert_Some in Hj as [(-> & E & _)|(_ & Hj)]; [|eauto].
    injection E as <- <-. exists a, id, pre. auto.
Qed.

(** ** Every interleaving *)
Definition good w : Prop :=
  closed (conn w) = true \/ exists m pre, numbered m w /\ flow m pre w.

(** Nothing that the numbering and the bytes depend on changes. *)
Lemma good_same w w' : good w -> calls w' = calls w -> requests w' = requests w ->
  rlock w' = rlock w -> wlock w' = wlock w -> correlationID (conn w') = correlationID (conn w) ->
  closed (conn w') = closed (conn w) -> 
  (inbox (conn w') ++ peer w' = inbox (conn w) ++ peer w /\ gone w' = gone w) \/
  (inbox (conn w') ++ peer w' `prefix_of` inbox (conn w) ++ peer w /\ gone w' = true) -> good w'.
Proof.
  intros [Hc|(m & pre & N & F)] E1 E2 E3 E4 E5 E6 Hb; [left; congruence|right; exists m, pre].
  assert (Ho : forall id i b, owner w' id i b <-> owner w id i b) by (unfold owner; rewrite E1; reflexivity).
  split; [apply (numbered_keep m w); auto|].
  - rewrite E4, E5. apply (n_corr _ _ N).
  - rewrite E1, E4, E5. apply (n_written _ _ N).
  - destruct F as [F1 F2 F3 F4 F5]. constructor; rewrite ?E1, ?E2, ?E3; auto.
    destruct Hb as [[-> ->]|[Hp ->]]; [exact F3|]. split; [|discriminate]. etrans; [exact Hp|apply F3].
Qed.

Lemma good_put i b p p' w w' : good w -> calls w !! i = Some (b, p) ->
  calls w' = <[i := (b, p')]> (calls w) -> awaits p' = awaits p ->
  match p' with Written _ | Reading _ | Returned _ => False | _ => True end ->
  requests w' = requests w -> wlock w' = wlock w -> conn w' = conn w -> peer w' = peer w -> gone w' = gone w ->
  (rlock w' = None \/ (exists id, p' = Peeking id) ->
   rlock w = None \/ exists j b0 id, calls w !! j = Some (b0, Peeking id)) -> good w'.
Proof.
  intros [Hc|(m & pre & N & F)] Hi Ec Ea Hp Er Ew Ek Eb Eg Hr; [left; congruence|right; exists m, pre].
  split; [eapply numbered_put; eauto; [|congruence]; intros id ->; exact Hp|].
  eapply flow_put; eauto; [congruence|]. destruct p'; auto.
Qed.

(** A round of [waitResponse] whose peek brought [h]. *)
Lemma good_miss i b id h w : good w -> locks w -> calls w !! i = Some (b, Peeking id) -> id <> h.2 ->
  good (endPeek i b id h w).
Proof.
  intros G L Hi Hne. unfold endPeek. rewrite (proj2 (Z.eqb_neq _ _) Hne).
  eapply good_put; [exact G|exact Hi|reflexivity..|]. intros _. eauto 6.
Qed.

Lemma good_peeked i b id w : good w -> locks w -> calls w !! i = Some (b, Peeking id) ->
  8 <= len (inbox (conn w)) -> Z.of_nat (length (requests w)) < 2 ^ 31 - 1 ->
  good (endPeek i b id (peekResponseSizeAndID (conn w)) w).
Proof.
  intros G L Hi Hl Hb.
  destruct (decide (id = (peekResponseSizeAndID (conn w)).2)) as [Heq|Hne];
    [|exact (good_miss _ _ _ _ _ G L Hi Hne)].
  destruct G as [Hc|(m & pre & N & F)]; [left; unfold endPeek; destruct (id =? _); exact Hc|].
  assert (pre = []) as -> by (apply (f_idle _ _ _ F); eauto 6).
  destruct (peek_next m w N F Hl Hb) as (b' & bb & a & Hf & Ed & Er & Ep).
  rewrite Ep in *. cbn in Heq. subst id. assert (Hm : (m < length (requests w))%nat) by (eapply lookup_lt_Some, Er).
  destruct (numbered_match m i b (len bb + 4, Z.of_nat m + 1) w N Hm Hi eq_refl) as [N' Er'].
  rewrite Er in Er'. injection Er' as ->. right. exists (S m), bb. split; [exact N'|].
  eapply flow_match; eauto.
Qed.

(** A read that fails closes the connection. *)
Lemma good_read i b size k w w' : good w -> locks w -> calls w !! i = Some (b, Reading size) ->
  endRead i b (readResponse (read b) size (conn w)) k w = Some w' -> good w'.
Proof.
  intros G L Hi He. pose proof (readResponse_conn (read b) size (conn w)) as Hr.
  destruct (endRead_inv _ _ _ _ _ _ _ Hi Hr He) as (x & E1 & E2 & E3 & E4 & E5).
  destruct G as [Hc|(m & pre & N & F)].
  - left. unfold endRead in He. destruct (readResponse (read b) size (conn w)); try discriminate;
      destruct Hr as [n ->]; injection He as <-; [exact Hc|reflexivity].
  - destruct (flow_read _ _ _ _ _ _ _ _ F L Hi He) as [Hc|F']; [left; exact Hc|right].
    exists m, []. split; [|exact F']. eapply numbered_put; eauto.
Qed.

Lemma good_step w w' : quiet w w' -> locks w -> Z.of_nat (length (requests w')) < 2 ^ 31 - 1 ->
  good w -> good w'.
Proof.
  intros [Hs Hq] L Hb G. inversion Hs as
    [i b w0 Hi Hw|i b id c w0 Hi He Hw|i b id e c k w0 Hi Hw|i b id out k w0 Hi He|i b id w0 Hi
    |i b id w0 Hi Hr|i b id w0 Hi Hn|i b id w0 Hi Hn|i b size k w0 w1 Hi Hr He|i b size e k w0 w1 Hi Hr He
    |n w0 Hc|t w0 Ht|t w0|t w0|n w0|k w0]; subst w0; try subst w'; try subst w1;
    try (left; reflexivity); try (apply (good_same w); auto; fail).
  - destruct G as [Hc|(m & pre & N & F)]; [left; exact Hc|right; exists m, pre].
    assert (Hno : forall j b' id, calls w !! j <> Some (b', Written id)).
    { apply Hq. cbn. rewrite (n_corr _ _ N), Hw. cbn in Hb. unfold int32.
      rewrite sext_id; unfold in_int; lia. }
    split; [apply numbered_begin; auto|]. eapply flow_put; [exact F|exact Hi|reflexivity..| |exact I].
    cbn. intros [H|(id & H)]; [auto|discriminate].
  - destruct (writeRequest_ok _ _ _ _ _ Hw) as (bs & -> & Hc).
    destruct G as [Hc'|(m & pre & N & F)]; [congruence|right; exists m, pre].
    split; [apply numbered_write; auto|]. apply flow_write; auto. apply (n_m _ _ N).
  - destruct G as [Hc|(m & pre & N & F)]; [left; exact Hc|].
    destruct (n_written _ _ N _ _ _ Hi) as [_ ->].
    eapply good_put; [right; eauto|exact Hi|reflexivity..|]. cbn. intros [H|(id & H)]; [auto|discriminate].
  - eapply good_put; [exact G|exact Hi|reflexivity..|]. auto.
  - apply good_peeked; auto. revert Hb. unfold endPeek. destruct (id =? _); auto.
  - destruct (decide (id = 0)) as [->|Hne]; [|apply good_miss; auto].
    destruct G as [Hc|(m & pre & N & F)]; [left; unfold endPeek; destruct (0 =? _); exact Hc|].
    destruct (n_own _ _ N 0 i b) as (j & _ & E); [exists (Peeking 0); auto|].
    pose proof (n_ids _ _ N _ _ E) as E0. cbn in E0. lia.
  - eapply good_read; eauto.
  - injection He as <-. left. reflexivity.
  - apply (good_same w); auto. left. split; [|reflexivity]. cbn.
    rewrite <- app_assoc, take_drop. reflexivity.
  - apply (good_same w); auto. right. split; [|reflexivity]. cbn.
    apply prefix_app. exists (drop n (peer w)). symmetry. apply take_drop.
Qed.

Lemma requests_grow w w' : step oL oB serve read w w' -> requests w `prefix_of` requests w'.
Proof.
  intros Hs. destruct Hs; try reflexivity; try (apply prefix_app_r; reflexivity).
  - unfold endPeek. destruct (id =? _); reflexivity.
  - unfold endPeek. destruct (id =? _); reflexivity.
  - unfold endRead in *. destruct readResponse; try discriminate; simplify_eq; reflexivity.
  - unfold endRead in *. simplify_eq. reflexivity.
Qed.

Lemma locks_start cid bodies : locks (start (A := A) cid bodies).
Proof.
  constructor; cbn; try discriminate; intros i b; rewrite list_lookup_fmap;
    intros p H; try intros Hp; destruct (bodies !! i); cbn in H; simplify_eq; discriminate.
Qed.

Lemma good_start cid bodies : Forall (servable serve read) bodies -> good (start (A := A) cid bodies).
Proof.
  intros Hb. assert (Hs : forall i b p, calls (start (A := A) cid bodies) !! i = Some (b, p) ->
    p = Start /\ servable serve read b).
  { cbn. intros i b p H. rewrite list_lookup_fmap in H. destruct (bodies !! i) as [b'|] eqn:E; [|discriminate].
    injection H as <- <-. split; [reflexivity|]. apply (Forall_lookup_1 _ _ _ _ Hb E). }
  assert (Ho : forall id i b, ~ owner (start (A := A) cid bodies) id i b).
  { intros id i b (p & H & E). destruct (Hs _ _ _ H) as [-> _]. discriminate. }
  right. exists 0%nat, []. split; constructor; cbn [requests start wlock conn NewConn correlationID]; try discriminate.
  - reflexivity.
  - intros i b id H. destruct (Hs _ _ _ H). discriminate.
  - intros id i b H. destruct (Ho _ _ _ H).
  - intros id i j b b' H. destruct (Ho _ _ _ H).
  - intros k Hk. cbn in Hk. lia.
  - auto.
  - intros i b size H. destruct (Hs _ _ _ H). discriminate.
  - reflexivity.
  - split; [apply prefix_nil|reflexivity].
  - intros i b p H. apply (Hs _ _ _ H).
  - intros i b r H. destruct (Hs _ _ _ H). discriminate.
Qed.

Lemma quiet_good cid bodies w : Forall (servable serve read) bodies ->
  rtc quiet (start cid bodies) w -> Z.of_nat (length (requests w)) < 2 ^ 31 - 1 -> good w /\ locks w.
Proof.
  intros Hb Hr. revert w Hr. refine (rtc_ind_r _ _ _ _); [intros Hn|intros w w' _ Hq IH Hn].
  - split; [apply good_start, Hb|apply locks_start].
  - pose proof (prefix_length _ _ (requests_grow _ _ (proj1 Hq))) as Hle.
    destruct IH as [G L]; [lia|]. split; [eapply good_step; eauto|].
    eapply locks_step; [apply Hq|exact L].
Qed.

(** ** Progress

    An open connection on which no deadline is set. *)
Record calm (cid : string) w : Prop := {
  c_client : clientID (conn w) = cid;
  c_open : closed (conn w) = false;
  c_there : gone w = false;
  c_net : net w = mkNet 0 0;
  c_deadlines : forall s, value (deadlines w s) = 0 }.

Definition sendable (cid : string) (b : Body) : Prop := forall id, in_int 32 id ->
  exists bs, Encode (Request.Encode oL (Request.mk id cid b)) (Request.Encode oB (Request.mk id cid b)) = Ret bs tt.

(** How far a call is from its end. *)
Definition distance (p : pc A) : nat :=
  match p with
  | Start => 5 | Writing _ => 4 | Written _ => 3 | Waiting _ | Peeking _ => 2 | Reading _ => 1 | Returned _ => 0
  end%nat.
Definition measure w : nat := list_sum (map (fun c => distance c.2) (calls w)).

Lemma measure_put i b p p' w w' : calls w !! i = Some (b, p) ->
  calls w' = <[i := (b, p')]> (calls w) -> (measure w' + distance p = measure w + distance p')%nat.
Proof.
  intros Hi Ec. unfold measure. rewrite Ec. clear Ec w'. revert i Hi.
  induction (calls w) as [|[b0 p0] l IH]; intros [|i] Hi; try discriminate; cbn in *.
  - injection Hi as -> ->. lia.
  - rewrite <- !Nat.add_assoc. f_equal. exact (IH _ Hi).
Qed.

(** What is kept on the way, and what a stretch of steps brings. *)
Record ready (cid : string) w : Prop := {
  r_good : good w; r_locks : locks w; r_calm : calm cid w;
  r_sendable : forall i b p, calls w !! i = Some (b, p) -> sendable cid b;
  r_bound : Z.of_nat (length (requests w) + measure w) < 2 ^ 31 - 1 }.

Lemma ready_step cid w w' : ready cid w -> quiet w w' -> calm cid w' ->
  (forall i b p, calls w' !! i = Some (b, p) -> exists p0, calls w !! i = Some (b, p0)) ->
  (length (requests w') + measure w' <= length (requests w) + measure w)%nat -> ready cid w'.
Proof.
  intros [G L C S B] Hq C' Hc Hm. constructor.
  - eapply good_step; eauto. lia.
  - eapply locks_step; [apply Hq|exact L].
  - exact C'.
  - intros i b p Hi. destruct (Hc _ _ _ Hi) as (p0 & H0). eauto.
  - lia.
Qed.

(** The step of one call, at which the measure does not grow. *)
Lemma ready_put cid i b p p' w w' : ready cid w -> quiet w w' -> calm cid w' ->
  calls w !! i = Some (b, p) -> calls w' = <[i := (b, p')]> (calls w) ->
  (length (requests w') + distance p' <= length (requests w) + distance p)%nat -> ready cid w'.
Proof.
  intros R Hq C Hi Ec Hd. eapply ready_step; eauto.
  - rewrite Ec. intros j b' q Hj. apply list_lookup_insert_Some in Hj as [(-> & E & _)|(_ & Hj)]; [|eauto].
    injection E as <- <-. eauto.
  - pose proof (measure_put _ _ _ _ _ _ Hi Ec). lia.
Qed.

(** All that the peer has sent arrives. *)
Definition arrived w : world A :=
  let c := conn w in
  mkWorld (mkConn (clientID c) (correlationID c) (inbox c ++ peer w) (outbox c) (closed c))
    (net w) (deadlines w) (rlock w) (wlock w) (now w) [] (gone w) (requests w) (calls w).

Lemma ready_arrived cid w : ready cid w -> quiet w (arrived w) /\ ready cid (arrived w).
Proof.
  intros R. assert (Hq : quiet w (arrived w)).
  { pose proof (StepDeliver oL oB serve read (length (peer w)) w (c_open _ _ (r_calm _ _ R))) as Hs.
    rewrite firstn_all, drop_all in Hs. split; [exact Hs|]. intros H. destruct H. reflexivity. }
  split; [exact Hq|]. eapply (ready_step cid w); [exact R|exact Hq| |eauto|reflexivity].
  destruct (r_calm _ _ R). constructor; auto.
Qed.

Ltac calm_solve C :=
  let Hds := fresh "Hds" in pose proof (c_deadlines _ _ C) as Hds;
  destruct C; constructor; cbn; auto;
  match goal with
  | |- forall s, _ => let s := fresh "s" in intros s; destruct (decide _) as [->|]; exact (Hds _)
  | _ => idtac
  end.

Lemma progress_begin cid i b w : ready cid w -> calls w !! i = Some (b, Start) -> wlock w = None ->
  (forall j b' id, calls w !! j <> Some (b', Written id)) ->
  exists w', quiet w w' /\ ready cid w' /\ (measure w' < measure w)%nat.
Proof.
  intros R Hi Hw Hno. exists (beginRequest i b w).
  assert (Hq : quiet w (beginRequest i b w)) by (split; [apply StepBegin; auto|auto]).
  pose proof (measure_put i b Start (Writing (int32 (correlationID (conn w) + 1))) w
    (beginRequest i b w) Hi eq_refl) as Hm. cbn [distance] in Hm.
  split; [exact Hq|]. split; [|lia].
  eapply (ready_put _ i b Start _ w); [exact R|exact Hq| |exact Hi|reflexivity|cbn; lia].
  pose proof (r_calm _ _ R) as C. pose proof (c_deadlines _ _ C (operationSide b)) as Hd. calm_solve C.
  unfold SetConnWriteDeadline. rewrite c_net0. cbn. congruence.
Qed.

Lemma progress_write cid i b id w : ready cid w -> calls w !! i = Some (b, Writing id) ->
  exists w', quiet w w' /\ ready cid w' /\ (measure w' < measure w)%nat.
Proof.
  intros R Hi. pose proof (r_calm _ _ R) as C. pose proof (c_open _ _ C) as Hop.
  destruct (r_good _ _ R) as [Hc|(m & pre & N & F)]; [congruence|].
  pose proof (n_corr _ _ N) as Hn. rewrite (proj1 (l_writing _ (r_locks _ _ R) _ _ _ Hi)) in Hn.
  pose proof (r_bound _ _ R) as HB.
  destruct (r_sendable _ _ R _ _ _ Hi (correlationID (conn w))) as [bs Hb]; [unfold in_int; lia|].
  set (c := mkConn (clientID (conn w)) (correlationID (conn w)) (inbox (conn w)) (outbox (conn w) ++ bs) false).
  assert (Hw : writeRequest oL oB b (conn w) = Ret tt c).
  { unfold writeRequest. rewrite (c_client _ _ C), Hb, Hop. unfold c. rewrite (c_client _ _ C). reflexivity. }
  exists (endRequest serve i b id c w).
  assert (Hq : quiet w (endRequest serve i b id c w)).
  { split; [|intros H; destruct H; reflexivity]. apply StepWrite; auto.
    rewrite (c_net _ _ C). reflexivity. }
  pose proof (measure_put i b (Writing id) (Written id) w (endRequest serve i b id c w) Hi eq_refl) as Hm. cbn [distance] in Hm.
  split; [exact Hq|]. split; [|lia].
  eapply (ready_put _ i b (Writing id) _ w); [exact R|exact Hq| |exact Hi|reflexivity|].
  - calm_solve C.
  - cbn [requests endRequest]. rewrite length_app. cbn. lia.
Qed.

Lemma progress_take cid i b id w : ready cid w -> calls w !! i = Some (b, Written id) ->
  exists w', quiet w w' /\ ready cid w' /\ (measure w' < measure w)%nat.
Proof.
  intros R Hi. exists (takeID i b w).
  assert (Hq : quiet w (takeID i b w)) by (split; [eapply StepTakeID; eauto|intros H; destruct H; reflexivity]).
  pose proof (measure_put i b (Written id) (Waiting (correlationID (conn w))) w (takeID i b w) Hi eq_refl) as Hm. cbn [distance] in Hm.
  split; [exact Hq|]. split; [|lia].
  eapply (ready_put _ i b (Written id) _ w); [exact R|exact Hq| |exact Hi|reflexivity|cbn; lia].
  pose proof (r_calm _ _ R) as C. calm_solve C.
Qed.

Lemma progress_read cid i b size w : ready cid w -> calls w !! i = Some (b, Reading size) ->
  exists w', rtc quiet w w' /\ ready cid w' /\ (measure w' < measure w)%nat.
Proof.
  intros R0 Hi. destruct (ready_arrived cid w R0) as [Hq0 R]. set (v := arrived w) in *.
  pose proof (r_calm _ _ R) as C. change (calls v !! i = Some (b, Reading size)) in Hi.
  destruct (r_good _ _ R) as [Hc|(m & pre & N & F)]; [pose proof (c_open _ _ C); congruence|].
  pose proof (proj2 (f_stream _ _ _ F) (c_there _ _ C)) as Hst.
  assert (Hl : len pre <= len (inbox (conn v))).
  { apply (f_equal length) in Hst. rewrite !length_app in Hst. unfold len. cbn in Hst |- *.
    rewrite !length_app in *. cbn in Hst. lia. }
  destruct (read_body _ _ _ _ _ _ F Hi Hl) as (id & a & _ & _ & Er).
  destruct (f_reading _ _ _ F _ _ _ Hi) as [-> _].
  set (w' := put_call i b (Returned (inl a)) (put_conn (discard (length pre) (conn v))
    (put_rlock None (put_deadline (operationSide b)
       (unsetConnReadDeadline (deadlines v (operationSide b)), net v) v)))).
  assert (Hq : quiet v w').
  { split; [|intros H; destruct H; reflexivity]. eapply (StepRead _ _ _ _ i b (len pre) 0); [exact Hi| |].
    - unfold readReturns. apply orb_true_intro. left. apply orb_true_intro. right. apply Z.leb_le. lia.
    - rewrite Er. reflexivity. }
  pose proof (measure_put i b (Reading (len pre)) (Returned (inl a)) v w' Hi eq_refl) as Hm. cbn [distance] in Hm.
  exists w'. split; [eapply rtc_l; [exact Hq0|apply rtc_once, Hq]|].
  split; [|change (measure w) with (measure v); lia].
  eapply (ready_put _ i b (Reading (len pre)) _ v); [exact R|exact Hq| |exact Hi|reflexivity|cbn; lia].
  subst w'. calm_solve C.
Qed.

(** A round of [waitResponse] with all bytes there. *)
Lemma progress_peeking cid i b id m w : ready cid w -> calls w !! i = Some (b, Peeking id) ->
  numbered m w -> flow m [] w -> (m < length (requests w))%nat ->
  exists w', rtc quiet w w' /\ ready cid w' /\
    ((id = Z.of_nat m + 1 /\ (measure w' < measure w)%nat) \/
     (id <> Z.of_nat m + 1 /\ measure w' = measure w /\ rlock w' = None)).
Proof.
  intros R0 Hi N0 F0 Hm. destruct (ready_arrived cid w R0) as [Hq0 R]. set (v := arrived w) in *.
  pose proof (r_calm _ _ R) as C. change (calls v !! i = Some (b, Peeking id)) in Hi.
  pose proof (r_bound _ _ R0) as HB.
  destruct (next_frame m w N0 F0 Hm ltac:(lia)) as (b0 & bb & a & _ & (Ef & _) & Ed).
  assert (Hl : 8 <= len (inbox (conn v))).
  { pose proof (proj2 (f_stream _ _ _ F0) (c_there _ _ (r_calm _ _ R0))) as Hst.
    rewrite Ed in Hst. cbn in Hst. rewrite Ef in Hst. cbn. rewrite Hst.
    unfold len. rewrite !length_app, !length_be_put. lia. }
  assert (Nv : numbered m v) by (apply (numbered_keep m w); auto; [apply (n_corr _ _ N0)|apply (n_written _ _ N0)]).
  assert (Fv : flow m [] v).
  { destruct F0. constructor; auto. cbn. rewrite app_nil_r. exact f_stream0. }
  destruct (peek_next m v Nv Fv Hl) as (b1 & bb1 & a1 & _ & _ & _ & Ep); [cbn; lia|].
  pose proof (StepPeeked oL oB serve read i b id v Hi Hl) as Hs. rewrite Ep in Hs.
  unfold endPeek in Hs. cbn [fst snd] in Hs.
  destruct (Z.eqb_spec id (Z.of_nat m + 1)) as [Heq|Hne].
  - set (w' := put_call _ _ _ _) in Hs. exists w'.
    assert (Hq : quiet v w') by (split; [exact Hs|intros H; destruct H; reflexivity]).
    pose proof (measure_put i b (Peeking id) (Reading (int32 (len bb1 + 4 - 4))) v w' Hi eq_refl) as Hme.
    cbn [distance] in Hme. split; [eapply rtc_l; [exact Hq0|apply rtc_once, Hq]|].
    split; [|left; split; [exact Heq|change (measure w) with (measure v); lia]].
    eapply (ready_put _ i b (Peeking id) _ v); [exact R|exact Hq| |exact Hi|reflexivity|cbn; lia].
    subst w'. calm_solve C.
  - set (w' := put_call _ _ _ _) in Hs. exists w'.
    assert (Hq : quiet v w') by (split; [exact Hs|intros H; destruct H; reflexivity]).
    pose proof (measure_put i b (Peeking id) (Waiting id) v w' Hi eq_refl) as Hme.
    cbn [distance] in Hme. split; [eapply rtc_l; [exact Hq0|apply rtc_once, Hq]|].
    split; [|right; split; [exact Hne|split; [change (measure w) with (measure v); lia|reflexivity]]].
    eapply (ready_put _ i b (Peeking id) _ v); [exact R|exact Hq| |exact Hi|reflexivity|cbn; lia].
    subst w'. calm_solve C.
Qed.

Lemma find_call (P : pc A -> bool) w :
  (exists i b p, calls w !! i = Some (b, p) /\ P p = true) \/
  (forall i b p, calls w !! i = Some (b, p) -> P p = false).
Proof.
  destruct (decide (Exists (fun c => P c.2 = true) (calls w))) as [H|H].
  - left. apply list.Exists_exists in H as ([b p] & Hin & HP). apply list_elem_of_lookup in Hin as [i Hi]. eauto 6.
  - right. intros i b p Hi. destruct (P p) eqn:E; [|reflexivity]. destruct H. apply list.Exists_exists.
    exists (b, p). split; [|exact E]. eapply list_elem_of_lookup_2, Hi.
Qed.

Definition finished (p : pc A) : bool := match p with Returned _ => true | _ => false end.
Definition unlocked (p : pc A) : bool := match p with Start | Waiting _ | Returned _ => true | _ => false end.

(** No call is under way in a locked section or about to read its number. *)
Lemma progress_unlocked cid i b p w : ready cid w -> calls w !! i = Some (b, p) -> finished p = false ->
  (forall j b' q, calls w !! j = Some (b', q) -> unlocked q = true) ->
  exists w', rtc quiet w w' /\ ready cid w' /\ (measure w' < measure w)%nat.
Proof.
  intros R Hi Hf Hu. pose proof (r_locks _ _ R) as L. pose proof (r_calm _ _ R) as C.
  assert (Hr : rlock w = None).
  { destruct (rlock w) as [j|] eqn:E; [|reflexivity].
    destruct (l_rlock _ L _ E) as (b' & q & Hq & Hh). specialize (Hu _ _ _ Hq). destruct q; discriminate. }
  assert (Hw : wlock w = None).
  { destruct (wlock w) as [j|] eqn:E; [|reflexivity].
    destruct (l_wlock _ L _ E) as (b' & id & Hq). discriminate (Hu _ _ _ Hq). }
  destruct (r_good _ _ R) as [Hc|(m & pre & N & F)]; [pose proof (c_open _ _ C); congruence|].
  assert (pre = []) as -> by (apply (f_idle _ _ _ F); auto).
  destruct (decide (m < length (requests w))%nat) as [Hm|Hm].
  - destruct (n_all _ _ N m) as (j & b' & q & Hj & Ha); [lia|].
    pose proof (Hu _ _ _ Hj) as Hq. destruct q; try discriminate. injection Ha as ->.
    set (v := beginPeek j b' (Z.of_nat m + 1) w).
    assert (Hs : quiet w v) by (split; [apply StepPeek; auto|intros H; destruct H; reflexivity]).
    assert (Rv : ready cid v).
    { eapply (ready_put _ j b' (Waiting (Z.of_nat m + 1)) _ w); [exact R|exact Hs| |exact Hj|reflexivity|cbn; lia].
      pose proof (c_deadlines _ _ C (operationSide b')) as Hd. subst v. calm_solve C.
      unfold SetConnReadDeadline. rewrite c_net0. cbn. congruence. }
    pose proof (measure_put j b' (Waiting (Z.of_nat m + 1)) (Peeking (Z.of_nat m + 1)) w v Hj eq_refl) as Hme.
    cbn [distance] in Hme.
    destruct (progress_peeking cid j b' (Z.of_nat m + 1) m v Rv) as (w' & Hst & R' & [[_ Hlt]|[Hne _]]).
    + cbn. apply list_lookup_insert_eq. eapply lookup_lt_Some, Hj.
    + eapply numbered_put; [exact N|exact Hj|reflexivity..|discriminate|reflexivity|reflexivity|reflexivity].
    + eapply flow_put; [exact F|exact Hj|reflexivity..|auto|exact I].
    + exact Hm.
    + exists w'. split; [eapply rtc_l; [exact Hs|exact Hst]|]. split; [exact R'|lia].
    + destruct (Hne eq_refl).
  - assert (p = Start) as ->.
    { pose proof (Hu _ _ _ Hi) as Hp. destruct p; try discriminate; [reflexivity|].
      destruct (n_own _ _ N id i b) as (k & Hk & E); [exists (Waiting id); auto|].
      apply lookup_lt_Some in E. lia. }
    destruct (progress_begin cid i b w R Hi Hw) as (w' & Hq & R' & Hlt).
    + intros j b' id Hj. discriminate (Hu _ _ _ Hj).
    + exists w'. split; [apply rtc_once, Hq|auto].
Qed.

(** The call that holds [rlock] gives it back or reads its answer. *)
Lemma progress_peek cid i b id w : ready cid w -> calls w !! i = Some (b, Peeking id) ->
  exists w', rtc quiet w w' /\ ready cid w' /\
    ((measure w' < measure w)%nat \/ (measure w' = measure w /\ rlock w' = None)).
Proof.
  intros R Hi. pose proof (c_open _ _ (r_calm _ _ R)) as Hop.
  destruct (r_good _ _ R) as [Hc|(m & pre & N & F)]; [congruence|].
  assert (pre = []) as -> by (apply (f_idle _ _ _ F); eauto 6).
  destruct (n_own _ _ N id i b) as (k & Hk & E); [exists (Peeking id); auto|]. apply lookup_lt_Some in E.
  destruct (progress_peeking cid i b id m w R Hi N F) as (w' & Hst & R' & [[_ Hlt]|(_ & He & Hr)]); [lia| |];
    exists w'; auto.
Qed.

(** The measure is zero when all calls have returned. *)
Lemma unfinished w : (0 < measure w)%nat -> exists i b p, calls w !! i = Some (b, p) /\ finished p = false.
Proof.
  intros Hm. destruct (find_call (fun p => negb (finished p)) w) as [(i & b & p & Hi & Hp)|Hall].
  - exists i, b, p. split; [exact Hi|]. apply negb_true_iff, Hp.
  - exfalso. revert Hm Hall. unfold measure. generalize (calls w). induction l as [|[b p] l IH]; intros Hm Hall.
    + cbn in Hm. lia.
    + pose proof (Hall 0%nat b p eq_refl) as Hp. destruct p; try discriminate.
      apply IH; [exact Hm|]. intros i b' q Hi. exact (Hall (S i) _ _ Hi).
Qed.

Lemma progress_rfree cid w : ready cid w -> (0 < measure w)%nat -> rlock w = None ->
  exists w', rtc quiet w w' /\ ready cid w' /\ (measure w' < measure w)%nat.
Proof.
  intros R Hm Hr. destruct (unfinished w Hm) as (i & b & p & Hi & Hf).
  destruct (find_call (fun q => match q with Writing _ | Written _ => true | _ => false end) w)
    as [(j & b' & q & Hj & Hq)|Hno].
  - destruct q; try discriminate;
      [destruct (progress_write _ _ _ _ _ R Hj) as (w' & H & ?)|destruct (progress_take _ _ _ _ _ R Hj) as (w' & H & ?)];
      (exists w'; split; [apply rtc_once, H|auto]).
  - eapply progress_unlocked; eauto. intros j b' q Hj. specialize (Hno _ _ _ Hj).
    destruct (holdsRead q) eqn:E; [pose proof (l_reading _ (r_locks _ _ R) _ _ _ Hj E); congruence|].
    destruct q; auto; discriminate.
Qed.

Lemma progress_step cid w : ready cid w -> (0 < measure w)%nat ->
  exists w', rtc quiet w w' /\ ready cid w' /\ (measure w' < measure w)%nat.
Proof.
  intros R Hm. destruct (rlock w) as [j|] eqn:Hr; [|exact (progress_rfree cid w R Hm Hr)].
  destruct (l_rlock _ (r_locks _ _ R) _ Hr) as (b & q & Hj & Hq). destruct q; try discriminate.
  - destruct (progress_peek _ _ _ _ _ R Hj) as (w1 & Hst & R1 & [Hlt|[He Hr1]]); [eauto|].
    destruct (progress_rfree cid w1 R1) as (w' & Hst' & R' & Hlt); [lia|exact Hr1|].
    exists w'. split; [etrans; eassumption|]. split; [exact R'|lia].
  - exact (progress_read _ _ _ _ _ R Hj).
Qed.

Lemma progress_all cid w : ready cid w ->
  exists w', rtc quiet w w' /\ ready cid w' /\ forall i b p, calls w' !! i = Some (b, p) -> finished p = true.
Proof.
  remember (measure w) as n eqn:En. revert w En. induction (lt_wf n) as [n _ IH]. intros w -> R.
  destruct (decide (0 < measure w)%nat) as [Hm|Hm].
  - destruct (progress_step cid w R Hm) as (w1 & Hst & R1 & Hlt).
    destruct (IH _ Hlt w1 eq_refl R1) as (w' & Hst' & R' & Hall). exists w'. split; [etrans; eassumption|auto].
  - exists w. split; [reflexivity|]. split; [exact R|]. intros i b p Hi.
    destruct (finished p) eqn:E; [reflexivity|]. destruct Hm.
    pose proof (measure_put i b p (Returned (inr EOF)) w
      (put_call i b (Returned (inr EOF)) w) Hi eq_refl) as Hme. destruct p; cbn [distance] in Hme; try discriminate; lia.
Qed.

(** The calls stay the same. *)
Lemma bodies_put i b p p' (l : list (Body * pc A)) : l !! i = Some (b, p) -> (<[i := (b, p')]> l).*1 = l.*1.
Proof. intros Hi. rewrite list_fmap_insert. apply list_insert_id. rewrite list_lookup_fmap, Hi. reflexivity. Qed.

Lemma bodies_step w w' : step oL oB serve read w w' -> (calls w').*1 = (calls w).*1.
Proof.
  intros Hs. destruct Hs as
    [i b w Hi Hw|i b id c w Hi He Hw|i b id e c k w Hi Hw|i b id out k w Hi He|i b id w Hi
    |i b id w Hi Hr|i b id w Hi Hn|i b id w Hi Hn|i b size k w w' Hi Hr He|i b size e k w w' Hi Hr He
    |n w Hc|t w Ht|t w|t w|n w|k w]; try reflexivity; try (eapply bodies_put, Hi);
    try (unfold endPeek; destruct (id =? _); eapply bodies_put, Hi).
  - unfold endRead in He. destruct readResponse; try discriminate; injection He as <-; eapply bodies_put, Hi.
  - injection He as <-. eapply bodies_put, Hi.
Qed.

Lemma quiet_bodies cid bodies w : rtc quiet (start cid bodies) w -> (calls w).*1 = bodies.
Proof.
  intros Hr. revert w Hr. refine (rtc_ind_r _ _ _ _).
  - cbn. change (map ?f ?l) with (f <$> l). rewrite <- list_fmap_compose. apply list_fmap_id.
  - intros w w' _ [Hs _] <-. exact (bodies_step _ _ Hs).
Qed.

Lemma measure_bound w : (measure w <= 5 * length (calls w))%nat.
Proof.
  unfold measure. induction (calls w) as [|[b p] l IH]; [reflexivity|].
  change (distance p + list_sum (map (fun c => distance c.2) l) <= 5 * S (length l))%nat.
  assert (distance p <= 5)%nat by (destruct p; cbn; lia). lia.
Qed.

Lemma quiet_ready cid bodies w : Forall (servable serve read) bodies -> Forall (sendable cid) bodies ->
  rtc quiet (start cid bodies) w -> calm cid w ->
  Z.of_nat (length (requests w) + 5 * length bodies) < 2 ^ 31 - 1 -> ready cid w.
Proof.
  intros Hs Hn Hr C Hb. destruct (quiet_good cid bodies w Hs Hr) as [G L]; [lia|].
  pose proof (quiet_bodies _ _ _ Hr) as Eb. constructor; auto.
  - intros i b p Hi. eapply Forall_lookup_1; [exact Hn|]. rewrite <- Eb, list_lookup_fmap, Hi. reflexivity.
  - pose proof (measure_bound w) as Hm. apply (f_equal length) in Eb. rewrite length_fmap in Eb. lia.
Qed.
End calls.
