(* ===== verification/ConnDeadlines.v ===== *)
(** * Calls that wait for ever, and the deadlines

    [src/jocko/conn.go]: which calls never return, and which deadline the
    network connection has while a call writes or reads. *)
From S2P Require Import Prelude Encoder Decoder Codec ClientApi TopicApi GroupApi ClusterApi MessageSets Wire Conn ConnShared ConnCalls.
Open Scope Z_scope.

Section waiting.
Context {A : Type} (oL oB : map_order).
Context (serve : Z -> Body -> list byte) (read : Body -> M ByteDecoder A).
Implicit Types w : world A.

(** The correlation id of the response at the front of some bytes. *)
Definition frontID (bs : list byte) : option Z :=
  if decide (length bs < 8)%nat then None else Some (int32 (be_get (take 4 (drop 4 bs)))).

(** All calls wait, for numbers other than 0, and none for the number of the
    response that is next on the way. *)
Definition starved w : Prop :=
  forall i b p, calls w !! i = Some (b, p) -> exists id, (p = Waiting id \/ p = Peeking id) /\
    id <> 0 /\ frontID (inbox (conn w) ++ peer w) <> Some id.

Lemma frontID_prefix x y id : x `prefix_of` y -> frontID x = Some id -> frontID y = Some id.
Proof.
  intros [z ->]. unfold frontID. destruct (decide (length x < 8)%nat) as [|Hl]; [discriminate|].
  intros [= <-]. rewrite decide_False by (rewrite length_app; lia).
  rewrite drop_app_le, take_app_le by (rewrite ?length_drop; lia). reflexivity.
Qed.

Lemma frontID_frame n id bb rest :
  frontID ((be_put 4 (uint32 n) ++ be_put 4 (uint32 id) ++ bb) ++ rest) = Some (int32 id).
Proof.
  pose proof (peek_frame (mkConn EmptyString 0 ((be_put 4 (uint32 n) ++ be_put 4 (uint32 id) ++ bb) ++ rest) [] false)
    n id bb rest eq_refl) as E.
  unfold peekResponseSizeAndID in E. cbn [inbox] in E. unfold frontID.
  assert (Hl : ~ (length ((be_put 4 (uint32 n) ++ be_put 4 (uint32 id) ++ bb) ++ rest) < 8)%nat)
    by (rewrite !length_app, !length_be_put; lia).
  rewrite decide_False in E by exact Hl. rewrite decide_False by exact Hl. congruence.
Qed.

Lemma starved_keep w w' : starved w -> calls w' = calls w ->
  inbox (conn w') ++ peer w' `prefix_of` inbox (conn w) ++ peer w -> starved w'.
Proof.
  intros S Ec Hp i b p Hi. rewrite Ec in Hi. destruct (S _ _ _ Hi) as (id & Hid & H0 & Hf).
  exists id. split; [exact Hid|]. split; [exact H0|]. intros E. apply Hf. eapply frontID_prefix; eauto.
Qed.

Lemma starved_put i b id p' w w' : starved w -> calls w !! i = Some (b, p') -> 
  (p' = Waiting id \/ p' = Peeking id) -> forall q, (q = Waiting id \/ q = Peeking id) ->
  calls w' = <[i := (b, q)]> (calls w) -> conn w' = conn w -> peer w' = peer w -> starved w'.
Proof.
  intros S Hi Hp q Hq Ec En Ep j b' r Hj. rewrite Ec in Hj. rewrite En, Ep.
  apply list_lookup_insert_Some in Hj as [(-> & E & _)|(_ & Hj)]; [|exact (S _ _ _ Hj)].
  injection E as <- <-. destruct (S _ _ _ Hi) as (id' & Hid & H0 & Hf).
  exists id. split; [exact Hq|]. destruct Hp as [-> | ->], Hid as [[= ->] | [= ->]]; auto.
Qed.

(** A peek shows the front of the bytes on their way, or nothing. *)
Lemma starved_peeked i b id h w : starved w -> calls w !! i = Some (b, Peeking id) ->
  h = (0, 0) \/ ((8 <= len (inbox (conn w))) /\ h = peekResponseSizeAndID (conn w)) ->
  starved (endPeek i b id h w).
Proof.
  intros S Hi Hh. assert (Hne : (id =? h.2) = false).
  { apply Z.eqb_neq. destruct (S _ _ _ Hi) as (id' & [E|E] & H0 & Hf); [discriminate|injection E as <-].
    destruct Hh as [Eh|(Hl & Eh)]; subst h; [exact H0|]. intros E. apply Hf. eapply frontID_prefix; [apply prefix_app_r; reflexivity|].
    unfold frontID, peekResponseSizeAndID in *. unfold len in Hl.
    rewrite decide_False in E by lia. rewrite decide_False by lia. cbn in E. congruence. }
  unfold endPeek. rewrite Hne. eapply starved_put; [exact S|exact Hi|eauto|left; reflexivity|reflexivity..].
Qed.

Lemma starved_step w w' : step oL oB serve read w w' -> starved w -> starved w'.
Proof.
  intros Hs S. destruct Hs as
    [i b w Hi Hw|i b id c w Hi He Hw|i b id e c k w Hi Hw|i b id out k w Hi He|i b id w Hi
    |i b id w Hi Hr|i b id w Hi Hn|i b id w Hi Hn|i b size k w w' Hi Hr He|i b size e k w w' Hi Hr He
    |n w Hc|t w Ht|t w|t w|n w|k w];
    try (destruct (S _ _ _ Hi) as (? & [E|E] & _); discriminate E);
    try (apply (starved_keep w); [exact S|reflexivity|reflexivity]).
  - eapply starved_put; [exact S|exact Hi|eauto|right; reflexivity|reflexivity..].
  - apply starved_peeked; auto.
  - apply starved_peeked; auto.
  - apply (starved_keep w); [exact S|reflexivity|]. cbn. rewrite <- app_assoc, take_drop. reflexivity.
  - apply (starved_keep w); [exact S|reflexivity|]. cbn. apply prefix_app.
    exists (drop n (peer w)). symmetry. apply take_drop.
  - apply (starved_keep w); [exact S|reflexivity|]. cbn. rewrite app_nil_r.
    apply prefix_app_r. exists (drop k (inbox (conn w))). symmetry. apply take_drop.
Qed.

Lemma starved_forever w w' : rtc (step oL oB serve read) w w' -> starved w ->
  forall i b r, calls w' !! i <> Some (b, Returned r).
Proof.
  intros Hr S. assert (S' : starved w') by (induction Hr; eauto using starved_step).
  intros i b r Hi. destruct (S' _ _ _ Hi) as (id & [E|E] & _); discriminate.
Qed.

(** ** Two requests written before the first call has read its number *)
Lemma can_write cid i b id w : calls w !! i = Some (b, Writing id) -> clientID (conn w) = cid ->
  closed (conn w) = false -> writeDeadline (net w) = 0 -> sendable oL oB cid b ->
  in_int 32 (correlationID (conn w)) ->
  exists out, step oL oB serve read w (endRequest serve i b id
    (mkConn cid (correlationID (conn w)) (inbox (conn w)) out false) w).
Proof.
  intros Hi Hc Ho Hd Hs Hid. destruct (Hs _ Hid) as [bs Hb]. exists (outbox (conn w) ++ bs).
  apply StepWrite; [exact Hi|rewrite Hd; reflexivity|].
  unfold writeRequest. rewrite Hc, Hb, Ho. reflexivity.
Qed.

(** The first call reads the number of the second. *)
Lemma raced cid b1 b2 : sendable oL oB cid b1 -> sendable oL oB cid b2 ->
  exists w, rtc (step oL oB serve read) (start cid [b1; b2]) w /\
    calls w = [(b1, Waiting 2); (b2, Waiting 2)] /\ requests w = [(1, b1); (2, b2)] /\
    inbox (conn w) = serve 1 b1 ++ serve 2 b2 /\ peer w = [] /\ closed (conn w) = false /\ gone w = false.
Proof.
  intros S1 S2.
  assert (Hr : in_int 32 1 /\ in_int 32 2) by (unfold in_int; lia). destruct Hr as [Hr1 Hr2].
  set (w1 := beginRequest 0 b1 (start (A := A) cid [b1; b2])).
  destruct (can_write cid 0 b1 1 w1) as [o1 Hw1]; [reflexivity..|exact S1|exact Hr1|].
  set (w2 := endRequest serve 0 b1 1 _ w1) in Hw1.
  set (w3 := beginRequest 1 b2 w2).
  assert (Hd : writeDeadline (net w3) = 0).
  { subst w3 w2 w1. destruct b2, b1; reflexivity. }
  destruct (can_write cid 1 b2 2 w3) as [o2 Hw2]; [reflexivity..|exact Hd|exact S2|exact Hr2|].
  set (w4 := endRequest serve 1 b2 2 _ w3) in Hw2.
  set (w6 := takeID 1 b2 (takeID 0 b1 w4)).
  exists (arrived w6). split; [|repeat split].
  eapply rtc_l; [apply (StepBegin _ _ _ _ 0 b1); reflexivity|].
  eapply rtc_l; [exact Hw1|].
  eapply rtc_l; [apply (StepBegin _ _ _ _ 1 b2); reflexivity|].
  eapply rtc_l; [exact Hw2|].
  eapply rtc_l; [apply (StepTakeID _ _ _ _ 0 b1 1); reflexivity|].
  eapply rtc_l; [apply (StepTakeID _ _ _ _ 1 b2 2); reflexivity|].
  apply rtc_once. pose proof (StepDeliver oL oB serve read (length (peer w6)) w6 eq_refl) as Hs.
  rewrite firstn_all, drop_all in Hs. exact Hs.
Qed.

(** ** The deadlines of the network connection *)
Definition otherSide (s : side) : side := match s with ReadSide => WriteSide | WriteSide => ReadSide end.

(** While a call writes, its deadline is the one of the network connection and
    no other one is passed on to it; while a call reads, a deadline that an
    earlier round of [waitResponse] left set may be passed on as well. *)
Record tracked w : Prop := {
  t_write : forall i b id, calls w !! i = Some (b, Writing id) ->
    wconn (deadlines w (operationSide b)) = true /\
    writeDeadline (net w) = value (deadlines w (operationSide b));
  t_wconn : forall s, wconn (deadlines w s) = true ->
    exists i b id, calls w !! i = Some (b, Writing id) /\ operationSide b = s;
  t_read : forall i b p, calls w !! i = Some (b, p) -> holdsRead p = true ->
    rconn (deadlines w (operationSide b)) = true /\
    (readDeadline (net w) = value (deadlines w (operationSide b)) \/
     rconn (deadlines w (otherSide (operationSide b))) = true) }.

(** A step of the call [i] that leaves the deadlines alone. *)
Lemma tracked_same w w' : tracked w -> calls w' = calls w -> net w' = net w ->
  deadlines w' = deadlines w -> tracked w'.
Proof. intros [] E1 E2 E3. constructor; rewrite E1, ?E2, E3; assumption. Qed.

Lemma tracked_put i b p p' w w' : tracked w -> calls w !! i = Some (b, p) ->
  calls w' = <[i := (b, p')]> (calls w) -> net w' = net w -> deadlines w' = deadlines w ->
  (forall id, p <> Writing id) -> (forall id, p' <> Writing id) ->
  (holdsRead p' = true -> holdsRead p = true) -> tracked w'.
Proof.
  intros [T1 T2 T3] Hi Ec En Ed Hp Hp' Hh. constructor; rewrite Ec, ?En, Ed.
  - intros j b' id Hj. apply list_lookup_insert_Some in Hj as [(-> & E & _)|(_ & Hj)]; [|eauto].
    injection E as <- E. destruct (Hp' _ E).
  - intros s Hs. destruct (T2 s Hs) as (j & b' & id & Hj & E). exists j, b', id. split; [|exact E].
    rewrite list_lookup_insert_ne; [exact Hj|]. intros ->. rewrite Hi in Hj. injection Hj as -> ->.
    destruct (Hp _ eq_refl).
  - intros j b' q Hj Hq. apply list_lookup_insert_Some in Hj as [(-> & E & _)|(_ & Hj)]; [|eauto].
    injection E as <- <-. eauto.
Qed.

Lemma tracked_begin i b w : tracked w -> locks w -> calls w !! i = Some (b, Start) -> wlock w = None ->
  tracked (beginRequest i b w).
Proof.
  intros [T1 T2 T3] L Hi Hw.
  assert (Hno : forall j b' id, calls w !! j <> Some (b', Writing id)).
  { intros j b' id Hj. destruct (l_writing _ L _ _ _ Hj). congruence. }
  constructor; cbn.
  - intros j b' id Hj. apply list_lookup_insert_Some in Hj as [(-> & E & _)|(_ & Hj)]; [|destruct (Hno _ _ _ Hj)].
    injection E as <- <-. rewrite decide_True by reflexivity. auto.
  - intros s. destruct (decide (s = operationSide b)) as [->|Hne]; intros Hs.
    + exists i, b, (int32 (correlationID (conn w) + 1)). split; [|reflexivity].
      apply list_lookup_insert_eq. eapply lookup_lt_Some, Hi.
    + destruct (T2 _ Hs) as (j & b' & id & Hj & _). destruct (Hno _ _ _ Hj).
  - intros j b' q Hj Hq. apply list_lookup_insert_Some in Hj as [(-> & E & _)|(_ & Hj)];
      [injection E as <- <-; discriminate|].
    pose proof (T3 _ _ _ Hj Hq) as Hr. revert Hr.
    destruct (decide (operationSide b' = operationSide b)) as [->|];
      (destruct (decide (otherSide _ = _)) as [->|]; exact (fun H => H)).
Qed.

(** The end of the write, with the connection closed or not. *)
Lemma tracked_end i b id w w' : tracked w -> locks w -> calls w !! i = Some (b, Writing id) ->
  calls w' = <[i := (b, Written id)]> (calls w) -> net w' = net w ->
  deadlines w' = (fun s => if decide (s = operationSide b)
    then unsetConnWriteDeadline (deadlines w (operationSide b)) else deadlines w s) -> tracked w'.
Proof.
  intros [T1 T2 T3] L Hi Ec En Ed. destruct (l_writing _ L _ _ _ Hi) as [Hl _].
  assert (Hno : forall j b' id', j <> i -> calls w !! j <> Some (b', Writing id')).
  { intros j b' id' Hne Hj. destruct (l_writing _ L _ _ _ Hj). congruence. }
  constructor; rewrite Ec, ?En, Ed.
  - intros j b' id' Hj. apply list_lookup_insert_Some in Hj as [(-> & E & _)|(Hne & Hj)]; [discriminate|].
    destruct (Hno _ _ _ (not_eq_sym Hne) Hj).
  - intros s. destruct (decide (s = operationSide b)) as [->|Hne]; [discriminate|]. intros Hs.
    destruct (T2 _ Hs) as (j & b' & id' & Hj & E).
    destruct (decide (j = i)) as [->|Hji]; [|destruct (Hno _ _ _ Hji Hj)]. congruence.
  - intros j b' q Hj Hq. apply list_lookup_insert_Some in Hj as [(-> & E & _)|(_ & Hj)];
      [injection E as <- <-; discriminate|].
    pose proof (T3 _ _ _ Hj Hq) as Hr. revert Hr.
    destruct (decide (operationSide b' = operationSide b)) as [->|];
      (destruct (decide (otherSide _ = _)) as [->|]; exact (fun H => H)).
Qed.

(** Setting a deadline while calls are under way. *)
Lemma tracked_set s t w w' : tracked w -> locks w -> calls w' = calls w ->
  net w' = (setDeadline t (deadlines w s) (net w)).2 ->
  deadlines w' = (fun s' => if decide (s' = s) then (setDeadline t (deadlines w s) (net w)).1 else deadlines w s') ->
  tracked w'.
Proof.
  intros [T1 T2 T3] L Ec En Ed. constructor; rewrite Ec, ?En, Ed; cbn.
  - intros i b id Hi. destruct (T1 _ _ _ Hi) as [Hw Hv].
    destruct (decide (operationSide b = s)) as [<-|Hne].
    + rewrite Hw. destruct (rconn _); auto.
    + destruct (wconn (deadlines w s)) eqn:Es.
      * destruct (T2 _ Es) as (j & b' & id' & Hj & E). destruct (l_writing _ L _ _ _ Hi), (l_writing _ L _ _ _ Hj).
        assert (i = j) as -> by congruence. congruence.
      * destruct (rconn _); auto.
  - intros s' Hs. apply T2. destruct (decide (s' = s)) as [->|]; exact Hs.
  - intros i b p Hi Hp. destruct (T3 _ _ _ Hi Hp) as [Hr Hv].
    destruct (decide (operationSide b = s)) as [<-|Hne].
    + rewrite Hr. split; [reflexivity|]. left. destruct (wconn _); reflexivity.
    + split; [exact Hr|]. assert (Eo : otherSide (operationSide b) = s) by (destruct (operationSide b), s; easy). rewrite Eo in *.
      rewrite decide_True by reflexivity. cbn. destruct (rconn (deadlines w s)) eqn:Es; [auto|].
      destruct Hv as [Hv|Hv]; [|congruence]. left. destruct (wconn _); exact Hv.
Qed.

Lemma tracked_peek i b id w : tracked w -> locks w -> calls w !! i = Some (b, Waiting id) -> rlock w = None ->
  tracked (beginPeek i b id w).
Proof.
  intros [T1 T2 T3] L Hi Hr.
  assert (Hw : forall s, wconn (deadlines (beginPeek i b id w) s) = wconn (deadlines w s) /\
    value (deadlines (beginPeek i b id w) s) = value (deadlines w s)).
  { intros s. cbn. destruct (decide (s = operationSide b)) as [->|]; auto. }
  constructor.
  - intros j b' id' Hj. cbn [calls beginPeek put_call] in Hj.
    apply list_lookup_insert_Some in Hj as [(-> & E & _)|(_ & Hj)]; [discriminate|].
    destruct (Hw (operationSide b')) as [-> ->]. exact (T1 _ _ _ Hj).
  - intros s Hs. destruct (Hw s) as [E _]. rewrite E in Hs. destruct (T2 _ Hs) as (j & b' & id' & Hj & Es).
    exists j, b', id'. split; [|exact Es]. cbn. rewrite list_lookup_insert_ne; [exact Hj|]. intros ->. congruence.
  - intros j b' q Hj Hq. cbn [calls beginPeek put_call] in Hj.
    apply list_lookup_insert_Some in Hj as [(-> & E & _)|(_ & Hj)].
    + injection E as <- <-. cbn. rewrite decide_True by reflexivity. auto.
    + pose proof (l_reading _ L _ _ _ Hj Hq). congruence.
Qed.

Lemma tracked_read i b size r k w w' : tracked w -> locks w -> calls w !! i = Some (b, Reading size) ->
  endRead i b r k w = Some w' -> tracked w'.
Proof.
  intros [T1 T2 T3] L Hi He. pose proof (l_reading _ L _ _ _ Hi eq_refl) as Hl.
  assert (Hw : exists x, calls w' = <[i := (b, Returned x)]> (calls w) /\ net w' = net w /\
    deadlines w' = fun s => if decide (s = operationSide b)
      then unsetConnReadDeadline (deadlines w (operationSide b)) else deadlines w s).
  { unfold endRead in He. destruct r; try discriminate; injection He as <-; eauto. }
  destruct Hw as (x & Ec & En & Ed).
  assert (Hs : forall s, wconn (deadlines w' s) = wconn (deadlines w s) /\
    value (deadlines w' s) = value (deadlines w s)).
  { intros s. rewrite Ed. destruct (decide (s = operationSide b)) as [->|]; auto. }
  constructor; rewrite Ec, ?En.
  - intros j b' id' Hj. apply list_lookup_insert_Some in Hj as [(-> & E & _)|(_ & Hj)]; [discriminate|].
    destruct (Hs (operationSide b')) as [-> ->]. exact (T1 _ _ _ Hj).
  - intros s H. rewrite (proj1 (Hs s)) in H. destruct (T2 _ H) as (j & b' & id' & Hj & Es).
    exists j, b', id'. split; [|exact Es]. rewrite list_lookup_insert_ne; [exact Hj|]. intros ->. congruence.
  - intros j b' q Hj Hq. apply list_lookup_insert_Some in Hj as [(-> & E & _)|(Hne & Hj)];
      [injection E as <- <-; discriminate|].
    pose proof (l_reading _ L _ _ _ Hj Hq). congruence.
Qed.

Lemma tracked_step w w' : step oL oB serve read w w' -> locks w -> tracked w -> tracked w'.
Proof.
  intros Hs L T. destruct Hs as
    [i b w Hi Hw|i b id c w Hi He Hw|i b id e c k w Hi Hw|i b id out k w Hi He|i b id w Hi
    |i b id w Hi Hr|i b id w Hi Hn|i b id w Hi Hn|i b size k w w' Hi Hr He|i b size e k w w' Hi Hr He
    |n w Hc|t w Ht|t w|t w|n w|k w];
    try (apply (tracked_same w); [exact T|reflexivity..]).
  - apply tracked_begin; auto.
  - eapply tracked_end; [exact T|exact L|exact Hi|reflexivity..].
  - eapply tracked_end; [exact T|exact L|exact Hi|reflexivity..].
  - eapply tracked_end; [exact T|exact L|exact Hi|reflexivity..].
  - eapply tracked_put; [exact T|exact Hi|reflexivity..|discriminate|discriminate|discriminate].
  - apply tracked_peek; auto.
  - unfold endPeek. destruct (id =? _);
      (eapply tracked_put; [exact T|exact Hi|reflexivity..|discriminate|discriminate|reflexivity]).
  - unfold endPeek. destruct (id =? _);
      (eapply tracked_put; [exact T|exact Hi|reflexivity..|discriminate|discriminate|reflexivity]).
  - eapply tracked_read; eauto.
  - eapply tracked_read; eauto.
  - eapply (tracked_set ReadSide t w); auto.
  - eapply (tracked_set WriteSide t w); auto.
Qed.

Lemma steps_tracked cid bodies w : rtc (step oL oB serve read) (start cid bodies) w -> locks w /\ tracked w.
Proof.
  intros Hr. revert w Hr. refine (rtc_ind_r _ _ _ _).
  - split; [apply locks_start|]. constructor; try discriminate; cbn; intros i b p; rewrite list_lookup_fmap;
      intros H; try intros Hp; destruct (bodies !! i); cbn in H; simplify_eq; discriminate.
  - intros w w' _ Hs [L T]. split; [eapply locks_step|eapply tracked_step]; eauto.
Qed.
End waiting.
