(* ===== verification/LogMessage.v ===== *)
(** * The commit log's view of messages

    [message.go] and [message_set.go] of [src/commitlog]: accessors that read
    the fields of a message, or of a message set, out of its bytes.  [None] is
    a panic (a slice or index out of range); the capacity of a slice is taken
    to be its length. *)
From S2P Require Import Prelude Encoder Decoder Codec MessageSets.
From Stdlib Require Import Strings.Byte.

(** [m[lo:]] and [m[lo:hi]] with [int32] bounds. *)
Definition from (m : list byte) (lo : Z) : option (list byte) :=
  if decide (0 <= lo <= len m) then Some (drop (Z.to_nat lo) m) else None.
Definition between (m : list byte) (lo hi : Z) : option (list byte) :=
  if decide (0 <= lo <= hi) then
    if decide (hi <= len m) then Some (take (Z.to_nat (hi - lo)) (drop (Z.to_nat lo) m)) else None
  else None.

(** [Encoding.UintN(b)] *)
Definition Uint (n : nat) (b : list byte) : option Z :=
  if decide (n <= length b)%nat then Some (be_get (take n b)) else None.

Module LogMessage.
Definition Crc (m : list byte) : option Z := z ← Uint 4 m; Some (int32 z).
Definition MagicByte (m : list byte) : option Z := z ← m !! 4%nat; Some (int8 (Z_of_byte z)).
Definition Attributes (m : list byte) : option Z := z ← m !! 5%nat; Some (int8 (Z_of_byte z)).
Definition Timestamp (m : list byte) : option Z :=
  magic ← MagicByte m;
  if magic =? 0 then None else b ← from m 6; z ← Uint 8 b; Some (int64 z).

(** [start], [end], [size] *)
Definition keyOffsets (m : list byte) : option (Z * Z * Z) :=
  magic ← MagicByte m;
  let start := if magic =? 0 then 6 else 14 in
  b ← from m start;
  z ← Uint 4 b;
  let size := int32 z in
  Some (start, int32 (start + 4 + size), size).

(** A nil key has size [-1], so that its end is one byte short. *)
Definition valueOffsets (m : list byte) : option (Z * Z * Z) :=
  k ← keyOffsets m;
  let start := snd (fst k) in
  b ← from m start;
  z ← Uint 4 b;
  let size := int32 z in
  Some (start, int32 (start + 4 + size), size).

Definition field (m : list byte) (o : Z * Z * Z) : option (option (list byte)) :=
  let '(start, end_, size) := o in
  if size =? -1 then Some None else b ← between m (int32 (start + 4)) end_; Some (Some b).
Definition Key (m : list byte) : option (option (list byte)) := o ← keyOffsets m; field m o.
Definition Value (m : list byte) : option (option (list byte)) := o ← valueOffsets m; field m o.

Definition Size (m : list byte) : option Z :=
  magic ← MagicByte m;
  let size := if 0 <? magic then 14 else 6 in
  let size := size + 4 in
  k ← keyOffsets m;
  let size := if snd k =? -1 then size else int32 (size + snd k) in
  let size := int32 (size + 4) in
  v ← valueOffsets m;
  Some (if snd v =? -1 then size else int32 (size + snd v)).
End LogMessage.

Module LogMessageSet.
Definition msgSetHeaderLen : Z := 12.

Definition NewMessageSet (offset : Z) (msgs : list (list byte)) : list byte :=
  be_put 8 offset ++ be_put 4 (uint32 (len (concat msgs))) ++ concat msgs.

Definition Offset (ms : list byte) : option Z :=
  b ← between ms 0 8; z ← Uint 8 b; Some (int64 z).

(** [Encoding.PutUint64(ms[0:8], uint64(offset))] *)
Definition PutOffset (ms : list byte) (offset : Z) : option (list byte) :=
  if decide (8 <= length ms)%nat then Some (write_at ms 0 (be_put 8 (uint64 offset))) else None.

Definition Size (ms : list byte) : option Z :=
  b ← between ms 8 12; z ← Uint 4 b; Some (int32 (uint32 (z + msgSetHeaderLen))).

Definition Payload (ms : list byte) : option (list byte) := from ms msgSetHeaderLen.

(** The loop of [Messages]: [offset] is set to the size of the message just
    read and then doubled, not accumulated.  A round that continues drops a
    message from [b]; [None] also stands for the endless loop on a corrupt
    message of size 0. *)
Fixpoint messagesLoop (fuel : nat) (payloadSize offset : Z) (b : list byte) : option (list (list byte)) :=
  if offset <? payloadSize then
    match fuel with
    | O => None
    | S fuel =>
        offset ← LogMessage.Size b;
        m ← between b 0 offset;
        b ← from b offset;
        ms ← messagesLoop fuel payloadSize (int32 (offset + offset)) b;
        Some (m :: ms)
    end
  else Some [].

Definition Messages (ms : list byte) : option (list (list byte)) :=
  b ← Payload ms;
  messagesLoop (S (length b)) (int32 (len b)) 0 b.
End LogMessageSet.

(** ** Reading bytes at known places *)
Lemma from_app pre r n : n = len pre -> from (pre ++ r) n = Some r.
Proof.
  intros ->. unfold from. rewrite decide_True by len_solve.
  unfold len. rewrite Nat2Z.id, drop_app_length. reflexivity.
Qed.

Lemma between_app pre mid post lo hi : lo = len pre -> hi = lo + len mid ->
  between (pre ++ mid ++ post) lo hi = Some mid.
Proof.
  intros -> ->. unfold between. rewrite !decide_True by len_solve.
  replace (Z.to_nat (len pre + len mid - len pre)) with (length mid) by (unfold len; lia).
  unfold len. rewrite Nat2Z.id, slice_app. reflexivity.
Qed.

Lemma Uint_put n z r : Uint n (be_put n z ++ r) = Some (z mod 2 ^ (8 * Z.of_nat n)).
Proof.
  unfold Uint. rewrite decide_True by len_solve.
  rewrite take_app_le, take_ge by len_solve. rewrite be_get_put. reflexivity.
Qed.

Lemma Uint_put32 z r : Uint 4 (be_put 4 (uint32 z) ++ r) = Some (uint32 z).
Proof. rewrite Uint_put, Z.mod_small by apply (zext_range 32 z ltac:(lia)). reflexivity. Qed.

Lemma int32_uint32 z : int32 (uint32 z) = int32 z.
Proof. apply sext_zext. lia. Qed.
Lemma int32_small z : 0 <= z <= MaxInt32 -> int32 z = z.
Proof. intros. apply sext_id; [lia|unfold in_int, MaxInt32 in *; lia]. Qed.

Lemma lookup_put1 pre z r : in_int 8 z ->
  (b ← (pre ++ be_put 1 z ++ r) !! length pre; Some (int8 (Z_of_byte b))) = Some z.
Proof.
  intros Hz. rewrite lookup_app_r, Nat.sub_diag by lia.
  change (be_put 1 z) with [byte_of_Z (Z.shiftr z 0)]. cbn. rewrite Z.shiftr_0_r, Z_of_byte_of_Z.
  change 256 with (2 ^ 8). fold (zext 8 z). unfold int8. rewrite sext_zext, sext_id by (assumption || lia).
  reflexivity.
Qed.

(** ** The layout of an encoded message *)
Definition field_bytes (o : option (list byte)) : list byte :=
  match o with
  | None => be_put 4 (uint32 (-1))
  | Some b => be_put 4 (uint32 (int32 (len b))) ++ b
  end.
Definition time_bytes (m : Message.t) : list byte :=
  if 0 <? Message.MagicByte m then be_put 8 (uint64 (timeMillis (Message.Timestamp m))) else [].
Definition fields_layout (m : Message.t) : list byte :=
  be_put 1 (Message.MagicByte m) ++ be_put 1 (Message.Attributes m) ++ time_bytes m ++
  field_bytes (Message.Key m) ++ field_bytes (Message.Value m).
Definition layout (m : Message.t) : list byte :=
  be_put 4 (Crc32.ChecksumIEEE (fields_layout m)) ++ fields_layout m.

Lemma encodes_field_bytes o : wf_bytes o -> encodes (PutBytes o) (PutBytes o) (field_bytes o).
Proof.
  destruct o as [b|]; intros H; [apply encodes_PutBytes_Some, H|apply encodes_PutBytes_None].
Qed.

Lemma encodes_layout m : wf_bytes (Message.Key m) -> wf_bytes (Message.Value m) ->
  encodes (Message.Encode m) (Message.Encode m) (layout m).
Proof.
  intros Hk Hv. unfold Message.Encode, layout. apply encodes_CRCField. unfold Message.EncodeFields, fields_layout.
  apply encodes_seq; [apply encodes_PutInt8|]. apply encodes_seq; [apply encodes_PutInt8|].
  apply encodes_seq; [|apply encodes_seq; apply encodes_field_bytes; assumption].
  unfold time_bytes, when. destruct (0 <? Message.MagicByte m); [apply encodes_PutInt64|apply encodes_ret].
Qed.

(** Messages the commit log can take apart: a key that is present, a magic byte
    that is not negative, and a length that an [int32] holds. *)
Definition keyed (m : Message.t) : Prop :=
  0 <= Message.MagicByte m < 128 /\ in_int 8 (Message.Attributes m) /\
  is_Some (Message.Key m) /\ len (layout m) <= MaxInt32.
#[global] Instance keyed_dec m : Decision (keyed m). Proof. unfold keyed; apply _. Defined.

Section accessors.
Context (m : Message.t) (k : list byte) (rest : list byte).
Context (Hm : keyed m) (Hk : Message.Key m = Some k).

Lemma len_field_bytes o : len (field_bytes o) = 4 + match o with None => 0 | Some b => len b end.
Proof. destruct o; unfold field_bytes; len_solve. Qed.

Lemma len_layout : len (layout m) =
  6 + (if 0 <? Message.MagicByte m then 8 else 0) + 4 + len k + len (field_bytes (Message.Value m)).
Proof.
  unfold layout, fields_layout. rewrite Hk. unfold time_bytes. destruct (0 <? Message.MagicByte m);
    unfold len; rewrite !length_app; cbn [field_bytes]; rewrite ?length_app, ?length_be_put; simpl length; lia.
Qed.

Lemma MagicByte_layout : LogMessage.MagicByte (layout m ++ rest) = Some (Message.MagicByte m).
Proof.
  unfold LogMessage.MagicByte, layout, fields_layout. rewrite <- !app_assoc.
  pose proof (lookup_put1 (be_put 4 (Crc32.ChecksumIEEE (fields_layout m))) (Message.MagicByte m)) as L.
  rewrite length_be_put in L. apply L. destruct Hm as [H _]. unfold in_int. lia.
Qed.

Lemma Attributes_layout : LogMessage.Attributes (layout m ++ rest) = Some (Message.Attributes m).
Proof.
  unfold LogMessage.Attributes, layout, fields_layout. rewrite <- !app_assoc, app_assoc.
  pose proof (lookup_put1 (be_put 4 (Crc32.ChecksumIEEE (fields_layout m)) ++ be_put 1 (Message.MagicByte m))
    (Message.Attributes m)) as L.
  rewrite length_app, !length_be_put in L. apply L. apply Hm.
Qed.

Definition keyStart : Z := if 0 <? Message.MagicByte m then 14 else 6.
Definition prefix : list byte :=
  be_put 4 (Crc32.ChecksumIEEE (fields_layout m)) ++ be_put 1 (Message.MagicByte m) ++
  be_put 1 (Message.Attributes m) ++ time_bytes m.

Lemma layout_prefix : layout m ++ rest =
  prefix ++ (be_put 4 (uint32 (int32 (len k))) ++ k) ++ field_bytes (Message.Value m) ++ rest.
Proof.
  unfold layout, prefix. generalize (Crc32.ChecksumIEEE (fields_layout m)). intros c.
  unfold fields_layout. rewrite Hk. cbn [field_bytes]. rewrite <- !app_assoc. reflexivity.
Qed.

Lemma len_prefix : len prefix = keyStart.
Proof.
  unfold prefix, keyStart, time_bytes. destruct (0 <? Message.MagicByte m); len_solve.
Qed.

Lemma key_small : 0 <= len k /\ keyStart + 4 + len k + 4 <= MaxInt32 /\
  (forall b, Message.Value m = Some b -> keyStart + 4 + len k + 4 + len b <= MaxInt32).
Proof.
  destruct Hm as (_ & _ & _ & H). rewrite len_layout, len_field_bytes in H.
  unfold keyStart. split; [unfold len; lia|].
  split; [|intros b Eb; rewrite Eb in H]; destruct (0 <? Message.MagicByte m);
    destruct (Message.Value m); unfold len in *; lia.
Qed.

Lemma keyStart_magic : (if Message.MagicByte m =? 0 then 6 else 14) = keyStart.
Proof.
  destruct Hm as [H _]. unfold keyStart.
  destruct (Z.eqb_spec (Message.MagicByte m) 0), (Z.ltb_spec 0 (Message.MagicByte m)); lia.
Qed.

Lemma keyOffsets_layout :
  LogMessage.keyOffsets (layout m ++ rest) = Some (keyStart, keyStart + 4 + len k, len k).
Proof.
  unfold LogMessage.keyOffsets. rewrite MagicByte_layout. cbn [mbind option_bind].
  rewrite keyStart_magic, layout_prefix, from_app by (symmetry; apply len_prefix).
  cbn [mbind option_bind]. rewrite <- app_assoc, Uint_put32. cbn [mbind option_bind].
  pose proof key_small as [H0 [H1 _]]. assert (0 <= keyStart) by (unfold keyStart; case_bool; lia).
  rewrite int32_uint32, !(int32_small (len k)), int32_small by lia. reflexivity.
Qed.

Lemma Key_layout : LogMessage.Key (layout m ++ rest) = Some (Message.Key m).
Proof.
  unfold LogMessage.Key. rewrite keyOffsets_layout. cbn [mbind option_bind].
  pose proof key_small as [H0 [H1 _]]. assert (0 <= keyStart) by (unfold keyStart; case_bool; lia).
  unfold LogMessage.field. rewrite (proj2 (Z.eqb_neq _ _)), int32_small, layout_prefix, Hk by lia.
  rewrite <- app_assoc, app_assoc, between_app; [reflexivity| |lia].
  rewrite <- len_prefix. len_solve.
Qed.

Lemma valueOffsets_layout :
  LogMessage.valueOffsets (layout m ++ rest) =
  Some (keyStart + 4 + len k,
        match Message.Value m with
        | None => keyStart + 4 + len k + 3
        | Some b => keyStart + 4 + len k + 4 + len b
        end,
        match Message.Value m with None => -1 | Some b => len b end).
Proof.
  pose proof key_small as [H0 [H1 Hb]]. assert (0 <= keyStart) by (unfold keyStart; case_bool; lia).
  unfold LogMessage.valueOffsets. rewrite keyOffsets_layout. cbn [mbind option_bind fst snd].
  rewrite layout_prefix, app_assoc, from_app
    by (rewrite <- len_prefix; len_solve).
  cbn [mbind option_bind]. destruct (Message.Value m) as [b|]; cbn [field_bytes].
  - specialize (Hb b eq_refl). assert (0 <= len b) by (unfold len; lia).
    rewrite <- app_assoc, Uint_put32. cbn [mbind option_bind].
    rewrite int32_uint32, !(int32_small (len b)), int32_small by lia. reflexivity.
  - rewrite Uint_put32. cbn [mbind option_bind]. rewrite int32_uint32.
    change (int32 (-1)) with (-1). rewrite int32_small by lia. do 3 f_equal. lia.
Qed.

Lemma Value_layout : LogMessage.Value (layout m ++ rest) = Some (Message.Value m).
Proof.
  unfold LogMessage.Value. rewrite valueOffsets_layout. cbn [mbind option_bind].
  pose proof key_small as [H0 [H1 Hb]]. assert (0 <= keyStart) by (unfold keyStart; case_bool; lia).
  unfold LogMessage.field. destruct (Message.Value m) as [b|] eqn:Ev; [|reflexivity].
  specialize (Hb b eq_refl). assert (0 <= len b) by (unfold len; lia).
  rewrite (proj2 (Z.eqb_neq _ _)), int32_small, layout_prefix, Ev by lia. cbn [field_bytes].
  rewrite <- !app_assoc, (app_assoc k), (app_assoc _ (k ++ _)), (app_assoc prefix).
  rewrite between_app; [reflexivity| |lia].
  rewrite <- len_prefix. len_solve.
Qed.

Lemma Size_layout : LogMessage.Size (layout m ++ rest) = Some (len (layout m)).
Proof.
  pose proof key_small as [H0 [H1 Hb]]. assert (0 <= keyStart) by (unfold keyStart; case_bool; lia).
  unfold LogMessage.Size. rewrite MagicByte_layout, keyOffsets_layout, valueOffsets_layout.
  cbn [mbind option_bind fst snd]. rewrite (proj2 (Z.eqb_neq (len k) _)) by lia.
  rewrite len_layout, len_field_bytes. fold keyStart.
  replace (6 + (if 0 <? Message.MagicByte m then 8 else 0)) with keyStart
    by (unfold keyStart; case_bool; reflexivity).
  rewrite (int32_small (keyStart + 4 + len k)), (int32_small (keyStart + 4 + len k + 4)) by lia.
  destruct (Message.Value m) as [b|]; [|f_equal; lia].
  specialize (Hb b eq_refl). assert (0 <= len b) by (unfold len; lia).
  rewrite (proj2 (Z.eqb_neq (len b) _)), int32_small by lia. f_equal. lia.
Qed.
End accessors.

(** A message with a nil key and a value: the value's offset is one byte short
    and reading the value panics. *)
Example nil_key_value_panics :
  LogMessage.Value (layout (Message.mk 0 0 0 zeroTime None (Some [x61]))) = None.
Proof. vm_compute. reflexivity. Qed.

(** ** Message sets *)
Lemma Messages_single offset m : keyed m -> len (layout m) < 2 ^ 30 ->
  LogMessageSet.Messages (LogMessageSet.NewMessageSet offset [layout m]) = Some [layout m].
Proof.
  intros Hm Hsz. destruct (Message.Key m) as [k|] eqn:Hk; [|destruct Hm as (_ & _ & [x Hx] & _); congruence].
  pose proof (len_layout m k Hk) as Hl. destruct Hm as (Hg & Ha & Hks & Hn).
  assert (Hm : keyed m) by (split; auto).
  assert (Hpos : 0 < len (layout m)) by (rewrite Hl; unfold len; case_bool; lia).
  unfold LogMessageSet.Messages, LogMessageSet.NewMessageSet, LogMessageSet.Payload.
  cbn [concat]. rewrite app_nil_r, app_assoc, from_app by (unfold LogMessageSet.msgSetHeaderLen; len_solve).
  cbn [mbind option_bind].
  rewrite int32_small by lia. cbn [LogMessageSet.messagesLoop]. rewrite (proj2 (Z.ltb_lt _ _)) by lia.
  pose proof (Size_layout m k [] Hm Hk) as HS. rewrite app_nil_r in HS. rewrite HS. cbn [mbind option_bind].
  pose proof (between_app [] (layout m) [] 0 (len (layout m)) eq_refl eq_refl) as HB.
  rewrite app_nil_l, app_nil_r in HB. rewrite HB. cbn [mbind option_bind].
  pose proof (from_app (layout m) [] _ eq_refl) as HF. rewrite app_nil_r in HF. rewrite HF.
  cbn [mbind option_bind].
  assert (Hd : (int32 (len (layout m) + len (layout m)) <? len (layout m)) = false).
  { apply Z.ltb_ge. rewrite int32_small by (unfold MaxInt32; lia). lia. }
  destruct (length (layout m)); cbn [LogMessageSet.messagesLoop]; rewrite Hd; reflexivity.
Qed.

(** Two messages of the same size: the second is lost.  Three: a panic. *)
Definition sample : Message.t := Message.mk 0 0 0 zeroTime (Some [x6b]) (Some [x76]).
Example Messages_loses_second :
  LogMessageSet.Messages (LogMessageSet.NewMessageSet 0 [layout sample; layout sample]) =
  Some [layout sample].
Proof. vm_compute. reflexivity. Qed.
Example Messages_panics_on_three :
  LogMessageSet.Messages (LogMessageSet.NewMessageSet 0 [layout sample; layout sample; layout sample]) =
  None.
Proof. vm_compute. reflexivity. Qed.

(** ** Offsets of message sets *)
Lemma PutOffset_length ms o ms' : LogMessageSet.PutOffset ms o = Some ms' -> length ms' = length ms.
Proof.
  unfold LogMessageSet.PutOffset. case_decide; [|discriminate]. intros [= <-].
  apply length_write_at. rewrite length_be_put. lia.
Qed.

Lemma PutOffset_Some ms o : (8 <= length ms)%nat ->
  LogMessageSet.PutOffset ms o = Some (be_put 8 (uint64 o) ++ drop 8 ms).
Proof.
  intros H. unfold LogMessageSet.PutOffset. rewrite decide_True by exact H.
  unfold write_at. rewrite take_0, length_be_put. reflexivity.
Qed.

Lemma Offset_PutOffset ms o ms' : in_int 64 o ->
  LogMessageSet.PutOffset ms o = Some ms' -> LogMessageSet.Offset ms' = Some o.
Proof.
  intros Ho H. unfold LogMessageSet.PutOffset in H. case_decide as Hl; [|discriminate].
  pose proof (PutOffset_Some ms o Hl) as E. unfold LogMessageSet.PutOffset in E. rewrite decide_True in E by exact Hl.
  assert (Em : ms' = be_put 8 (uint64 o) ++ drop 8 ms) by congruence. subst ms'.
  unfold LogMessageSet.Offset.
  pose proof (between_app [] (be_put 8 (uint64 o)) (drop 8 ms) 0 8 eq_refl) as HB.
  rewrite app_nil_l in HB. rewrite HB by len_solve. cbn [mbind option_bind].
  pose proof (Uint_put 8 (uint64 o) []) as HU. rewrite app_nil_r in HU. rewrite HU. cbn [mbind option_bind].
  rewrite Z.mod_small by apply (zext_range 64 o ltac:(lia)).
  unfold int64, uint64. rewrite sext_zext, sext_id by (assumption || lia). reflexivity.
Qed.

(** The rest of the set is untouched. *)
Lemma PutOffset_drop ms o ms' : LogMessageSet.PutOffset ms o = Some ms' -> drop 8 ms' = drop 8 ms.
Proof.
  unfold LogMessageSet.PutOffset. case_decide as Hl; [|discriminate]. intros [= <-].
  unfold write_at. rewrite take_0, app_nil_l, length_be_put.
  apply drop_app_exact, length_be_put.
Qed.
