(* ===== verification/Index.v ===== *)
(** * The index of a segment

    [src/commitlog/index.go]: a memory-mapped file of eight-byte entries that
    relate the offset of a message set to its position in the segment's log.
    [rep] relates the bytes to the list of entries they stand for. *)
From S2P Require Import Prelude LogMessage.

Definition offsetWidth : Z := 4.
Definition positionWidth : Z := 4.
Definition entryWidth : Z := offsetWidth + positionWidth.

Definition ErrIndexCorrupt : error := ErrOther "corrupt index file".

(** [util.go] *)
Definition roundDown (total factor : Z) : Z := factor * Z.quot total factor.

Record Entry := mkEntry { Offset : Z; Position : Z }.
#[global] Instance Entry_eq_dec : EqDecision Entry. Proof. solve_decision. Defined.

(** The mapping has [roundDown bytes entryWidth] bytes: those of [mmap], then
    zeros. *)
Record Index := mkIndex { bytes : Z; baseOffset : Z; mmap : list byte; position : Z }.

Definition defaultBytes : Z := 10 * 1024 * 1024.
Definition mapSize (i : Index) : Z := roundDown (bytes i) entryWidth.

(** [file] is what the index file holds when it is opened. *)
Definition NewIndex (file : list byte) (bytes baseOffset : Z) : Index :=
  let bytes := if bytes =? 0 then defaultBytes else bytes in
  let size := roundDown bytes entryWidth in
  mkIndex bytes baseOffset (if len file <=? size then file else take (Z.to_nat size) file) (len file).

(** [relEntry], as [binary.Write] and [binary.Read] lay it out. *)
Definition relEntry_bytes (e : Entry) (base : Z) : list byte :=
  be_put 4 (uint32 (int32 (Offset e - base))) ++ be_put 4 (uint32 (int32 (Position e))).
Definition fill (p : list byte) (base : Z) : Entry :=
  mkEntry (base + int32 (be_get (take 4 p))) (int32 (be_get (take 4 (drop 4 p)))).

(** [copy(idx.mmap[offset:offset+entryWidth], p)] for an eight-byte [p]; the
    slice expression panics outside the mapping. *)
Definition WriteAt (p : list byte) (offset : Z) : M Index unit := fun i =>
  if decide (0 <= offset /\ offset + entryWidth <= mapSize i) then
    let pad := zeros (Z.to_nat offset + length p - length (mmap i)) in
    Ret tt (mkIndex (bytes i) (baseOffset i) (write_at (mmap i ++ pad) (Z.to_nat offset) p) (position i))
  else Crash.

Definition ReadAt (offset : Z) : M Index (list byte) := fun i =>
  if position i <? offset + entryWidth then Fail EOF i
  else if decide (0 <= offset /\ offset + entryWidth <= mapSize i) then
    Ret (take 8 (drop (Z.to_nat offset) (mmap i) ++ zeros 8)) i
  else Crash.

Definition WriteEntry (e : Entry) : M Index unit :=
  base ← gets baseOffset;
  pos ← gets position;
  WriteAt (relEntry_bytes e base) pos ;;
  modify (fun i => mkIndex (bytes i) (baseOffset i) (mmap i) (position i + entryWidth)).

Definition ReadEntryAtFileOffset (fileOffset : Z) : M Index Entry :=
  p ← ReadAt fileOffset;
  base ← gets baseOffset;
  mret (fill p base).

Definition ReadEntryAtLogOffset (logOffset : Z) : M Index Entry :=
  ReadEntryAtFileOffset (logOffset * entryWidth).

Definition TruncateEntries (number : Z) : M Index unit := fun i =>
  if position i <? number * entryWidth then Fail (ErrOther "bad truncate number") i
  else Ret tt (mkIndex (bytes i) (baseOffset i) (mmap i) (number * entryWidth)).

Definition SanityCheck : M Index unit := fun i =>
  if position i =? 0 then Ret tt i
  else if negb (Z.rem (position i) entryWidth =? 0) then Fail ErrIndexCorrupt i
  else match ReadEntryAtFileOffset (position i - entryWidth) i with
       | Ret e i => if Offset e <? baseOffset i then Fail ErrIndexCorrupt i else Ret tt i
       | Fail e i => Fail e i
       | Crash => Crash
       end.

(** What the index file holds after [Close]: the mapping cut at [position]. *)
Definition Close (i : Index) : list byte :=
  take (Z.to_nat (position i)) (mmap i ++ zeros (Z.to_nat (position i))).

(** [IndexScanner]: the number of entries read so far. *)
Definition Scan (offset : Z) : M Index (Entry * Z) :=
  e ← ReadEntryAtLogOffset offset;
  if (Offset e =? 0) && negb (offset =? 0) then throw EOF else mret (e, offset + 1).

(** ** Entries that an index represents *)
Definition wf_entry (base : Z) (e : Entry) : Prop :=
  in_int 32 (Offset e - base) /\ in_int 32 (Position e).
#[global] Instance wf_entry_dec b e : Decision (wf_entry b e). Proof. unfold wf_entry; apply _. Defined.

Definition entries_bytes (base : Z) (es : list Entry) : list byte :=
  concat ((fun e => relEntry_bytes e base) <$> es).

(** [rep i es]: the mapping starts with the entries [es] and [position] is
    after the last; what follows may be left over from before a truncation. *)
Definition rep (i : Index) (es : list Entry) : Prop :=
  position i = entryWidth * len es /\ position i <= mapSize i /\
  Forall (wf_entry (baseOffset i)) es /\
  exists rest, mmap i = entries_bytes (baseOffset i) es ++ rest.

Lemma length_relEntry e b : length (relEntry_bytes e b) = 8%nat.
Proof. unfold relEntry_bytes. rewrite length_app, !length_be_put. reflexivity. Qed.

Lemma length_entries b es : length (entries_bytes b es) = (8 * length es)%nat.
Proof.
  induction es as [|e es IH]; [reflexivity|].
  unfold entries_bytes in *. rewrite fmap_cons. cbn [concat length].
  rewrite length_app, length_relEntry, IH. lia.
Qed.

Lemma entries_app b es es' :
  entries_bytes b (es ++ es') = entries_bytes b es ++ entries_bytes b es'.
Proof. unfold entries_bytes. rewrite fmap_app, concat_app. reflexivity. Qed.

(** An entry whose offset and position fit 32 bits survives the file. *)
Lemma fill_relEntry e b r : wf_entry b e -> fill (relEntry_bytes e b ++ r) b = e.
Proof.
  intros [Ho Hp]. unfold fill, relEntry_bytes.
  assert (Hw : forall z, in_int 32 z -> int32 (be_get (be_put 4 (uint32 (int32 z)))) = z).
  { intros z Hz. rewrite be_get_put, Z.mod_small by apply (zext_range 32 _ ltac:(lia)).
    rewrite int32_uint32. unfold int32. rewrite !(sext_id 32 z) by (assumption || lia). reflexivity. }
  rewrite <- app_assoc, (take_app_exact 4), (drop_app_exact 4) by apply length_be_put.
  rewrite (take_app_exact 4) by apply length_be_put.
  rewrite !Hw by assumption. destruct e; cbn. f_equal. lia.
Qed.

Lemma write_after pre rest p :
  write_at ((pre ++ rest) ++ zeros (length pre + length p - length (pre ++ rest))) (length pre) p =
  pre ++ p ++ drop (length p) rest.
Proof.
  unfold write_at. rewrite <- app_assoc, take_app_length. f_equal. f_equal.
  rewrite drop_app, (drop_ge pre) by lia.
  replace (length pre + length p - length pre)%nat with (length p) by lia.
  rewrite app_nil_l, drop_app, length_app.
  rewrite (drop_ge (zeros _)) by (rewrite length_zeros; lia). apply app_nil_r.
Qed.

Lemma WriteEntry_spec i es e :
  rep i es -> wf_entry (baseOffset i) e -> entryWidth * (len es + 1) <= mapSize i ->
  exists i', WriteEntry e i = Ret tt i' /\ rep i' (es ++ [e]) /\
    bytes i' = bytes i /\ baseOffset i' = baseOffset i.
Proof.
  intros (Hp & Hm & Hw & rest & Er) He Hs. unfold WriteEntry.
  erewrite bind_Ret by reflexivity. erewrite bind_Ret by reflexivity.
  assert (E8 : entryWidth = 8) by reflexivity.
  unfold mbind, M_bind, WriteAt. rewrite decide_True by (rewrite Hp; unfold len in *; lia).
  cbn [modify]. eexists. split; [reflexivity|]. unfold mapSize in *.
  split; [|split; reflexivity]. split; [|split; [|split]]; cbn [position bytes baseOffset mmap].
  - rewrite Hp. len_solve.
  - unfold mapSize; cbn [bytes]. rewrite Hp. lia.
  - apply Forall_app_2; [exact Hw|]. constructor; [exact He|constructor].
  - rewrite Er, entries_app. unfold entries_bytes at 4. cbn [fmap list_fmap concat]. rewrite app_nil_r.
    replace (Z.to_nat (position i)) with (length (entries_bytes (baseOffset i) es))
      by (rewrite length_entries, Hp; unfold len; lia).
    rewrite write_after, app_assoc. eexists. reflexivity.
Qed.

(** A full mapping: the slice expression panics. *)
Lemma WriteEntry_full i es e :
  rep i es -> mapSize i < entryWidth * (len es + 1) -> WriteEntry e i = Crash.
Proof.
  intros (Hp & _) Hs. unfold WriteEntry, mbind, M_bind, gets, WriteAt.
  rewrite decide_False by (rewrite Hp; lia). reflexivity.
Qed.

Lemma ReadEntry_spec i es k e : rep i es -> es !! k = Some e ->
  ReadEntryAtFileOffset (Z.of_nat k * entryWidth) i = Ret e i.
Proof.
  intros (Hp & Hm & Hw & rest & Er) Hk. pose proof (lookup_lt_Some _ _ _ Hk) as Hlt.
  assert (E8 : entryWidth = 8) by reflexivity.
  unfold ReadEntryAtFileOffset, mbind, M_bind, ReadAt.
  rewrite (proj2 (Z.ltb_ge _ _)), decide_True by (rewrite Hp in *; unfold len in *; lia).
  unfold gets, mret, M_ret. f_equal.
  destruct (list_elem_of_split_length _ _ _ Hk) as (l1 & l2 & -> & Hl).
  rewrite Er, (entries_app _ l1 (e :: l2)), <- app_assoc.
  replace (Z.to_nat (Z.of_nat k * entryWidth)) with (length (entries_bytes (baseOffset i) l1))
    by (rewrite length_entries; lia).
  rewrite drop_app_length. unfold entries_bytes. rewrite fmap_cons. cbn [concat].
  rewrite <- !app_assoc, (take_app_exact 8) by apply length_relEntry.
  pose proof (fill_relEntry e (baseOffset i) []) as F. rewrite app_nil_r in F. apply F.
  apply Forall_app in Hw as [_ Hw]. inversion Hw; assumption.
Qed.

Lemma ReadEntry_EOF i es k : rep i es -> len es <= k ->
  ReadEntryAtFileOffset (k * entryWidth) i = Fail EOF i.
Proof.
  intros (Hp & _) Hk. unfold ReadEntryAtFileOffset, mbind, M_bind, ReadAt.
  rewrite (proj2 (Z.ltb_lt _ _)) by (rewrite Hp; unfold entryWidth, offsetWidth, positionWidth; lia).
  reflexivity.
Qed.

(** Truncating keeps a prefix of the entries. *)
Lemma TruncateEntries_spec i es n : rep i es -> (n <= length es)%nat ->
  exists i', TruncateEntries (Z.of_nat n) i = Ret tt i' /\ rep i' (take n es).
Proof.
  intros (Hp & Hm & Hw & rest & Er) Hn. unfold TruncateEntries.
  assert (E8 : entryWidth = 8) by reflexivity.
  rewrite (proj2 (Z.ltb_ge _ _)) by (rewrite Hp; unfold len; lia). eexists. split; [reflexivity|].
  split; [|split; [|split]]; cbn [position bytes baseOffset mmap].
  - unfold len. rewrite length_take. lia.
  - unfold mapSize in *; cbn [bytes]. unfold len in *. lia.
  - apply Forall_take, Hw.
  - exists (entries_bytes (baseOffset i) (drop n es) ++ rest).
    rewrite app_assoc, <- entries_app, take_drop. exact Er.
Qed.

Lemma TruncateEntries_bad i es n : rep i es -> len es < n ->
  TruncateEntries n i = Fail (ErrOther "bad truncate number") i.
Proof.
  intros (Hp & _) Hn. unfold TruncateEntries.
  rewrite (proj2 (Z.ltb_lt _ _)) by (rewrite Hp; unfold entryWidth, offsetWidth, positionWidth; lia).
  reflexivity.
Qed.
