(* ===== verification/Segment.v ===== *)
(** * Segments

    [src/commitlog/segment.go]: a log file and its index.  The directory is a
    finite map from file names to contents; names are kept structured (base
    offset, log or index, cleaned or not) instead of printed with
    ["%020d%s"]. *)
From S2P Require Import Prelude Encoder LogMessage Index.
From Stdlib Require Import Strings.Byte.

(** ** The directory *)
Inductive kind := KIndex | KLog.
#[global] Instance kind_eq_dec : EqDecision kind. Proof. solve_decision. Defined.
#[global] Instance kind_countable : Countable kind.
Proof.
  refine (inj_countable' (fun k => match k with KIndex => true | KLog => false end)
    (fun b : bool => if b then KIndex else KLog) _). intros []; reflexivity.
Defined.

(** Base offset, kind, and whether the name ends in [cleanedSuffix]. *)
Record fname := mkName { fbase : Z; fkind : kind; fcleaned : bool }.
#[global] Instance fname_eq_dec : EqDecision fname. Proof. solve_decision. Defined.
#[global] Instance fname_countable : Countable fname.
Proof.
  refine (inj_countable' (fun f => (fbase f, fkind f, fcleaned f))
    (fun t => mkName (fst (fst t)) (snd (fst t)) (snd t)) _). intros []; reflexivity.
Defined.
Abbreviation FS := (gmap fname (list byte)).

Definition ErrClosed : error := ErrOther "file already closed".
Definition ErrNotExist : error := ErrOther "no such file or directory".

(** [cursor] is the file offset of [log]. *)
Record Segment := mkSegment {
  BaseOffset : Z; NextOffset : Z; SPosition : Z; maxBytes : Z; cleaned : bool;
  SIndex : Index; cursor : Z; closed : bool }.

Definition logPath (s : Segment) : fname := (mkName (BaseOffset s) KLog (cleaned s)).
Definition indexPath (s : Segment) : fname := (mkName (BaseOffset s) KIndex (cleaned s)).

Definition contents (fs : FS) (f : fname) : list byte := default [] (fs !! f).

(** [os.OpenFile(..., O_RDWR|O_CREATE, ...)] *)
Definition open_create (f : fname) (fs : FS) : FS :=
  match fs !! f with Some _ => fs | None => <[f := []]> fs end.

(** ** BuildIndex *)

(** [io.CopyN(b, s.log, n)] at file offset [cur]: [None] is [io.EOF], with the
    file offset reached. *)
Definition copyN (log : list byte) (cur n : Z) : option (list byte) * Z :=
  if cur + n <=? len log then (Some (take (Z.to_nat n) (drop (Z.to_nat cur) log)), cur + n)
  else (None, Z.max cur (len log)).

(** The loop of [BuildIndex].  After the payload has been copied, the file
    offset is advanced by its size once more ([s.log.Seek(size, 1)]).  Every
    round advances it by twelve bytes or more. *)
Fixpoint buildLoop (fuel : nat) (log : list byte) (cur nextOffset position : Z)
  : M Index (Z * Z * Z) := fun i =>
  match fuel with
  | O => Fail (ErrOther "out of fuel") i
  | S fuel =>
      match copyN log cur 8 with
      | (None, cur) => Ret (nextOffset, position, cur) i
      | (Some _, cur) =>
          match copyN log cur 4 with
          | (None, cur) => Ret (nextOffset, position, cur) i
          | (Some sz, cur) =>
              let size := be_get sz in
              match copyN log cur size with
              | (None, cur) => Ret (nextOffset, position, cur) i
              | (Some _, cur) =>
                  match WriteEntry (mkEntry nextOffset position) i with
                  | Ret _ i => buildLoop fuel log (cur + size) (nextOffset + 1)
                                 (position + (size + LogMessageSet.msgSetHeaderLen)) i
                  | Fail e i => Fail e i
                  | Crash => Crash
                  end
              end
          end
      end
  end.

Definition BuildIndex (log : list byte) (base : Z) : M Index (Z * Z * Z) :=
  SanityCheck ;;
  TruncateEntries 0 ;;
  buildLoop (S (length log)) log 0 base 0.

(** ** Opening *)

(** [NewSegment] and [SetupIndex]; the index is opened with the default size. *)
Definition NewSegment (base max : Z) (cln : bool) : M FS Segment := fun fs =>
  let fs := open_create (mkName base KLog cln) fs in
  let i := NewIndex (contents fs (mkName base KIndex cln)) 0 base in
  let fs := open_create (mkName base KIndex cln) fs in
  match BuildIndex (contents fs (mkName base KLog cln)) base i with
  | Ret (next, pos, cur) i => Ret (mkSegment base next pos max cln i cur false) fs
  | Fail e _ => Fail e fs
  | Crash => Crash
  end.

(** ** Operations on an open segment: the directory and the segment change *)
Definition IsFull (s : Segment) : bool := maxBytes s <=? SPosition s.

(** With [O_APPEND] the file offset ends up at the end of the file. *)
Definition Write (p : list byte) : M (FS * Segment) Z := fun '(fs, s) =>
  if closed s then Fail ErrClosed (fs, s)
  else
    let log := contents fs (logPath s) ++ p in
    Ret (len p)
      (<[logPath s := log]> fs,
       mkSegment (BaseOffset s) (NextOffset s + 1) (SPosition s + len p) (maxBytes s) (cleaned s)
         (SIndex s) (len log) (closed s)).

(** [n] bytes from position [off], and [io.EOF] when there are fewer. *)
Definition SReadAt (fs : FS) (s : Segment) (n : nat) (off : Z) : list byte * option error :=
  if off <? 0 then ([], Some (ErrOther "negative offset"))
  else if decide (n = O) then ([], None)
  else if closed s then ([], Some ErrClosed)
  else
    let b := take n (drop (Z.to_nat off) (contents fs (logPath s))) in
    (b, if decide (length b < n)%nat then Some EOF else None).

(** [s.reader.Read]: at most [n] bytes from the file offset on, which moves past
    them; [io.EOF] when there is none left. *)
Definition SRead (n : nat) : M (FS * Segment) (list byte) := fun '(fs, s) =>
  if closed s then Fail ErrClosed (fs, s)
  else if decide (n = O) then Ret [] (fs, s)
  else
    match take n (drop (Z.to_nat (cursor s)) (contents fs (logPath s))) with
    | [] => Fail EOF (fs, s)
    | b => Ret b (fs, mkSegment (BaseOffset s) (NextOffset s) (SPosition s) (maxBytes s) (cleaned s)
                        (SIndex s) (cursor s + len b) (closed s))
    end.

Definition SClose : M (FS * Segment) unit := fun '(fs, s) =>
  if closed s then Fail ErrClosed (fs, s)
  else Ret tt (<[indexPath s := Index.Close (SIndex s)]> fs,
         mkSegment (BaseOffset s) (NextOffset s) (SPosition s) (maxBytes s) (cleaned s)
           (SIndex s) (cursor s) true).

Definition remove (f : fname) (fs : FS) : option FS :=
  match fs !! f with Some _ => Some (delete f fs) | None => None end.

Definition Delete : M (FS * Segment) unit := fun st =>
  match SClose st with
  | Ret _ (fs, s) =>
      match remove (logPath s) fs with
      | Some fs =>
          match remove (indexPath s) fs with
          | Some fs => Ret tt (fs, s)
          | None => Fail ErrNotExist (fs, s)
          end
      | None => Fail ErrNotExist (fs, s)
      end
  | Fail e st => Fail e st
  | Crash => Crash
  end.

(** [WriteEntry] on the segment's index. *)
Definition WriteIndexEntry (e : Entry) : M (FS * Segment) unit := fun '(fs, s) =>
  match WriteEntry e (SIndex s) with
  | Ret _ i => Ret tt (fs, mkSegment (BaseOffset s) (NextOffset s) (SPosition s) (maxBytes s)
                             (cleaned s) i (cursor s) (closed s))
  | Fail err i => Fail err (fs, s)
  | Crash => Crash
  end.

(** ** findEntry *)

(** [sort.Search] on [[i, j)] with the predicate of [findEntry], which reads
    into the shared entry [e]: a read past the last entry fails and leaves [e]
    as the previous probe set it. *)
Definition probe (i : Index) (e : Entry) (h : Z) : option Entry :=
  match ReadEntryAtFileOffset (h * entryWidth) i with
  | Ret e' _ => Some e'
  | Fail _ _ => Some e
  | Crash => None
  end.

Fixpoint search (fuel : nat) (idx : Index) (target i j : Z) (e : Entry) : option (Z * Entry) :=
  if i <? j then
    match fuel with
    | O => None
    | S fuel =>
        let h := Z.shiftr (i + j) 1 in
        e ← probe idx e h;
        if (target <=? Offset e) || (Offset e =? 0)
        then search fuel idx target i h e
        else search fuel idx target (h + 1) j e
    end
  else Some (i, e).

(** The number of probes is at most the number of bits of the range. *)
Definition findEntry (s : Segment) (offset : Z) : option (error + Entry) :=
  let n := Z.quot (bytes (SIndex s)) entryWidth in
  r ← search (S (Z.to_nat (Z.log2 n))) (SIndex s) offset 0 n (mkEntry 0 0);
  let '(idx, e) := r in
  if idx =? n then Some (inl (ErrOther "entry not found"))
  else e ← probe (SIndex s) e idx; Some (inr e).

(** ** SegmentScanner *)
Definition SegScan (fs : FS) (s : Segment) (offset : Z) : option (error + (list byte * Z)) :=
  match Scan offset (SIndex s) with
  | Ret (entry, offset) _ =>
      match SReadAt fs s 12 (Index.Position entry) with
      | (header, None) =>
          sz ← LogMessageSet.Size header;
          let size := int32 (sz - LogMessageSet.msgSetHeaderLen) in
          if size <? 0 then None else
          match SReadAt fs s (Z.to_nat size) (Index.Position entry + LogMessageSet.msgSetHeaderLen) with
          | (payload, None) => Some (inr (header ++ payload, offset))
          | (_, Some e) => Some (inl e)
          end
      | (_, Some e) => Some (inl e)
      end
  | Fail e _ => Some (inl e)
  | Crash => None
  end.

(** ** Segments that hold message sets

    [seg_rep fs s mss]: the open segment [s] holds the message sets [mss], one
    index entry for each, with consecutive offsets and the positions where
    they start. *)
Fixpoint entries_from (off pos : Z) (mss : list (list byte)) : list Entry :=
  match mss with
  | [] => []
  | m :: mss => mkEntry off pos :: entries_from (off + 1) (pos + len m) mss
  end.

Definition seg_rep (fs : FS) (s : Segment) (mss : list (list byte)) : Prop :=
  closed s = false /\ cleaned s = false /\
  NextOffset s = BaseOffset s + len mss /\ SPosition s = len (concat mss) /\
  fs !! logPath s = Some (concat mss) /\ is_Some (fs !! indexPath s) /\
  rep (SIndex s) (entries_from (BaseOffset s) 0 mss) /\
  baseOffset (SIndex s) = BaseOffset s /\ bytes (SIndex s) = defaultBytes.

Lemma entries_from_app off pos mss mss' :
  entries_from off pos (mss ++ mss') =
  entries_from off pos mss ++ entries_from (off + len mss) (pos + len (concat mss)) mss'.
Proof.
  revert off pos. induction mss as [|m mss IH]; intros off pos; cbn [app entries_from concat].
  - unfold len; simpl. rewrite !Z.add_0_r. reflexivity.
  - rewrite IH. do 3 f_equal; len_solve.
Qed.

Lemma length_entries_from off pos mss : length (entries_from off pos mss) = length mss.
Proof. revert off pos; induction mss; intros; cbn; [reflexivity|]. rewrite IHmss. reflexivity. Qed.

Lemma lookup_entries_from off pos mss k e : entries_from off pos mss !! k = Some e ->
  e = mkEntry (off + Z.of_nat k) (pos + len (concat (take k mss))) /\ (k < length mss)%nat.
Proof.
  revert off pos k. induction mss as [|m mss IH]; intros off pos [|k]; cbn [entries_from lookup list_lookup]; try discriminate.
  - intros [= <-]. split; [|simpl; lia]. unfold len; simpl. f_equal; lia.
  - intros H. apply IH in H as [-> Hk]. split; [|simpl; lia]. cbn [take concat]. f_equal; len_solve.
Qed.

Lemma entries_from_lookup off pos mss k : (k < length mss)%nat ->
  entries_from off pos mss !! k = Some (mkEntry (off + Z.of_nat k) (pos + len (concat (take k mss)))).
Proof.
  intros Hk. destruct (lookup_lt_is_Some_2 (entries_from off pos mss) k) as [e He];
    [rewrite length_entries_from; exact Hk|].
  rewrite He. apply lookup_entries_from in He as [-> _]. reflexivity.
Qed.

(** Opening a segment with a new name gives an empty one. *)
Lemma NewSegment_fresh fs base max :
  fs !! (mkName base KLog false) = None -> fs !! (mkName base KIndex false) = None ->
  exists s, NewSegment base max false fs =
      Ret s (<[(mkName base KIndex false) := []]> (<[(mkName base KLog false) := []]> fs)) /\
    BaseOffset s = base /\ maxBytes s = max /\
    seg_rep (<[(mkName base KIndex false) := []]> (<[(mkName base KLog false) := []]> fs)) s [].
Proof.
  intros HL HI. unfold NewSegment, open_create. rewrite HL.
  rewrite (lookup_insert_ne _ (mkName base KLog false) (mkName base KIndex false)) by congruence. rewrite HI.
  unfold contents.
  rewrite (lookup_insert_ne _ (mkName base KLog false) (mkName base KIndex false)) by congruence. rewrite HI.
  rewrite (lookup_insert_ne _ (mkName base KIndex false) (mkName base KLog false)) by congruence.
  rewrite lookup_insert_eq. cbn [default from_option id].
  eexists. split; [reflexivity|]. cbn [BaseOffset maxBytes]. split; [reflexivity|]. split; [reflexivity|].
  unfold seg_rep, logPath, indexPath; cbn. rewrite lookup_insert_eq.
  rewrite (lookup_insert_ne _ (mkName base KIndex false) (mkName base KLog false)) by congruence.
  rewrite lookup_insert_eq.
  repeat split; try (unfold len; simpl; lia); try reflexivity; eauto. vm_compute. discriminate.
Qed.

(** Writing a message set and its index entry. *)
Lemma append_spec fs s mss p :
  seg_rep fs s mss -> len mss + 1 <= 2 ^ 20 -> SPosition s <= MaxInt32 ->
  exists s1 s2 fs1,
    Write p (fs, s) = Ret (len p) (fs1, s1) /\
    fs1 = <[logPath s := concat mss ++ p]> fs /\
    WriteIndexEntry (mkEntry (NextOffset s) (SPosition s)) (fs1, s1) = Ret tt (fs1, s2) /\
    BaseOffset s2 = BaseOffset s /\ maxBytes s2 = maxBytes s /\ seg_rep fs1 s2 (mss ++ [p]).
Proof.
  intros (Hc & Hcl & Hn & Hp & Hl & Hi & Hr & Hb & Hby) Hcap Hpos.
  destruct (WriteEntry_spec (SIndex s) _ (mkEntry (NextOffset s) (SPosition s)) Hr) as (i' & Ei & Hr' & Hb' & Hba).
  { split; cbn [Offset Index.Position]; [rewrite Hb, Hn|rewrite Hp in *];
      unfold in_int, MaxInt32, len in *; lia. }
  { unfold mapSize. rewrite Hby. unfold len in *. rewrite length_entries_from.
    change (roundDown defaultBytes entryWidth) with 10485760.
    change entryWidth with 8. lia. }
  unfold Write. rewrite Hc. unfold contents. rewrite Hl. cbn [default from_option id].
  eexists _, _, _. split; [reflexivity|]. split; [reflexivity|].
  unfold WriteIndexEntry; cbn [SIndex BaseOffset NextOffset SPosition maxBytes cleaned cursor closed].
  rewrite Ei. split; [reflexivity|]. cbn [BaseOffset maxBytes]. split; [reflexivity|]. split; [reflexivity|].
  unfold seg_rep, logPath, indexPath; cbn [BaseOffset NextOffset SPosition cleaned closed SIndex maxBytes].
  rewrite lookup_insert_eq, (lookup_insert_ne _ (mkName (BaseOffset s) KLog (cleaned s))) by congruence.
  rewrite concat_app. cbn [concat]. rewrite app_nil_r.
  split_and!; auto; try congruence.
  - rewrite Hn. len_solve.
  - rewrite Hp. len_solve.
  - rewrite entries_from_app. cbn [entries_from]. rewrite Hn, Hp in Hr'. exact Hr'.
Qed.

(** ** What findEntry returns

    The index holds [count] entries with offsets [base], [base + 1], ...; the
    wanted one has number [m].  A probe past the last entry sees the entry of
    the previous probe. *)
Section findEntry.
Context (idx : Index) (es : list Entry) (base target : Z).
Context (Hrep : rep idx es).
Context (Hoff : forall k e, es !! k = Some e -> Offset e = base + Z.of_nat k).
Context (Hbase : 0 <= base).
Abbreviation count := (len es).
Abbreviation m := (Z.max 0 (target - base)).
Context (Hm : m < count).

(** The entry [e] is number [k] of the index. *)
Definition entry_at (k : Z) (e : Entry) : Prop := 0 <= k /\ es !! Z.to_nat k = Some e.

Lemma entry_at_offset k e : entry_at k e -> Offset e = base + k /\ k < count.
Proof.
  intros [Hk He]. pose proof (lookup_lt_Some _ _ _ He). apply Hoff in He.
  unfold len. split; lia.
Qed.

Lemma probe_in e h : 0 <= h < count -> exists e', probe idx e h = Some e' /\ entry_at h e'.
Proof.
  intros Hh. destruct (lookup_lt_is_Some_2 es (Z.to_nat h)) as [e' He]; [unfold len in *; lia|].
  exists e'. split; [|split; [lia|exact He]]. unfold probe.
  pose proof (ReadEntry_spec idx es _ _ Hrep He) as R. rewrite Z2Nat.id in R by lia. rewrite R. reflexivity.
Qed.

Lemma probe_out e h : count <= h -> probe idx e h = Some e.
Proof. intros Hh. unfold probe. rewrite (ReadEntry_EOF idx es h Hrep Hh). reflexivity. Qed.

Definition inv (n i j : Z) (e : Entry) : Prop :=
  0 <= i <= j /\
  ((e = mkEntry 0 0 /\ i = 0 /\ count <= j <= n)
   \/ (i <= m /\ j < n /\ exists k, entry_at k e /\ (j < count \/ (k < m /\ base + k <> 0)))
   \/ (count <= i /\ j < n /\ exists k, entry_at k e /\ k < m /\ base + k <> 0)).

(** One round of the search keeps [inv]. *)
Lemma search_step n i j e : 2 * count <= n -> inv n i j e -> i < j ->
  let h := Z.shiftr (i + j) 1 in
  exists e', probe idx e h = Some e' /\ i <= h < j /\
    if (target <=? Offset e') || (Offset e' =? 0) then inv n i h e' else inv n (h + 1) j e'.
Proof.
  intros Hn [Hij Hinv] Hlt h.
  assert (Hh : h = (i + j) / 2) by (unfold h; rewrite Z.shiftr_div_pow2 by lia; reflexivity).
  assert (Hb : i <= h < j) by (rewrite Hh; split; [apply Z.div_le_lower_bound|apply Z.div_lt_upper_bound]; lia).
  destruct (Z.ltb_spec h count) as [Hc|Hc].
  - destruct (probe_in e h) as (e' & Ep & He'); [lia|]. exists e'. split; [exact Ep|]. split; [exact Hb|].
    destruct (entry_at_offset _ _ He') as [Eo _].
    destruct Hinv as [(-> & -> & Hj)|[(Hi & Hj & _)|(Hi & _)]]; [| |lia].
    + destruct ((target <=? Offset e') || (Offset e' =? 0)) eqn:Hf.
      * split; [lia|]. right; left. split; [lia|]. split; [lia|]. exists h. auto.
      * apply orb_false_iff in Hf as [Hf1%Z.leb_gt Hf2%Z.eqb_neq].
        split; [lia|]. right; left. split; [lia|].
        split; [|exists h; split; [exact He'|lia]].
        assert (j <> n); [|lia]. intros ->. assert (n / 2 < count) by (rewrite <- (Z.add_0_l n), <- Hh; lia).
        pose proof (Z.div_le_lower_bound n 2 count). lia.
    + destruct ((target <=? Offset e') || (Offset e' =? 0)) eqn:Hf.
      * split; [lia|]. right; left. split; [lia|]. split; [lia|]. exists h. auto.
      * apply orb_false_iff in Hf as [Hf1%Z.leb_gt Hf2%Z.eqb_neq].
        split; [lia|]. right; left. split; [lia|]. split; [lia|]. exists h. split; [exact He'|lia].
  - exists e. rewrite probe_out by lia. split; [reflexivity|]. split; [exact Hb|].
    destruct Hinv as [(-> & -> & Hj)|[(Hi & Hj & k & He & Hk)|(Hi & Hj & k & He & Hk)]].
    + cbn [Offset]. rewrite Z.eqb_refl, orb_true_r. split; [lia|]. left. split; [reflexivity|]. lia.
    + destruct (entry_at_offset _ _ He) as [Eo _]. pose proof (proj1 He).
      rewrite (proj2 (Z.leb_gt target (Offset e))), (proj2 (Z.eqb_neq (Offset e) 0)) by lia. cbn [orb].
      split; [lia|]. right; right. split; [lia|]. split; [lia|]. exists k. split; [exact He|lia].
    + destruct (entry_at_offset _ _ He) as [Eo _]. pose proof (proj1 He).
      rewrite (proj2 (Z.leb_gt target (Offset e))), (proj2 (Z.eqb_neq (Offset e) 0)) by lia. cbn [orb].
      split; [lia|]. right; right. split; [lia|]. split; [lia|]. exists k. split; [exact He|lia].
Qed.

Lemma search_spec fuel n i j e : 2 * count <= n -> inv n i j e -> j - i < 2 ^ Z.of_nat fuel ->
  exists r e', search fuel idx target i j e = Some (r, e') /\ inv n r r e'.
Proof.
  intros Hn. revert i j e. induction fuel as [|fuel IH]; intros i j e Hinv Hf.
  - cbn [search]. assert (i = j) by (destruct Hinv; change (2 ^ Z.of_nat 0) with 1 in Hf; lia). subst j.
    rewrite Z.ltb_irrefl. eauto.
  - cbn [search]. destruct (Z.ltb_spec i j) as [Hlt|Hge].
    + destruct (search_step n i j e Hn Hinv Hlt) as (e' & Ep & Hb & Hs). cbv zeta in *.
      rewrite Ep. cbn [mbind option_bind].
      assert (Hh : Z.shiftr (i + j) 1 = (i + j) / 2) by (rewrite Z.shiftr_div_pow2 by lia; reflexivity).
      rewrite Nat2Z.inj_succ, Z.pow_succ_r in Hf by lia.
      destruct ((target <=? Offset e') || (Offset e' =? 0)); apply IH; try exact Hs; rewrite Hh in *.
      * pose proof (Z.mul_div_le (i + j) 2 ltac:(lia)). lia.
      * pose proof (Z.mul_succ_div_gt (i + j) 2 ltac:(lia)). lia.
    + assert (i = j) by (destruct Hinv; lia). subst j. eauto.
Qed.
End findEntry.

(** The entry found is at or before the one asked for: reading from its
    position meets the message set with the wanted offset. *)
Lemma findEntry_spec fs s mss target :
  seg_rep fs s mss -> 0 <= BaseOffset s -> target < NextOffset s -> mss <> [] ->
  len mss <= 655360 ->
  exists k, (k < length mss)%nat /\ Z.of_nat k <= Z.max 0 (target - BaseOffset s) /\
    findEntry s target =
      Some (inr (mkEntry (BaseOffset s + Z.of_nat k) (len (concat (take k mss))))).
Proof.
  intros (Hc & Hcl & Hn & Hp & Hl & Hi & Hr & Hb & Hby) H0 Ht Hne Hcap.
  set (es := entries_from (BaseOffset s) 0 mss) in *.
  assert (Hlen : len es = len mss) by (unfold len, es; rewrite length_entries_from; reflexivity).
  assert (Hpos : 0 < len mss) by (destruct mss; [congruence|unfold len; simpl; lia]).
  assert (Hoff : forall k e, es !! k = Some e -> Offset e = BaseOffset s + Z.of_nat k)
    by (intros k e He; apply lookup_entries_from in He as [-> _]; reflexivity).
  assert (Hm : Z.max 0 (target - BaseOffset s) < len es) by lia.
  unfold findEntry. rewrite Hby. change (Z.quot defaultBytes entryWidth) with 1310720.
  destruct (search_spec (SIndex s) es (BaseOffset s) target Hr Hoff H0 Hm
    (S (Z.to_nat (Z.log2 1310720))) 1310720 0 1310720 (mkEntry 0 0)) as (r & e & Es & Hinv).
  { lia. }
  { split; [lia|]. left. split; [reflexivity|]. lia. }
  { reflexivity. }
  rewrite Es. cbn [mbind option_bind]. destruct Hinv as [Hr0 Hinv].
  assert (Hfin : exists k, probe (SIndex s) e r = Some k /\ r <> 1310720 /\
    exists k', entry_at es k' k /\ k' <= Z.max 0 (target - BaseOffset s)).
  { destruct Hinv as [(_ & -> & Hj)|[(Hrm & Hrn & _)|(Hrc & Hrn & k & He & Hk & _)]]; [lia| |].
    - destruct (probe_in (SIndex s) es _ _ Hr Hm e r) as (e' & Ep & He'); [lia|]. exists e'. split; [exact Ep|].
      split; [lia|]. exists r. split; [exact He'|lia].
    - exists e. rewrite (probe_out (SIndex s) es Hr) by lia. split; [reflexivity|]. split; [lia|].
      exists k. split; [exact He|lia]. }
  destruct Hfin as (e' & Ep & Hrn & k & [Hk0 Hk] & Hkm).
  rewrite (proj2 (Z.eqb_neq _ _)), Ep by exact Hrn. cbn [mbind option_bind].
  apply lookup_entries_from in Hk as [-> Hk]. exists (Z.to_nat k).
  split; [exact Hk|]. split; [lia|]. rewrite Z.add_0_l. reflexivity.
Qed.

(** The entry found can be an earlier one: four entries from offset 0, of which
    the last is wanted. *)
Definition four : Index := mkIndex defaultBytes 0
  (entries_bytes 0 (entries_from 0 0 [zeros 20; zeros 20; zeros 20; zeros 20])) 32.
Example findEntry_stale :
  findEntry (mkSegment 0 4 80 1024 false four 80 false) 3 = Some (inr (mkEntry 2 40)).
Proof. vm_compute. reflexivity. Qed.
