(* ===== verification/CommitLog.v ===== *)
(** * The commit log

    [commitlog.go], [delete_cleaner.go], [compact_cleaner.go], [reader.go] and
    [util.go] of [src/commitlog].  Segments are shared by pointer (the active
    segment, the list of segments, a reader), so they live in a heap and are
    referred to by number. *)
From stdpp Require Import sorting.
From S2P Require Import Prelude Encoder LogMessage Index Segment.
#[local] Open Scope Z_scope.

Record CommitLog := mkLog {
  MaxSegmentBytes : Z; MaxLogBytes : Z; compact : bool;
  fs : FS; heap : list Segment; segments : list nat; active : nat;
  keyOffsetsMap : gmap Z Z (* [CompactCleaner.m] *) }.

(** ** Access to the parts of the state *)
Definition set_fs (d : FS) (l : CommitLog) : CommitLog :=
  mkLog (MaxSegmentBytes l) (MaxLogBytes l) (compact l) d (heap l) (segments l) (active l) (keyOffsetsMap l).
Definition set_heap (h : list Segment) (l : CommitLog) : CommitLog :=
  mkLog (MaxSegmentBytes l) (MaxLogBytes l) (compact l) (fs l) h (segments l) (active l) (keyOffsetsMap l).
Definition set_segments (ids : list nat) (l : CommitLog) : CommitLog :=
  mkLog (MaxSegmentBytes l) (MaxLogBytes l) (compact l) (fs l) (heap l) ids (active l) (keyOffsetsMap l).
Definition set_active (id : nat) (l : CommitLog) : CommitLog :=
  mkLog (MaxSegmentBytes l) (MaxLogBytes l) (compact l) (fs l) (heap l) (segments l) id (keyOffsetsMap l).
Definition set_keys (m : gmap Z Z) (l : CommitLog) : CommitLog :=
  mkLog (MaxSegmentBytes l) (MaxLogBytes l) (compact l) (fs l) (heap l) (segments l) (active l) m.

(** The segment a pointer refers to. *)
Definition seg (id : nat) : M CommitLog Segment := fun l =>
  match heap l !! id with Some s => Ret s l | None => Crash end.

(** A method of a segment, called through a pointer. *)
Definition on_segment {A} (id : nat) (m : M (FS * Segment) A) : M CommitLog A := fun l =>
  match heap l !! id with
  | None => Crash
  | Some s =>
      match m (fs l, s) with
      | Ret a (d, s) => Ret a (set_heap (<[id := s]> (heap l)) (set_fs d l))
      | Fail e (d, s) => Fail e (set_heap (<[id := s]> (heap l)) (set_fs d l))
      | Crash => Crash
      end
  end.

(** [NewSegment(l.Path, base, max, suffix)]: a new pointer. *)
Definition new_segment (base max : Z) (cln : bool) : M CommitLog nat := fun l =>
  match NewSegment base max cln (fs l) with
  | Ret s d => Ret (length (heap l)) (set_heap (heap l ++ [s]) (set_fs d l))
  | Fail e d => Fail e (set_fs d l)
  | Crash => Crash
  end.

(** ** Reads of the state *)
Definition activeSegment : M CommitLog Segment := id ← gets active; seg id.
Definition NewestOffset : M CommitLog Z := s ← activeSegment; mret (NextOffset s).
Definition OldestOffset : M CommitLog Z :=
  ids ← gets segments;
  match ids with [] => crash | id :: _ => s ← seg id; mret (BaseOffset s) end.
Definition checkSplit : M CommitLog bool := s ← activeSegment; mret (IsFull s).

(** [CommitLog.Read]: a sequential read of the active segment's file. *)
Definition LogRead (n : nat) : M CommitLog (list byte) :=
  id ← gets active; on_segment id (SRead n).

(** ** DeleteCleaner *)

(** The first loop: walk from the second-last segment backwards while the total
    stays within the retention; the kept suffix and the rest, newest first. *)
Fixpoint keepLoop (rev_ids : list nat) (total retention : Z) (kept : list nat)
  : M CommitLog (list nat * list nat) :=
  match rev_ids with
  | [] => mret (kept, [])
  | id :: rest =>
      s ← seg id;
      let total := total + SPosition s in
      if retention <? total then mret (kept, id :: rest)
      else keepLoop rest total retention (id :: kept)
  end.

Definition DeleteClean (retention : Z) (ids : list nat) : M CommitLog (list nat) :=
  match reverse ids with
  | [] => mret ids
  | last :: rest =>
      if retention =? -1 then mret ids else
      s ← seg last;
      kd ← keepLoop rest (SPosition s) retention [last];
      for_each (snd kd) (fun id => on_segment id Delete) ;;
      mret (fst kd)
  end.

(** ** CompactCleaner *)
Section compact.
(** [Hash]: the 64-bit xxhash of a key, a library function. *)
Context (Hash : list byte -> Z).

(** The messages of the sets a scanner yields from entry [offset] on; the scan
    ends with any error.  Fuel: one step for each entry of the index. *)
Fixpoint scanAll (fuel : nat) (d : FS) (s : Segment) (offset : Z) : option (list (list byte)) :=
  match fuel with
  | O => Some []
  | S fuel =>
      r ← SegScan d s offset;
      match r with
      | inl _ => Some []
      | inr (ms, offset) => mss ← scanAll fuel d s offset; Some (ms :: mss)
      end
  end.
Definition scanSegment (d : FS) (s : Segment) : option (list (list byte)) :=
  scanAll (S (Z.to_nat (Z.quot (position (SIndex s)) entryWidth))) d s 0.

Definition scan (id : nat) : M CommitLog (list (list byte)) :=
  s ← seg id; d ← gets fs;
  match scanSegment d s with Some mss => mret mss | None => crash end.

(** A nil key hashes like an empty one. *)
Definition keyHash (msg : list byte) : option Z :=
  k ← LogMessage.Key msg; Some (Hash (default [] k)).

Definition opt {A} (o : option A) : M CommitLog A :=
  match o with Some a => mret a | None => crash end.

(** [c.m[Hash(msg.Key())] = offset] for the messages of a set. *)
Definition noteKeys (ms : list byte) : M CommitLog unit :=
  offset ← opt (LogMessageSet.Offset ms);
  msgs ← opt (LogMessageSet.Messages ms);
  for_each msgs (fun msg =>
    h ← opt (keyHash msg);
    m ← gets keyOffsetsMap;
    modify (set_keys (<[h := offset]> m))).

(** Whether a message of the set is the latest for its key. *)
Definition retained (ms : list byte) : M CommitLog bool :=
  offset ← opt (LogMessageSet.Offset ms);
  msgs ← opt (LogMessageSet.Messages ms);
  hs ← opt (mapM keyHash msgs);
  m ← gets keyOffsetsMap;
  mret (existsb (fun h => default 0 (m !! h) <=? offset) hs).

(** [os.Rename] *)
Definition rename (a b : fname) (d : FS) : option FS :=
  match d !! a with Some c => Some (<[b := c]> (delete a d)) | None => None end.

(** [cs.Replace(old)] for a cleaned segment: close both, take over the names,
    reopen and rebuild the index. *)
Definition Replace (cs old : nat) : M CommitLog unit :=
  on_segment old SClose ;;
  on_segment cs SClose ;;
  o ← seg old; c ← seg cs; d ← gets fs;
  match rename (logPath c) (logPath o) d with
  | None => throw ErrNotExist
  | Some d =>
      modify (set_fs d) ;;
      match rename (indexPath c) (indexPath o) d with
      | None => throw ErrNotExist
      | Some d =>
          modify (set_fs d) ;;
          id ← new_segment (BaseOffset c) (maxBytes c) false;
          s ← seg id; h ← gets heap;
          modify (set_heap (<[cs := s]> (take id h)))
      end
  end.

Fixpoint compactLoop (ids : list nat) : M CommitLog (list nat) :=
  match ids with
  | [] => mret []
  | ds :: ids =>
      s ← seg ds;
      cs ← new_segment (BaseOffset s) (maxBytes s) true;
      mss ← scan ds;
      for_each mss (fun ms =>
        r ← retained ms;
        when r (on_segment cs (Write ms) ;; mret tt)) ;;
      Replace cs ds ;;
      rest ← compactLoop ids;
      mret (cs :: rest)
  end.

Definition CompactClean (ids : list nat) : M CommitLog (list nat) :=
  for_each ids (fun id => mss ← scan id; for_each mss noteKeys) ;;
  compactLoop ids.

(** ** Append *)
Definition Clean (ids : list nat) : M CommitLog (list nat) := fun l =>
  if compact l then CompactClean ids l else DeleteClean (MaxLogBytes l) ids l.

Definition split : M CommitLog unit :=
  newest ← NewestOffset;
  max ← gets MaxSegmentBytes;
  id ← new_segment newest max false;
  ids ← gets segments;
  ids ← Clean (ids ++ [id]);
  modify (set_segments ids) ;;
  modify (set_active id).

Definition Append (b : list byte) : M CommitLog Z :=
  full ← checkSplit;
  when full split ;;
  s ← activeSegment;
  let position := SPosition s in
  let offset := NextOffset s in
  ms ← opt (LogMessageSet.PutOffset b offset);
  id ← gets active;
  on_segment id (Write ms) ;;
  on_segment id (WriteIndexEntry (mkEntry offset position)) ;;
  mret offset.

(** ** Truncate, Close, Delete *)
Fixpoint truncateLoop (offset : Z) (ids : list nat) : M CommitLog (list nat) :=
  match ids with
  | [] => mret []
  | id :: ids =>
      s ← seg id;
      if BaseOffset s <? offset
      then on_segment id Delete ;; truncateLoop offset ids
      else rest ← truncateLoop offset ids; mret (id :: rest)
  end.

Definition Truncate (offset : Z) : M CommitLog unit :=
  ids ← gets segments;
  kept ← truncateLoop offset ids;
  modify (set_segments kept).

Definition Close : M CommitLog unit :=
  ids ← gets segments; for_each ids (fun id => on_segment id SClose).

(** [os.RemoveAll(l.Path)] *)
Definition LogDelete : M CommitLog unit := Close ;; modify (set_fs ∅).
End compact.

(** ** Opening *)

(** The order in which [ioutil.ReadDir] lists the names: base offsets are
    printed with twenty digits, then come [.index], [.index.cleaned], [.log],
    [.log.cleaned]. *)
Definition kind_num (f : fname) : Z :=
  match fkind f, fcleaned f with
  | KIndex, false => 0 | KIndex, true => 1 | KLog, false => 2 | KLog, true => 3
  end.
Definition name_le (a b : fname) : Prop := fbase a * 4 + kind_num a <= fbase b * 4 + kind_num b.
#[global] Instance name_le_dec a b : Decision (name_le a b). Proof. unfold name_le; apply _. Defined.
Definition ReadDir (d : FS) : list fname := merge_sort name_le (fst <$> map_to_list d).

(** An index file without its log is removed by its name relative to the
    working directory, where it is not: an error. *)
Definition openFile (f : fname) : M CommitLog unit := fun l =>
  if fcleaned f then Ret tt l else
  match fkind f with
  | KIndex =>
      match fs l !! mkName (fbase f) KLog false with
      | Some _ => Ret tt l
      | None => Fail ErrNotExist l
      end
  | KLog =>
      (id ← new_segment (fbase f) (MaxSegmentBytes l) false;
       ids ← gets segments; modify (set_segments (ids ++ [id]))) l
  end.

Definition open : M CommitLog unit :=
  d ← gets fs;
  for_each (ReadDir d) openFile ;;
  ids ← gets segments;
  match list.last ids with
  | Some id => modify (set_active id)
  | None =>
      max ← gets MaxSegmentBytes;
      id ← new_segment 0 max false;
      modify (set_segments [id]) ;; modify (set_active id)
  end.

(** [New] on a directory with the files [d]; [policy] is the cleanup policy,
    [""] meaning ["delete"]. *)
Definition New (d : FS) (maxSegment maxLog : Z) (policy : string) : outcome CommitLog unit :=
  let c := negb (bool_decide (policy = "") || bool_decide (policy = "delete")) in
  open (mkLog maxSegment maxLog c d [] [] 0 ∅).

(** ** Readers *)

(** [sort.Search] with a pure predicate. *)
Fixpoint sortSearch (fuel : nat) (f : Z -> bool) (i j : Z) : Z :=
  match fuel with
  | O => i
  | S fuel =>
      if i <? j then
        let h := Z.shiftr (i + j) 1 in
        if f h then sortSearch fuel f i h else sortSearch fuel f (h + 1) j
      else i
  end.

Definition findSegment (segs : list Segment) (offset : Z) : option Segment * nat :=
  let n := len segs in
  let idx := sortSearch (length segs) (fun i =>
    match segs !! Z.to_nat i with Some s => offset <? NextOffset s | None => true end) 0 n in
  (segs !! Z.to_nat idx, Z.to_nat idx).

Record Reader := mkReader { ridx : nat; rpos : Z }.

Definition Segments (l : CommitLog) : option (list Segment) := mapM (fun id => heap l !! id) (segments l).

(** [None] is a panic. *)
Definition NewReader (l : CommitLog) (offset : Z) : option (error + Reader) :=
  segs ← Segments l;
  let '(s, idx) := if offset =? 0 then (segs !! 0%nat, 0%nat) else findSegment segs offset in
  match s with
  | None => if offset =? 0 then None else Some (inl (ErrOther "segment not found"))
  | Some s =>
      r ← findEntry s offset;
      match r with
      | inl e => Some (inl e)
      | inr e => Some (inr (mkReader idx (Index.Position e)))
      end
  end.

(** The loop of [Reader.Read] from segment number [idx] on, [want] bytes being
    left to fill: a segment is read to its end before the next is opened. *)
Fixpoint readLoop (d : FS) (segs : list Segment) (idx : nat) (pos : Z) (want : nat)
  : list byte * option error * Reader :=
  match segs with
  | [] => ([], Some EOF, mkReader idx pos) (* not reached: [segs] is not empty *)
  | s :: rest =>
      let '(b, err) := SReadAt d s want pos in
      let pos := pos + len b in
      match err with
      | None => (b, None, mkReader idx pos)
      | Some EOF =>
          match rest with
          | [] => (b, Some EOF, mkReader idx pos)
          | _ =>
              let '(b', err, r) := readLoop d rest (S idx) 0 (want - length b) in
              (b ++ b', err, r)
          end
      | Some e => (b, Some e, mkReader idx pos)
      end
  end.

(** [Reader.Read(p)] with [len(p) = n]: the bytes read, the error, and the
    reader after it.  [None] is an index panic. *)
Definition ReaderRead (l : CommitLog) (r : Reader) (n : nat)
  : option (list byte * option error * Reader) :=
  segs ← Segments l;
  match drop (ridx r) segs with
  | [] => None
  | segs => Some (readLoop (fs l) segs (ridx r) (rpos r) n)
  end.

(** ** The invariant

    [seg_ok l id b ms]: pointer [id] refers to an open segment that starts at
    offset [b] and holds the message sets [ms].  [sealed l b ids mss]: the
    non-empty segments [ids], one after the other, from offset [b] on. *)
Definition seg_ok (l : CommitLog) (id : nat) (b : Z) (ms : list (list byte)) : Prop :=
  exists s, heap l !! id = Some s /\ BaseOffset s = b /\ maxBytes s = MaxSegmentBytes l /\
    seg_rep (fs l) s ms /\ Forall (fun m => 8 <= length m)%nat ms /\
    8 * (len ms - 1) < MaxSegmentBytes l.

Fixpoint sealed (l : CommitLog) (b : Z) (ids : list nat) (mss : list (list (list byte))) : Prop :=
  match ids, mss with
  | [], [] => True
  | id :: ids, ms :: mss => ms <> [] /\ seg_ok l id b ms /\ sealed l (b + len ms) ids mss
  | _, _ => False
  end.

(** [holds l b0 msgs]: the log is in a good state, its oldest offset is [b0] and
    [msgs] are its message sets, the one at offset [b0 + i] being number [i]
    and carrying that offset. *)
Definition holds (l : CommitLog) (b0 : Z) (msgs : list (list byte)) : Prop :=
  exists ids mss ms,
    segments l = ids ++ [active l] /\ NoDup (ids ++ [active l]) /\ 0 <= b0 /\
    sealed l b0 ids mss /\ seg_ok l (active l) (b0 + len (concat mss)) ms /\
    (forall f, is_Some (fs l !! f) -> fcleaned f = false /\ fbase f <= b0 + len (concat mss)) /\
    msgs = concat mss ++ ms /\
    (forall i m, msgs !! i = Some m -> LogMessageSet.Offset m = Some (b0 + Z.of_nat i)).

Lemma seg_ok_frame l l' id b ms :
  heap l' !! id = heap l !! id -> MaxSegmentBytes l' = MaxSegmentBytes l ->
  (forall k, fs l' !! mkName b k false = fs l !! mkName b k false) ->
  seg_ok l id b ms -> seg_ok l' id b ms.
Proof.
  intros Hh Hm Hf (s & Hs & Hb & Hmx & (Hc & Hcl & Hn & Hp & Hl & Hi & Hr) & H8 & Hcap).
  exists s. rewrite Hh, Hm. split_and!; auto. unfold seg_rep, logPath, indexPath in *.
  rewrite Hcl, Hb in *. rewrite !Hf. destruct Hr as (Hr1 & Hr2 & Hr3). split_and!; auto.
Qed.

Lemma sealed_frame l l' b ids mss :
  (forall id, id ∈ ids -> heap l' !! id = heap l !! id) -> MaxSegmentBytes l' = MaxSegmentBytes l ->
  (forall f, b <= fbase f < b + len (concat mss) -> fcleaned f = false -> fs l' !! f = fs l !! f) ->
  sealed l b ids mss -> sealed l' b ids mss.
Proof.
  revert b mss. induction ids as [|id ids IH]; intros b [|ms mss] Hh Hm Hf; cbn [sealed]; auto.
  intros (Hne & Hok & Hs).
  assert (Hpos : 0 < len ms) by (destruct ms; [congruence|unfold len; simpl; lia]).
  split; [exact Hne|]. split.
  - eapply seg_ok_frame; [apply Hh; left|exact Hm| |exact Hok].
    intros k. apply Hf; [cbn [fbase concat]; len_solve|reflexivity].
  - apply IH; [intros; apply Hh; right; assumption|exact Hm| |exact Hs].
    intros f Hb. apply Hf. cbn [concat]. revert Hb. unfold len in *. rewrite length_app. lia.
Qed.

Lemma sealed_app l b ids1 ids2 mss1 mss2 : length ids1 = length mss1 ->
  sealed l b (ids1 ++ ids2) (mss1 ++ mss2) <->
  sealed l b ids1 mss1 /\ sealed l (b + len (concat mss1)) ids2 mss2.
Proof.
  revert b mss1. induction ids1 as [|id ids1 IH]; intros b [|ms mss1] Hl; try discriminate.
  - cbn [app sealed concat]. rewrite Z.add_0_r. tauto.
  - cbn [app sealed concat]. rewrite IH by (simpl in Hl; lia).
    replace (b + len ms + len (concat mss1)) with (b + len (ms ++ concat mss1)) by len_solve. tauto.
Qed.

Lemma sealed_length l b ids mss : sealed l b ids mss -> length ids = length mss.
Proof.
  revert b mss. induction ids as [|id ids IH]; intros b [|ms mss]; cbn [sealed]; try tauto; try reflexivity.
  intros (_ & _ & H). cbn [length]. f_equal. eapply IH, H.
Qed.

(** ** Steps of Append *)
Lemma bind_seg {A} id s (k : Segment -> M CommitLog A) l :
  heap l !! id = Some s -> (seg id ≫= k) l = k s l.
Proof. intros H. unfold seg, mbind, M_bind. rewrite H. reflexivity. Qed.

Lemma bind_active {A} s (k : Segment -> M CommitLog A) l :
  heap l !! active l = Some s -> (activeSegment ≫= k) l = k s l.
Proof.
  intros H. unfold activeSegment. rewrite bind_assoc. erewrite bind_Ret by reflexivity.
  apply bind_seg, H.
Qed.

Lemma on_segment_Ret {A} id (m : M (FS * Segment) A) l s a d s' :
  heap l !! id = Some s -> m (fs l, s) = Ret a (d, s') ->
  on_segment id m l = Ret a (set_heap (<[id := s']> (heap l)) (set_fs d l)).
Proof. intros Hs Hm. unfold on_segment. rewrite Hs, Hm. reflexivity. Qed.

(** The second half of [Append], on an active segment that is not full. *)
Definition appendActive (b : list byte) : M CommitLog Z :=
  s ← activeSegment;
  ms ← opt (LogMessageSet.PutOffset b (NextOffset s));
  id ← gets active;
  on_segment id (Write ms) ;;
  on_segment id (WriteIndexEntry (mkEntry (NextOffset s) (SPosition s))) ;;
  mret (NextOffset s).

Lemma concat_8 (ms : list (list byte)) : Forall (fun m => 8 <= length m)%nat ms ->
  8 * len ms <= len (concat ms).
Proof.
  induction 1 as [|m ms Hm _ IH]; [unfold len; simpl; lia|].
  cbn [concat]. unfold len in *. rewrite length_app. simpl length. lia.
Qed.

Lemma lookup_snoc_cases {A} (l : list A) x i y :
  (l ++ [x]) !! i = Some y -> l !! i = Some y \/ (i = length l /\ y = x).
Proof.
  intros H. apply lookup_app_Some in H as [H|[Hi H]]; [left; exact H|right].
  destruct (i - length l)%nat eqn:E; [|discriminate H]. injection H as <-. split; [lia|reflexivity].
Qed.

Lemma appendActive_spec l b0 msgs b :
  holds l b0 msgs -> MaxSegmentBytes l <= 2 ^ 22 -> (8 <= length b)%nat ->
  in_int 64 (b0 + len msgs) ->
  (forall s, heap l !! active l = Some s -> SPosition s < MaxSegmentBytes l) ->
  exists l' m, appendActive b l = Ret (b0 + len msgs) l' /\
    LogMessageSet.PutOffset b (b0 + len msgs) = Some m /\ holds l' b0 (msgs ++ [m]) /\
    MaxSegmentBytes l' = MaxSegmentBytes l /\ MaxLogBytes l' = MaxLogBytes l /\
    compact l' = compact l.
Proof.
  intros (ids & mss & ms & Hids & Hnd & H0 & Hse & Hok & Hfs & Emsgs & Hoff) Hmax Hb H64 Hnf.
  destruct Hok as (s & Hs & Hbs & Hmx & Hrep & H8 & Hcap). specialize (Hnf s Hs).
  pose proof Hrep as (Hc & Hcl & Hn & Hp & Hl & Hi & _).
  pose proof (concat_8 _ H8) as Hc8.
  assert (Eo : NextOffset s = b0 + len msgs) by (rewrite Hn, Hbs, Emsgs; len_solve).
  unfold appendActive. rewrite (bind_active s) by exact Hs. rewrite Eo.
  destruct (LogMessageSet.PutOffset b (b0 + len msgs)) as [m|] eqn:Em;
    [|unfold LogMessageSet.PutOffset in Em; case_decide; [discriminate|lia]].
  pose proof (PutOffset_length _ _ _ Em) as Hlm.
  destruct (append_spec (fs l) s ms m Hrep) as (s1 & s2 & fs1 & Hw & Ef & Hwi & Hb2 & Hm2 & Hrep2);
    [lia|unfold MaxInt32; lia|]. rewrite Eo in Hwi.
  erewrite bind_Ret by reflexivity. erewrite bind_Ret by reflexivity.
  erewrite bind_Ret by (apply (on_segment_Ret _ _ _ s); [exact Hs|exact Hw]).
  erewrite bind_Ret by (apply (on_segment_Ret _ _ _ s1);
    [cbn; apply list_lookup_insert_eq; apply lookup_lt_Some in Hs; exact Hs|exact Hwi]).
  eexists _, m. split; [reflexivity|]. split; [reflexivity|]. split; [|cbn; auto].
  set (l' := set_heap _ _).
  assert (Hother : forall id, id ∈ ids -> heap l' !! id = heap l !! id).
  { intros id Hid. cbn. apply list.NoDup_app in Hnd as (_ & Hnd & _). specialize (Hnd id Hid).
    rewrite !list_lookup_insert_ne; [reflexivity| |]; intros E; apply Hnd; rewrite <- E; left. }
  assert (Hlog : logPath s = mkName (b0 + len (concat mss)) KLog false)
    by (unfold logPath; rewrite Hbs, Hcl; reflexivity).
  exists ids, mss, (ms ++ [m]). split_and!; cbn [segments active].
  - exact Hids.
  - exact Hnd.
  - exact H0.
  - eapply sealed_frame; [exact Hother|reflexivity| |exact Hse].
    intros f Hfb _. cbn. rewrite Ef, Hlog. apply lookup_insert_ne. intros <-. cbn [fbase] in Hfb. lia.
  - exists s2. split_and!.
    + cbn. apply list_lookup_insert_eq. rewrite length_insert. apply lookup_lt_Some in Hs. exact Hs.
    + rewrite Hb2. exact Hbs.
    + rewrite Hm2. exact Hmx.
    + exact Hrep2.
    + apply Forall_app_2; [exact H8|]. constructor; [lia|constructor].
    + cbn. replace (len (ms ++ [m]) - 1) with (len ms) by len_solve. lia.
  - intros f Hf. cbn in Hf. rewrite Ef in Hf.
    destruct (decide (f = logPath s)) as [->|Hne]; [rewrite Hlog; cbn; split; [reflexivity|lia]|].
    rewrite lookup_insert_ne in Hf by congruence. apply Hfs, Hf.
  - rewrite Emsgs, <- app_assoc. reflexivity.
  - intros i x Hx. apply lookup_snoc_cases in Hx as [Hx|[-> ->]]; [apply Hoff, Hx|].
    apply (Offset_PutOffset _ _ _ H64 Em).
Qed.

(** ** Cleaning by deletion *)

(** What a step of the cleaner leaves alone. *)
Definition same_log (l l' : CommitLog) : Prop :=
  MaxSegmentBytes l' = MaxSegmentBytes l /\ MaxLogBytes l' = MaxLogBytes l /\ compact l' = compact l /\
  segments l' = segments l /\ active l' = active l /\ length (heap l') = length (heap l) /\
  (forall f, is_Some (fs l' !! f) -> is_Some (fs l !! f)).

Lemma same_log_refl l : same_log l l.
Proof. unfold same_log; auto 10. Qed.

Lemma same_log_trans l1 l2 l3 : same_log l1 l2 -> same_log l2 l3 -> same_log l1 l3.
Proof.
  unfold same_log. intros (? & ? & ? & ? & ? & ? & Hf1) (? & ? & ? & ? & ? & ? & Hf2).
  split_and!; try congruence. intros f Hf. apply Hf1, Hf2, Hf.
Qed.

(** Deleting one segment touches its pointer and its two files only. *)
Lemma delete_one l x b ms : seg_ok l x b ms ->
  exists l', on_segment x Delete l = Ret tt l' /\ same_log l l' /\
    (forall y, y <> x -> heap l' !! y = heap l !! y) /\
    (forall f, fbase f <> b -> fs l' !! f = fs l !! f).
Proof.
  intros (s & Hs & Hb & _ & (Hc & Hcl & _ & _ & Hl & [c Hi] & _) & _).
  assert (Hne : indexPath s <> logPath s) by (unfold indexPath, logPath; congruence).
  unfold on_segment, Delete, SClose. rewrite Hs, Hc. unfold remove.
  change (logPath (mkSegment _ _ _ _ _ _ _ _)) with (logPath s).
  change (indexPath (mkSegment _ _ _ _ _ _ _ _)) with (indexPath s).
  rewrite (lookup_insert_ne _ (indexPath s) (logPath s)) by congruence. rewrite Hl.
  rewrite (lookup_delete_ne _ (logPath s) (indexPath s)) by congruence. rewrite lookup_insert_eq.
  eexists. split; [reflexivity|]. split_and!; cbn; auto.
  - unfold same_log; cbn. split_and!; auto; [apply length_insert|].
    intros f Hf. rewrite !lookup_delete_is_Some in Hf. destruct Hf as (H1 & H2 & H3).
    rewrite lookup_insert_ne in H3 by congruence. exact H3.
  - intros y Hy. apply list_lookup_insert_ne. congruence.
  - intros f Hf. rewrite !lookup_delete_ne, lookup_insert_ne; [reflexivity| | |];
      intros <-; apply Hf; unfold indexPath, logPath; cbn [fbase]; exact Hb.
Qed.

Lemma sealed_snoc_inv l b ids x mss : sealed l b (ids ++ [x]) mss ->
  exists mss0 ms, mss = mss0 ++ [ms] /\ ms <> [] /\ sealed l b ids mss0 /\
    seg_ok l x (b + len (concat mss0)) ms.
Proof.
  intros H. pose proof (sealed_length _ _ _ _ H) as Hl. rewrite length_app in Hl.
  destruct mss as [|ms mss _] using rev_ind; [simpl in Hl; lia|].
  rewrite length_app in Hl. apply sealed_app in H; [|simpl in Hl; lia].
  destruct H as [H1 (Hne & H2 & _)]. exists mss, ms. auto.
Qed.

(** Deleting the segments [d] leaves the later ones as they were. *)
Lemma delete_all d : forall l b md b2 k mk id ms,
  sealed l b d md -> sealed l b2 k mk -> seg_ok l id (b2 + len (concat mk)) ms ->
  b + len (concat md) <= b2 -> NoDup (d ++ k ++ [id]) ->
  exists l', for_each (reverse d) (fun x => on_segment x Delete) l = Ret tt l' /\ same_log l l' /\
    sealed l' b2 k mk /\ seg_ok l' id (b2 + len (concat mk)) ms.
Proof.
  induction d as [|x d IH] using rev_ind; intros l b md b2 k mk id ms Hd Hk Hid Hb Hnd.
  - exists l. split; [reflexivity|]. split; [apply same_log_refl|]. auto.
  - rewrite reverse_snoc. cbn [for_each].
    destruct (sealed_snoc_inv _ _ _ _ _ Hd) as (md0 & mx & -> & Hne & Hd0 & Hx).
    destruct (delete_one _ _ _ _ Hx) as (l1 & E1 & Hsame & Hh & Hf).
    erewrite bind_Ret by exact E1.
    assert (Hmx : 0 < len mx) by (destruct mx; [congruence|unfold len; simpl; lia]).
    rewrite concat_app in Hb. cbn [concat] in Hb. rewrite app_nil_r in Hb.
    assert (Hb' : b + len (concat md0) + len mx <= b2) by (revert Hb; unfold len; rewrite length_app; lia).
    rewrite <- app_assoc in Hnd. apply list.NoDup_app in Hnd as (Hnd1 & Hdis & Hnd2).
    pose proof Hnd2 as Hnd2'. apply list.NoDup_cons in Hnd2 as [Hxk Hnd3].
    destruct Hsame as (Hs1 & Hs2 & Hs3 & Hs4 & Hs5 & Hs6 & Hs7).
    assert (Hpos : 0 <= len (concat mk)) by (unfold len; lia).
    destruct (IH l1 b md0 b2 k mk id ms) as (l' & E & Hsame' & Hk' & Hid').
    + eapply sealed_frame; [|exact Hs1| |exact Hd0].
      * intros y Hy. apply Hh. intros ->. apply (Hdis x Hy). left.
      * intros f Hfb _. apply Hf. lia.
    + eapply sealed_frame; [|exact Hs1| |exact Hk].
      * intros y Hy. apply Hh. intros ->. apply Hxk, elem_of_app. left. exact Hy.
      * intros f Hfb _. apply Hf. lia.
    + eapply seg_ok_frame; [|exact Hs1| |exact Hid].
      * apply Hh. intros ->. apply Hxk, elem_of_app. right. left.
      * intros kk. apply Hf. cbn [fbase]. lia.
    + lia.
    + apply list.NoDup_app. split; [exact Hnd1|]. split; [|exact Hnd3].
      intros y Hy Hin. apply (Hdis y Hy). right. exact Hin.
    + exists l'. split; [exact E|]. split; [|auto].
      eapply same_log_trans; [|exact Hsame']. unfold same_log; auto 10.
Qed.

(** What a successful [Delete] does to the heap and the directory. *)
Lemma on_segment_Delete x l l' : on_segment x Delete l = Ret tt l' ->
  exists s s', heap l !! x = Some s /\ heap l' = <[x := s']> (heap l) /\
    logPath s' = logPath s /\ indexPath s' = indexPath s /\
    fs l' !! logPath s = None /\ fs l' !! indexPath s = None /\
    (forall f, f <> logPath s -> f <> indexPath s -> fs l' !! f = fs l !! f).
Proof.
  unfold on_segment, Delete, SClose, remove. intros H.
  destruct (heap l !! x) as [s|] eqn:Hs; [|discriminate]. destruct (closed s); [discriminate|].
  change (logPath (mkSegment _ _ _ _ _ _ _ _)) with (logPath s) in H.
  change (indexPath (mkSegment _ _ _ _ _ _ _ _)) with (indexPath s) in H.
  destruct (_ !! logPath s); [|discriminate]. destruct (delete (logPath s) _ !! indexPath s); [|discriminate].
  injection H as <-. do 2 eexists. split; [reflexivity|]. cbn [heap fs set_heap set_fs].
  split; [reflexivity|]. split; [reflexivity|]. split; [reflexivity|]. split_and!.
  - rewrite lookup_delete_ne, lookup_delete_eq by (unfold indexPath, logPath; congruence). reflexivity.
  - apply lookup_delete_eq.
  - intros f H1 H2. rewrite !lookup_delete_ne, lookup_insert_ne by congruence. reflexivity.
Qed.

(** After the segments [d] are deleted, their files are gone and every other
    file is as it was. *)
Lemma delete_files d : forall l l',
  for_each d (fun x => on_segment x Delete) l = Ret tt l' ->
  (forall f, fs l !! f = None -> fs l' !! f = None) /\
  (forall x s, x ∈ d -> heap l !! x = Some s -> fs l' !! logPath s = None /\ fs l' !! indexPath s = None) /\
  (forall f, (forall x s, x ∈ d -> heap l !! x = Some s -> f <> logPath s /\ f <> indexPath s) ->
    fs l' !! f = fs l !! f).
Proof.
  induction d as [|x d IH]; intros l l' H.
  { injection H as <-. split_and!; [auto|intros ? ? Hx; inversion Hx|auto]. }
  cbn [for_each] in H. apply bind_inv in H as ([] & l1 & E1 & E2).
  destruct (on_segment_Delete _ _ _ E1) as (s & s' & Hs & Hh & P1 & P2 & N1 & N2 & F).
  destruct (IH _ _ E2) as (Hm & Hd & Hf).
  assert (Hheap : forall y t, heap l !! y = Some t ->
    exists t', heap l1 !! y = Some t' /\ logPath t' = logPath t /\ indexPath t' = indexPath t).
  { intros y t Hy. rewrite Hh. destruct (decide (y = x)) as [->|Hne].
    - rewrite list_lookup_insert_eq by (apply lookup_lt_Some in Hs; exact Hs).
      assert (t = s) as -> by congruence. eauto.
    - rewrite list_lookup_insert_ne by congruence. eauto. }
  assert (Hback : forall y t', heap l1 !! y = Some t' ->
    exists t, heap l !! y = Some t /\ logPath t' = logPath t /\ indexPath t' = indexPath t).
  { intros y t' Hy. destruct (heap l !! y) as [t|] eqn:Et.
    - destruct (Hheap _ _ Et) as (t0 & E0 & Q). assert (t0 = t') as -> by congruence. eauto.
    - rewrite Hh in Hy. apply lookup_lt_Some in Hy. rewrite length_insert in Hy.
      apply lookup_ge_None in Et. lia. }
  split_and!.
  - intros f Hn. apply Hm. destruct (decide (f = logPath s)) as [->|H1]; [exact N1|].
    destruct (decide (f = indexPath s)) as [->|H2]; [exact N2|]. rewrite F by assumption. exact Hn.
  - intros y t Hy Ht. destruct (Hheap _ _ Ht) as (t' & Ht' & <- & <-). inversion Hy; subst.
    + rewrite Hh, list_lookup_insert_eq in Ht' by (apply lookup_lt_Some in Hs; exact Hs).
      injection Ht' as <-. rewrite P1, P2. auto.
    + eauto.
  - intros f Hnot. destruct (Hnot x s) as [H1 H2]; [left|exact Hs|]. rewrite <- F by assumption.
    apply Hf. intros y t' Hy Ht'. destruct (Hback _ _ Ht') as (t & Ht & -> & ->).
    apply (Hnot y t); [right; exact Hy|exact Ht].
Qed.

(** The bytes that message sets grouped in segments take. *)
Definition size_of (mss : list (list (list byte))) : Z := len (concat (concat mss)).

Lemma size_of_snoc mss ms : size_of (mss ++ [ms]) = size_of mss + len (concat ms).
Proof.
  unfold size_of. rewrite concat_app. cbn [concat]. rewrite app_nil_r, concat_app. len_solve.
Qed.

(** The kept suffix is within the retention, and is the longest such. *)
Lemma keepLoop_spec ids : forall l b mss total ret kept,
  sealed l b ids mss ->
  exists d k md mk, ids = d ++ k /\ mss = md ++ mk /\ length d = length md /\
    keepLoop (reverse ids) total ret kept l = Ret (k ++ kept, reverse d) l /\
    (k <> [] -> total + size_of mk <= ret) /\
    (forall md0 mx, md = md0 ++ [mx] -> ret < total + size_of mk + len (concat mx)).
Proof.
  induction ids as [|x ids IH] using rev_ind; intros l b mss total ret kept Hs.
  - destruct mss; [|destruct Hs]. exists [], [], [], []. split_and!; auto; try congruence.
    intros md0 mx E. destruct md0; discriminate.
  - destruct (sealed_snoc_inv _ _ _ _ _ Hs) as (mss0 & mx & -> & Hne & Hs0 & (s & Hx & _ & _ & Hrep & _)).
    pose proof Hrep as (_ & _ & _ & Hp & _).
    rewrite reverse_snoc. cbn [keepLoop]. rewrite (bind_seg _ s) by exact Hx. rewrite Hp.
    destruct (Z.ltb_spec ret (total + len (concat mx))) as [Hlt|Hge].
    + exists (ids ++ [x]), [], (mss0 ++ [mx]), []. rewrite !app_nil_r, reverse_snoc.
      pose proof (sealed_length _ _ _ _ Hs0). split_and!; auto; try congruence.
      * rewrite !length_app. simpl. lia.
      * intros md0 y E. apply app_inj_tail in E as [_ <-]. unfold size_of, len at 1; simpl. lia.
    + destruct (IH l b mss0 (total + len (concat mx)) ret (x :: kept) Hs0)
        as (d & k & md & mk & -> & -> & Hl & E & Hk & Hd).
      exists d, (k ++ [x]), md, (mk ++ [mx]). rewrite !size_of_snoc, <- !app_assoc. split_and!; auto.
      * intros _. destruct k as [|y k]; [|specialize (Hk ltac:(congruence)); lia].
        assert (mk = []) as -> by (destruct mk; [reflexivity|rewrite app_nil_r in Hs0;
          apply sealed_length in Hs0; rewrite length_app in Hs0; simpl in Hs0; lia]).
        unfold size_of, len at 1; simpl. lia.
      * intros md0 y E'. specialize (Hd md0 y E'). lia.
Qed.

Lemma DeleteClean_spec l b ids mss id ms ret :
  sealed l b ids mss -> seg_ok l id (b + len (concat mss)) ms -> NoDup (ids ++ [id]) ->
  exists d k md mk l', ids = d ++ k /\ mss = md ++ mk /\ length d = length md /\
    DeleteClean ret (ids ++ [id]) l = Ret (k ++ [id]) l' /\ same_log l l' /\
    sealed l' (b + len (concat md)) k mk /\ seg_ok l' id (b + len (concat mss)) ms /\
    (ret = -1 -> d = []) /\
    (forall x s, x ∈ d -> heap l !! x = Some s -> fs l' !! logPath s = None /\ fs l' !! indexPath s = None) /\
    (forall f, (forall x s, x ∈ d -> heap l !! x = Some s -> f <> logPath s /\ f <> indexPath s) ->
      fs l' !! f = fs l !! f) /\
    (ret <> -1 -> (k <> [] -> len (concat ms) + size_of mk <= ret) /\
      (forall md0 mx, md = md0 ++ [mx] -> ret < len (concat ms) + size_of mk + len (concat mx))).
Proof.
  intros Hs Hid Hnd. unfold DeleteClean. rewrite reverse_snoc.
  destruct (Z.eqb_spec ret (-1)) as [->|Hret].
  - exists [], ids, [], mss, l. cbn [concat]. change (len (@nil (list byte))) with 0. rewrite Z.add_0_r.
    split_and!; auto; [apply same_log_refl|intros ? ? Hx; inversion Hx|congruence].
  - pose proof Hid as (s & Hx & _ & _ & (_ & _ & _ & Hp & _) & _).
    rewrite (bind_seg _ s) by exact Hx. rewrite Hp.
    destruct (keepLoop_spec ids l b mss (len (concat ms)) ret [id] Hs)
      as (d & k & md & mk & -> & -> & Hl & E & Hk & Hd).
    erewrite bind_Ret by exact E. cbn [fst snd].
    apply sealed_app in Hs as [Hsd Hsk]; [|exact Hl].
    rewrite concat_app in Hid. rewrite <- app_assoc in Hnd.
    destruct (delete_all d l b md (b + len (concat md)) k mk id ms) as (l' & E' & Hsame & Hk' & Hid');
      [exact Hsd|exact Hsk| |lia|exact Hnd|].
    { replace (b + len (concat md) + len (concat mk)) with (b + len (concat md ++ concat mk)) by len_solve.
      exact Hid. }
    erewrite bind_Ret by exact E'. apply delete_files in E' as (_ & Hgone & Hrest).
    exists d, k, md, mk, l'. split_and!; auto; [|congruence| |].
    2: { intros x t Hin. apply Hgone, elem_of_reverse, Hin. }
    2: { intros f Hf. apply Hrest. intros x t Hin. apply Hf, elem_of_reverse, Hin. }
    rewrite concat_app. replace (b + len (concat md ++ concat mk)) with (b + len (concat md) + len (concat mk)) by len_solve.
    exact Hid'.
Qed.

(** ** Splitting *)
Lemma sealed_lt l b ids mss id : sealed l b ids mss -> id ∈ ids -> (id < length (heap l))%nat.
Proof.
  revert b mss. induction ids as [|x ids IH]; intros b [|ms mss] Hs Hin; try (inversion Hin; fail);
    [destruct Hs|]. destruct Hs as (_ & (s & Hx & _) & Hs).
  inversion Hin; subst; [apply lookup_lt_Some in Hx; exact Hx|eapply IH; eassumption].
Qed.

(** Opening the next segment seals the active one. *)
Lemma open_next l b0 ids mss ms :
  NoDup (ids ++ [active l]) -> sealed l b0 ids mss ->
  seg_ok l (active l) (b0 + len (concat mss)) ms -> ms <> [] -> 0 < MaxSegmentBytes l ->
  (forall f, is_Some (fs l !! f) -> fcleaned f = false /\ fbase f <= b0 + len (concat mss)) ->
  let nb := b0 + len (concat (mss ++ [ms])) in
  exists l1, new_segment nb (MaxSegmentBytes l) false l = Ret (length (heap l)) l1 /\
    MaxSegmentBytes l1 = MaxSegmentBytes l /\ MaxLogBytes l1 = MaxLogBytes l /\ compact l1 = compact l /\
    segments l1 = segments l /\
    sealed l1 b0 (ids ++ [active l]) (mss ++ [ms]) /\ seg_ok l1 (length (heap l)) nb [] /\
    NoDup ((ids ++ [active l]) ++ [length (heap l)]) /\
    (forall f, is_Some (fs l1 !! f) -> fcleaned f = false /\ fbase f <= nb).
Proof.
  intros Hnd Hs Hok Hne Hmax Hfs nb.
  assert (Hnb : b0 + len (concat mss) < nb).
  { unfold nb. rewrite concat_app. cbn [concat]. rewrite app_nil_r. destruct ms; [congruence|].
    unfold len. rewrite length_app. simpl length. lia. }
  assert (Hfresh : forall k, fs l !! mkName nb k false = None).
  { intros k. destruct (fs l !! mkName nb k false) eqn:E; [|reflexivity].
    destruct (Hfs (mkName nb k false)) as [_ Hle]; [eauto|cbn [fbase] in Hle; lia]. }
  destruct (NewSegment_fresh (fs l) nb (MaxSegmentBytes l) (Hfresh KLog) (Hfresh KIndex)) as (sn & En & Hbn & Hmn & Hrn).
  unfold new_segment. rewrite En. eexists. split; [reflexivity|]. cbn [MaxSegmentBytes MaxLogBytes compact segments].
  split; [reflexivity|]. split; [reflexivity|]. split; [reflexivity|]. split; [reflexivity|].
  set (l1 := set_heap _ _).
  assert (Hfr : forall f, fbase f < nb -> fs l1 !! f = fs l !! f).
  { intros f Hf. cbn. rewrite !lookup_insert_ne; [reflexivity| |]; intros <-; cbn [fbase] in Hf; lia. }
  assert (Hhp : forall x, (x < length (heap l))%nat -> heap l1 !! x = heap l !! x).
  { intros x Hx. cbn. apply lookup_app_l, Hx. }
  pose proof Hok as (sa & Hsa & _). apply lookup_lt_Some in Hsa.
  split_and!.
  - apply sealed_app; [exact (sealed_length _ _ _ _ Hs)|]. split.
    + apply (sealed_frame l l1); [|reflexivity| |exact Hs].
      * intros x Hx. apply Hhp. eapply sealed_lt; eassumption.
      * intros f Hf _. apply Hfr. lia.
    + cbn [sealed]. split; [exact Hne|]. split; [|exact I].
      apply (seg_ok_frame l l1); [apply Hhp, Hsa|reflexivity| |exact Hok]. intros k. apply Hfr. cbn [fbase]. lia.
  - exists sn. split; [cbn; rewrite lookup_app_r, Nat.sub_diag by lia; reflexivity|].
    split_and!; [exact Hbn|exact Hmn|exact Hrn|constructor|unfold len; simpl; lia].
  - apply list.NoDup_app. split; [exact Hnd|]. split; [|apply NoDup_singleton].
    intros x Hx Hin. apply list_elem_of_singleton in Hin. subst x.
    apply elem_of_app in Hx as [Hx|Hx]; [apply (sealed_lt _ _ _ _ _ Hs) in Hx; lia|].
    apply list_elem_of_singleton in Hx. lia.
  - intros f Hf. destruct (decide (fbase f = nb)) as [E|E].
    + destruct (fcleaned f) eqn:Ec; [|split; [reflexivity|lia]]. exfalso.
      cbn in Hf. rewrite !lookup_insert_ne in Hf by (intros <-; discriminate).
      apply Hfs in Hf as [Hf _]. congruence.
    + cbn in Hf. rewrite !lookup_insert_ne in Hf by (intros <-; apply E; reflexivity).
      apply Hfs in Hf as [Hc Hle]. split; [exact Hc|lia].
Qed.

Lemma split_spec Hash l b0 msgs :
  holds l b0 msgs -> compact l = false -> 0 < MaxSegmentBytes l ->
  (forall s, heap l !! active l = Some s -> IsFull s = true) ->
  exists l' dropped kept, split Hash l = Ret tt l' /\ msgs = dropped ++ kept /\
    holds l' (b0 + len dropped) kept /\ MaxSegmentBytes l' = MaxSegmentBytes l /\
    MaxLogBytes l' = MaxLogBytes l /\ compact l' = compact l /\
    (forall s, heap l' !! active l' = Some s -> SPosition s = 0) /\
    (MaxLogBytes l = -1 -> dropped = []).
Proof.
  intros (ids & mss & ms & Hids & Hnd & H0 & Hse & Hok & Hfs & Emsgs & Hoff) Hcp Hmax Hfull.
  pose proof Hok as (s & Hs & Hbs & Hmx & (Hc & Hcl & Hn & Hp & _) & _).
  specialize (Hfull s Hs). unfold IsFull in Hfull. apply Z.leb_le in Hfull.
  assert (Hne : ms <> []) by (intros ->; unfold len in Hp; simpl in Hp; lia).
  destruct (open_next l b0 ids mss ms Hnd Hse Hok Hne Hmax Hfs)
    as (l1 & En & E1 & E2 & E3 & E4 & Hse1 & Hok1 & Hnd1 & Hfs1).
  assert (Enb : NextOffset s = b0 + len (concat (mss ++ [ms]))).
  { rewrite Hn, Hbs, concat_app. cbn [concat]. rewrite app_nil_r. len_solve. }
  unfold split, NewestOffset. rewrite bind_assoc. rewrite (bind_active s) by exact Hs.
  erewrite bind_Ret by reflexivity. erewrite bind_Ret by reflexivity.
  rewrite Enb. erewrite bind_Ret by exact En. erewrite bind_Ret by reflexivity. rewrite E4, Hids.
  destruct (DeleteClean_spec l1 b0 (ids ++ [active l]) (mss ++ [ms]) (length (heap l)) [] (MaxLogBytes l) Hse1 Hok1 Hnd1)
    as (d & k & md & mk & l2 & Ed & Em & Hlen & EC & (S1 & S2 & S3 & S4 & S5 & S6 & S7) & Hk & Hok2 & Hret & _).
  assert (ECl : Clean Hash ((ids ++ [active l]) ++ [length (heap l)]) l1 = Ret (k ++ [length (heap l)]) l2)
    by (unfold Clean; rewrite E3, Hcp, E2; exact EC).
  erewrite bind_Ret by exact ECl. erewrite bind_Ret by reflexivity.
  assert (Emk : msgs = concat md ++ concat mk).
  { rewrite Emsgs, <- concat_app, <- Em, concat_app. cbn [concat]. rewrite app_nil_r. reflexivity. }
  eexists _, (concat md), (concat mk). split; [reflexivity|]. split; [exact Emk|]. split.
  - exists k, mk, []. cbn [segments active set_segments set_active]. split_and!.
    + reflexivity.
    + rewrite Ed in Hnd1. rewrite <- app_assoc in Hnd1. apply list.NoDup_app in Hnd1 as (_ & _ & Hn2). exact Hn2.
    + unfold len. lia.
    + apply (sealed_frame l2); [reflexivity|reflexivity|reflexivity|exact Hk].
    + rewrite Em, concat_app in Hok2.
      replace (b0 + len (concat md) + len (concat mk)) with (b0 + len (concat md ++ concat mk)) by len_solve.
      exact Hok2.
    + intros f Hf. apply S7, Hfs1 in Hf as [Hcf Hle]. split; [exact Hcf|].
      rewrite Em, concat_app in Hle. revert Hle. unfold len. rewrite length_app. lia.
    + rewrite app_nil_r. reflexivity.
    + intros i m Hi. specialize (Hoff (length (concat md) + i)%nat m). rewrite Hoff.
      * f_equal. unfold len. lia.
      * rewrite Emk, lookup_app_r by lia.
        replace (length (concat md) + i - length (concat md))%nat with i by lia. exact Hi.
  - cbn. split_and!; try congruence.
    + intros s' Hs'. destruct Hok2 as (s2 & Hs2 & _ & _ & (_ & _ & _ & Hp2 & _) & _).
      rewrite Hs2 in Hs'. injection Hs' as <-. rewrite Hp2. reflexivity.
    + intros Hm1. specialize (Hret Hm1). subst d. destruct md; [reflexivity|discriminate].
Qed.

(** ** Append *)
Lemma Append_unfold Hash b l :
  Append Hash b l = (full ← checkSplit; when full (split Hash) ;; appendActive b) l.
Proof. reflexivity. Qed.

(** The offset returned is the next one; the set is stored at the end with that
    offset; only a prefix of the log may have been cleaned away. *)
Lemma Append_spec Hash l b0 msgs b :
  holds l b0 msgs -> compact l = false -> 0 < MaxSegmentBytes l <= 2 ^ 22 ->
  (8 <= length b)%nat -> in_int 64 (b0 + len msgs) ->
  exists l' dropped kept m,
    Append Hash b l = Ret (b0 + len msgs) l' /\
    LogMessageSet.PutOffset b (b0 + len msgs) = Some m /\
    msgs = dropped ++ kept /\ holds l' (b0 + len dropped) (kept ++ [m]) /\
    MaxSegmentBytes l' = MaxSegmentBytes l /\ MaxLogBytes l' = MaxLogBytes l /\
    compact l' = compact l /\ (MaxLogBytes l = -1 -> dropped = []).
Proof.
  intros Hh Hc Hmax Hb H64. rewrite Append_unfold.
  pose proof Hh as (ids & mss & ms & _ & _ & _ & _ & (s & Hs & _ & Hmx & _) & _).
  unfold checkSplit. rewrite bind_assoc, (bind_active s) by exact Hs. erewrite bind_Ret by reflexivity.
  destruct (IsFull s) eqn:Hf; cbn [when].
  - destruct (split_spec Hash l b0 msgs Hh Hc ltac:(lia)) as (l1 & dropped & kept & E & Em & Hh1 & E1 & E2 & E3 & Hp & Hd).
    { intros s' Hs'. congruence. }
    erewrite bind_Ret by exact E.
    assert (Eo : b0 + len msgs = b0 + len dropped + len kept) by (rewrite Em; len_solve).
    destruct (appendActive_spec l1 (b0 + len dropped) kept b Hh1) as (l' & m & Ea & Ep & Hh' & F1 & F2 & F3);
      [lia|exact Hb|rewrite <- Eo; exact H64|intros s' Hs'; rewrite (Hp s' Hs'); lia|].
    rewrite <- Eo in Ea, Ep. exists l', dropped, kept, m. split_and!; auto; congruence.
  - erewrite bind_Ret by reflexivity. unfold IsFull in Hf. apply Z.leb_gt in Hf.
    destruct (appendActive_spec l b0 msgs b Hh) as (l' & m & Ea & Ep & Hh' & F1 & F2 & F3);
      [lia|exact Hb|exact H64|intros s' Hs'; assert (s' = s) by congruence; subst; lia|].
    exists l', [], msgs, m. change (len (@nil (list byte))) with 0. rewrite Z.add_0_r. split_and!; auto.
Qed.

(** A new log in an empty directory. *)
Lemma New_empty max maxLog policy : 0 < max ->
  exists l, New ∅ max maxLog policy = Ret tt l /\ holds l 0 [] /\
    MaxSegmentBytes l = max /\ MaxLogBytes l = maxLog /\
    compact l = negb (bool_decide (policy = "") || bool_decide (policy = "delete")).
Proof.
  intros Hmax. unfold New, open.
  destruct (NewSegment_fresh ∅ 0 max (lookup_empty _) (lookup_empty _)) as (s & Es & Hb & Hm & Hr).
  erewrite bind_Ret by reflexivity. change (ReadDir (fs (mkLog max maxLog _ ∅ [] [] 0 ∅))) with (ReadDir ∅).
  change (ReadDir ∅) with (@nil fname). cbn [for_each].
  erewrite bind_Ret by reflexivity. erewrite bind_Ret by reflexivity. cbn [segments list.last].
  erewrite bind_Ret by reflexivity.
  assert (En : forall c, new_segment 0 max false (mkLog max maxLog c ∅ [] [] 0 ∅) =
    Ret 0%nat (mkLog max maxLog c (<[mkName 0 KIndex false := []]> (<[mkName 0 KLog false := []]> ∅)) [s] [] 0 ∅))
    by (intros c; unfold new_segment; cbn [fs]; rewrite Es; reflexivity).
  erewrite bind_Ret by apply En. erewrite bind_Ret by reflexivity.
  eexists. split; [reflexivity|]. split; [|auto].
  exists [], [], []. cbn [segments active fs heap set_segments set_active concat]. split_and!.
  - reflexivity.
  - apply NoDup_singleton.
  - lia.
  - exact I.
  - exists s. split_and!; auto. cbn. unfold len; simpl. lia.
  - intros f Hf. assert (f = mkName 0 KIndex false \/ f = mkName 0 KLog false) as [-> | ->];
      [|split; [reflexivity|cbn; unfold len; simpl; lia]..].
    destruct (decide (f = mkName 0 KIndex false)); [auto|right].
    destruct (decide (f = mkName 0 KLog false)); [auto|]. rewrite !lookup_insert_ne in Hf by congruence.
    rewrite lookup_empty in Hf. destruct Hf; discriminate.
  - reflexivity.
  - intros i m Hi. rewrite lookup_nil in Hi. discriminate.
Qed.

Lemma newest_spec l b0 msgs : holds l b0 msgs ->
  NewestOffset l = Ret (b0 + len msgs) l /\ OldestOffset l = Ret b0 l.
Proof.
  intros (ids & mss & ms & Hids & _ & _ & Hse & Hok & _ & Em & _).
  pose proof Hok as (s & Hs & Hb & _ & (_ & _ & Hn & _) & _). split.
  - unfold NewestOffset. rewrite (bind_active s) by exact Hs. unfold mret, M_ret. f_equal.
    rewrite Hn, Hb, Em. len_solve.
  - unfold OldestOffset. erewrite bind_Ret by reflexivity. rewrite Hids. destruct ids as [|id ids].
    + cbn [app]. destruct mss; [|destruct Hse]. rewrite (bind_seg _ s) by exact Hs.
      unfold mret, M_ret. f_equal. rewrite Hb. unfold len; simpl. lia.
    + destruct mss as [|m mss]; [destruct Hse|]. destruct Hse as (_ & (s0 & Hs0 & Hb0 & _) & _).
      cbn [app]. rewrite (bind_seg _ s0) by exact Hs0. unfold mret, M_ret. f_equal. exact Hb0.
Qed.
