(* ===== verification/LogReader.v ===== *)
(** * Reading the commit log

    Lemmas about [findSegment], [NewReader] and [Reader.Read] on a log in a
    good state: what a reader delivers are the bytes of the message sets from
    some set at or before the wanted offset, to the end of the log. *)
From S2P Require Import Prelude Encoder LogMessage Index Segment CommitLog.

(** ** sort.Search *)
Lemma sortSearch_spec fuel f : forall i j, 0 <= i <= j -> j - i <= Z.of_nat fuel ->
  (forall x y, i <= x -> x <= y -> y < j -> f x = true -> f y = true) ->
  let r := sortSearch fuel f i j in
  i <= r <= j /\ (forall x, i <= x < r -> f x = false) /\ (forall x, r <= x < j -> f x = true).
Proof.
  induction fuel as [|fuel IH]; intros i j Hij Hf Hmon; cbn [sortSearch].
  - assert (i = j) by lia. subst j. split; [lia|]. split; intros; lia.
  - destruct (Z.ltb_spec i j) as [Hlt|Hge]; [|assert (i = j) by lia; subst j; split; [lia|split; intros; lia]].
    assert (Hh : Z.shiftr (i + j) 1 = (i + j) / 2) by (rewrite Z.shiftr_div_pow2 by lia; reflexivity).
    rewrite Hh. set (h := (i + j) / 2).
    assert (Hb : i <= h < j) by (unfold h; split; [apply Z.div_le_lower_bound|apply Z.div_lt_upper_bound]; lia).
    destruct (f h) eqn:Eh.
    + destruct (IH i h) as (H1 & H2 & H3); [lia|lia|intros; eapply Hmon; [| | |eassumption]; lia|].
      split; [lia|]. split; [exact H2|]. intros x Hx. destruct (Z.ltb_spec x h); [apply H3; lia|].
      apply (Hmon h x); auto; lia.
    + destruct (IH (h + 1) j) as (H1 & H2 & H3); [lia|lia|intros; eapply Hmon; [| | |eassumption]; lia|].
      split; [lia|]. split; [|exact H3]. intros x Hx. destruct (Z.ltb_spec h x); [apply H2; lia|].
      destruct (f x) eqn:Ex; [|reflexivity]. rewrite (Hmon x h) in Eh; [discriminate|lia..|exact Ex].
Qed.

(** ** The segments of a log, in order *)
Fixpoint chain (d : FS) (b : Z) (segs : list Segment) (gs : list (list (list byte))) : Prop :=
  match segs, gs with
  | [], [] => True
  | s :: segs, g :: gs =>
      BaseOffset s = b /\ seg_rep d s g /\ len g <= 655360 /\ chain d (b + len g) segs gs
  | _, _ => False
  end.

Lemma sealed_chain l b ids mss : MaxSegmentBytes l <= 2 ^ 22 -> sealed l b ids mss ->
  exists segs, mapM (fun id => heap l !! id) ids = Some segs /\ chain (fs l) b segs mss.
Proof.
  intros Hmax. revert b mss. induction ids as [|id ids IH]; intros b [|ms mss] Hs; try (destruct Hs; fail).
  - exists []. split; [reflexivity|exact I].
  - destruct Hs as (_ & (s & Hid & Hb & _ & Hr & _ & Hcap) & Hs). destruct (IH _ _ Hs) as (segs & E & Hc).
    exists (s :: segs). split; [cbn; rewrite Hid; cbn; rewrite E; reflexivity|].
    cbn [chain]. split_and!; auto. lia.
Qed.

Lemma chain_app d b segs1 segs2 gs1 gs2 :
  chain d b segs1 gs1 -> chain d (b + len (concat gs1)) segs2 gs2 ->
  chain d b (segs1 ++ segs2) (gs1 ++ gs2).
Proof.
  revert b gs1. induction segs1 as [|s segs1 IH]; intros b [|g gs1] H1 H2; try (destruct H1; fail).
  - cbn [concat] in H2. change (len (@nil (list byte))) with 0 in H2. rewrite Z.add_0_r in H2. exact H2.
  - destruct H1 as (Hb & Hr & Hn & H1). cbn [app chain]. split_and!; auto. apply IH; [exact H1|].
    cbn [concat] in H2. replace (b + len g + len (concat gs1)) with (b + len (g ++ concat gs1)) by len_solve.
    exact H2.
Qed.

Lemma holds_chain l b0 msgs : holds l b0 msgs -> MaxSegmentBytes l <= 2 ^ 22 ->
  exists segs gs, Segments l = Some segs /\ chain (fs l) b0 segs gs /\ concat gs = msgs /\
    segs <> [] /\ 0 <= b0 /\ (msgs <> [] -> forall g, gs !! 0%nat = Some g -> g <> []).
Proof.
  intros (ids & mss & ms & Hids & _ & H0 & Hse & (s & Hs & Hb & _ & Hr & _ & Hcap) & _ & Em & _) Hmax.
  destruct (sealed_chain _ _ _ _ Hmax Hse) as (segs & E & Hc).
  exists (segs ++ [s]), (mss ++ [ms]). split_and!.
  - unfold Segments. rewrite Hids. apply mapM_Some. apply mapM_Some in E.
    apply Forall2_app; [exact E|]. constructor; [exact Hs|constructor].
  - apply chain_app; [exact Hc|]. cbn [chain]. split_and!; auto. lia.
  - rewrite concat_app, Em. cbn [concat]. rewrite app_nil_r. reflexivity.
  - destruct segs; discriminate.
  - exact H0.
  - intros Hm g Hg. destruct mss as [|m mss]; cbn in Hg; injection Hg as <-; [cbn in Em; congruence|].
    destruct ids; [destruct Hse|]. apply Hse.
Qed.

(** Where segment number [n] starts and which sets it holds. *)
Lemma chain_lookup d segs : forall b gs n s, chain d b segs gs -> segs !! n = Some s ->
  exists g, gs !! n = Some g /\ BaseOffset s = b + len (concat (take n gs)) /\
    seg_rep d s g /\ len g <= 655360 /\
    chain d (b + len (concat (take n gs))) (drop n segs) (drop n gs).
Proof.
  induction segs as [|s0 segs IH]; intros b [|g gs] n s Hc Hn; try (destruct Hc; fail);
    [rewrite lookup_nil in Hn; discriminate|].
  destruct n as [|n].
  - injection Hn as <-. exists g. cbn [take drop concat]. change (len (@nil (list byte))) with 0.
    rewrite Z.add_0_r. pose proof Hc as (Hb & Hr & Hg & _). split_and!; auto.
  - destruct Hc as (_ & _ & _ & Hc). destruct (IH _ _ n s Hc Hn) as (g' & Eg & Hb & Hr & Hl & Hd).
    exists g'. cbn [take drop concat].
    replace (b + len (g ++ concat (take n gs))) with (b + len g + len (concat (take n gs))) by len_solve.
    split_and!; auto.
Qed.

Lemma chain_length d b segs gs : chain d b segs gs -> length segs = length gs.
Proof.
  revert b gs. induction segs as [|s segs IH]; intros b [|g gs] H; try (destruct H; fail); [reflexivity|].
  cbn [length]. f_equal. eapply IH, H.
Qed.

Lemma take_S_concat {A} (gs : list (list A)) n g : gs !! n = Some g ->
  concat (take (S n) gs) = concat (take n gs) ++ g.
Proof.
  intros H. rewrite (take_S_r _ _ _ H), concat_app. cbn [concat]. rewrite app_nil_r. reflexivity.
Qed.

Lemma len_concat_take_le {A} (gs : list (list A)) n m : (n <= m)%nat ->
  len (concat (take n gs)) <= len (concat (take m gs)).
Proof.
  intros H. replace (take n gs) with (take n (take m gs)) by (rewrite take_take; f_equal; lia).
  rewrite <- (take_drop n (take m gs)) at 2. rewrite concat_app. len_solve.
Qed.

(** The segment found is the one that holds the offset, or the first one when
    the offset is older than the log. *)
Lemma findSegment_spec d b segs gs off :
  chain d b segs gs -> segs <> [] -> off < b + len (concat gs) ->
  exists n s, findSegment segs off = (Some s, n) /\ segs !! n = Some s /\ off < NextOffset s /\
    (b <= off -> b + len (concat (take n gs)) <= off).
Proof.
  intros Hc Hne Hoff. unfold findSegment.
  set (f := fun i => match segs !! Z.to_nat i with Some s => off <? NextOffset s | None => true end).
  pose proof (chain_length _ _ _ _ Hc) as Hlen.
  assert (Hnext : forall n s, segs !! n = Some s -> NextOffset s = b + len (concat (take (S n) gs))).
  { intros n s Hn. destruct (chain_lookup _ _ _ _ _ _ Hc Hn) as (g & Hg & Hb & (_ & _ & Hnx & _) & _).
    rewrite Hnx, Hb, (take_S_concat _ _ _ Hg). len_solve. }
  destruct (sortSearch_spec (length segs) f 0 (len segs)) as (Hr & Hlo & Hhi).
  { unfold len; lia. } { unfold len; lia. }
  { intros x y Hx Hxy Hy. unfold f.
    destruct (lookup_lt_is_Some_2 segs (Z.to_nat x)) as [sx Ex]; [unfold len in Hy; lia|].
    destruct (lookup_lt_is_Some_2 segs (Z.to_nat y)) as [sy Ey]; [unfold len in Hy; lia|].
    rewrite Ex, Ey, (Hnext _ _ Ex), (Hnext _ _ Ey). intros H%Z.ltb_lt. apply Z.ltb_lt.
    pose proof (len_concat_take_le gs (S (Z.to_nat x)) (S (Z.to_nat y)) ltac:(lia)). lia. }
  set (r := sortSearch _ _ _ _) in *.
  assert (Hrn : r < len segs).
  { destruct (Z.ltb_spec r (len segs)); [assumption|]. exfalso.
    assert (Hpos : 0 < len segs) by (destruct segs; [congruence|unfold len; simpl; lia]).
    assert (Hl : f (len segs - 1) = false) by (apply Hlo; lia). unfold f in Hl.
    destruct (lookup_lt_is_Some_2 segs (Z.to_nat (len segs - 1))) as [s Es]; [unfold len in *; lia|].
    rewrite Es, (Hnext _ _ Es) in Hl. apply Z.ltb_ge in Hl.
    rewrite take_ge in Hl by (unfold len in *; lia). lia. }
  destruct (lookup_lt_is_Some_2 segs (Z.to_nat r)) as [s Es]; [unfold len in *; lia|].
  exists (Z.to_nat r), s. rewrite Es. split; [reflexivity|]. split; [reflexivity|].
  assert (Hf : f r = true) by (apply Hhi; lia). unfold f in Hf. rewrite Es in Hf. apply Z.ltb_lt in Hf.
  split; [exact Hf|]. intros Hb0.
  destruct (Z.eqb_spec r 0) as [E0|E0]; [rewrite E0; cbn; unfold len; simpl; lia|].
  assert (Hp : f (r - 1) = false) by (apply Hlo; lia). unfold f in Hp.
  destruct (lookup_lt_is_Some_2 segs (Z.to_nat (r - 1))) as [sp Ep]; [unfold len in *; lia|].
  rewrite Ep, (Hnext _ _ Ep) in Hp. apply Z.ltb_ge in Hp.
  replace (S (Z.to_nat (r - 1))) with (Z.to_nat r) in Hp by lia. exact Hp.
Qed.

(** ** Reading *)

Lemma readLoop_step d s rest idx pos want :
  readLoop d (s :: rest) idx pos want =
  match SReadAt d s want pos with
  | (b, None) => (b, None, mkReader idx (pos + len b))
  | (b, Some EOF) =>
      match rest with
      | [] => (b, Some EOF, mkReader idx (pos + len b))
      | _ =>
          let '(b', err, r) := readLoop d rest (S idx) 0 (want - length b) in (b ++ b', err, r)
      end
  | (b, Some e) => (b, Some e, mkReader idx (pos + len b))
  end.
Proof. cbn [readLoop]. destruct (SReadAt d s want pos) as [b [[]|]]; reflexivity. Qed.

(** [want] bytes from position [pos] of a segment, then of the following ones. *)
Lemma readLoop_spec d segs : forall b gs s g idx pos want,
  chain d b (s :: segs) (g :: gs) -> 0 <= pos <= len (concat g) ->
  let avail := drop (Z.to_nat pos) (concat g) ++ concat (concat gs) in
  fst (readLoop d (s :: segs) idx pos want) =
    (take want avail, if decide (length avail < want)%nat then Some EOF else None).
Proof.
  induction segs as [|s' segs IH]; intros b gs s g idx pos want Hc Hpos avail;
    destruct Hc as (Hb & (Hcl & Hnc & _ & Hp & Hl & _) & _ & Hc);
    rewrite readLoop_step; unfold SReadAt, contents; rewrite (proj2 (Z.ltb_ge _ _)) by lia;
    rewrite Hl, Hcl; cbn [default from_option id]; set (here := drop (Z.to_nat pos) (concat g)) in *.
  - destruct gs; [|destruct Hc]. unfold avail. cbn [concat]. rewrite app_nil_r.
    case_decide as H0; [subst want; cbn; rewrite decide_False by lia; reflexivity|].
    rewrite length_take. destruct (decide (_ < want)%nat) as [Hs|Hs].
    + rewrite decide_True by lia. reflexivity.
    + rewrite decide_False by lia. reflexivity.
  - destruct gs as [|g' gs]; [destruct Hc|].
    case_decide as H0; [subst want; cbn; rewrite decide_False by lia; reflexivity|].
    rewrite length_take. destruct (decide (_ < want)%nat) as [Hs|Hs].
    + specialize (IH (b + len g) gs s' g' (S idx) 0 (want - (want `min` length here))%nat Hc ltac:(unfold len; lia)).
      change (drop (Z.to_nat 0) (concat g')) with (concat g') in IH.
      destruct (readLoop d (s' :: segs) (S idx) 0 (want - want `min` length here)) as [[b' err] r].
      cbn [fst] in *. apply pair_equal_spec in IH as [-> ->]. unfold avail.
      assert (E : concat (concat (g' :: gs)) = concat g' ++ concat (concat gs))
        by (cbn [concat]; apply concat_app).
      rewrite E, (take_app here). replace (want `min` length here)%nat with (length here) by lia.
      f_equal. rewrite !length_app.
      destruct (decide (_ < want - length here)%nat), (decide (_ < want)%nat); try reflexivity; lia.
    + cbn [fst]. unfold avail. rewrite take_app.
      replace (want - length here)%nat with 0%nat by lia. rewrite take_0, app_nil_r.
      rewrite decide_False by (rewrite length_app; lia). reflexivity.
Qed.

Lemma take_concat_lookup {A} (gs : list (list A)) n g k : gs !! n = Some g -> (k <= length g)%nat ->
  drop (length (concat (take n gs)) + k) (concat gs) = drop k g ++ concat (drop (S n) gs).
Proof.
  intros Hn Hk. rewrite <- (take_drop_middle gs n g Hn) at 2. rewrite concat_app. cbn [concat].
  rewrite drop_app, drop_ge by lia.
  replace (length (concat (take n gs)) + k - length (concat (take n gs)))%nat with k by lia.
  rewrite drop_app. replace (k - length g)%nat with 0%nat by lia. reflexivity.
Qed.

Lemma drop_concat_take {A} (g : list (list A)) k :
  drop (length (concat (take k g))) (concat g) = concat (drop k g).
Proof. rewrite <- (take_drop k g) at 2. rewrite concat_app, drop_app_length. reflexivity. Qed.

(** ** Readers move *)
Lemma chain_drop d b segs gs k : chain d b segs gs ->
  chain d (b + len (concat (take k gs))) (drop k segs) (drop k gs).
Proof.
  revert b segs gs. induction k as [|k IH]; intros b segs gs Hc.
  - rewrite !drop_0, take_0. cbn. rewrite Z.add_0_r. exact Hc.
  - destruct segs as [|s segs], gs as [|g gs]; try (destruct Hc; fail); [exact I|].
    destruct Hc as (_ & _ & _ & Hc). cbn [take drop concat].
    replace (b + len (g ++ concat (take k gs))) with (b + len g + len (concat (take k gs))) by len_solve.
    apply IH, Hc.
Qed.

(** Where a read of [want] bytes leaves the reader: in the same or a later
    segment, with exactly the bytes that were not read before it. *)
Lemma readLoop_moves d segs : forall b gs s g idx pos want,
  chain d b (s :: segs) (g :: gs) -> 0 <= pos <= len (concat g) ->
  exists k g' gs' pos', (k <= length segs)%nat /\ drop k (g :: gs) = g' :: gs' /\
    snd (readLoop d (s :: segs) idx pos want) = mkReader (idx + k) pos' /\
    0 <= pos' <= len (concat g') /\
    drop want (drop (Z.to_nat pos) (concat g) ++ concat (concat gs)) =
      drop (Z.to_nat pos') (concat g') ++ concat (concat gs').
Proof.
  induction segs as [|s' segs IH]; intros b gs s g idx pos want Hc Hpos;
    destruct Hc as (Hb & (Hcl & Hnc & _ & Hp & Hl & _) & _ & Hc);
    rewrite readLoop_step; unfold SReadAt, contents; rewrite (proj2 (Z.ltb_ge _ _)) by lia;
    rewrite Hl, Hcl; cbn [default from_option id]; set (here := drop (Z.to_nat pos) (concat g)) in *;
    assert (Hh : length here = (length (concat g) - Z.to_nat pos)%nat) by apply length_drop;
    assert (Hdd : forall k, drop k here = drop (Z.to_nat pos + k) (concat g)) by (intros; apply drop_drop);
    unfold len in Hpos.
  - destruct gs; [|destruct Hc]. exists 0%nat, g, []. rewrite Nat.add_0_r. cbn [concat]. rewrite !app_nil_r.
    case_decide as H0.
    { subst want. exists pos. cbn [snd]. unfold len. rewrite app_nil_r.
      split_and!; [lia|reflexivity|cbn; f_equal; lia|lia|lia|reflexivity]. }
    exists (pos + len (take want here)). rewrite app_nil_r. unfold len. rewrite length_take.
    destruct (decide _); cbn [snd]; (split_and!; [lia|reflexivity|reflexivity|lia|lia|]);
      rewrite Hdd; destruct (decide (want <= length here)%nat);
      [f_equal; lia|rewrite !drop_ge by lia; reflexivity|f_equal; lia|rewrite !drop_ge by lia; reflexivity].
  - destruct gs as [|g' gs]; [destruct Hc|].
    case_decide as H0.
    { subst want. exists 0%nat, g, (g' :: gs), pos. rewrite Nat.add_0_r. cbn [snd]. unfold len.
      split_and!; [lia|reflexivity|cbn; f_equal; lia|lia|lia|reflexivity]. }
    rewrite length_take. destruct (decide _) as [Hs|Hs].
    + destruct (IH (b + len g) gs s' g' (S idx) 0 (want - (want `min` length here))%nat Hc ltac:(unfold len; lia))
        as (k & g2 & gs2 & pos' & Hk & Hd & Hr & Hp' & Hrest).
      destruct (readLoop d (s' :: segs) (S idx) 0 (want - want `min` length here)) as [[b' err] r].
      cbn [snd] in *. exists (S k), g2, gs2, pos'. cbn [length drop]. split_and!; try lia; auto.
      * rewrite Hr. f_equal. lia.
      * rewrite drop_app, (drop_ge here) by lia. cbn [app concat]. rewrite concat_app.
        rewrite <- Hrest. change (drop (Z.to_nat 0) (concat g')) with (concat g'). f_equal. lia.
    + cbn [snd]. exists 0%nat, g, (g' :: gs), (pos + len (take want here)). rewrite Nat.add_0_r.
      unfold len. rewrite length_take. split_and!; try lia; try reflexivity.
      rewrite drop_app. replace (want - length here)%nat with 0%nat by lia. rewrite drop_0. f_equal.
      rewrite Hdd. f_equal. lia.
Qed.

(** [readerAt l r bs]: the reader is at a place of the log from which the bytes
    [bs] follow. *)
Definition readerAt (l : CommitLog) (r : Reader) (bs : list byte) : Prop :=
  exists segs b gs s rest g gs', Segments l = Some segs /\ chain (fs l) b segs gs /\
    drop (ridx r) segs = s :: rest /\ drop (ridx r) gs = g :: gs' /\
    0 <= rpos r <= len (concat g) /\
    bs = drop (Z.to_nat (rpos r)) (concat g) ++ concat (concat gs').

Lemma readerAt_read l r bs n : readerAt l r bs ->
  exists r', ReaderRead l r n =
      Some (take n bs, if decide (length bs < n)%nat then Some EOF else None, r') /\
    readerAt l r' (drop n bs).
Proof.
  intros (segs & b & gs & s & rest & g & gs' & ES & Hc & Es & Eg & Hpos & ->).
  pose proof (chain_drop _ _ _ _ (ridx r) Hc) as Hd. rewrite Es, Eg in Hd.
  pose proof (readLoop_spec _ _ _ _ _ _ (ridx r) _ n Hd Hpos) as HR. cbv zeta in HR.
  destruct (readLoop_moves _ _ _ _ _ _ (ridx r) _ n Hd Hpos) as (k & g2 & gs2 & pos' & Hk & Ek & Er & Hp & Erest).
  exists (mkReader (ridx r + k) pos'). split.
  - unfold ReaderRead. rewrite ES. cbn [mbind option_bind]. rewrite Es.
    destruct (readLoop _ _ _ _ _) as [[b' err] r']. cbn [fst snd] in *. subst r'.
    apply pair_equal_spec in HR as [-> ->]. reflexivity.
  - destruct (drop k (s :: rest)) as [|s2 rest2] eqn:E2;
      [apply (f_equal length) in E2; rewrite length_drop in E2; cbn in E2; lia|].
    exists segs, b, gs, s2, rest2, g2, gs2. cbn [ridx rpos]. rewrite <- !drop_drop, Es, Eg. auto 10.
Qed.

(** The reader made for an offset of the log starts at a set at or before it,
    in the segment that holds it. *)
Lemma NewReader_at l b0 msgs off :
  holds l b0 msgs -> MaxSegmentBytes l <= 2 ^ 22 -> b0 <= off < b0 + len msgs ->
  exists r k, NewReader l off = Some (inr r) /\ Z.of_nat k <= off - b0 /\
    readerAt l r (concat (drop k msgs)).
Proof.
  intros Hh Hmax Hoff. destruct (holds_chain _ _ _ Hh Hmax) as (segs & gs & ES & Hc & Em & Hne & H0 & Hfirst).
  assert (Hmne : msgs <> []) by (intros ->; unfold len in Hoff; simpl in Hoff; lia).
  assert (Hsel : exists n s, (if off =? 0 then (segs !! 0%nat, 0%nat) else findSegment segs off) = (Some s, n) /\
    segs !! n = Some s /\ off < NextOffset s /\ b0 + len (concat (take n gs)) <= off).
  { destruct (findSegment_spec _ _ _ _ off Hc Hne) as (n & s & Ef & Hn & Hnx & Hb); [rewrite Em; lia|].
    destruct (Z.eqb_spec off 0) as [->|Hz]; [|exists n, s; split_and!; auto; apply Hb; lia].
    destruct segs as [|s0 segs]; [congruence|]. destruct gs as [|g gs]; [destruct Hc|].
    pose proof Hc as (Hb0 & (_ & _ & Hn0 & _) & _). specialize (Hfirst Hmne g eq_refl).
    assert (0 < len g) by (destruct g; [congruence|unfold len; simpl; lia]).
    exists 0%nat, s0. split_and!; [reflexivity|reflexivity|lia|]. cbn. unfold len; simpl. lia. }
  destruct Hsel as (n & s & Esel & Hn & Hnx & Hbn).
  destruct (chain_lookup _ _ _ _ _ _ Hc Hn) as (g & Hg & Hb & Hr & Hcap & Hdrop).
  pose proof Hr as (_ & _ & Hnext & _).
  assert (Hgne : g <> []) by (intros ->; change (len (@nil (list byte))) with 0 in Hnext; lia).
  destruct (findEntry_spec (fs l) s g off Hr) as (k & Hk & Hkm & Efe);
    [unfold len in *; lia|exact Hnx|exact Hgne|exact Hcap|].
  assert (ER : NewReader l off = Some (inr (mkReader n (len (concat (take k g)))))).
  { unfold NewReader. rewrite ES. cbn [mbind option_bind]. rewrite Esel. cbn iota.
    rewrite Efe. reflexivity. }
  exists (mkReader n (len (concat (take k g)))), (length (concat (take n gs)) + k)%nat.
  split; [exact ER|]. split; [unfold len in *; lia|].
  rewrite <- Em, (take_concat_lookup gs n g k Hg) by lia.
  exists segs, b0, gs, s, (drop (S n) segs), g, (drop (S n) gs). cbn [ridx rpos].
  split_and!; [exact ES|exact Hc|exact (drop_S _ _ _ Hn)|exact (drop_S _ _ _ Hg)|unfold len; lia| |].
  - rewrite <- (take_drop k g) at 2. rewrite concat_app. len_solve.
  - rewrite concat_app. f_equal. rewrite <- drop_concat_take. f_equal. unfold len. lia.
Qed.

Lemma NewReader_spec l b0 msgs off :
  holds l b0 msgs -> MaxSegmentBytes l <= 2 ^ 22 -> b0 <= off < b0 + len msgs ->
  exists r k, NewReader l off = Some (inr r) /\ Z.of_nat k <= off - b0 /\
    forall n, let avail := concat (drop k msgs) in
      exists r', ReaderRead l r n =
        Some (take n avail, if decide (length avail < n)%nat then Some EOF else None, r').
Proof.
  intros Hh Hmax Hoff. destruct (NewReader_at l b0 msgs off Hh Hmax Hoff) as (r & k & E & Hk & Hat).
  exists r, k. split; [exact E|]. split; [exact Hk|]. intros n.
  destruct (readerAt_read l r _ n Hat) as (r' & Er & _). exists r'. exact Er.
Qed.
