(* ===== verification/LogCompact.v ===== *)
(** * Compaction and reopening

    What [CompactCleaner.Clean] does to the segment that [split] has just
    created, and what [BuildIndex] makes of a log file. *)
From S2P Require Import Prelude Encoder LogMessage Index Segment CommitLog.

(** ** The active segment after compaction *)

(** The segment pointer [id] refers to a closed segment. *)
Definition is_closed (l : CommitLog) (id : nat) : Prop :=
  exists s, heap l !! id = Some s /\ closed s = true.

Lemma SClose_closed l l' id u : on_segment id SClose l = Ret u l' ->
  is_closed l' id /\ length (heap l') = length (heap l) /\
  forall x, x <> id -> heap l' !! x = heap l !! x.
Proof.
  unfold on_segment, SClose. destruct (heap l !! id) as [s|] eqn:E; [|discriminate].
  destruct (closed s) eqn:Ec; [discriminate|]. intros [= _ <-]. cbn. split_and!.
  - eexists. split; [cbn; apply list_lookup_insert_eq; apply lookup_lt_Some in E; exact E|reflexivity].
  - apply length_insert.
  - intros x Hx. apply list_lookup_insert_ne. congruence.
Qed.

Lemma new_segment_heap l l' b m c id : new_segment b m c l = Ret id l' ->
  id = length (heap l) /\ exists s, heap l' = heap l ++ [s].
Proof.
  unfold new_segment. destruct (NewSegment b m c (fs l)) as [s d|e d|]; try discriminate.
  intros [= <- <-]. cbn. eauto.
Qed.

(** [cs.Replace(old)] leaves [old] closed. *)
Lemma Replace_closes l l' cs old u :
  Replace cs old l = Ret u l' -> cs <> old ->
  is_closed l' old /\ length (heap l') = length (heap l).
Proof.
  intros H Hne. unfold Replace in H.
  apply bind_inv in H as (u1 & l1 & H1 & H). apply SClose_closed in H1 as (Hc1 & Hl1 & _).
  apply bind_inv in H as (u2 & l2 & H2 & H). apply SClose_closed in H2 as (_ & Hl2 & Hx2).
  apply bind_inv in H as (o & l3 & H3 & H). unfold seg in H3.
  destruct (heap l2 !! old) as [so|] eqn:Eo; [|discriminate]. injection H3 as <- <-.
  apply bind_inv in H as (c & l4 & H4 & H). unfold seg in H4.
  destruct (heap l2 !! cs) as [sc|] eqn:Ec; [|discriminate]. injection H4 as <- <-.
  erewrite bind_Ret in H by reflexivity.
  destruct (rename (logPath sc) (logPath so) (fs l2)) as [d1|]; [|discriminate].
  erewrite bind_Ret in H by reflexivity.
  destruct (rename (indexPath sc) (indexPath so) d1) as [d2|]; [|discriminate].
  erewrite bind_Ret in H by reflexivity.
  apply bind_inv in H as (id & l5 & H5 & H). apply new_segment_heap in H5 as (-> & s & Hh).
  apply bind_inv in H as (s5 & l6 & H6 & H). unfold seg in H6.
  destruct (heap l5 !! _) as [s6|]; [|discriminate]. injection H6 as _ <-.
  erewrite bind_Ret in H by reflexivity. injection H as _ <-. cbn in *. rewrite Hh.
  rewrite take_app_length. split; [|rewrite length_insert; congruence].
  destruct Hc1 as (s1 & Hs1 & Hcl). exists s1. split; [|exact Hcl]. cbn.
  rewrite list_lookup_insert_ne by congruence. rewrite Hx2 by congruence. exact Hs1.
Qed.

(** The loop of the cleaner ends by replacing the last segment of its list. *)
Lemma compactLoop_closes Hash ids : forall last l l' out,
  compactLoop Hash (ids ++ [last]) l = Ret out l' -> is_closed l' last.
Proof.
  assert (Hpre : forall ds l (k : list nat) (A : Type) (f : nat -> M CommitLog A) b l',
    (s ← seg ds; cs ← new_segment (BaseOffset s) (maxBytes s) true; f cs) l = Ret b l' ->
    exists l1, (ds < length (heap l))%nat /\ f (length (heap l)) l1 = Ret b l').
  { intros ds l k A f b l' H. apply bind_inv in H as (s & l1 & H1 & H). unfold seg in H1.
    destruct (heap l !! ds) eqn:E; [|discriminate]. injection H1 as _ <-.
    apply bind_inv in H as (cs & l2 & H2 & H). apply new_segment_heap in H2 as [-> _].
    apply lookup_lt_Some in E. eauto. }
  induction ids as [|ds ids IH]; intros last l l' out H; cbn [app compactLoop] in H.
  - apply Hpre in H as (l1 & Hlt & H); [|exact []].
    apply bind_inv in H as (mss & l2 & _ & H). apply bind_inv in H as (u & l3 & _ & H).
    apply bind_inv in H as (u' & l4 & H4 & H). erewrite bind_Ret in H by reflexivity.
    injection H as _ <-. eapply Replace_closes; [exact H4|lia].
  - apply Hpre in H as (l1 & Hlt & H); [|exact []].
    apply bind_inv in H as (mss & l2 & _ & H). apply bind_inv in H as (u & l3 & _ & H).
    apply bind_inv in H as (u' & l4 & H4 & H). apply bind_inv in H as (rest & l5 & H5 & H).
    injection H as _ <-. eapply IH, H5.
Qed.

(** With the compact policy, [split] stores a pointer to a segment that the
    cleaner has closed. *)
Lemma compact_split_closed Hash l l' u :
  compact l = true -> split Hash l = Ret u l' -> is_closed l' (active l').
Proof.
  intros Hc H. unfold split in H.
  apply bind_inv in H as (newest & l1 & H1 & H).
  assert (l1 = l) as ->.
  { unfold NewestOffset, activeSegment in H1. rewrite bind_assoc in H1. erewrite bind_Ret in H1 by reflexivity.
    unfold seg, mbind, M_bind in H1. destruct (heap l !! active l); [injection H1 as _ <-; reflexivity|discriminate]. }
  erewrite bind_Ret in H by reflexivity. apply bind_inv in H as (id & l2 & H2 & H).
  erewrite bind_Ret in H by reflexivity. apply bind_inv in H as (ids & l3 & H3 & H).
  erewrite bind_Ret in H by reflexivity. injection H as _ <-. cbn.
  assert (Hc2 : compact l2 = true).
  { unfold new_segment in H2. destruct (NewSegment _ _ _ _); try discriminate. injection H2 as _ <-. exact Hc. }
  unfold Clean in H3. rewrite Hc2 in H3. unfold CompactClean in H3.
  apply bind_inv in H3 as (u3 & l4 & _ & H3). apply compactLoop_closes in H3.
  destruct H3 as (s & Hs & Hcl). exists s. auto.
Qed.

(** Every write to it fails. *)
Lemma append_closed l b : is_closed l (active l) -> (8 <= length b)%nat ->
  exists l', appendActive b l = Fail ErrClosed l'.
Proof.
  intros (s & Hs & Hc) Hb. unfold appendActive. rewrite (bind_active s) by exact Hs.
  rewrite PutOffset_Some by exact Hb. erewrite bind_Ret by reflexivity. erewrite bind_Ret by reflexivity.
  eexists. erewrite bind_Fail; [reflexivity|].
  unfold on_segment. rewrite Hs. unfold Write. rewrite Hc. reflexivity.
Qed.

(** ** Rebuilding the index *)

(** A log file with two sets: the second is read at the wrong place, and the
    segment reopens as if it held one. *)
Definition twoSets : list byte :=
  LogMessageSet.NewMessageSet 0 [layout sample] ++ LogMessageSet.NewMessageSet 1 [layout sample].
Example reopen_loses_set :
  match NewSegment 0 1024 false (<[mkName 0 KLog false := twoSets]> ∅) with
  | Ret s _ => Some (NextOffset s, SPosition s, len twoSets)
  | _ => None
  end = Some (1, 28, 56).
Proof. vm_compute. reflexivity. Qed.

(** Three appends under the compact policy: the last one splits, and fails. *)
Example compact_append_fails :
  match New ∅ 30 (-1) "compact" with
  | Ret _ l =>
      let m := LogMessageSet.NewMessageSet 0 [layout sample] in
      match (Append len m ≫= fun _ => Append len m) l with
      | Ret o l => Some (o, match Append len m l with Fail e _ => Some e | _ => None end)
      | _ => None
      end
  | _ => None
  end = Some (1, Some ErrClosed).
Proof. vm_compute. reflexivity. Qed.
