(* ===== verification/LogService.v ===== *)
(** * The commit log as the broker sees it

    [src/jocko/commitlog.go]: the interface through which the broker uses a log
    ([CommitLogOps]), the promises its handlers rely on ([CommitLogLaws]), and
    the proof that the commit log keeps them. *)
From S2P Require Import Prelude Encoder LogMessage Index Segment CommitLog LogReader.

(** [R] is the type of readers; [log_read l r n] is [r.Read] into a buffer of [n]
    bytes.  [None] and [Crash] are panics. *)
Class CommitLogOps (L R : Type) := {
  log_append : list byte -> M L Z;
  log_newest : M L Z;
  log_oldest : M L Z;
  log_truncate : Z -> M L unit;
  log_delete : M L unit;
  log_reader : Z -> L -> option (error + R);
  log_read : L -> R -> nat -> option (list byte * option error * R) }.

(** [log_holds l b0 msgs]: the log is usable and holds the sets [msgs], numbered
    from [b0].  [reader_at l r bs]: the reader [r] has the bytes [bs] before it. *)
Class CommitLogLaws (L R : Type) `{CommitLogOps L R} := {
  log_holds : L -> Z -> list (list byte) -> Prop;
  reader_at : L -> R -> list byte -> Prop;
  law_append l b0 msgs b :
    log_holds l b0 msgs -> (8 <= length b)%nat -> in_int 64 (b0 + len msgs) ->
    exists l' dropped kept m, log_append b l = Ret (b0 + len msgs) l' /\
      LogMessageSet.PutOffset b (b0 + len msgs) = Some m /\ msgs = dropped ++ kept /\
      log_holds l' (b0 + len dropped) (kept ++ [m]);
  law_newest l b0 msgs : log_holds l b0 msgs -> log_newest l = Ret (b0 + len msgs) l;
  law_oldest l b0 msgs : log_holds l b0 msgs -> log_oldest l = Ret b0 l;
  law_truncate l b0 : log_holds l b0 [] -> log_truncate b0 l = Ret tt l;
  law_stored l b0 msgs i m : log_holds l b0 msgs -> msgs !! i = Some m ->
    LogMessageSet.Offset m = Some (b0 + Z.of_nat i) /\ (8 <= length m)%nat;
  law_reader l b0 msgs off : log_holds l b0 msgs -> b0 <= off < b0 + len msgs ->
    exists r k, log_reader off l = Some (inr r) /\ Z.of_nat k <= off - b0 /\
      reader_at l r (concat (drop k msgs));
  law_read l r bs n : reader_at l r bs ->
    exists r', log_read l r n =
      Some (take n bs, if decide (length bs < n)%nat then Some EOF else None, r') /\
      reader_at l r' (drop n bs) }.

(** ** Directories

    A log keeps its files in a directory, which outlives it: [dir_of l] are the
    files as [l] left them, [in_dir d l] is [l] over the directory as it is now,
    and [log_new] is [commitlog.New] over a directory. *)
Class LogDirs (D L : Type) := {
  dir_empty : D;
  dir_of : L -> D;
  in_dir : D -> L -> L;
  log_new : Z -> Z -> string -> D -> outcome L unit }.

Class LogDirLaws (D L R : Type) `{CommitLogLaws L R} `{LogDirs D L} := {
  law_in_dir l : in_dir (dir_of l) l = l;
  law_new max maxLog : 0 < max <= 2 ^ 22 ->
    exists l, log_new max maxLog "delete" dir_empty = Ret tt l /\ log_holds l 0 [] }.

(** ** The commit log keeps the promises *)
Section instance.
(** [Hash] is the hash of the compact cleaner. *)
Context (Hash : list byte -> Z).

#[local] Instance CommitLog_ops : CommitLogOps CommitLog Reader := {
  log_append := Append Hash;
  log_newest := NewestOffset;
  log_oldest := OldestOffset;
  log_truncate := Truncate;
  log_delete := LogDelete;
  log_reader off l := NewReader l off;
  log_read := ReaderRead }.

(** A log with the delete policy and segments of at most 4 MiB. *)
Definition usable (l : CommitLog) (b0 : Z) (msgs : list (list byte)) : Prop :=
  holds l b0 msgs /\ compact l = false /\ 0 < MaxSegmentBytes l <= 2 ^ 22.

Lemma holds_stored l b0 msgs i m : holds l b0 msgs -> msgs !! i = Some m ->
  LogMessageSet.Offset m = Some (b0 + Z.of_nat i) /\ (8 <= length m)%nat.
Proof.
  intros (ids & mss & ms & _ & _ & _ & _ & _ & _ & _ & Ho) Hi.
  pose proof (Ho i m Hi) as E. split; [exact E|]. unfold LogMessageSet.Offset, between in E.
  rewrite decide_True in E by lia. case_decide as Hl; [|discriminate]. unfold len in Hl. lia.
Qed.

(** An empty log has one segment, which starts at its first offset. *)
Lemma truncate_empty l b0 : holds l b0 [] -> Truncate b0 l = Ret tt l.
Proof.
  intros (ids & mss & ms & Hseg & _ & _ & Hsl & (s & Hs & Hb & _) & _ & Hm & _).
  symmetry in Hm. apply app_eq_nil in Hm as [Hc _].
  destruct mss as [|m mss].
  - destruct ids; [|destruct Hsl]. unfold Truncate. erewrite bind_Ret by reflexivity. rewrite Hseg. cbn [app truncateLoop].
    erewrite bind_Ret.
    2:{ erewrite bind_seg by exact Hs. rewrite Hb. cbn [concat]. change (len (@nil (list byte))) with 0.
        rewrite Z.add_0_r, Z.ltb_irrefl. reflexivity. }
    unfold modify. rewrite <- Hseg || (change [active l] with ([] ++ [active l]); rewrite <- Hseg).
    destruct l; reflexivity.
  - destruct ids; [destruct Hsl|]. destruct Hsl as (Hne & _). destruct m; [congruence|discriminate].
Qed.

#[local] Instance CommitLog_laws : CommitLogLaws CommitLog Reader.
Proof.
  refine {| log_holds := usable; reader_at := readerAt |}.
  - intros l b0 msgs b (Hh & Hc & Hm) Hb H64.
    destruct (Append_spec Hash l b0 msgs b Hh Hc Hm Hb H64) as (l' & dr & kept & m & E & Ep & Em & Hh' & E1 & _ & E3 & _).
    exists l', dr, kept, m. split_and!; auto. split_and!; auto; congruence || (rewrite E1; lia).
  - intros l b0 msgs (Hh & _). exact (proj1 (newest_spec l b0 msgs Hh)).
  - intros l b0 msgs (Hh & _). exact (proj2 (newest_spec l b0 msgs Hh)).
  - intros l b0 (Hh & _). exact (truncate_empty l b0 Hh).
  - intros l b0 msgs i m (Hh & _). exact (holds_stored l b0 msgs i m Hh).
  - intros l b0 msgs off (Hh & _ & Hm) Hoff. apply NewReader_at; [exact Hh|lia|exact Hoff].
  - intros l r bs n. apply readerAt_read.
Defined.

#[local] Instance CommitLog_dirs : LogDirs FS CommitLog := {
  dir_empty := ∅;
  dir_of := fs;
  in_dir := set_fs;
  log_new max maxLog policy d := New d max maxLog policy }.

#[local] Instance CommitLog_dir_laws : LogDirLaws FS CommitLog Reader.
Proof.
  split.
  - intros []. reflexivity.
  - intros max maxLog Hm. destruct (New_empty max maxLog "delete" ltac:(lia)) as (l & E & Hl & H1 & _ & H3).
    exists l. split; [exact E|]. split_and!; [exact Hl|exact H3|lia|lia].
Qed.
End instance.
