(* ===== verification/IntIndex.v ===== *)
(** * Integer keys of the store

    [src/jocko/fsm/index.go]: the indexer that turns an integer field of a
    stored object, or an integer argument of a lookup, into the bytes under
    which the object is kept.  The bytes are a varint of [encoding/binary] in a
    buffer whose size depends on the width of the integer. *)
From S2P Require Import Prelude.
From Stdlib Require Import Strings.Byte.

(** ** [binary.PutVarint] *)

(** The zig-zag image of an [int64]. *)
Definition zigzag (x : Z) : Z :=
  let ux := uint64 (Z.shiftl (uint64 x) 1) in
  if x <? 0 then uint64 (Z.lnot ux) else ux.

(** Seven bits a byte, the high bit set on all but the last; the loop of
    [PutUvarint] ends after ten rounds, a [uint64] having no more bits. *)
Fixpoint uvarint (fuel : nat) (x : Z) : list byte :=
  match fuel with
  | O => [byte_of_Z x]
  | S fuel => if x <? 128 then [byte_of_Z x]
              else byte_of_Z (Z.lor (x mod 256) 128) :: uvarint fuel (Z.shiftr x 7)
  end.

(** The bytes written at the start of a zeroed buffer of [size] bytes; an index
    panic when they do not fit. *)
Definition PutVarint (size : nat) (x : Z) : option (list byte) :=
  let bs := uvarint 9 (zigzag x) in
  if decide (length bs <= size)%nat then Some (bs ++ zeros (size - length bs)) else None.

(** ** [IntFieldIndex] *)

(** [reflect.Kind], as far as the indexer tells kinds apart. *)
Inductive Kind := KInt | KInt8 | KInt16 | KInt32 | KInt64 | KOther.

Definition IsIntType (k : Kind) : option nat :=
  match k with
  | KInt => Some 10%nat
  | KInt8 => Some 2%nat
  | KInt16 => Some 3%nat
  | KInt32 => Some 5%nat
  | KInt64 => Some 10%nat
  | KOther => None
  end.

Definition bits (k : Kind) : Z :=
  match k with KInt8 => 8 | KInt16 => 16 | KInt32 => 32 | _ => 64 end.

Definition key (k : Kind) (v : Z) : M unit (list byte) := fun s =>
  match IsIntType k with
  | None => Fail (ErrOther "want a int") s
  | Some size => match PutVarint size v with Some b => Ret b s | None => Crash end
  end.

(** An object is seen through reflection: the kind and value of a field, if
    there is a field of that name. *)
Definition FromObject (field : string) (obj : string -> option (Kind * Z)) : M unit (bool * list byte) :=
  match obj field with
  | None => throw (ErrOther "field is invalid")
  | Some (k, v) => b ← key k v; mret (true, b)
  end.

Definition FromArgs (args : list (Kind * Z)) : M unit (list byte) :=
  match args with
  | [(k, v)] => key k v
  | _ => throw (ErrOther "must provide only a single argument")
  end.

(** ** The varint is a prefix-free code *)
Lemma zigzag_spec x : in_int 64 x -> zigzag x = if x <? 0 then - 2 * x - 1 else 2 * x.
Proof.
  unfold in_int. intros Hx. unfold zigzag, uint64, zext.
  rewrite Z.shiftl_mul_pow2, Zmult_mod_idemp_l by lia. change (2 ^ 1) with 2.
  destruct (Z.ltb_spec x 0).
  - rewrite <- (Z.mod_unique (x * 2) (2 ^ 64) (-1) (x * 2 + 2 ^ 64)) by lia.
    rewrite <- (Z.mod_unique (Z.lnot (x * 2 + 2 ^ 64)) (2 ^ 64) (-1) (- 2 * x - 1)); unfold Z.lnot; lia.
  - rewrite Z.mod_small; lia.
Qed.

Lemma zigzag_inj x y : in_int 64 x -> in_int 64 y -> zigzag x = zigzag y -> x = y.
Proof.
  intros Hx Hy. rewrite !zigzag_spec by assumption.
  destruct (Z.ltb_spec x 0), (Z.ltb_spec y 0); lia.
Qed.

(** A field of [w] bits has a zig-zag image of [w] bits. *)
Lemma zigzag_range w x : 0 < w <= 64 -> in_int w x -> 0 <= zigzag x < 2 ^ w.
Proof.
  intros Hw Hx. assert (Hp : 2 ^ w = 2 * 2 ^ (w - 1)).
  { rewrite <- Z.pow_succ_r by lia. f_equal. lia. }
  assert (H64 : in_int 64 x).
  { pose proof (Z.pow_le_mono_r 2 (w - 1) (64 - 1)). unfold in_int in *. lia. }
  rewrite zigzag_spec by exact H64. unfold in_int in Hx. destruct (Z.ltb_spec x 0); lia.
Qed.

Lemma shiftr7_range n x : 0 <= x < 2 ^ (7 * Z.of_nat (S n)) ->
  0 <= Z.shiftr x 7 < 2 ^ (7 * Z.of_nat n).
Proof.
  intros Hx. rewrite Z.shiftr_div_pow2 by lia.
  replace (7 * Z.of_nat (S n)) with (7 + 7 * Z.of_nat n) in Hx by lia.
  rewrite Z.pow_add_r in Hx by lia.
  split; [apply Z.div_pos; lia|apply Z.div_lt_upper_bound; lia].
Qed.

Lemma uvarint_length fuel n x : 0 <= x < 2 ^ (7 * Z.of_nat (S n)) ->
  (length (uvarint fuel x) <= S n)%nat.
Proof.
  revert n x. induction fuel as [|fuel IH]; intros n x Hx; cbn [uvarint]; [simpl; lia|].
  destruct (Z.ltb_spec x 128); [simpl; lia|]. cbn [length].
  destruct n as [|n]; [change (7 * Z.of_nat 1) with 7 in Hx; lia|].
  apply le_n_S, IH, shiftr7_range, Hx.
Qed.

Lemma high_byte x : 0 <= x -> Z_of_byte (byte_of_Z (Z.lor (x mod 256) 128)) = 128 + x mod 128.
Proof.
  intros Hx. rewrite Z_of_byte_of_Z.
  assert (E : forall a, 0 <= a < 256 -> Z.lor a 128 mod 256 = 128 + a mod 128).
  { intros a Ha. replace a with (Z.of_nat (Z.to_nat a)) by lia.
    assert (Hn : (Z.to_nat a < 256)%nat) by lia. revert Hn. generalize (Z.to_nat a). intros n Hn.
    do 256 (destruct n as [|n]; [reflexivity|]). lia. }
  rewrite E by (apply Z.mod_pos_bound; lia). f_equal.
  apply Z.mod_mod_divide. exists 2. reflexivity.
Qed.

Lemma uvarint_prefix fuel x y r s :
  0 <= x < 2 ^ (7 * Z.of_nat (S fuel)) -> 0 <= y < 2 ^ (7 * Z.of_nat (S fuel)) ->
  uvarint fuel x ++ r = uvarint fuel y ++ s -> x = y.
Proof.
  assert (Hlow : forall z, 0 <= z < 128 -> Z_of_byte (byte_of_Z z) = z)
    by (intros; rewrite Z_of_byte_of_Z; apply Z.mod_small; lia).
  revert x y r s. induction fuel as [|fuel IH]; intros x y r s Hx Hy; cbn [uvarint app].
  - change (2 ^ _) with 128 in *. intros [= E _]. apply (f_equal Z_of_byte) in E.
    rewrite !Hlow in E by lia. exact E.
  - pose proof (Z.mod_pos_bound x 128). pose proof (Z.mod_pos_bound y 128).
    destruct (Z.ltb_spec x 128), (Z.ltb_spec y 128); cbn [app]; intros [= E1 E2];
      apply (f_equal Z_of_byte) in E1; rewrite ?(high_byte x), ?(high_byte y), ?(Hlow x), ?(Hlow y) in E1 by lia; try lia.
    apply IH in E2.
    + rewrite !Z.shiftr_div_pow2 in E2 by lia. change (2 ^ 7) with 128 in E2.
      pose proof (Z.div_mod x 128). pose proof (Z.div_mod y 128). lia.
    + apply shiftr7_range, Hx.
    + apply shiftr7_range, Hy.
Qed.

(** The key of a value of an integer kind: it exists and has the size of the
    kind. *)
Lemma key_total k v size : IsIntType k = Some size -> in_int (bits k) v ->
  exists b, key k v tt = Ret b tt /\ length b = size /\
    exists pad, b = uvarint 9 (zigzag v) ++ pad.
Proof.
  intros Hk Hv. unfold key. rewrite Hk. unfold PutVarint.
  assert (Hl : (length (uvarint 9 (zigzag v)) <= size)%nat).
  { pose proof (zigzag_range (bits k) v ltac:(destruct k; simpl; lia) Hv) as Hz.
    destruct size as [|n]; [destruct k; discriminate|]. apply uvarint_length.
    split; [apply Hz|]. eapply Z.lt_le_trans; [apply Hz|].
    apply Z.pow_le_mono_r; [lia|]. destruct k; simplify_eq/=; lia. }
  rewrite decide_True by exact Hl. eexists. split; [reflexivity|]. split; [|eexists; reflexivity].
  rewrite length_app, length_zeros. lia.
Qed.
