(* ===== verification/Structs.v ===== *)
(** * The structs of the store

    [src/jocko/structs]: what the replicated store keeps.  A nil map is the
    empty one: the store never writes into a map of a struct it was given. *)
From S2P Require Import Prelude.

(** [interface{}] values of configuration entries; a float as a fraction. *)
Inductive value := VString (s : string) | VInt (z : Z) | VBool (b : bool) | VFloat (num den : Z).
#[global] Instance value_eq_dec : EqDecision value. Proof. solve_decision. Defined.

(** ** Topic configuration: [topic_config.go] *)
Module TopicConfig.
Record Entry := mkEntry {
  Name : string; Default : option value; ValidValues : list value; Value : option value;
  ServerDefault : string }.
#[global] Instance entry_eq_dec : EqDecision Entry. Proof. solve_decision. Defined.
Abbreviation t := (gmap string Entry).

Definition Set_ (e : Entry) (c : t) : t := <[Name e := e]> c.

(** A missing entry is the zero entry. *)
Definition zero : Entry := mkEntry "" None [] None "".
Definition Get (c : t) (name : string) : Entry := default zero (c !! name).

(** [None] is nil. *)
Definition GetValue (c : t) (name : string) : option value :=
  match c !! name with
  | None => None
  | Some e => match Value e with Some v => Some v | None => Default e end
  end.

Definition SetValue (c : t) (name : string) (v : option value) : t :=
  match c !! name with
  | None => c
  | Some e => <[name := mkEntry (Name e) (Default e) (ValidValues e) v (ServerDefault e)]> c
  end.

Definition entry (name : string) (d : option value) (server : string) : Entry :=
  mkEntry name d [] None server.
Definition defaults : list Entry := [
  entry "cleanup.policy" (Some (VString "delete")) "log.cleanup.policy";
  entry "compression.type" (Some (VString "producer")) "compression.type";
  entry "delete.retention.ms" (Some (VInt 86400000)) "log.cleaner.delete.retention.ms";
  entry "file.delete.delay.ms" (Some (VInt 60000)) "log.segment.delete.delay.ms";
  entry "flush.messages" (Some (VInt 9223372036854)) "log.flush.interval.messages";
  entry "flush.ms" (Some (VInt 9223372036854775807)) "log.flush.interval.ms";
  entry "follower.replication.throttled.replicas" (None) "follower.replication.throttled.replicas";
  entry "index.interval.bytes" (Some (VInt 4096)) "log.index.interval.bytes";
  entry "leader.replication.throttled.replicas" (None) "leader.replication.throttled.replicas";
  entry "max.message.bytes" (Some (VInt 1000012)) "message.max.bytes";
  entry "message.format.version" (Some (VString "1.1-IV0")) "log.message.format.version";
  entry "message.timestamp.difference.max.ms" (Some (VInt 9223372036854775807)) "log.message.timestamp.difference.max.ms";
  entry "message.timestamp.type" (Some (VString "CreateTime")) "";
  entry "min.cleanable.dirty.ratio" (Some (VFloat 1 2)) "log.cleaner.min.cleanable.ratio";
  entry "min.compaction.lag.ms" (Some (VInt 0)) "log.cleaner.min.compaction.lag.ms";
  entry "min.insync.replicas" (Some (VInt 1)) "min.insync.replicas";
  entry "preallocate" (Some (VBool false)) "log.preallocate";
  entry "retention.bytes" (Some (VInt (-1))) "log.retention.bytes";
  entry "retention.ms" (Some (VInt 604800000)) "log.retention.ms" ].
Definition segmentDefaults : list Entry := [
  entry "segment.bytes" (Some (VInt 1073741824)) "log.segment.bytes";
  entry "segment.index.bytes" (Some (VInt 10485760)) "log.index.size.max.bytes";
  entry "segment.jitter.ms" (Some (VInt 0)) "log.roll.jitter.ms";
  entry "segment.ms" (Some (VInt 604800000)) "log.roll.ms";
  entry "unclean.leader.election.enable" (Some (VString "false")) "unclean.leader.election.enable" ].
Definition NewTopicConfig : t := foldl (fun c e => Set_ e c) ∅ (defaults ++ segmentDefaults).

Lemma SetValue_GetValue c name v :
  GetValue (SetValue c name (Some v)) name = (if decide (is_Some (c !! name)) then Some v else None).
Proof.
  unfold SetValue, GetValue. destruct (c !! name) as [e|] eqn:E.
  - rewrite lookup_insert_eq, decide_True by eauto. reflexivity.
  - rewrite E, decide_False by (intros [? ?]; discriminate). reflexivity.
Qed.

Lemma SetValue_other c name name' v : name <> name' -> GetValue (SetValue c name v) name' = GetValue c name'.
Proof.
  intros Hn. unfold SetValue, GetValue. destruct (c !! name) as [e|]; [|reflexivity].
  rewrite lookup_insert_ne by exact Hn. reflexivity.
Qed.
End TopicConfig.

(** ** [structs.go] *)
Module RaftIndex.
Record t := mk { CreateIndex : Z; ModifyIndex : Z }.
#[global] Instance eq_dec : EqDecision t. Proof. solve_decision. Defined.
Definition zero : t := mk 0 0.
End RaftIndex.

Module HealthCheck.
Record t := mk { Node : string; CheckID : string; Name : string; Status : string; Output : string; Raft : RaftIndex.t }.
#[global] Instance eq_dec : EqDecision t. Proof. solve_decision. Defined.
End HealthCheck.

Definition SerfCheckID : string := "serf health".
Definition SerfCheckName : string := "Serf health status".
Definition SerfCheckAliveOutput : string := "Node alive and reachable".
Definition SerfCheckFailedOutput : string := "Node not live or unreachable".
Definition HealthPassing : string := "passing".
Definition HealthCritical : string := "critical".

Module Node.
Record t := mk {
  ID : Z; Node : Z; Address : string; Check : option HealthCheck.t; Meta : gmap string string;
  Raft : RaftIndex.t }.
#[global] Instance eq_dec : EqDecision t. Proof. solve_decision. Defined.
Definition set_raft (r : RaftIndex.t) (n : t) : t := mk (ID n) (Node n) (Address n) (Check n) (Meta n) r.
End Node.

Module Topic.
Record t := mk {
  ID : string; Topic : string; Partitions : gmap Z (list Z); Config : option TopicConfig.t;
  Internal : bool; Raft : RaftIndex.t }.
#[global] Instance eq_dec : EqDecision t. Proof. solve_decision. Defined.
Definition set_raft (r : RaftIndex.t) (x : t) : t :=
  mk (ID x) (Topic x) (Partitions x) (Config x) (Internal x) r.
(** [if topic.Config == nil { topic.Config = structs.NewTopicConfig() }] *)
Definition with_config (x : t) : t :=
  mk (ID x) (Topic x) (Partitions x)
    (Some match Config x with Some c => c | None => TopicConfig.NewTopicConfig end) (Internal x) (Raft x).
End Topic.

Module Partition.
Record t := mk {
  ID : Z; Partition : Z; Topic : string; ISR : list Z; AR : list Z; Leader : Z;
  ControllerEpoch : Z; LeaderEpoch : Z; Raft : RaftIndex.t }.
#[global] Instance eq_dec : EqDecision t. Proof. solve_decision. Defined.
Definition set_raft (r : RaftIndex.t) (p : t) : t :=
  mk (ID p) (Partition p) (Topic p) (ISR p) (AR p) (Leader p) (ControllerEpoch p) (LeaderEpoch p) r.
End Partition.

Module Member.
Record t := mk { ID : string; Metadata : option (list byte); Assignment : option (list byte) }.
#[global] Instance eq_dec : EqDecision t. Proof. solve_decision. Defined.
End Member.

Definition GroupStatePreparingRebalance : Z := 0.
Definition GroupStateCompletingRebalance : Z := 1.
Definition GroupStateStable : Z := 2.
Definition GroupStateDead : Z := 3.
Definition GroupStateEmpty : Z := 4.

Module Group.
Record t := mk {
  ID : string; Group : string; Coordinator : Z; LeaderID : string; Members : gmap string Member.t;
  State : Z; GenerationID : Z; Raft : RaftIndex.t }.
#[global] Instance eq_dec : EqDecision t. Proof. solve_decision. Defined.
Definition set_raft (r : RaftIndex.t) (g : t) : t :=
  mk (ID g) (Group g) (Coordinator g) (LeaderID g) (Members g) (State g) (GenerationID g) r.
End Group.

(** Message types, the first byte of an entry of the raft log. *)
Definition RegisterNodeRequestType : Z := 0.
Definition DeregisterNodeRequestType : Z := 1.
Definition RegisterTopicRequestType : Z := 2.
Definition DeregisterTopicRequestType : Z := 3.
Definition RegisterPartitionRequestType : Z := 4.
Definition DeregisterPartitionRequestType : Z := 5.
Definition RegisterGroupRequestType : Z := 6.

(** The msgpack codec of a request struct, a library: [None] is an error.  Each
    request struct has one field, so it is its field's struct. *)
Class Msgpack (A : Type) := {
  mp_encode : A -> option (list byte);
  mp_decode : list byte -> option A }.

(** [structs.Encode] and [structs.Decode]: the type's byte, then msgpack. *)
Definition Encode {A} `{Msgpack A} (t : Z) (msg : A) : option (list byte) :=
  b ← mp_encode msg; Some (byte_of_Z t :: b).
Definition Decode {A} `{Msgpack A} (buf : list byte) : option A := mp_decode buf.
