(* ===== verification/Store.v ===== *)
(** * The replicated store

    [src/jocko/fsm]: the tables of nodes, topics, partitions and groups, the
    commands of the raft log that change them, and snapshots.  The database is
    go-memdb, a library: the class [Memdb] holds the operations the code calls,
    [MemdbLaws] what its documentation promises of them.  [Tables], five finite
    maps, is an instance. *)
From S2P Require Import Prelude Structs.
From Stdlib Require Import Strings.Byte.

Module IndexEntry.
Record t := mk { Key : string; Value : Z }.
#[global] Instance eq_dec : EqDecision t. Proof. solve_decision. Defined.
End IndexEntry.

(** ** The schema *)

(** A table, with the types of its unique index ["id"] and of its objects. *)
Inductive table : Type -> Type -> Type :=
| Indexes : table string IndexEntry.t
| Nodes : table Z Node.t
| Topics : table string Topic.t
| Partitions : table (string * Z) Partition.t
| Groups : table string Group.t.

Definition tableName {K V} (t : table K V) : string :=
  match t with
  | Indexes => "index" | Nodes => "nodes" | Topics => "topics"
  | Partitions => "partitions" | Groups => "groups"
  end.

(** The fields of the index ["id"]. *)
Definition idOf {K V} (t : table K V) : V -> K :=
  match t with
  | Indexes => IndexEntry.Key
  | Nodes => Node.Node
  | Topics => Topic.Topic
  | Partitions => fun p => (Partition.Topic p, Partition.Partition p)
  | Groups => Group.Group
  end.

(** A string field is missing when it is empty; a table whose index does not
    allow it refuses the object.  Integers and the metadata of nodes may have
    any value. *)
Definition indexable {K V} (t : table K V) : V -> bool :=
  match t with
  | Indexes => fun e => negb (bool_decide (IndexEntry.Key e = ""))
  | Nodes => fun _ => true
  | Topics => fun x => negb (bool_decide (Topic.Topic x = ""))
  | Partitions => fun p => negb (bool_decide (Partition.Topic p = ""))
  | Groups => fun g => negb (bool_decide (Group.Group g = ""))
  end.

(** The secondary indexes that the code reads. *)
Inductive intIndex : Type -> Type -> Type :=
| Leader : intIndex (string * Z) Partition.t
| Coordinator : intIndex string Group.t.
Definition indexTable {K V} (i : intIndex K V) : table K V :=
  match i with Leader => Partitions | Coordinator => Groups end.
Definition indexField {K V} (i : intIndex K V) : V -> Z :=
  match i with Leader => Partition.Leader | Coordinator => Group.Coordinator end.

Definition key_dec {K V} (t : table K V) : EqDecision K.
Proof. destruct t; apply _. Defined.

(** The indexes declared with [Lowercase: true] keep and look up their keys in
    lower case ([strings.ToLower], a parameter). *)
Section keys.
Context (ToLower : string -> string).
Definition norm {K V} (t : table K V) : K -> K :=
  match t with
  | Indexes => ToLower
  | Nodes => fun k => k
  | Topics => ToLower
  | Partitions => fun k => k
  | Groups => ToLower
  end.
#[global] Instance norm_eq_dec {K V} (t : table K V) k k' : Decision (norm t k = norm t k') :=
  key_dec t _ _.
End keys.

(** Two objects that every index of the table keeps under the same value. *)
Definition sameIndexed {K V} (t : table K V) : V -> V -> Prop :=
  match t with
  | Partitions => fun v w => Partition.Leader v = Partition.Leader w
  | Groups => fun v w => Group.Coordinator v = Group.Coordinator w
  | _ => fun _ _ => True
  end.

(** ** The database

    [First] and the others hand out pointers to the objects of a table: [Write]
    is an assignment to the fields of the object found under the key of [v],
    after which it is [v].  The indexes do not notice. *)
Class Memdb (DB : Type) := {
  NewMemDB : DB;
  First {K V} : table K V -> K -> DB -> option V;
  Insert {K V} : table K V -> V -> DB -> option DB;
  Delete {K V} : table K V -> V -> DB -> option DB;
  Write {K V} : table K V -> V -> DB -> DB;
  Get {K V} : table K V -> DB -> list V;
  GetBy {K V} : intIndex K V -> Z -> DB -> list V }.

(** The index has every object of its table, under the value of its field, and
    nothing else.  Objects whose field was written to in place make this false:
    the entry under the old value stays, also when the object is inserted again. *)
Definition indexed {DB} `{Memdb DB} {K V} (i : intIndex K V) (db : DB) : Prop :=
  forall z v, v ∈ GetBy i z db <-> First (indexTable i) (idOf (indexTable i) v) db = Some v /\ indexField i v = z.

Class MemdbLaws (ToLower : string -> string) (DB : Type) `{Memdb DB} := {
  ToLower_table {K V} (t : table K V) : ToLower (tableName t) = tableName t;
  First_new {K V} (t : table K V) k : First t k NewMemDB = None;
  First_norm {K V} (t : table K V) k k' db :
    norm ToLower t k = norm ToLower t k' -> First t k db = First t k' db;
  First_id {K V} (t : table K V) k v db :
    First t k db = Some v -> norm ToLower t (idOf t v) = norm ToLower t k;
  Insert_total {K V} (t : table K V) v db : indexable t v = true -> is_Some (Insert t v db);
  Insert_missing {K V} (t : table K V) v db : indexable t v = false -> Insert t v db = None;
  First_insert {K V} (t : table K V) v db db' :
    Insert t v db = Some db' -> First t (idOf t v) db' = Some v;
  First_insert_ne {K V} (t : table K V) v k db db' :
    Insert t v db = Some db' -> norm ToLower t k <> norm ToLower t (idOf t v) ->
    First t k db' = First t k db;
  First_insert_table {K V K' V'} (t : table K V) (t' : table K' V') v k db db' :
    Insert t v db = Some db' -> tableName t <> tableName t' -> First t' k db' = First t' k db;
  Delete_total {K V} (t : table K V) v db :
    First t (idOf t v) db = Some v -> is_Some (Delete t v db);
  First_delete {K V} (t : table K V) v db db' :
    Delete t v db = Some db' -> First t (idOf t v) db' = None;
  First_delete_ne {K V} (t : table K V) v k db db' :
    Delete t v db = Some db' -> norm ToLower t k <> norm ToLower t (idOf t v) ->
    First t k db' = First t k db;
  First_delete_table {K V K' V'} (t : table K V) (t' : table K' V') v k db db' :
    Delete t v db = Some db' -> tableName t <> tableName t' -> First t' k db' = First t' k db;
  Get_spec {K V} (t : table K V) v db : v ∈ Get t db <-> First t (idOf t v) db = Some v;
  First_write {K V} (t : table K V) v w db :
    First t (idOf t v) db = Some w -> First t (idOf t v) (Write t v db) = Some v;
  First_write_ne {K V} (t : table K V) v k db : norm ToLower t k <> norm ToLower t (idOf t v) ->
    First t k (Write t v db) = First t k db;
  First_write_table {K V K' V'} (t : table K V) (t' : table K' V') v k db :
    tableName t <> tableName t' -> First t' k (Write t v db) = First t' k db;
  indexed_new {K V} (i : intIndex K V) : indexed i NewMemDB;
  indexed_insert {K V K' V'} (i : intIndex K V) (t : table K' V') v db db' :
    Insert t v db = Some db' -> indexed i db -> indexed i db';
  indexed_delete {K V K' V'} (i : intIndex K V) (t : table K' V') v db db' :
    Delete t v db = Some db' -> indexed i db -> indexed i db';
  indexed_write {K V K' V'} (i : intIndex K V) (t : table K' V') v w db :
    First t (idOf t v) db = Some w -> sameIndexed t v w -> indexed i db -> indexed i (Write t v db) }.

(** ** The store: [fsm.go] *)
Section store.
Context {DB : Type} `{Memdb DB}.

(** A write transaction: aborted, with no effect, when an operation fails. *)
Definition txn {A} (m : M DB A) : M DB A := fun db =>
  match m db with Fail e _ => Fail e db | r => r end.

Definition first {K V} (t : table K V) (k : K) : M DB (option V) := gets (First t k).
Definition insert {K V} (t : table K V) (v : V) : M DB unit := fun db =>
  match Insert t v db with
  | Some db => Ret tt db
  | None => Fail (ErrOther "missing value for index") db
  end.
Definition delete {K V} (t : table K V) (v : V) : M DB unit := fun db =>
  match Delete t v db with
  | Some db => Ret tt db
  | None => Fail (ErrOther "not found") db
  end.

Definition raftOf {K V} (t : table K V) : V -> RaftIndex.t :=
  match t with
  | Indexes => fun _ => RaftIndex.zero
  | Nodes => Node.Raft | Topics => Topic.Raft | Partitions => Partition.Raft | Groups => Group.Raft
  end.
Definition setRaft {K V} (t : table K V) (r : RaftIndex.t) : V -> V :=
  match t with
  | Indexes => fun v => v
  | Nodes => Node.set_raft r | Topics => Topic.set_raft r
  | Partitions => Partition.set_raft r | Groups => Group.set_raft r
  end.

(** The create index of the object that is replaced is kept. *)
Definition stamp {K V} (t : table K V) (idx : Z) (existing : option V) (v : V) : V :=
  setRaft t (RaftIndex.mk
    match existing with Some e => RaftIndex.CreateIndex (raftOf t e) | None => idx end idx) v.

(** The shape that the four [ensure...Txn] share. *)
Definition ensureTxn {K V} (t : table K V) (idx : Z) (v : V) : M DB unit :=
  existing ← first t (idOf t v);
  insert t (stamp t idx existing v) ;;
  insert Indexes (IndexEntry.mk (tableName t) idx).
Definition ensureNodeTxn : Z -> Node.t -> M DB unit := ensureTxn Nodes.
Definition ensureTopicTxn : Z -> Topic.t -> M DB unit := ensureTxn Topics.
Definition ensurePartitionTxn : Z -> Partition.t -> M DB unit := ensureTxn Partitions.
Definition ensureGroupTxn : Z -> Group.t -> M DB unit := ensureTxn Groups.

Definition EnsureNode (idx : Z) (node : Node.t) : M DB unit := txn (ensureNodeTxn idx node).
Definition EnsureTopic (idx : Z) (topic : Topic.t) : M DB unit :=
  txn (ensureTopicTxn idx (Topic.with_config topic)).
Definition EnsurePartition (idx : Z) (p : Partition.t) : M DB unit := txn (ensurePartitionTxn idx p).
Definition EnsureGroup (idx : Z) (g : Group.t) : M DB unit := txn (ensureGroupTxn idx g).

(** A node that is there already is left as it is. *)
Definition ensureRegistration (idx : Z) (node : Node.t) : M DB unit :=
  existing ← first Nodes (Node.Node node);
  match existing with None => ensureNodeTxn idx node | Some _ => mret tt end.
Definition EnsureRegistration (idx : Z) (node : Node.t) : M DB unit := txn (ensureRegistration idx node).

(** The shape that the four [delete...Txn] share. *)
Definition deleteTxn {K V} (t : table K V) (idx : Z) (k : K) : M DB unit :=
  existing ← first t k;
  match existing with
  | None => mret tt
  | Some v => delete t v ;; insert Indexes (IndexEntry.mk (tableName t) idx)
  end.
Definition deleteNodeTxn : Z -> Z -> M DB unit := deleteTxn Nodes.
Definition deleteTopicTxn : Z -> string -> M DB unit := deleteTxn Topics.
Definition deletePartitionTxn (idx : Z) (topic : string) (id : Z) : M DB unit :=
  deleteTxn Partitions idx (topic, id).
Definition deleteGroupTxn : Z -> string -> M DB unit := deleteTxn Groups.

Definition DeleteNode (idx id : Z) : M DB unit := txn (deleteNodeTxn idx id).
Definition DeleteTopic (idx : Z) (id : string) : M DB unit := txn (deleteTopicTxn idx id).
Definition DeletePartition (idx : Z) (topic : string) (id : Z) : M DB unit :=
  txn (deletePartitionTxn idx topic id).
Definition DeleteGroup (idx : Z) (id : string) : M DB unit := txn (deleteGroupTxn idx id).

(** The highest index recorded for some tables. *)
Definition tableIndex (db : DB) (name : string) : Z :=
  match First Indexes name db with Some e => IndexEntry.Value e | None => 0 end.
Definition maxIndexTxn (tables : list string) (db : DB) : Z :=
  foldl (fun l name => if l <? tableIndex db name then tableIndex db name else l) 0 tables.

Definition GetNode (id : Z) (db : DB) : Z * option Node.t :=
  (maxIndexTxn ["nodes"] db, First Nodes id db).
Definition GetNodes (db : DB) : Z * list Node.t := (maxIndexTxn ["nodes"] db, Get Nodes db).
Definition GetTopic (id : string) (db : DB) : Z * option Topic.t :=
  (maxIndexTxn ["topics"] db, First Topics id db).
Definition GetTopics (db : DB) : Z * list Topic.t := (maxIndexTxn ["topics"] db, Get Topics db).
Definition GetGroup (id : string) (db : DB) : Z * option Group.t :=
  (maxIndexTxn ["groups"] db, First Groups id db).
Definition GetGroups (db : DB) : Z * list Group.t := (maxIndexTxn ["groups"] db, Get Groups db).
Definition GetGroupsByCoordinator (coordinator : Z) (db : DB) : Z * list Group.t :=
  (maxIndexTxn ["groups"] db, GetBy Coordinator coordinator db).
Definition GetPartition (topic : string) (id : Z) (db : DB) : Z * option Partition.t :=
  (maxIndexTxn ["partitions"] db, First Partitions (topic, id) db).
Definition PartitionsByLeader (leader : Z) (db : DB) : Z * list Partition.t :=
  (maxIndexTxn ["partitions"] db, GetBy Leader leader db).
Definition GetPartitions (db : DB) : Z * list Partition.t :=
  (maxIndexTxn ["partitions"] db, Get Partitions db).
End store.

(** ** The state machine: [commands.go], [FSM.Apply] *)
Section fsm.
Context {DB : Type} `{Memdb DB}.
Context `{Msgpack Node.t} `{Msgpack Topic.t} `{Msgpack Partition.t} `{Msgpack Group.t}.

(** An entry that cannot be decoded panics. *)
Definition decoded {A} `{Msgpack A} (buf : list byte) (f : A -> M DB unit) : M DB unit :=
  match Decode buf with Some req => f req | None => crash end.

Definition applyRegisterNode (buf : list byte) (index : Z) : M DB unit :=
  decoded buf (EnsureNode index).
Definition applyDeregisterNode (buf : list byte) (index : Z) : M DB unit :=
  decoded buf (fun req => DeleteNode index (Node.Node req)).
Definition applyRegisterTopic (buf : list byte) (index : Z) : M DB unit :=
  decoded buf (EnsureTopic index).
Definition applyDeregisterTopic (buf : list byte) (index : Z) : M DB unit :=
  decoded buf (fun req => DeleteTopic index (Topic.Topic req)).
Definition applyRegisterPartition (buf : list byte) (index : Z) : M DB unit :=
  decoded buf (EnsurePartition index).
Definition applyDeregisterPartition (buf : list byte) (index : Z) : M DB unit :=
  decoded buf (fun req => DeletePartition index (Partition.Topic req) (Partition.Partition req)).
Definition applyRegisterGroup (buf : list byte) (index : Z) : M DB unit :=
  decoded buf (EnsureGroup index).

(** What [init] registers. *)
Definition commands : list (Z * (list byte -> Z -> M DB unit)) :=
  [ (RegisterNodeRequestType, applyRegisterNode);
    (DeregisterNodeRequestType, applyDeregisterNode);
    (RegisterTopicRequestType, applyRegisterTopic);
    (DeregisterTopicRequestType, applyDeregisterTopic);
    (RegisterPartitionRequestType, applyRegisterPartition);
    (DeregisterPartitionRequestType, applyDeregisterPartition);
    (RegisterGroupRequestType, applyRegisterGroup) ].

(** The command of a message type; the table holds each type once. *)
Fixpoint command (msgType : Z) (cs : list (Z * (list byte -> Z -> M DB unit)))
  : option (list byte -> Z -> M DB unit) :=
  match cs with
  | [] => None
  | (t, fn) :: cs => if msgType =? t then Some fn else command msgType cs
  end.

(** An unknown message type is ignored; an error is the response of the entry. *)
Definition Apply (data : list byte) (index : Z) : M DB unit :=
  match data with
  | [] => crash
  | b :: buf =>
      match command (Z_of_byte b) commands with
      | Some fn => fn buf index
      | None => mret tt
      end
  end.

(** The state after an entry; [None] when the process panicked. *)
Definition after {A} (o : outcome DB A) : option DB :=
  match o with Ret _ db | Fail _ db => Some db | Crash => None end.

(** The entries of the raft log, applied in order. *)
Fixpoint replay (entries : list (Z * list byte)) (db : DB) : option DB :=
  match entries with
  | [] => Some db
  | (index, data) :: es => db ← after (Apply data index db); replay es db
  end.

(** ** Snapshots: [snapshot.go], [FSM.Restore] *)
Section snapshots.
(** The header, the last index, through msgpack; a header is read off the front
    of a stream. *)
Context (encodeHeader : Z -> option (list byte)) (decodeHeader : list byte -> option (Z * list byte)).

(** Nothing registers a persister or a restorer. *)
Definition persisters : list (DB -> option (list byte)) := [].
Definition restorers : list (Z * (list byte -> DB -> option (list byte * DB))) := [].

Definition LastIndex (db : DB) : Z :=
  maxIndexTxn ["index"; "nodes"; "topics"; "partitions"; "groups"] db.

Fixpoint persistAll (ps : list (DB -> option (list byte))) (db : DB) : option (list byte) :=
  match ps with
  | [] => Some []
  | p :: ps => b ← p db; r ← persistAll ps db; Some (b ++ r)
  end.
Definition Persist (db : DB) : option (list byte) :=
  h ← encodeHeader (LastIndex db); r ← persistAll persisters db; Some (h ++ r).

(** The loop over the records after the header, into the new database; every
    record has its type's byte at least, so the bytes bound the rounds. *)
Fixpoint restoreLoop (fuel : nat) (old : list byte) (new : DB) : error + DB :=
  match fuel, old with
  | _, [] => inr new
  | O, _ => inl (ErrOther "out of fuel")
  | S fuel, b :: old =>
      match list_find (fun r => Z_of_byte b = fst r) restorers with
      | None => inl (ErrOther "unrecognized msg type")
      | Some (_, (_, fn)) =>
          match fn old new with
          | None => inl (ErrOther "restore failed")
          | Some (old, new) => restoreLoop fuel old new
          end
      end
  end.

(** The new database takes the place of the old one at the end. *)
Definition Restore (old : list byte) : M DB unit := fun db =>
  match decodeHeader old with
  | None => Fail (ErrOther "decode header") db
  | Some (_, old) =>
      match restoreLoop (length old) old NewMemDB with
      | inl e => Fail e db
      | inr new => Ret tt new
      end
  end.
End snapshots.
End fsm.

(** ** Effects on lookups *)
Definition row {K V} (t : table K V) : bool := match t with Indexes => false | _ => true end.

(** [updated t k o idx db db']: [db'] is [db] with [o] found under [k] in [t]
    and [idx] recorded for the table [t]. *)
Definition updated {DB} `{Memdb DB} (ToLower : string -> string) {K V} (t : table K V) (k : K)
    (o : option V) (idx : Z) (db db' : DB) : Prop :=
  (forall k', First t k' db' = if decide (norm ToLower t k' = norm ToLower t k) then o else First t k' db) /\
  (forall K' V' (t' : table K' V') k', row t' = true -> tableName t <> tableName t' ->
     First t' k' db' = First t' k' db) /\
  (forall name, tableIndex db' name =
     if decide (ToLower name = ToLower (tableName t)) then idx else tableIndex db name).

Section effects.
Context {ToLower : string -> string} {DB : Type} `{MemdbLaws ToLower DB}.

Lemma row_not_index {K V} (t : table K V) : row t = true -> tableName t <> tableName Indexes.
Proof. destruct t; discriminate. Qed.

Lemma idOf_stamp {K V} (t : table K V) idx e v : idOf t (stamp t idx e v) = idOf t v.
Proof. destruct t, v; reflexivity. Qed.

Lemma indexable_stamp {K V} (t : table K V) idx e v : indexable t (stamp t idx e v) = indexable t v.
Proof. destruct t, v; reflexivity. Qed.

(** Recording an index changes nothing but the index of that table. *)
Lemma record_index name idx db : name <> "" -> exists db',
  insert Indexes (IndexEntry.mk name idx) db = Ret tt db' /\
  (forall K' V' (t' : table K' V') k', row t' = true -> First t' k' db' = First t' k' db) /\
  (forall n, tableIndex db' n = if decide (ToLower n = ToLower name) then idx else tableIndex db n).
Proof.
  intros Hn. destruct (Insert_total Indexes (IndexEntry.mk name idx) db) as [db' E].
  { simpl. rewrite bool_decide_false by exact Hn. reflexivity. }
  exists db'. unfold insert. rewrite E. split; [reflexivity|]. split.
  - intros K' V' t' k' Ht. eapply First_insert_table; [exact E|].
    intros C. exact (row_not_index t' Ht (eq_sym C)).
  - intros n. unfold tableIndex. case_decide as Hd.
    + rewrite (First_norm Indexes n name) by exact Hd.
      pose proof (First_insert Indexes _ _ _ E) as F. cbn in F. rewrite F. reflexivity.
    + rewrite (First_insert_ne Indexes _ n _ _ E) by exact Hd. reflexivity.
Qed.

Lemma tableName_nonempty {K V} (t : table K V) : tableName t <> "".
Proof. destruct t; discriminate. Qed.

Lemma ensure_updates {K V} (t : table K V) idx v db : row t = true -> indexable t v = true ->
  exists db', txn (ensureTxn t idx v) db = Ret tt db' /\
    updated ToLower t (idOf t v) (Some (stamp t idx (First t (idOf t v) db) v)) idx db db'.
Proof.
  intros Hr Hi. set (v' := stamp t idx (First t (idOf t v) db) v).
  destruct (Insert_total t v' db) as [db1 E1]; [unfold v'; rewrite indexable_stamp; exact Hi|].
  destruct (record_index (tableName t) idx db1 (tableName_nonempty t)) as (db2 & E2 & Hrows & Hidx).
  exists db2. split; [|split; [|split]].
  - unfold txn, ensureTxn, first. erewrite bind_Ret by reflexivity. fold v'.
    erewrite bind_Ret by (unfold insert; rewrite E1; reflexivity). rewrite E2. reflexivity.
  - intros k'. rewrite (Hrows _ _ t _ Hr). case_decide as Hk.
    + rewrite (First_norm t k' (idOf t v')) by (unfold v'; rewrite idOf_stamp; exact Hk).
      exact (First_insert t v' db db1 E1).
    + apply (First_insert_ne t v' k' db db1 E1). unfold v'. rewrite idOf_stamp. exact Hk.
  - intros K' V' t' k' Ht' Hne. rewrite (Hrows _ _ t' _ Ht').
    exact (First_insert_table t t' v' k' db db1 E1 Hne).
  - intros n. rewrite Hidx. case_decide; [reflexivity|]. unfold tableIndex.
    rewrite (First_insert_table t Indexes v' n db db1 E1 (row_not_index t Hr)). reflexivity.
Qed.

Lemma ensure_fails {K V} (t : table K V) idx v db : indexable t v = false ->
  txn (ensureTxn t idx v) db = Fail (ErrOther "missing value for index") db.
Proof.
  intros Hi. unfold txn, ensureTxn, first. erewrite bind_Ret by reflexivity.
  erewrite bind_Fail by (unfold insert; rewrite Insert_missing by (rewrite indexable_stamp; exact Hi); reflexivity).
  reflexivity.
Qed.

Lemma delete_updates {K V} (t : table K V) idx k v db : row t = true -> First t k db = Some v ->
  exists db', txn (deleteTxn t idx k) db = Ret tt db' /\ updated ToLower t k None idx db db'.
Proof.
  intros Hr Hf. assert (Hid := First_id t k v db Hf).
  destruct (Delete_total t v db) as [db1 E1]; [rewrite (First_norm t _ k) by exact Hid; exact Hf|].
  destruct (record_index (tableName t) idx db1 (tableName_nonempty t)) as (db2 & E2 & Hrows & Hidx).
  exists db2. split; [|split; [|split]].
  - unfold txn, deleteTxn, first. erewrite bind_Ret by reflexivity. rewrite Hf.
    erewrite bind_Ret by (unfold delete; rewrite E1; reflexivity). rewrite E2. reflexivity.
  - intros k'. rewrite (Hrows _ _ t _ Hr). case_decide as Hk.
    + rewrite (First_norm t k' (idOf t v)) by congruence. exact (First_delete t v db db1 E1).
    + apply (First_delete_ne t v k' db db1 E1). congruence.
  - intros K' V' t' k' Ht' Hne. rewrite (Hrows _ _ t' _ Ht').
    exact (First_delete_table t t' v k' db db1 E1 Hne).
  - intros n. rewrite Hidx. case_decide; [reflexivity|]. unfold tableIndex.
    rewrite (First_delete_table t Indexes v n db db1 E1 (row_not_index t Hr)). reflexivity.
Qed.

(** What a lookup finds is one of the objects of the table. *)
Lemma First_Get {K V} (t : table K V) k v db : First t k db = Some v -> v ∈ Get t db.
Proof.
  intros E. apply Get_spec. rewrite (First_norm t (idOf t v) k); [exact E|]. exact (First_id t k v db E).
Qed.

Lemma delete_absent {K V} (t : table K V) idx k db : First t k db = None ->
  txn (deleteTxn t idx k) db = Ret tt db.
Proof.
  intros Hf. unfold txn, deleteTxn, first. erewrite bind_Ret by reflexivity. rewrite Hf. reflexivity.
Qed.
End effects.

(** ** An implementation of the interface

    A list of objects for each table, and the index of groups by coordinator:
    values and the groups kept under them. *)
Record Tables := mkTables {
  tIndexes : list IndexEntry.t; tNodes : list Node.t; tTopics : list Topic.t;
  tPartitions : list Partition.t; tGroups : list Group.t; tByCoordinator : list (Z * Group.t) }.

Definition rows {K V} (t : table K V) : Tables -> list V :=
  match t with
  | Indexes => tIndexes | Nodes => tNodes | Topics => tTopics
  | Partitions => tPartitions | Groups => tGroups
  end.
Definition setRows {K V} (t : table K V) : list V -> Tables -> Tables :=
  match t with
  | Indexes => fun l d => mkTables l (tNodes d) (tTopics d) (tPartitions d) (tGroups d) (tByCoordinator d)
  | Nodes => fun l d => mkTables (tIndexes d) l (tTopics d) (tPartitions d) (tGroups d) (tByCoordinator d)
  | Topics => fun l d => mkTables (tIndexes d) (tNodes d) l (tPartitions d) (tGroups d) (tByCoordinator d)
  | Partitions => fun l d => mkTables (tIndexes d) (tNodes d) (tTopics d) l (tGroups d) (tByCoordinator d)
  | Groups => fun l d => mkTables (tIndexes d) (tNodes d) (tTopics d) (tPartitions d) l (tByCoordinator d)
  end.
Definition setIndex (l : list (Z * Group.t)) (d : Tables) : Tables :=
  mkTables (tIndexes d) (tNodes d) (tTopics d) (tPartitions d) (tGroups d) l.
Definition row_dec {K V} (t : table K V) : EqDecision V.
Proof. destruct t; apply _. Defined.

Section tables.
Context (ToLower : string -> string).

Definition has_key {K V} (t : table K V) (k : K) (v : V) : bool :=
  bool_decide (norm ToLower t (idOf t v) = norm ToLower t k).
Definition tables_first {K V} (t : table K V) (k : K) (d : Tables) : option V :=
  List.find (has_key t k) (rows t d).
Definition others {K V} (t : table K V) (v : V) (d : Tables) : list V :=
  List.filter (fun w => negb (has_key t (idOf t v) w)) (rows t d).
Definition tables_get {K V} (t : table K V) (d : Tables) : list V :=
  List.filter (fun v => bool_decide (dec := option_eq_dec (dec := row_dec t) _ _)
    (tables_first t (idOf t v) d = Some v)) (rows t d).

(** The index without the entry of the group under the value that the table's
    object has, and under [z]. *)
Definition noEntry (g : Group.t) (z : option Z) (d : Tables) : list (Z * Group.t) :=
  List.filter (fun e => negb (has_key Groups (Group.Group g) e.2 &&
    (bool_decide (Some e.1 = z) || bool_decide (Some e.1 = Group.Coordinator <$> tables_first Groups (Group.Group g) d))))
    (tByCoordinator d).
Definition indexInsert {K V} (t : table K V) : V -> Tables -> list (Z * Group.t) :=
  match t with
  | Groups => fun g d => (Group.Coordinator g, g) :: noEntry g (Some (Group.Coordinator g)) d
  | _ => fun _ d => tByCoordinator d
  end.
Definition indexDelete {K V} (t : table K V) : V -> Tables -> list (Z * Group.t) :=
  match t with Groups => fun g d => noEntry g None d | _ => fun _ d => tByCoordinator d end.
(** The entries that refer to the object of the table refer to it still. *)
Definition indexWrite {K V} (t : table K V) : V -> Tables -> list (Z * Group.t) :=
  match t with
  | Groups => fun g d =>
      (fun e => if decide (tables_first Groups (Group.Group g) d = Some e.2) then (e.1, g) else e) <$> tByCoordinator d
  | _ => fun _ d => tByCoordinator d
  end.
Definition tables_getBy {K V} (i : intIndex K V) : Z -> Tables -> list V :=
  match i with
  | Leader => fun z d => List.filter (fun p => Partition.Leader p =? z) (tables_get Partitions d)
  | Coordinator => fun z d => (List.filter (fun e => e.1 =? z) (tByCoordinator d)).*2
  end.

#[local] Instance Tables_Memdb : Memdb Tables := {
  NewMemDB := mkTables [] [] [] [] [] [];
  First := @tables_first;
  Insert K V t v d :=
    if indexable t v then Some (setIndex (indexInsert t v d) (setRows t (v :: others t v d) d)) else None;
  Delete K V t v d :=
    match tables_first t (idOf t v) d with
    | Some _ => Some (setIndex (indexDelete t v d) (setRows t (others t v d) d))
    | None => None
    end;
  Write K V t v d :=
    setIndex (indexWrite t v d) (setRows t ((fun w => if has_key t (idOf t v) w then v else w) <$> rows t d) d);
  Get := @tables_get;
  GetBy := @tables_getBy }.

Lemma rows_setRows {K V} (t : table K V) l d : rows t (setRows t l d) = l.
Proof. destruct t; reflexivity. Qed.
Lemma rows_setRows_ne {K V K' V'} (t : table K V) (t' : table K' V') l d :
  tableName t <> tableName t' -> rows t' (setRows t l d) = rows t' d.
Proof. destruct t, t'; intros Hne; reflexivity || (exfalso; apply Hne; reflexivity). Qed.

Lemma rows_setIndex {K V} (t : table K V) l d : rows t (setIndex l d) = rows t d.
Proof. destruct t; reflexivity. Qed.

Lemma find_others {K V} (t : table K V) v k d :
  List.find (has_key t k) (others t v d) =
  if decide (norm ToLower t k = norm ToLower t (idOf t v)) then None else tables_first t k d.
Proof.
  unfold others, tables_first, has_key. induction (rows t d) as [|w l IH].
  - simpl. case_decide; reflexivity.
  - simpl. case_bool_decide as Hw; simpl.
    + rewrite IH. case_decide as Hk; [reflexivity|]. rewrite bool_decide_false by congruence. reflexivity.
    + case_bool_decide as Hwk; [|exact IH]. rewrite decide_False by congruence. reflexivity.
Qed.

Lemma tables_get_spec {K V} (t : table K V) v d :
  v ∈ tables_get t d <-> tables_first t (idOf t v) d = Some v.
Proof.
  unfold tables_get. rewrite list_elem_of_In, filter_In. split.
  - intros [_ E]. exact (bool_decide_eq_true_1 _ E).
  - intros E. split; [|apply bool_decide_eq_true_2, E].
    apply find_some in E. apply E.
Qed.

Lemma find_norm {K V} (t : table K V) k k' l : norm ToLower t k = norm ToLower t k' ->
  List.find (has_key t k) l = List.find (has_key t k') l.
Proof.
  intros Hk. induction l as [|v l IH]; [reflexivity|]. simpl. rewrite IH. unfold has_key.
  rewrite (bool_decide_ext _ (norm ToLower t (idOf t v) = norm ToLower t k')) by (rewrite Hk; reflexivity). reflexivity.
Qed.

Lemma find_written {K V} (t : table K V) v k l :
  List.find (has_key t k) ((fun w => if has_key t (idOf t v) w then v else w) <$> l) =
  if decide (norm ToLower t k = norm ToLower t (idOf t v)) then (fun _ => v) <$> List.find (has_key t k) l
  else List.find (has_key t k) l.
Proof.
  induction l as [|w l IH]; [case_decide; reflexivity|]. rewrite fmap_cons. cbn [List.find]. rewrite IH. unfold has_key.
  destruct (bool_decide_reflect (norm ToLower t (idOf t w) = norm ToLower t (idOf t v))) as [Hw|Hw];
    destruct (decide (norm ToLower t k = norm ToLower t (idOf t v))) as [Hk|Hk].
  - rewrite !bool_decide_true by congruence. reflexivity.
  - rewrite !bool_decide_false by congruence. reflexivity.
  - rewrite bool_decide_false by congruence. reflexivity.
  - case_bool_decide; reflexivity.
Qed.

(** *** The indexes *)
Lemma tables_leader d : @indexed Tables Tables_Memdb _ _ Leader d.
Proof.
  intros z v. cbn [GetBy First Tables_Memdb tables_getBy indexTable indexField].
  rewrite list_elem_of_In, filter_In, <- list_elem_of_In, tables_get_spec, Z.eqb_eq. reflexivity.
Qed.

Lemma elem_getBy z g d : g ∈ tables_getBy Coordinator z d <-> (z, g) ∈ tByCoordinator d.
Proof.
  cbn. rewrite list_elem_of_fmap. split.
  - intros ([z' g'] & -> & Hin). apply list_elem_of_In, filter_In in Hin as [Hin Hz].
    cbn in Hz. apply Z.eqb_eq in Hz as ->. apply list_elem_of_In, Hin.
  - intros Hin. exists (z, g). split; [reflexivity|]. apply list_elem_of_In, filter_In.
    split; [apply list_elem_of_In, Hin|apply Z.eqb_refl].
Qed.

Lemma tables_coordinator d : @indexed Tables Tables_Memdb _ _ Coordinator d <->
  forall z g, (z, g) ∈ tByCoordinator d <-> tables_first Groups (Group.Group g) d = Some g /\ Group.Coordinator g = z.
Proof. unfold indexed. split; intros Hi z g; rewrite <- (Hi z g); [symmetry|]; apply elem_getBy. Qed.

(** When the index is right, the entry of a group is the one under its value. *)
Lemma elem_noEntry g z d z' g' : @indexed Tables Tables_Memdb _ _ Coordinator d ->
  (z', g') ∈ noEntry g z d <->
  (z', g') ∈ tByCoordinator d /\ norm ToLower Groups (Group.Group g') <> norm ToLower Groups (Group.Group g).
Proof.
  intros Hi. rewrite tables_coordinator in Hi. unfold noEntry. rewrite list_elem_of_In, filter_In, <- list_elem_of_In.
  cbn [fst snd]. unfold has_key. cbn [idOf]. split; (intros [Hin Hk]; split; [exact Hin|]).
  - intros C. rewrite bool_decide_true in Hk by exact C. apply Hi in Hin as [Hf Hz].
    unfold tables_first in Hf. rewrite (find_norm Groups _ (Group.Group g)) in Hf by exact C.
    change (List.find _ _) with (tables_first Groups (Group.Group g) d) in Hf. rewrite Hf in Hk. cbn in Hk.
    rewrite (bool_decide_true (Some z' = Some (Group.Coordinator g'))), orb_true_r in Hk by congruence. discriminate.
  - rewrite bool_decide_false by exact Hk. reflexivity.
Qed.

Lemma tables_indexed_insert g d : @indexed Tables Tables_Memdb _ _ Coordinator d ->
  @indexed Tables Tables_Memdb _ _ Coordinator (setIndex (indexInsert Groups g d) (setRows Groups (g :: others Groups g d) d)).
Proof.
  intros Hi. apply tables_coordinator. intros z g'. cbn [tByCoordinator setIndex indexInsert].
  unfold tables_first. rewrite rows_setIndex, rows_setRows. cbn [List.find].
  rewrite elem_of_cons, (elem_noEntry _ _ _ _ _ Hi), (proj1 (tables_coordinator d) Hi), find_others. unfold has_key. cbn [idOf].
  destruct (bool_decide_reflect (norm ToLower Groups (Group.Group g) = norm ToLower Groups (Group.Group g'))) as [Hk|Hk].
  - split; [intros [[= -> ->]|[_ C]]; [auto|congruence]|]. intros [[= <-] <-]. auto.
  - rewrite decide_False by congruence. split; [intros [[= _ ->]|[Hf _]]; [congruence|exact Hf]|].
    intros Hf. right. split; [exact Hf|congruence].
Qed.

Lemma tables_indexed_delete g d : @indexed Tables Tables_Memdb _ _ Coordinator d ->
  @indexed Tables Tables_Memdb _ _ Coordinator (setIndex (indexDelete Groups g d) (setRows Groups (others Groups g d) d)).
Proof.
  intros Hi. apply tables_coordinator. intros z g'. cbn [tByCoordinator setIndex indexDelete].
  unfold tables_first. rewrite rows_setIndex, rows_setRows.
  rewrite (elem_noEntry _ _ _ _ _ Hi), (proj1 (tables_coordinator d) Hi), find_others. cbn [idOf].
  case_decide as Hk; split.
  - intros [_ C]. congruence.
  - intros [C _]. discriminate.
  - intros [Hf _]. exact Hf.
  - intros Hf. split; [exact Hf|congruence].
Qed.

Lemma tables_indexed_write g w d : tables_first Groups (Group.Group g) d = Some w -> sameIndexed Groups g w ->
  @indexed Tables Tables_Memdb _ _ Coordinator d ->
  @indexed Tables Tables_Memdb _ _ Coordinator (Write (Memdb := Tables_Memdb) Groups g d).
Proof.
  intros Hw Hs Hi. cbn in Hs. pose proof (proj1 (tables_coordinator d) Hi) as Hd.
  assert (Hwk : norm ToLower Groups (Group.Group w) = norm ToLower Groups (Group.Group g))
    by (apply find_some in Hw; exact (bool_decide_eq_true_1 _ (proj2 Hw))).
  assert (Hww : tables_first Groups (Group.Group w) d = Some w)
    by (unfold tables_first in *; rewrite (find_norm Groups _ _ _ Hwk); exact Hw).
  assert (HF : forall k, tables_first Groups k (Write (Memdb := Tables_Memdb) Groups g d) =
    if decide (norm ToLower Groups k = norm ToLower Groups (Group.Group g))
    then (fun _ => g) <$> tables_first Groups k d else tables_first Groups k d)
    by (intros k; unfold tables_first; cbn [Write Tables_Memdb];
        rewrite rows_setIndex, rows_setRows, find_written; reflexivity).
  apply tables_coordinator. intros z g'. rewrite HF. cbn [Write Tables_Memdb tByCoordinator setIndex indexWrite].
  rewrite list_elem_of_fmap, Hw. case_decide as Hk; split.
  - intros ([z0 g0] & E & Hin). cbn in E. case_decide as Hg; [|injection E as -> ->; apply Hd in Hin as [Hf Hz];
      unfold tables_first in Hf; rewrite (find_norm Groups _ _ _ Hk) in Hf; unfold tables_first in Hw; congruence].
    injection E as -> ->. injection Hg as <-. apply Hd in Hin as [_ Hz]. rewrite Hw. split; [reflexivity|congruence].
  - intros [Hf Hz]. unfold tables_first in Hf. rewrite (find_norm Groups _ _ _ Hk) in Hf. unfold tables_first in Hw.
    rewrite Hw in Hf. injection Hf as <-. exists (z, w). cbn. rewrite decide_True by reflexivity.
    split; [reflexivity|]. apply Hd. split; [exact Hww|congruence].
  - intros ([z0 g0] & E & Hin). cbn in E. case_decide as Hg; injection E as -> ->; [congruence|apply Hd, Hin].
  - intros Hf. exists (z, g'). cbn. rewrite decide_False; [split; [reflexivity|apply Hd, Hf]|].
    intros [= ->]. congruence.
Qed.

(** Changes of the other tables. *)
Lemma tables_indexed_other d d' : tGroups d' = tGroups d -> tByCoordinator d' = tByCoordinator d ->
  @indexed Tables Tables_Memdb _ _ Coordinator d -> @indexed Tables Tables_Memdb _ _ Coordinator d'.
Proof.
  rewrite !tables_coordinator. intros E1 E2 Hi z g. rewrite E2, Hi. unfold tables_first. cbn [rows]. rewrite E1. reflexivity.
Qed.

Lemma Tables_laws :
  (forall K V (t : table K V), ToLower (tableName t) = tableName t) ->
  @MemdbLaws ToLower Tables Tables_Memdb.
Proof.
  intros HL. split; cbn [NewMemDB First Insert Delete Write Get Tables_Memdb].
  - exact HL.
  - intros K V t k. destruct t; reflexivity.
  - intros K V t k k' db Hk. apply find_norm, Hk.
  - intros K V t k v db E. apply find_some in E. exact (bool_decide_eq_true_1 _ (proj2 E)).
  - intros K V t v db ->. eauto.
  - intros K V t v db ->. reflexivity.
  - intros K V t v db db'. destruct (indexable t v); [|discriminate]. intros [= <-].
    unfold tables_first. rewrite rows_setIndex, rows_setRows. simpl. unfold has_key. rewrite bool_decide_true by reflexivity.
    reflexivity.
  - intros K V t v k db db'. destruct (indexable t v); [|discriminate]. intros [= <-] Hk.
    unfold tables_first at 1. rewrite rows_setIndex, rows_setRows. simpl. rewrite find_others, decide_False by exact Hk.
    unfold has_key. rewrite bool_decide_false by congruence. reflexivity.
  - intros K V K' V' t t' v k db db'. destruct (indexable t v); [|discriminate]. intros [= <-] Hne.
    unfold tables_first. rewrite rows_setIndex, rows_setRows_ne by exact Hne. reflexivity.
  - intros K V t v db ->. eauto.
  - intros K V t v db db'. destruct (tables_first t (idOf t v) db); [|discriminate]. intros [= <-].
    unfold tables_first. rewrite rows_setIndex, rows_setRows, find_others, decide_True by reflexivity. reflexivity.
  - intros K V t v k db db'. destruct (tables_first t (idOf t v) db); [|discriminate]. intros [= <-] Hk.
    unfold tables_first at 1. rewrite rows_setIndex, rows_setRows, find_others, decide_False by exact Hk. reflexivity.
  - intros K V K' V' t t' v k db db'. destruct (tables_first t (idOf t v) db); [|discriminate].
    intros [= <-] Hne. unfold tables_first. rewrite rows_setIndex, rows_setRows_ne by exact Hne. reflexivity.
  - intros K V t v db. apply tables_get_spec.
  - intros K V t v w db Hw. unfold tables_first in *. rewrite rows_setIndex, rows_setRows, find_written.
    rewrite decide_True, Hw by reflexivity. reflexivity.
  - intros K V t v k db Hk. unfold tables_first. rewrite rows_setIndex, rows_setRows, find_written, decide_False by exact Hk.
    reflexivity.
  - intros K V K' V' t t' v k db Hne. unfold tables_first. rewrite rows_setIndex, rows_setRows_ne by exact Hne. reflexivity.
  - intros K V []; [apply tables_leader|]. apply tables_coordinator. intros z g. split; [intros C; inversion C|].
    intros [C _]. discriminate.
  - intros K V K' V' [] t v db db'; [intros _ _; apply tables_leader|]. destruct (indexable t v); [|discriminate].
    intros [= <-]. destruct t; try (apply tables_indexed_other; reflexivity). apply tables_indexed_insert.
  - intros K V K' V' [] t v db db'; [intros _ _; apply tables_leader|].
    destruct (tables_first t (idOf t v) db); [|discriminate].
    intros [= <-]. destruct t; try (apply tables_indexed_other; reflexivity). apply tables_indexed_delete.
  - intros K V K' V' [] t v w db Hw Hs; [intros _; apply tables_leader|].
    destruct t; try (apply tables_indexed_other; reflexivity). exact (tables_indexed_write v w db Hw Hs).
Qed.
End tables.

(** Lower case of ASCII letters. *)
Definition lowerByte (b : byte) : byte :=
  let z := Z_of_byte b in if (65 <=? z) && (z <=? 90) then byte_of_Z (z + 32) else b.
Definition asciiLower (s : string) : string := string_of_bytes (lowerByte <$> bytes_of_string s).
#[global] Instance Tables_ascii : Memdb Tables := Tables_Memdb asciiLower.
#[global] Instance Tables_ascii_laws : MemdbLaws asciiLower Tables.
Proof. apply Tables_laws. intros K V []; reflexivity. Qed.
