(* ===== verification/StoreSteps.v ===== *)
(** * Entries of the raft log as steps of the store

    What an entry does, read off its bytes: [step_of] names the step, [Apply_step]
    shows that [Apply] takes it.  What a whole log says is [found], [born] and
    [lastChange]; [replay_reflects] shows that the store says the same.  [packs]
    says that a value survives msgpack. *)
From S2P Require Import Prelude Structs Store.
From Stdlib Require Import Strings.Byte.

(** ** Values that survive serialization *)
Definition packs {A} `{Msgpack A} (a : A) : Prop := exists b, mp_encode a = Some b /\ mp_decode b = Some a.

(** A serialization of any countable type: the binary digits of its number. *)
Fixpoint posBytes (p : positive) : list byte :=
  match p with xH => [] | xO p => x00 :: posBytes p | xI p => x01 :: posBytes p end.
Fixpoint bytesPos (b : list byte) : positive :=
  match b with [] => xH | x00 :: b => xO (bytesPos b) | _ :: b => xI (bytesPos b) end.
Lemma bytesPos_posBytes p : bytesPos (posBytes p) = p.
Proof. induction p as [p IH|p IH|]; cbn; rewrite ?IH; reflexivity. Qed.

Definition countable_pack A `{Countable A} : Msgpack A := {|
  mp_encode a := Some (posBytes (encode a));
  mp_decode b := decode (bytesPos b) |}.

Lemma countable_packs A `{Countable A} (a : A) : @packs A (countable_pack A) a.
Proof. eexists. split; [reflexivity|]. cbn. rewrite bytesPos_posBytes. apply decode_encode. Qed.

(** ** Entries of the log *)
Section rows.
Context `{Msgpack Node.t} `{Msgpack Topic.t} `{Msgpack Partition.t} `{Msgpack Group.t}.

(** The message types that register and remove objects of a table, the object
    an entry carries and what a registration keeps of it. *)
Definition registerType {K V} (t : table K V) : Z :=
  match t with
  | Indexes => -1 | Nodes => RegisterNodeRequestType | Topics => RegisterTopicRequestType
  | Partitions => RegisterPartitionRequestType | Groups => RegisterGroupRequestType
  end.
Definition deregisterType {K V} (t : table K V) : option Z :=
  match t with
  | Nodes => Some DeregisterNodeRequestType | Topics => Some DeregisterTopicRequestType
  | Partitions => Some DeregisterPartitionRequestType | _ => None
  end.
Definition decodeRow {K V} (t : table K V) : list byte -> option V :=
  match t with
  | Indexes => fun _ => None | Nodes => mp_decode | Topics => mp_decode
  | Partitions => mp_decode | Groups => mp_decode
  end.
Definition prepared {K V} (t : table K V) : V -> V :=
  match t with Topics => Topic.with_config | _ => fun v => v end.

Lemma idOf_prepared {K V} (t : table K V) v : idOf t (prepared t v) = idOf t v.
Proof. destruct t; reflexivity. Qed.
Lemma indexable_prepared {K V} (t : table K V) v : indexable t (prepared t v) = indexable t v.
Proof. destruct t; reflexivity. Qed.

Lemma raftOf_setRaft {K V} (t : table K V) r v : row t = true -> raftOf t (setRaft t r v) = r.
Proof. destruct t; [discriminate|reflexivity..]. Qed.

Lemma setRaft_back {K V} (t : table K V) r v : setRaft t (raftOf t v) (setRaft t r v) = v.
Proof. destruct t, v; reflexivity. Qed.

Section apply.
Context {DB : Type} `{Memdb DB}.

Lemma Apply_register {K V} (t : table K V) buf v idx (db : DB) : row t = true -> decodeRow t buf = Some v ->
  Apply (byte_of_Z (registerType t) :: buf) idx db = txn (ensureTxn t idx (prepared t v)) db.
Proof.
  destruct t; try discriminate; intros _ E; cbn [decodeRow] in E.
  - change (decoded buf (EnsureNode idx) db = txn (ensureTxn Nodes idx v) db).
    unfold decoded, Decode. rewrite E. reflexivity.
  - change (decoded buf (EnsureTopic idx) db = txn (ensureTxn Topics idx (Topic.with_config v)) db).
    unfold decoded, Decode. rewrite E. reflexivity.
  - change (decoded buf (EnsurePartition idx) db = txn (ensureTxn Partitions idx v) db).
    unfold decoded, Decode. rewrite E. reflexivity.
  - change (decoded buf (EnsureGroup idx) db = txn (ensureTxn Groups idx v) db).
    unfold decoded, Decode. rewrite E. reflexivity.
Qed.

Lemma Apply_deregister {K V} (t : table K V) ty buf v idx (db : DB) :
  deregisterType t = Some ty -> decodeRow t buf = Some v ->
  Apply (byte_of_Z ty :: buf) idx db = txn (deleteTxn t idx (idOf t v)) db.
Proof.
  destruct t; try discriminate; intros [= <-] E; cbn [decodeRow] in E.
  - change (decoded buf (fun req => DeleteNode idx (Node.Node req)) db = txn (deleteTxn Nodes idx (Node.Node v)) db).
    unfold decoded, Decode. rewrite E. reflexivity.
  - change (decoded buf (fun req => DeleteTopic idx (Topic.Topic req)) db =
      txn (deleteTxn Topics idx (Topic.Topic v)) db).
    unfold decoded, Decode. rewrite E. reflexivity.
  - change (decoded buf (fun req => DeletePartition idx (Partition.Topic req) (Partition.Partition req)) db =
      txn (deleteTxn Partitions idx (Partition.Topic v, Partition.Partition v)) db).
    unfold decoded, Decode. rewrite E. reflexivity.
Qed.

(** Every entry panics whatever the state, or does nothing, or registers an
    object, or removes one; which, and what it registers, does not depend on the
    database. *)
Inductive step :=
| Panics
| Nothing
| Registers {K V} (t : table K V) (v : V)
| Removes {K V} (t : table K V) (k : K).
Definition is_step (s : step) : Prop :=
  match s with Registers t _ => row t = true | Removes t _ => row t = true | _ => True end.
End apply.

Definition run_step {DB} `{Memdb DB} (s : step) (idx : Z) : M DB unit :=
  match s with
  | Panics => crash
  | Nothing => mret tt
  | Registers t v => txn (ensureTxn t idx v)
  | Removes t k => txn (deleteTxn t idx k)
  end.

Definition step_of (data : list byte) : step :=
  match data with
  | [] => Panics
  | b :: buf =>
      let reg {K V} (t : table K V) :=
        match decodeRow t buf with Some v => Registers t (prepared t v) | None => Panics end in
      let rem {K V} (t : table K V) :=
        match decodeRow t buf with Some v => Removes t (idOf t v) | None => Panics end in
      match Z_of_byte b with
      | 0 => reg Nodes | 1 => rem Nodes | 2 => reg Topics | 3 => rem Topics
      | 4 => reg Partitions | 5 => rem Partitions | 6 => reg Groups | _ => Nothing
      end
  end.

Lemma Apply_step {DB} `{Memdb DB} data idx (db : DB) :
  is_step (step_of data) /\ Apply data idx db = run_step (step_of data) idx db.
Proof.
  destruct data as [|b buf]; [split; [exact I|reflexivity]|].
  unfold step_of, Apply, commands, command, applyRegisterNode, applyDeregisterNode, applyRegisterTopic,
    applyDeregisterTopic, applyRegisterPartition, applyDeregisterPartition, applyRegisterGroup, decoded, Decode.
  pose proof (Z_of_byte_range b) as Hb. cbn [decodeRow].
  destruct (Z_of_byte b) as [|p|p]; [| |lia].
  - cbn. destruct (mp_decode buf); split; reflexivity || exact I.
  - do 3 (destruct p as [p|p|]; [| |cbn; try (destruct (mp_decode buf)); split; reflexivity || exact I]);
      cbn; split; reflexivity || exact I.
Qed.

Lemma replay_snoc {DB} `{Memdb DB} es i data (d : DB) :
  replay (es ++ [(i, data)]) d = d' ← replay es d; after (Apply data i d').
Proof.
  revert d. induction es as [|[j x] es IH]; intros d; cbn [app replay].
  - cbn. destruct (after (Apply data i d)); reflexivity.
  - destruct (after (Apply x j d)); cbn; [apply IH|reflexivity].
Qed.

(** ** What a log says

    Read off the bytes of the entries, the newest entry first, without running
    any of them. *)
Section says.
Context (ToLower : string -> string).

(** The object that an entry registers in a table, and the key it removes. *)
Definition registersIn {K V} (t : table K V) (data : list byte) : option V :=
  match data with
  | b :: buf => if Z_of_byte b =? registerType t then prepared t <$> decodeRow t buf else None
  | [] => None
  end.
Definition removesFrom {K V} (t : table K V) (data : list byte) : option K :=
  match data with
  | b :: buf => if decide (deregisterType t = Some (Z_of_byte b)) then idOf t <$> decodeRow t buf else None
  | [] => None
  end.

(** An entry whose command can read it: it has a type, and a body that decodes
    if the type is known. *)
Definition readable (data : list byte) : bool :=
  match data with
  | [] => false
  | b :: buf =>
      let body {K V} (t : table K V) := bool_decide (is_Some (decodeRow t buf)) in
      if Z_of_byte b <=? 1 then body Nodes else if Z_of_byte b <=? 3 then body Topics
      else if Z_of_byte b <=? 5 then body Partitions else if Z_of_byte b =? 6 then body Groups else true
  end.

(** The entry is about the key: it registers an object under it, or removes it. *)
Definition writes {K V} (t : table K V) (k : K) (data : list byte) : option (option V) :=
  match registersIn t data, removesFrom t data with
  | Some v, _ => if indexable t v && bool_decide (norm ToLower t k = norm ToLower t (idOf t v)) then Some (Some v) else None
  | None, Some k' => if decide (norm ToLower t k = norm ToLower t k') then Some None else None
  | None, None => None
  end.

(** The entry that created what an entry with the index [idx] writes: the first
    about the key since it was last removed. *)
Fixpoint born {K V} (t : table K V) (k : K) (idx : Z) (rlog : list (Z * list byte)) : Z :=
  match rlog with
  | [] => idx
  | (i, data) :: rlog =>
      match writes t k data with
      | Some (Some _) => born t k i rlog
      | Some None => idx
      | None => born t k idx rlog
      end
  end.

(** What is stored under a key: what the last entry about it registered, with
    that entry as its last change and the first of its life as its creation. *)
Fixpoint found {K V} (t : table K V) (k : K) (rlog : list (Z * list byte)) : option V :=
  match rlog with
  | [] => None
  | (i, data) :: rlog =>
      match writes t k data with
      | Some (Some v) => Some (setRaft t (RaftIndex.mk (born t k i rlog) i) v)
      | Some None => None
      | None => found t k rlog
      end
  end.

(** The last entry that changed the table; 0 when none did. *)
Fixpoint lastChange {K V} (t : table K V) (rlog : list (Z * list byte)) : Z :=
  match rlog with
  | [] => 0
  | (i, data) :: rlog =>
      match registersIn t data, removesFrom t data with
      | Some v, _ => if indexable t v then i else lastChange t rlog
      | None, Some k => match found t k rlog with Some _ => i | None => lastChange t rlog end
      | None, None => lastChange t rlog
      end
  end.

(** The entry [data] concerns no table but [t]. *)
Definition onlyIn {K V} (t : table K V) (data : list byte) : Prop :=
  forall K' V' (t' : table K' V'), row t' = true -> tableName t <> tableName t' ->
    registersIn t' data = None /\ removesFrom t' data = None.

Lemma step_of_says data :
  match step_of data with
  | Panics => readable data = false
  | Nothing => readable data = true /\
      forall K V (t : table K V), row t = true -> registersIn t data = None /\ removesFrom t data = None
  | Registers t v => readable data = true /\ registersIn t data = Some v /\ removesFrom t data = None /\ onlyIn t data
  | Removes t k => readable data = true /\ registersIn t data = None /\ removesFrom t data = Some k /\ onlyIn t data
  end.
Proof.
  destruct data as [|b buf]; [reflexivity|]. unfold onlyIn, step_of, readable, registersIn, removesFrom.
  pose proof (Z_of_byte_range b) as Hb. cbn [decodeRow].
  assert (Hother : 6 < Z_of_byte b -> forall K V (t : table K V), row t = true ->
    (if Z_of_byte b =? registerType t then prepared t <$> decodeRow t buf else None) = None /\
    (if decide (deregisterType t = Some (Z_of_byte b)) then idOf t <$> decodeRow t buf else None) = None).
  { intros Hgt K V t Ht. destruct t; try discriminate Ht; cbn [registerType deregisterType];
      unfold RegisterNodeRequestType, RegisterTopicRequestType, RegisterPartitionRequestType, RegisterGroupRequestType,
        DeregisterNodeRequestType, DeregisterTopicRequestType, DeregisterPartitionRequestType;
      (split; [rewrite (proj2 (Z.eqb_neq _ _)) by lia|try rewrite decide_False by (intros [= C]; lia)]; reflexivity). }
  destruct (decide (6 < Z_of_byte b)) as [Hgt|Hle].
  - assert (E : forall A (x0 x1 x2 x3 x4 x5 x6 x : A), match Z_of_byte b with
      0 => x0 | 1 => x1 | 2 => x2 | 3 => x3 | 4 => x4 | 5 => x5 | 6 => x6 | _ => x end = x).
    { intros. destruct (Z_of_byte b) as [|p|p]; [lia| |lia]. do 3 (destruct p as [p|p|]; try lia); reflexivity. }
    rewrite E. rewrite !(proj2 (Z.leb_gt _ _)), (proj2 (Z.eqb_neq _ _)) by lia. auto.
  - clear Hother. assert (Hc : Z_of_byte b = 0 \/ Z_of_byte b = 1 \/ Z_of_byte b = 2 \/ Z_of_byte b = 3 \/
      Z_of_byte b = 4 \/ Z_of_byte b = 5 \/ Z_of_byte b = 6) by lia.
    destruct Hc as [->|[->|[->|[->|[->|[->| ->]]]]]]; cbn;
      (destruct (mp_decode buf) eqn:E; [|reflexivity]); split_and!; cbn [decodeRow]; rewrite ?E; try reflexivity;
      (intros K' V' t' Ht' Hn; destruct t'; try discriminate Ht'; try congruence; split; reflexivity).
Qed.

(** The create index is that of the entry the object was born with. *)
Lemma born_found {K V} (t : table K V) k idx rlog : row t = true ->
  match found t k rlog with Some e => RaftIndex.CreateIndex (raftOf t e) | None => idx end = born t k idx rlog.
Proof.
  intros Hr. revert idx. induction rlog as [|[i data] rlog IH]; intros idx; cbn [found born]; [reflexivity|].
  destruct (writes t k data) as [[v|]|]; [|reflexivity|apply IH].
  rewrite raftOf_setRaft by exact Hr. reflexivity.
Qed.
End says.

(** A database that holds what the log says. *)
Definition reflects {DB} `{Memdb DB} (ToLower : string -> string) (rlog : list (Z * list byte)) (d : DB) : Prop :=
  forall K V (t : table K V), row t = true ->
    (forall k, First t k d = found ToLower t k rlog) /\ tableIndex d (tableName t) = lastChange ToLower t rlog.

Section reflects.
Context {ToLower : string -> string} {DB : Type} `{MemdbLaws ToLower DB}.

(** A table that the entry does not concern. *)
Lemma reflects_other {K V} (t : table K V) i data rlog (d d' : DB) : row t = true ->
  registersIn t data = None -> removesFrom t data = None ->
  (forall k, First t k d' = First t k d) -> tableIndex d' (tableName t) = tableIndex d (tableName t) ->
  reflects ToLower rlog d ->
  (forall k, First t k d' = found ToLower t k ((i, data) :: rlog)) /\
  tableIndex d' (tableName t) = lastChange ToLower t ((i, data) :: rlog).
Proof.
  intros Hr E1 E2 HF HT Hf. destruct (Hf K V t Hr) as [H1' H2']. cbn [found lastChange]. unfold writes. rewrite E1, E2.
  split; [intros k; rewrite HF; apply H1'|rewrite HT; exact H2'].
Qed.

Lemma reflects_updated {K V} (t : table K V) k o i data rlog (d d' : DB) :
  row t = true -> updated ToLower t k o i d d' -> onlyIn t data -> reflects ToLower rlog d ->
  (forall k', found ToLower t k' ((i, data) :: rlog) =
     if decide (norm ToLower t k' = norm ToLower t k) then o else found ToLower t k' rlog) ->
  lastChange ToLower t ((i, data) :: rlog) = i -> reflects ToLower ((i, data) :: rlog) d'.
Proof.
  intros Hr (U1 & U2 & U3) Ho Hf Hk Hl K' V' t' Hr'. destruct (decide (tableName t = tableName t')) as [Hn|Hn].
  - assert (Hmine : (forall k', First t k' d' = found ToLower t k' ((i, data) :: rlog)) /\
      tableIndex d' (tableName t) = lastChange ToLower t ((i, data) :: rlog)).
    { split; [|rewrite U3, decide_True, Hl; reflexivity].
      intros k'. rewrite U1, Hk. case_decide; [reflexivity|apply Hf, Hr]. }
    destruct t, t'; try discriminate Hn; exact Hmine.
  - destruct (Ho _ _ t' Hr' Hn) as [E1 E2].
    apply (reflects_other t' i data rlog d); auto. rewrite U3, !ToLower_table, decide_False by congruence. reflexivity.
Qed.

(** An entry that can be read takes the database to what the longer log says;
    one that cannot panics. *)
Lemma Apply_reflects i data rlog (d : DB) : reflects ToLower rlog d ->
  if readable data then exists d', after (Apply data i d) = Some d' /\ reflects ToLower ((i, data) :: rlog) d'
  else after (Apply data i d) = None.
Proof.
  intros Hf. destruct (Apply_step data i d) as [Hs ->]. pose proof (step_of_says data) as Hsays.
  destruct (step_of data) as [| |K V t v|K V t k]; cbn [run_step is_step] in *.
  - rewrite Hsays. reflexivity.
  - destruct Hsays as [-> Hn]. exists d. split; [reflexivity|]. intros K V t Ht. destruct (Hn _ _ t Ht).
    apply (reflects_other t i data rlog d); auto.
  - destruct Hsays as (-> & E1 & E2 & Ho). destruct (indexable t v) eqn:Hi.
    + destruct (ensure_updates t i v d Hs Hi) as (d' & E & Hu). rewrite E. exists d'. split; [reflexivity|].
      eapply reflects_updated; [exact Hs|exact Hu|exact Ho|exact Hf| |cbn [lastChange]; rewrite E1, Hi; reflexivity].
      intros k'. cbn [found]. unfold writes. rewrite E1, Hi. cbn [andb].
      destruct (decide _) as [Hk|Hk]; [rewrite bool_decide_true by exact Hk|rewrite bool_decide_false by exact Hk; reflexivity].
      unfold stamp. rewrite <- (First_norm t k') by exact Hk. rewrite (proj1 (Hf _ _ t Hs)), born_found by exact Hs. reflexivity.
    + rewrite (ensure_fails t i v d Hi). exists d. split; [reflexivity|]. intros K' V' t' Ht'.
      destruct (decide (tableName t = tableName t')) as [Hn|Hn];
        [|destruct (Ho _ _ t' Ht' Hn); apply (reflects_other t' i data rlog d); auto].
      assert (Hmine : (forall k', First t k' d = found ToLower t k' ((i, data) :: rlog)) /\
        tableIndex d (tableName t) = lastChange ToLower t ((i, data) :: rlog)).
      { cbn [found lastChange]. unfold writes. rewrite E1, Hi. exact (Hf _ _ t Hs). }
      destruct t, t'; try discriminate Hn; exact Hmine.
  - destruct Hsays as (-> & E1 & E2 & Ho). destruct (First t k d) as [w|] eqn:F.
    + destruct (delete_updates t i k w d Hs F) as (d' & E & Hu). rewrite E. exists d'. split; [reflexivity|].
      eapply reflects_updated; [exact Hs|exact Hu|exact Ho|exact Hf| |].
      * intros k'. cbn [found]. unfold writes. rewrite E1, E2. case_decide; reflexivity.
      * cbn [lastChange]. rewrite E1, E2, <- (proj1 (Hf _ _ t Hs)), F. reflexivity.
    + rewrite (delete_absent t i k d F). exists d. split; [reflexivity|]. intros K' V' t' Ht'.
      destruct (decide (tableName t = tableName t')) as [Hn|Hn];
        [|destruct (Ho _ _ t' Ht' Hn); apply (reflects_other t' i data rlog d); auto].
      assert (Hmine : (forall k', First t k' d = found ToLower t k' ((i, data) :: rlog)) /\
        tableIndex d (tableName t) = lastChange ToLower t ((i, data) :: rlog)).
      { cbn [found lastChange]. unfold writes. rewrite E1, E2, <- (proj1 (Hf _ _ t Hs)), F.
        split; [|apply Hf, Hs]. intros k'. case_decide as Hk; [|apply Hf, Hs].
        rewrite (First_norm t k' k) by exact Hk. exact F. }
      destruct t, t'; try discriminate Hn; exact Hmine.
Qed.

Lemma replay_reflects es : forall d : DB, reflects ToLower [] d ->
  if forallb readable es.*2 then exists d', replay es d = Some d' /\ reflects ToLower (reverse es) d'
  else replay es d = None.
Proof.
  intros d Hd. induction es as [|[i data] es IH] using rev_ind; [exists d; auto|].
  rewrite fmap_app, forallb_app, replay_snoc, reverse_snoc. cbn [fmap list_fmap forallb snd]. rewrite andb_true_r.
  destruct (forallb readable es.*2); cbn [andb]; [|rewrite IH; reflexivity].
  destruct IH as (d1 & -> & H1'). cbn [mbind option_bind]. pose proof (Apply_reflects i data _ d1 H1') as Ha.
  exact Ha.
Qed.
End reflects.

(** ** Indexes

    Entries keep the secondary indexes right: only writes in place do not. *)
Section indexing.
Context {ToLower : string -> string} {DB : Type} `{MemdbLaws ToLower DB} {K V} (i : intIndex K V).

Lemma insert_indexed {K' V'} (t : table K' V') v (d d' : DB) u : insert t v d = Ret u d' -> indexed i d -> indexed i d'.
Proof. unfold insert. destruct (Insert t v d) as [d1|] eqn:E; [|discriminate]. intros [= _ <-]. exact (indexed_insert i t v d d1 E). Qed.

Lemma run_step_indexed s idx (d d' : DB) : after (run_step s idx d) = Some d' -> indexed i d -> indexed i d'.
Proof.
  destruct s as [| |K' V' t v|K' V' t k]; cbn [run_step]; [discriminate|intros [= <-]; auto| |]; unfold txn.
  - destruct (ensureTxn t idx v d) as [u d1|e d1|] eqn:E; cbn; [|intros [= <-]; auto|discriminate].
    intros [= <-] Hi. unfold ensureTxn in E. apply bind_inv in E as (o & d0 & E0 & E). injection E0 as <- <-.
    apply bind_inv in E as (u1 & d2 & E1 & E2). exact (insert_indexed _ _ _ _ _ E2 (insert_indexed _ _ _ _ _ E1 Hi)).
  - destruct (deleteTxn t idx k d) as [u d1|e d1|] eqn:E; cbn; [|intros [= <-]; auto|discriminate].
    intros [= <-] Hi. unfold deleteTxn in E. apply bind_inv in E as (o & d0 & E0 & E). injection E0 as <- <-.
    destruct (First t k d) as [v|]; [|injection E as _ <-; exact Hi].
    apply bind_inv in E as (u1 & d2 & E1 & E2). refine (insert_indexed _ _ _ _ _ E2 _).
    unfold delete in E1. destruct (Delete t v d) as [d3|] eqn:E3; [|discriminate]. injection E1 as _ <-.
    exact (indexed_delete i t v d d3 E3 Hi).
Qed.

Lemma Apply_indexed data idx (d d' : DB) : after (Apply data idx d) = Some d' -> indexed i d -> indexed i d'.
Proof. rewrite (proj2 (Apply_step data idx d)). apply run_step_indexed. Qed.

Lemma replay_indexed es : forall d d' : DB, replay es d = Some d' -> indexed i d -> indexed i d'.
Proof.
  induction es as [|[j data] es IH]; intros d d'; cbn [replay]; [intros [= <-]; auto|].
  destruct (after (Apply data j d)) as [d1|] eqn:E; [|discriminate]. cbn. intros E' Hi.
  exact (IH _ _ E' (Apply_indexed _ _ _ _ E Hi)).
Qed.
End indexing.

(** ** Databases that agree *)

(** Two databases that give the same answers. *)
Definition agree {D1 D2} `{Memdb D1} `{Memdb D2} (d1 : D1) (d2 : D2) : Prop :=
  (forall K V (t : table K V) k, row t = true -> First t k d1 = First t k d2) /\
  forall name, tableIndex d1 name = tableIndex d2 name.

Section replicas.
Context {ToLower : string -> string} {D1 D2 : Type} `{MemdbLaws ToLower D1} `{MemdbLaws ToLower D2}.

Lemma updated_agree {K V} (t : table K V) k o idx (d1 d1' : D1) (d2 d2' : D2) :
  row t = true -> updated ToLower t k o idx d1 d1' -> updated ToLower t k o idx d2 d2' ->
  agree d1 d2 -> agree d1' d2'.
Proof.
  intros Hr (A1 & A2 & A3) (B1 & B2 & B3) [Ha Hi]. split.
  - intros K' V' t' k' Hr'. destruct (decide (tableName t = tableName t')) as [Hn|Hn].
    + destruct t, t'; try discriminate; rewrite A1, B1; case_decide; auto.
    + rewrite A2, B2 by assumption. auto.
  - intros name. rewrite A3, B3. case_decide; auto.
Qed.

Lemma run_step_agree s idx (d1 : D1) (d2 : D2) : is_step s -> agree d1 d2 ->
  match run_step s idx d1, run_step s idx d2 with
  | Ret _ a, Ret _ b => agree a b
  | Fail e a, Fail e' b => e = e' /\ agree a b
  | Crash, Crash => True
  | _, _ => False
  end.
Proof.
  intros Hs Ha. destruct s as [| |K V t v|K V t k]; cbn [run_step is_step] in *; [exact I|exact Ha| |].
  - destruct (indexable t v) eqn:Hi.
    + destruct (ensure_updates t idx v d1 Hs Hi) as (a & -> & Ua).
      destruct (ensure_updates t idx v d2 Hs Hi) as (b & -> & Ub).
      rewrite <- (proj1 Ha _ _ t _ Hs) in Ub. eapply updated_agree; eassumption.
    + rewrite (ensure_fails t idx v d1 Hi), (ensure_fails t idx v d2 Hi). auto.
  - destruct (First t k d1) as [w|] eqn:F; pose proof F as G; rewrite (proj1 Ha _ _ t _ Hs) in G.
    + destruct (delete_updates t idx k w d1 Hs F) as (a & -> & Ua).
      destruct (delete_updates t idx k w d2 Hs G) as (b & -> & Ub).
      eapply updated_agree; eassumption.
    + rewrite (delete_absent t idx k d1 F), (delete_absent t idx k d2 G). exact Ha.
Qed.

Lemma replay_agree es : forall (d1 : D1) (d2 : D2), agree d1 d2 ->
  option_Forall2 agree (replay es d1) (replay es d2).
Proof.
  induction es as [|[idx data] es IH]; intros d1 d2 Ha; cbn [replay]; [constructor; exact Ha|].
  destruct (Apply_step data idx d1) as [Hs ->]. destruct (Apply_step data idx d2) as [_ ->].
  pose proof (run_step_agree _ idx d1 d2 Hs Ha) as Hr.
  destruct (run_step _ idx d1), (run_step _ idx d2); cbn [after mbind option_bind]; try tauto; try constructor;
    apply IH; apply Hr.
Qed.
End replicas.
End rows.
