(* ===== verification/StateMachine.v ===== *)
(** * The state machine object

    [src/jocko/fsm/fsm.go], [snapshot.go]: the tables of commands and schemas
    filled when the package is loaded, making a store and the state machine,
    the stores that [Restore] replaces one by the other, snapshots.  Stores are
    shared by pointer: who asked for the state keeps the store it got. *)
From S2P Require Import Prelude Structs Store StoreSteps.

(** ** Registration *)
Section registration.
Context {DB : Type} `{Memdb DB}.
Context `{Msgpack Node.t} `{Msgpack Topic.t} `{Msgpack Partition.t} `{Msgpack Group.t}.
Abbreviation unboundCommand := (list byte -> Z -> M DB unit).

(** A second command for a message type panics ([None]). *)
Definition registerCommand (msg : Z) (fn : unboundCommand) (cs : list (Z * unboundCommand)) : option (list (Z * unboundCommand)) :=
  match command msg cs with Some _ => None | None => Some (cs ++ [(msg, fn)]) end.
Definition initCommands : option (list (Z * unboundCommand)) :=
  cs ← registerCommand RegisterNodeRequestType applyRegisterNode [];
  cs ← registerCommand DeregisterNodeRequestType applyDeregisterNode cs;
  cs ← registerCommand RegisterTopicRequestType applyRegisterTopic cs;
  cs ← registerCommand DeregisterTopicRequestType applyDeregisterTopic cs;
  cs ← registerCommand RegisterPartitionRequestType applyRegisterPartition cs;
  cs ← registerCommand DeregisterPartitionRequestType applyDeregisterPartition cs;
  registerCommand RegisterGroupRequestType applyRegisterGroup cs.
End registration.

(** The schemas by the names of their tables. *)
Definition registerSchema (name : string) (ss : list string) : list string := ss ++ [name].
Definition schemas : list string :=
  registerSchema (tableName Groups) (registerSchema (tableName Partitions) (registerSchema (tableName Topics)
    (registerSchema (tableName Nodes) (registerSchema (tableName Indexes) [])))).

(** The tables of a new database; a name that is there already panics. *)
Fixpoint buildSchema (ss : list string) (tables : gset string) : option (gset string) :=
  match ss with
  | [] => Some tables
  | s :: ss => if decide (s ∈ tables) then None else buildSchema ss ({[s]} ∪ tables)
  end.

(** ** Stores and the state machine *)

(** What [New] and [NewStore] are given, in any order. *)
Inductive arg := ArgNodeID (id : Z) | ArgTracer | ArgOther.

Section machine.
Context {DB : Type} `{Memdb DB}.
Context `{Msgpack Node.t} `{Msgpack Topic.t} `{Msgpack Partition.t} `{Msgpack Group.t}.
(** The header of a snapshot through msgpack, and what [memdb.NewMemDB] returns
    as its error. *)
Context (encodeHeader : Z -> option (list byte)) (decodeHeader : list byte -> option (Z * list byte)).

(** [abandoned]: [abandonCh] is closed; [tracer]: it is not nil. *)
Record StoreObj := mkStoreObj {
  schema : gset string; db : DB; abandoned : bool; tracer : bool; nodeID : Z }.

Fixpoint nodeArg (args : list arg) (id : Z) : Z :=
  match args with [] => id | ArgNodeID i :: args => nodeArg args i | _ :: args => nodeArg args id end.
Definition tracerArg (args : list arg) : bool :=
  existsb (fun a => match a with ArgTracer => true | _ => false end) args.

Definition NewStore (memdbError : option error) (args : list arg) : outcome unit StoreObj :=
  match buildSchema schemas ∅ with
  | None => Crash
  | Some tables =>
      match memdbError with
      | Some e => Fail e tt
      | None => Ret (mkStoreObj tables NewMemDB false (tracerArg args) (nodeArg args 0)) tt
      end
  end.

(** Closing a channel that is closed panics. *)
Definition Abandon (s : StoreObj) : option StoreObj :=
  if abandoned s then None else Some (mkStoreObj (schema s) (db s) true (tracer s) (nodeID s)).
Definition AbandonCh (s : StoreObj) : bool := abandoned s.

Definition setDB (d : DB) (s : StoreObj) : StoreObj :=
  mkStoreObj (schema s) d (abandoned s) (tracer s) (nodeID s).

(** Every read of a store starts a span with its tracer. *)
Definition traced {A} (f : DB -> A) (s : StoreObj) : option A := if tracer s then Some (f (db s)) else None.

(** [stores] are all stores that were made, [state] points to the one in use. *)
Record FSM := mkFSM {
  apply : list (Z * (list byte -> Z -> M DB unit)); stores : list StoreObj; state : nat;
  fsmTracer : bool; fsmNodeID : Z }.

Definition tracerList (t : bool) : list arg := if t then [ArgTracer] else [].

Definition New (memdbError : option error) (args : list arg) : outcome unit FSM :=
  match NewStore memdbError (ArgNodeID (nodeArg args 0) :: tracerList (tracerArg args)) with
  | Ret s _ =>
      match initCommands with
      | Some cs => Ret (mkFSM cs [s] 0 (tracerArg args) (nodeArg args 0)) tt
      | None => Crash
      end
  | Fail e _ => Fail e tt
  | Crash => Crash
  end.

Definition State (c : FSM) : nat := state c.

(** The store that a handle points to. *)
Definition storeAt (p : nat) (c : FSM) : option StoreObj := stores c !! p.
Definition putStore (p : nat) (s : StoreObj) (c : FSM) : FSM :=
  mkFSM (apply c) (<[p := s]> (stores c)) (state c) (fsmTracer c) (fsmNodeID c).

(** The commands whose operation of the store starts a span: all but the
    deregistration of a topic, [Store.DeleteTopic]. *)
Definition startsSpan (t : Z) : bool := negb (t =? DeregisterTopicRequestType).

(** [FSM.Apply]: a command works on the store in use; starting a span without a
    tracer panics. *)
Definition ApplyLog (data : list byte) (index : Z) : M FSM unit := fun c =>
  match data, stores c !! state c with
  | b :: buf, Some s =>
      match command (Z_of_byte b) (apply c) with
      | Some fn =>
          match fn buf index (db s) with
          | Ret _ d => if tracer s || negb (startsSpan (Z_of_byte b)) then Ret tt (putStore (state c) (setDB d s) c) else Crash
          | Fail e d => if tracer s || negb (startsSpan (Z_of_byte b)) then Fail e (putStore (state c) (setDB d s) c) else Crash
          | Crash => Crash
          end
      | None => Ret tt c
      end
  | _, _ => Crash
  end.

(** [FSM.Restore]: a new store, with the tracer only, takes the place of the old
    one when everything was read; the old one is abandoned. *)
Definition RestoreLog (memdbError : option error) (old : list byte) : M FSM unit := fun c =>
  match NewStore memdbError (tracerList (fsmTracer c)) with
  | Crash => Crash
  | Fail e _ => Fail e c
  | Ret new _ =>
      match Restore decodeHeader old (db new) with
      | Crash => Crash
      | Fail e _ => Fail e c
      | Ret _ d =>
          match stores c !! state c with
          | None => Crash
          | Some oldState =>
              match Abandon oldState with
              | None => Crash
              | Some oldState =>
                  Ret tt (mkFSM (apply c) (<[state c := oldState]> (stores c) ++ [setDB d new])
                    (length (stores c)) (fsmTracer c) (fsmNodeID c))
              end
          end
      end
  end.

(** [Store.Snapshot]: a read transaction on what is there now and the last index;
    [Close] ends it.  [maxIndex] reads in a transaction of its own. *)
Record Snapshot := mkSnapshot { snapDB : DB; lastIndex : Z; closedTx : bool }.
Definition TakeSnapshot (c : FSM) : option Snapshot :=
  s ← stores c !! state c; Some (mkSnapshot (db s) (LastIndex (db s)) false).
Definition CloseSnapshot (s : Snapshot) : Snapshot := mkSnapshot (snapDB s) (lastIndex s) true.
Definition maxIndex (tables : list string) (s : StoreObj) : Z := maxIndexTxn tables (db s).

(** ** Lemmas *)
Lemma init_registers : initCommands (DB := DB) = Some commands.
Proof. reflexivity. Qed.

Lemma schemas_distinct : exists tables, buildSchema schemas ∅ = Some tables.
Proof.
  assert (Hs : match buildSchema schemas ∅ with Some _ => true | None => false end = true) by (vm_compute; reflexivity).
  destruct (buildSchema schemas ∅); [eauto|discriminate].
Qed.

(** What holds of a state machine while the process lives: it has the registered
    commands, its store is there and not abandoned. *)
Record usable (c : FSM) : Prop := {
  u_apply : apply c = commands;
  u_state : exists s, stores c !! state c = Some s /\ abandoned s = false /\ tracer s = fsmTracer c }.

Lemma New_usable e args c : New e args = Ret c tt -> usable c /\ fsmNodeID c = nodeArg args 0.
Proof.
  unfold New, NewStore. destruct schemas_distinct as [tables ->]. destruct e; [discriminate|].
  rewrite init_registers. intros [= <-]. split; [|reflexivity]. constructor; [reflexivity|].
  eexists. split; [reflexivity|]. cbn. destruct (tracerArg args); auto.
Qed.

Lemma New_made args : New None args = Ret (mkFSM commands
  [mkStoreObj (default ∅ (buildSchema schemas ∅)) NewMemDB false (tracerArg args) (nodeArg args 0)] 0
  (tracerArg args) (nodeArg args 0)) tt.
Proof.
  unfold New, NewStore. destruct schemas_distinct as [tables ->]. rewrite init_registers.
  destruct (tracerArg args) eqn:E; cbn; reflexivity.
Qed.

(** With a tracer, [ApplyLog] is [Store.Apply] on the store in use. *)
Lemma ApplyLog_store data index c s : usable c -> fsmTracer c = true -> stores c !! state c = Some s ->
  ApplyLog data index c =
  match Apply data index (db s) with
  | Ret _ d => Ret tt (putStore (state c) (setDB d s) c)
  | Fail e d => Fail e (putStore (state c) (setDB d s) c)
  | Crash => Crash
  end.
Proof.
  intros [Ha (s' & Hs & _ & Ht)] Hf E. assert (s' = s) as -> by congruence. unfold ApplyLog, Apply.
  rewrite E. destruct data as [|b buf]; [reflexivity|]. rewrite Ha, Ht, Hf.
  destruct (command (Z_of_byte b) commands); [|]; cbn.
  - destruct (m buf index (db s)); reflexivity.
  - unfold putStore, setDB. replace (<[state c:=_]> (stores c)) with (stores c); [destruct c; reflexivity|].
    symmetry. apply list_insert_id. rewrite E. destruct s; reflexivity.
Qed.

(** A run of entries and restores, up to the first panic. *)
Inductive op := OpApply (data : list byte) (index : Z) | OpRestore (memdbError : option error) (old : list byte).
Definition runOp (o : op) : M FSM unit :=
  match o with OpApply data index => ApplyLog data index | OpRestore e old => RestoreLog e old end.
Definition settled (o : outcome FSM unit) : option FSM :=
  match o with Ret _ c | Fail _ c => Some c | Crash => None end.
Fixpoint runOps (os : list op) (c : FSM) : option FSM :=
  match os with [] => Some c | o :: os => c ← settled (runOp o c); runOps os c end.

(** What a command leaves of the state machine around the store. *)
Lemma ApplyLog_around data index c c' : usable c -> settled (ApplyLog data index c) = Some c' ->
  usable c' /\ state c' = state c /\ fsmTracer c' = fsmTracer c /\ fsmNodeID c' = fsmNodeID c /\
  length (stores c') = length (stores c) /\
  forall p, p <> state c -> stores c' !! p = stores c !! p.
Proof.
  intros [Ha (s & Hs & Hab & Ht)] E.
  assert (Hput : forall d, usable (putStore (state c) (setDB d s) c)).
  { intros d. constructor; [exact Ha|]. exists (setDB d s). cbn. rewrite list_lookup_insert_eq; [auto|].
    eapply lookup_lt_Some, Hs. }
  assert (Hgoal : c' = c \/ exists d, c' = putStore (state c) (setDB d s) c).
  { unfold ApplyLog in E. rewrite Hs in E. destruct data as [|b buf]; [discriminate|].
    destruct (command _ _) as [fn|]; [|injection E as <-; auto].
    destruct (fn buf index (db s)); try discriminate; destruct (tracer s || _); try discriminate;
      injection E as <-; eauto. }
  destruct Hgoal as [->|(d & ->)].
  - split; [|auto]. constructor; eauto.
  - split; [apply Hput|]. cbn. rewrite length_insert. repeat split; try reflexivity.
    intros p Hp. apply list_lookup_insert_ne. congruence.
Qed.

(** A restore succeeds, or changes nothing; it never panics. *)
Lemma RestoreLog_outcome e old c : usable c ->
  (exists err, RestoreLog e old c = Fail err c) \/
  exists s d, stores c !! state c = Some s /\ Restore decodeHeader old NewMemDB = Ret tt d /\
    RestoreLog e old c = Ret tt (mkFSM (apply c)
      (<[state c := mkStoreObj (schema s) (db s) true (tracer s) (nodeID s)]> (stores c) ++
       [mkStoreObj (default ∅ (buildSchema schemas ∅)) d false (fsmTracer c) 0])
      (length (stores c)) (fsmTracer c) (fsmNodeID c)).
Proof.
  intros [Ha (s & Hs & Hab & Ht)]. unfold RestoreLog, NewStore. destruct schemas_distinct as [tables ->].
  destruct e as [e|]; [eauto|]. cbn [db].
  destruct (Restore decodeHeader old NewMemDB) as [[] d|err d|] eqn:E; [|eauto|].
  - right. exists s, d. rewrite Hs. unfold Abandon. rewrite Hab. split; [reflexivity|]. split; [reflexivity|].
    unfold setDB. cbn. destruct (fsmTracer c); reflexivity.
  - exfalso. unfold Restore in E. destruct (decodeHeader old) as [[i rest]|]; [|discriminate].
    destruct (restoreLoop (length rest) rest NewMemDB); discriminate.
Qed.

Lemma RestoreLog_usable e old c c' : usable c -> settled (RestoreLog e old c) = Some c' -> usable c'.
Proof.
  intros U E. destruct (RestoreLog_outcome e old c U) as [(err & Er)|(s & d & Hs & _ & Er)]; rewrite Er in E; injection E as <-.
  - exact U.
  - constructor; [apply (u_apply _ U)|]. eexists. cbn.
    rewrite lookup_app_r by (rewrite length_insert; lia). rewrite length_insert, Nat.sub_diag. split; [reflexivity|]. auto.
Qed.

Lemma runOps_usable os c c' : usable c -> runOps os c = Some c' -> usable c'.
Proof.
  revert c. induction os as [|o os IH]; intros c U; cbn [runOps]; [intros [= <-]; exact U|].
  destruct (settled (runOp o c)) as [c1|] eqn:E; cbn; [|discriminate]. apply IH.
  destruct o; cbn in E; [apply (ApplyLog_around _ _ _ _ U E)|exact (RestoreLog_usable _ _ _ _ U E)].
Qed.

(** A store that is no longer in use stays as it is. *)
Lemma runOps_frozen os c c' p : usable c -> runOps os c = Some c' -> (p < state c)%nat ->
  (p < state c')%nat /\ stores c' !! p = stores c !! p.
Proof.
  revert c. induction os as [|o os IH]; intros c U; cbn [runOps]; [intros [= <-]; auto|].
  destruct (settled (runOp o c)) as [c1|] eqn:E; cbn; [|discriminate]. intros Hr Hp.
  assert (U1 : usable c1 /\ (p < state c1)%nat /\ stores c1 !! p = stores c !! p).
  { destruct o as [data index|e old]; cbn in E.
    - destruct (ApplyLog_around _ _ _ _ U E) as (U1 & Hs & _ & _ & _ & Hn). rewrite Hs. auto with lia.
    - split; [exact (RestoreLog_usable _ _ _ _ U E)|].
      destruct (RestoreLog_outcome e old c U) as [(err & Er)|(s & d & Hs & _ & Er)]; rewrite Er in E; injection E as <-; [auto|].
      pose proof (lookup_lt_Some _ _ _ Hs) as Hl. cbn. split; [lia|].
      rewrite lookup_app_l by (rewrite length_insert; lia). apply list_lookup_insert_ne. lia. }
  destruct U1 as (U1 & Hp1 & E1). destruct (IH c1 U1 Hr Hp1) as [H1' H2']. rewrite <- E1. auto.
Qed.
End machine.
