(* ===== verification/Cluster.v ===== *)
(** * Brokers of the cluster

    [src/jocko/metadata/metadata.go]: a broker read from the tags of a member;
    [src/jocko/broker_lookup.go] and [src/jocko/replica_lookup.go]: the brokers
    and the replicas a broker knows; [buildPartitions] of
    [src/jocko/broker.go]: the assignment of replicas to brokers. *)
From S2P Require Import Prelude Decoder Codec Structs.
From Stdlib Require Import Strings.Byte.

(** ** Decimal numbers: ["%d"] and [strconv.Atoi] *)
Definition digit (d : Z) : byte := byte_of_Z (48 + d).
Fixpoint digits (fuel : nat) (n : Z) : list byte :=
  match fuel with
  | O => [digit n]
  | S fuel => if n <? 10 then [digit n] else digits fuel (n / 10) ++ [digit (n mod 10)]
  end.
(** A number has no more decimal than binary digits. *)
Definition utoa (n : Z) : list byte := digits (Z.to_nat (Z.log2 n)) n.
Definition itoa (z : Z) : string :=
  string_of_bytes (if z <? 0 then x2d :: utoa (- z) else utoa z).

Definition value_of (b : byte) : option Z :=
  let d := Z_of_byte b - 48 in if (0 <=? d) && (d <? 10) then Some d else None.
Definition push (acc : option Z) (b : byte) : option Z :=
  n ← acc; d ← value_of b; Some (n * 10 + d).
(** [None] is a syntax or a range error. *)
Definition Atoi (s : string) : option Z :=
  let bs := bytes_of_string s in
  let '(neg, ds) := match bs with
    | x2d :: ds => (true, ds) | x2b :: ds => (false, ds) | ds => (false, ds) end in
  match ds with
  | [] => None
  | _ => n ← foldl push (Some 0) ds;
         let z := if (neg : bool) then - n else n in
         if decide (in_int 64 z) then Some z else None
  end.

(** ** Members and brokers *)
Module SerfMember.
Record t := mk { Name : string; Tags : gmap string string; Status : Z }.
End SerfMember.

Module BrokerMeta.
Record t := mk {
  ID : Z; Name : string; Bootstrap : bool; Expect : Z; NonVoter : bool; Status : Z;
  RaftAddr : string; SerfLANAddr : string; BrokerAddr : string }.
#[global] Instance eq_dec : EqDecision t. Proof. solve_decision. Defined.
End BrokerMeta.

(** A missing tag reads as the empty string. *)
Definition tag (m : SerfMember.t) (k : string) : string := default "" (SerfMember.Tags m !! k).
Definition IsBroker (m : SerfMember.t) : option BrokerMeta.t :=
  if negb (bool_decide (tag m "role" = "jocko")) then None else
  expect ← match SerfMember.Tags m !! "expect" with Some s => Atoi s | None => Some 0 end;
  id ← Atoi (tag m "id");
  Some (BrokerMeta.mk (int32 id) (tag m "name") (bool_decide (is_Some (SerfMember.Tags m !! "bootstrap"))) expect
    (bool_decide (is_Some (SerfMember.Tags m !! "non_voter"))) (SerfMember.Status m)
    (tag m "raft_addr") (tag m "serf_lan_addr") (tag m "broker_addr")).

(** ** [brokerLookup] *)
Record brokerLookup := mkBrokerLookup {
  addressToBroker : gmap string BrokerMeta.t; idToBroker : gmap string BrokerMeta.t }.
Definition NewBrokerLookup : brokerLookup := mkBrokerLookup ∅ ∅.
Definition AddBroker (b : BrokerMeta.t) (l : brokerLookup) : brokerLookup :=
  mkBrokerLookup (<[BrokerMeta.RaftAddr b := b]> (addressToBroker l))
    (<[itoa (BrokerMeta.ID b) := b]> (idToBroker l)).
Definition BrokerByAddr (addr : string) (l : brokerLookup) : option BrokerMeta.t := addressToBroker l !! addr.
Definition BrokerByID (id : string) (l : brokerLookup) : option BrokerMeta.t := idToBroker l !! id.
Definition BrokerAddr (id : string) (l : brokerLookup) : error + string :=
  match idToBroker l !! id with
  | Some b => inr (BrokerMeta.RaftAddr b)
  | None => inl (ErrOther "no broker for id")
  end.
Definition RemoveBroker (b : BrokerMeta.t) (l : brokerLookup) : brokerLookup :=
  mkBrokerLookup (delete (BrokerMeta.RaftAddr b) (addressToBroker l))
    (delete (itoa (BrokerMeta.ID b)) (idToBroker l)).
(** In the order in which the map happens to be iterated. *)
Definition Brokers (o : map_order) (l : brokerLookup) : list BrokerMeta.t :=
  (range o (addressToBroker l)).*2.
(** [i] is what [rand.Intn] returns; with no broker it panics. *)
Definition RandomBroker (o : map_order) (i : nat) (l : brokerLookup) : option BrokerMeta.t := Brokers o l !! i.

(** ** [replicaLookup]: replicas are shared by pointer, of type [A] *)
Section replicas.
Context {A : Type}.
Abbreviation replicaLookup := (gmap string (gmap Z A)).
Definition NewReplicaLookup : replicaLookup := ∅.

(** The jump back to [ADD] is taken once at most: the topic is there then. *)
Definition AddReplica (topic : string) (id : Z) (r : A) (rl : replicaLookup) : replicaLookup :=
  match rl !! topic with
  | Some t => <[topic := <[id := r]> t]> rl
  | None =>
      let rl := <[topic := ∅]> rl in
      match rl !! topic with Some t => <[topic := <[id := r]> t]> rl | None => rl end
  end.
Definition Replica (topic : string) (partition : Z) (rl : replicaLookup) : error + A :=
  match default ∅ (rl !! topic) !! partition with
  | Some r => inr r
  | None => inl (ErrOther "no replica")
  end.
(** Deleting from a nil map does nothing. *)
Definition RemoveReplica (topic : string) (id : Z) (rl : replicaLookup) : replicaLookup :=
  match rl !! topic with Some t => <[topic := delete id t]> rl | None => rl end.

Lemma Replica_AddReplica topic id r rl topic' id' :
  Replica topic' id' (AddReplica topic id r rl) =
  if decide (topic' = topic /\ id' = id) then inr r else Replica topic' id' rl.
Proof.
  assert (E : AddReplica topic id r rl = <[topic := <[id := r]> (default ∅ (rl !! topic))]> rl).
  { unfold AddReplica. destruct (rl !! topic) eqn:E; [reflexivity|].
    rewrite lookup_insert_eq. cbn. rewrite insert_insert_eq. reflexivity. }
  rewrite E. unfold Replica. case_decide as Hd.
  - destruct Hd as [-> ->]. rewrite lookup_insert_eq. cbn. rewrite lookup_insert_eq. reflexivity.
  - destruct (decide (topic' = topic)) as [->|Ht].
    + rewrite lookup_insert_eq. cbn. rewrite lookup_insert_ne by naive_solver. reflexivity.
    + rewrite lookup_insert_ne by congruence. reflexivity.
Qed.

Lemma Replica_RemoveReplica topic id rl topic' id' :
  Replica topic' id' (RemoveReplica topic id rl) =
  if decide (topic' = topic /\ id' = id) then inl (ErrOther "no replica") else Replica topic' id' rl.
Proof.
  unfold RemoveReplica, Replica. destruct (rl !! topic) as [t|] eqn:E.
  - case_decide as Hd.
    + destruct Hd as [-> ->]. rewrite lookup_insert_eq. cbn. rewrite lookup_delete_eq. reflexivity.
    + destruct (decide (topic' = topic)) as [->|Ht].
      * rewrite lookup_insert_eq, E. cbn. rewrite lookup_delete_ne by naive_solver. reflexivity.
      * rewrite lookup_insert_ne by congruence. reflexivity.
  - case_decide as Hd; [|reflexivity]. destruct Hd as [-> ->]. rewrite E. cbn.
    rewrite lookup_empty. reflexivity.
Qed.
End replicas.

(** ** Numbers survive printing *)
Lemma value_digit d : 0 <= d < 10 -> value_of (digit d) = Some d.
Proof.
  intros Hd. unfold value_of, digit. rewrite Z_of_byte_of_Z, Z.mod_small by lia.
  replace (48 + d - 48) with d by lia.
  rewrite (proj2 (Z.leb_le 0 d)), (proj2 (Z.ltb_lt d 10)) by lia. reflexivity.
Qed.

Lemma div10_range fuel n : 10 <= n < 2 ^ Z.of_nat (S (S fuel)) -> 0 <= n / 10 < 2 ^ Z.of_nat (S fuel).
Proof.
  intros Hn. split; [apply Z.div_pos; lia|]. apply Z.div_lt_upper_bound; [lia|].
  replace (Z.of_nat (S (S fuel))) with (Z.of_nat (S fuel) + 1) in Hn by lia.
  rewrite Z.pow_add_r in Hn by lia. pose proof (pow2_pos (Z.of_nat (S fuel))). lia.
Qed.

Lemma log2_fuel n : 0 <= n -> 0 <= n < 2 ^ Z.of_nat (S (Z.to_nat (Z.log2 n))).
Proof.
  intros Hn. split; [exact Hn|].
  replace (Z.of_nat (S (Z.to_nat (Z.log2 n)))) with (Z.succ (Z.log2 n)) by (pose proof (Z.log2_nonneg n); lia).
  destruct (Z.eq_dec n 0) as [->|]; [reflexivity|apply Z.log2_spec; lia].
Qed.

Lemma digits_value fuel : forall n, 0 <= n < 2 ^ Z.of_nat (S fuel) -> foldl push (Some 0) (digits fuel n) = Some n.
Proof.
  induction fuel as [|fuel IH]; intros n Hn; cbn [digits].
  - cbn [foldl]. unfold push. cbn [mbind option_bind]. change (2 ^ Z.of_nat 1) with 2 in Hn.
    rewrite value_digit by lia. cbn. f_equal; lia.
  - destruct (Z.ltb_spec n 10).
    + cbn [foldl]. unfold push. cbn [mbind option_bind]. rewrite value_digit by lia. cbn. f_equal; lia.
    + rewrite foldl_app, IH.
      * cbn [foldl]. unfold push. cbn [mbind option_bind].
        rewrite value_digit by (apply Z.mod_pos_bound; lia). cbn. f_equal.
        pose proof (Z.div_mod n 10). lia.
      * apply div10_range. lia.
Qed.

Lemma utoa_value n : 0 <= n -> foldl push (Some 0) (utoa n) = Some n.
Proof. intros Hn. apply digits_value, log2_fuel, Hn. Qed.

Lemma utoa_head n : 0 <= n -> exists d ds, utoa n = digit d :: ds /\ 0 <= d < 10.
Proof.
  intros Hn. unfold utoa. pose proof (log2_fuel n Hn) as Hl. clear Hn. revert Hl.
  generalize (Z.to_nat (Z.log2 n)) as fuel. intros fuel. revert n.
  induction fuel as [|fuel IH]; intros n Hl; cbn [digits].
  - change (2 ^ Z.of_nat 1) with 2 in Hl. exists n, []. split; [reflexivity|lia].
  - destruct (Z.ltb_spec n 10); [exists n, []; split; [reflexivity|lia]|].
    destruct (IH (n / 10)) as (d & ds & -> & Hd); [apply div10_range; lia|].
    exists d, (ds ++ [digit (n mod 10)]). split; [reflexivity|exact Hd].
Qed.

Lemma Atoi_itoa z : in_int 64 z -> Atoi (itoa z) = Some z.
Proof.
  intros Hz. unfold Atoi, itoa. rewrite bytes_of_string_of_bytes.
  destruct (Z.ltb_spec z 0) as [Hn|Hn].
  - destruct (utoa_head (- z)) as (d & ds & E & _); [lia|]. pose proof (utoa_value (- z) ltac:(lia)) as Hv.
    rewrite E in *. rewrite Hv. cbn [mbind option_bind]. rewrite Z.opp_involutive, decide_True by exact Hz. reflexivity.
  - destruct (utoa_head z) as (d & ds & E & Hd); [lia|]. pose proof (utoa_value z Hn) as Hv.
    rewrite E in *.
    assert (Hs : digit d <> x2d /\ digit d <> x2b).
    { split; intros C; apply (f_equal Z_of_byte) in C; unfold digit in C;
        rewrite Z_of_byte_of_Z, Z.mod_small in C by lia;
        [change (Z_of_byte x2d) with 45 in C|change (Z_of_byte x2b) with 43 in C]; lia. }
    destruct (digit d) eqn:Ed; try (destruct Hs; congruence);
      rewrite Hv; cbn [mbind option_bind]; rewrite decide_True by exact Hz; reflexivity.
Qed.

Lemma itoa_inj a b : in_int 64 a -> in_int 64 b -> itoa a = itoa b -> a = b.
Proof. intros Ha Hb E. apply (f_equal Atoi) in E. rewrite !Atoi_itoa in E by assumption. congruence. Qed.

(** ** The lookup as a set of brokers *)

(** The events of the membership that change the lookup ([lanNodeJoin] and
    [lanNodeFailed] of [src/jocko/serf.go], for one member each, without the
    bootstrap of raft that a join may start). *)
Inductive event := NodeJoin (m : SerfMember.t) | NodeFailed (m : SerfMember.t).
Definition member (e : event) : SerfMember.t := match e with NodeJoin m | NodeFailed m => m end.
Definition handleEvent (l : brokerLookup) (e : event) : brokerLookup :=
  match IsBroker (member e) with
  | None => l
  | Some b => match e with NodeJoin _ => AddBroker b l | NodeFailed _ => RemoveBroker b l end
  end.
Definition handleEvents : list event -> brokerLookup := foldl handleEvent NewBrokerLookup.

(** What the events say: the brokers that have joined and not failed since. *)
Definition liveStep (m : gmap Z BrokerMeta.t) (e : event) : gmap Z BrokerMeta.t :=
  match IsBroker (member e) with
  | None => m
  | Some b => match e with
              | NodeJoin _ => <[BrokerMeta.ID b := b]> m
              | NodeFailed _ => delete (BrokerMeta.ID b) m
              end
  end.
Definition live : list event -> gmap Z BrokerMeta.t := foldl liveStep ∅.

(** A broker keeps its raft address, and no two brokers share one. *)
Definition stable (es : list event) : Prop :=
  forall e e' b b', e ∈ es -> e' ∈ es -> IsBroker (member e) = Some b -> IsBroker (member e') = Some b' ->
    BrokerMeta.ID b = BrokerMeta.ID b' <-> BrokerMeta.RaftAddr b = BrokerMeta.RaftAddr b'.

Lemma IsBroker_ID m b : IsBroker m = Some b -> in_int 64 (BrokerMeta.ID b).
Proof.
  unfold IsBroker. case_bool; [discriminate|].
  destruct (match SerfMember.Tags m !! "expect" with Some s => Atoi s | None => Some 0 end); [|discriminate].
  cbn [mbind option_bind]. destruct (Atoi (tag m "id")) as [id|]; [|discriminate]. cbn.
  intros [= <-]. cbn. pose proof (sext_range 32 id ltac:(lia)) as Hr. unfold int32, in_int in *. lia.
Qed.

(** [known es b]: [b] is the broker of a member of [es]. *)
Definition known (es : list event) (b : BrokerMeta.t) : Prop := exists e, e ∈ es /\ IsBroker (member e) = Some b.

Definition tracks (es : list event) (l : brokerLookup) (m : gmap Z BrokerMeta.t) : Prop :=
  (forall id b, m !! id = Some b -> BrokerMeta.ID b = id /\ known es b) /\
  (forall id, in_int 64 id -> BrokerByID (itoa id) l = m !! id) /\
  (forall a b, addressToBroker l !! a = Some b <-> m !! BrokerMeta.ID b = Some b /\ BrokerMeta.RaftAddr b = a).

Lemma tracks_join es l m b : stable es -> known es b -> tracks es l m ->
  tracks es (AddBroker b l) (<[BrokerMeta.ID b := b]> m).
Proof.
  intros Hst (eb & Hin & Eb) (Hm & Hid & Ha). split_and!.
  - intros id b'. rewrite lookup_insert_Some. intros [[<- <-]|[_ E]]; [split; [reflexivity|exists eb; auto]|auto].
  - intros id Hr. unfold BrokerByID, AddBroker. cbn. destruct (decide (BrokerMeta.ID b = id)) as [<-|Hne].
    + rewrite !lookup_insert_eq. reflexivity.
    + rewrite !lookup_insert_ne; [apply Hid, Hr|exact Hne|].
      intros C. apply Hne, itoa_inj; [exact (IsBroker_ID _ _ Eb)|exact Hr|exact C].
  - intros a b'. cbn. rewrite !lookup_insert_Some, Ha. split.
    + intros [[<- <-]|[Hne [E1 E2]]]; [auto|]. split; [right|exact E2]. split; [|exact E1].
      intros C. destruct (proj2 (Hm _ _ E1)) as (e' & Hin' & E').
      apply Hne. rewrite <- E2. apply (Hst eb e' b b'); auto.
    + intros [[[C <-]|[Hne E1]] E2]; [auto|]. right. split; [|auto]. intros C.
      destruct (proj2 (Hm _ _ E1)) as (e' & Hin' & E').
      apply Hne. apply (Hst eb e' b b'); auto. congruence.
Qed.

Lemma tracks_failed es l m b : stable es -> known es b -> tracks es l m ->
  tracks es (RemoveBroker b l) (delete (BrokerMeta.ID b) m).
Proof.
  intros Hst (eb & Hin & Eb) (Hm & Hid & Ha). split_and!.
  - intros id b'. rewrite lookup_delete_Some. intros [_ E]. auto.
  - intros id Hr. unfold BrokerByID, RemoveBroker. cbn. destruct (decide (BrokerMeta.ID b = id)) as [<-|Hne].
    + rewrite !lookup_delete_eq. reflexivity.
    + rewrite !lookup_delete_ne; [apply Hid, Hr|exact Hne|].
      intros C. apply Hne, itoa_inj; [exact (IsBroker_ID _ _ Eb)|exact Hr|exact C].
  - intros a b'. cbn. rewrite !lookup_delete_Some, Ha. split.
    + intros (Hne & E1 & E2). split; [|exact E2]. split; [|exact E1]. intros C.
      destruct (proj2 (Hm _ _ E1)) as (e' & Hin' & E').
      apply Hne. rewrite <- E2. apply (Hst eb e' b b'); auto.
    + intros [[Hne E1] E2]. split; [|auto]. intros C.
      destruct (proj2 (Hm _ _ E1)) as (e' & Hin' & E').
      apply Hne. apply (Hst eb e' b b'); auto. congruence.
Qed.

Lemma tracks_events es : stable es -> forall fs, (forall e, e ∈ fs -> e ∈ es) ->
  forall l m, tracks es l m -> tracks es (foldl handleEvent l fs) (foldl liveStep m fs).
Proof.
  intros Hst fs. induction fs as [|e fs IH]; intros Hsub l m Ht; [exact Ht|]. cbn [foldl].
  apply IH; [intros; apply Hsub; right; assumption|]. unfold handleEvent, liveStep.
  destruct (IsBroker (member e)) as [b|] eqn:E; [|exact Ht].
  assert (Hk : known es b) by (exists e; split; [apply Hsub; left|exact E]).
  destruct e; [apply tracks_join|apply tracks_failed]; assumption.
Qed.

Lemma tracks_new es : tracks es NewBrokerLookup ∅.
Proof.
  split_and!.
  - intros id b. rewrite lookup_empty. discriminate.
  - intros id _. unfold BrokerByID, NewBrokerLookup. cbn. rewrite !lookup_empty. reflexivity.
  - intros a b. cbn. rewrite !lookup_empty. naive_solver.
Qed.

(** The lookup by number needs no assumption on the addresses. *)
Lemma handleEvents_byID es id : in_int 64 id -> BrokerByID (itoa id) (handleEvents es) = live es !! id.
Proof.
  intros Hid. unfold handleEvents, live.
  cut (forall l m, BrokerByID (itoa id) l = m !! id ->
    BrokerByID (itoa id) (foldl handleEvent l es) = foldl liveStep m es !! id).
  { intros Hfold. apply Hfold. unfold BrokerByID, NewBrokerLookup. cbn. rewrite !lookup_empty. reflexivity. }
  induction es as [|e es IH]; intros l m E; [exact E|]. cbn [foldl]. apply IH. unfold handleEvent, liveStep.
  destruct (IsBroker (member e)) as [b|] eqn:Eb; [|exact E]. apply IsBroker_ID in Eb.
  assert (Hinj : BrokerMeta.ID b <> id -> itoa (BrokerMeta.ID b) <> itoa id)
    by (intros Hne C; apply Hne, itoa_inj; assumption).
  destruct e; unfold BrokerByID, AddBroker, RemoveBroker in *; cbn;
    (destruct (decide (BrokerMeta.ID b = id)) as [<-|Hne];
      [rewrite ?lookup_insert_eq, ?lookup_delete_eq; reflexivity
      |rewrite ?lookup_insert_ne, ?lookup_delete_ne by auto; exact E]).
Qed.

(** [Brokers] lists every live broker once. *)
Lemma Brokers_perm o es l m : valid_order o -> tracks es l m ->
  Brokers o l ≡ₚ (map_to_list m).*2.
Proof.
  intros Ho (Hm & _ & Ha). unfold Brokers, range. rewrite (Ho _ _ _ _ (addressToBroker l)).
  assert (Hnd : forall K (E : EqDecision K) (C : Countable K) (f : BrokerMeta.t -> K) (g : gmap K BrokerMeta.t),
    (forall k b, g !! k = Some b -> f b = k) -> base.NoDup (map_to_list g).*2).
  { intros K E C f g Hg. apply (NoDup_fmap_1 f). rewrite <- list_fmap_compose.
    rewrite (list_fmap_ext (f ∘ snd) fst _).
    - apply NoDup_fst_map_to_list.
    - intros i [k b] Hi. cbn. apply Hg. apply elem_of_map_to_list. apply list_elem_of_lookup_2 in Hi. exact Hi. }
  apply NoDup_Permutation; [apply (Hnd _ _ _ BrokerMeta.RaftAddr)|apply (Hnd _ _ _ BrokerMeta.ID)|].
  - intros a b E. apply Ha in E. apply E.
  - intros id b E. apply Hm, E.
  - intros b. rewrite !list_elem_of_fmap. split.
    + intros ([a b'] & -> & E). apply elem_of_map_to_list, Ha in E. exists (BrokerMeta.ID b', b').
      split; [reflexivity|]. apply elem_of_map_to_list, E.
    + intros ([id b'] & -> & E). apply elem_of_map_to_list in E. exists (BrokerMeta.RaftAddr b', b').
      split; [reflexivity|]. apply elem_of_map_to_list, Ha. destruct (Hm _ _ E) as [<- _]. auto.
Qed.

(** ** [buildPartitions] *)

(** Error codes of [src/protocol/error.go] that the assignment uses. *)
Definition ErrNone : Z := 0.
Definition ErrInvalidReplicationFactor : Z := 38.

(** The ring of brokers: the position in the list of its elements. *)
Section ring.
Context (brokers : list BrokerMeta.t).
Definition Move (n pos : nat) : nat := (pos + n) mod length brokers.
Definition Next (pos : nat) : nat := Move 1 pos.
Definition valueID (pos : nat) : option Z := BrokerMeta.ID <$> brokers !! pos.

(** The inner loop: [n] more replicas, each on the next broker. *)
Fixpoint moreReplicas (n : nat) (pos : nat) : option (list Z * nat) :=
  match n with
  | O => Some ([], pos)
  | S n =>
      let pos := Next pos in
      id ← valueID pos;
      '(ids, pos) ← moreReplicas n pos;
      Some (id :: ids, pos)
  end.

(** The outer loop from partition [i] on; [rnd i] is what [rand.Intn] returns in
    round [i].  [None] is a panic. *)
Fixpoint assign (n : nat) (i : nat) (topic : string) (factor : Z) (rnd : nat -> nat) (pos : nat)
  : option (list Partition.t) :=
  match n with
  | O => Some []
  | S n =>
      if decide (length brokers = O) then None else
      let pos := Move (rnd i) pos in
      leader ← valueID pos;
      '(ids, pos) ← moreReplicas (Z.to_nat (int16 (factor - 1))) pos;
      let replicas := leader :: ids in
      rest ← assign n (S i) topic factor rnd pos;
      Some (Partition.mk (Z.of_nat i) (Z.of_nat i) topic replicas replicas leader 0 0 RaftIndex.zero :: rest)
  end.
End ring.

(** The result of [b.brokerLookup.Brokers()] is given; an error is its code. *)
Definition buildPartitions (brokers : list BrokerMeta.t) (topic : string) (count factor : Z)
    (rnd : nat -> nat) : option (Z + list Partition.t) :=
  if len brokers <? factor then Some (inl ErrInvalidReplicationFactor)
  else ps ← assign brokers (Z.to_nat count) 0 topic factor rnd 0; Some (inr ps).

(** [window bs pos n]: the ids of [n] brokers around the ring from [pos] on. *)
Definition window (brokers : list BrokerMeta.t) (pos n : nat) : list Z :=
  (fun j => default 0 (valueID brokers ((pos + j) mod length brokers)%nat)) <$> seq 0 n.

Lemma valueID_Some brokers pos : (pos < length brokers)%nat ->
  valueID brokers pos = Some (default 0 (valueID brokers pos)).
Proof. intros Hp. unfold valueID. destruct (lookup_lt_is_Some_2 _ _ Hp) as [b ->]. reflexivity. Qed.

Lemma window_cons brokers pos n : (pos < length brokers)%nat ->
  window brokers pos (S n) = default 0 (valueID brokers pos) :: window brokers (Next brokers pos) n.
Proof.
  intros Hp. unfold window. cbn [seq fmap list_fmap]. f_equal.
  - rewrite Nat.add_0_r, Nat.mod_small by exact Hp. reflexivity.
  - rewrite <- seq_shift. change (map S (seq 0 n)) with (S <$> seq 0 n). rewrite <- list_fmap_compose.
    apply list_fmap_ext. intros _ j _. cbn. unfold Next, Move.
    rewrite Nat.Div0.add_mod_idemp_l. do 3 f_equal. lia.
Qed.

Lemma Move_lt brokers n pos : length brokers <> O -> (Move brokers n pos < length brokers)%nat.
Proof. intros H. apply Nat.mod_upper_bound, H. Qed.

Lemma moreReplicas_spec brokers n : forall pos, length brokers <> O -> (pos < length brokers)%nat ->
  exists pos', moreReplicas brokers n pos = Some (window brokers (Next brokers pos) n, pos') /\
    (pos' < length brokers)%nat.
Proof.
  induction n as [|n IH]; intros pos Hne Hp; cbn [moreReplicas]; [eauto|].
  assert (Hn : (Next brokers pos < length brokers)%nat) by (apply Move_lt, Hne).
  destruct (IH (Next brokers pos) Hne Hn) as (pos' & E & Hp').
  exists pos'. rewrite valueID_Some by exact Hn. cbn [mbind option_bind]. rewrite E. cbn [mbind option_bind].
  rewrite window_cons by exact Hn. auto.
Qed.

(** Around the ring no broker comes twice within its length. *)
Lemma window_NoDup brokers pos n : base.NoDup (BrokerMeta.ID <$> brokers) -> (n <= length brokers)%nat ->
  base.NoDup (window brokers pos n).
Proof.
  intros Hnd Hn. destruct (decide (length brokers = O)) as [Hz|Hz].
  { replace n with O by lia. constructor. }
  unfold window. apply NoDup_fmap_2_strong; [|apply NoDup_seq].
  intros j j' Hj Hj' E. apply elem_of_seq in Hj, Hj'.
  assert (Hv : forall i, default 0 (valueID brokers ((pos + i) mod length brokers)%nat) =
    default 0 ((BrokerMeta.ID <$> brokers) !! ((pos + i) mod length brokers)%nat))
    by (intros; unfold valueID; rewrite list_lookup_fmap; reflexivity).
  rewrite !Hv in E.
  assert (Hlt : forall i, ((pos + i) mod length brokers < length (BrokerMeta.ID <$> brokers))%nat)
    by (intros; rewrite length_fmap; apply Nat.mod_upper_bound, Hz).
  destruct (lookup_lt_is_Some_2 _ _ (Hlt j)) as [x Hx], (lookup_lt_is_Some_2 _ _ (Hlt j')) as [y Hy].
  rewrite Hx, Hy in E. cbn in E. subst y.
  pose proof (NoDup_lookup _ _ _ _ Hnd Hx Hy) as Em.
  pose proof (Nat.div_mod_eq (pos + j) (length brokers)). pose proof (Nat.div_mod_eq (pos + j') (length brokers)).
  assert ((pos + j) / length brokers = (pos + j') / length brokers)%nat; [|nia].
  destruct (Nat.lt_trichotomy ((pos + j) / length brokers) ((pos + j') / length brokers)) as [C|[C|C]];
    [nia|exact C|nia].
Qed.

Lemma window_elem brokers pos n id : length brokers <> O -> id ∈ window brokers pos n ->
  id ∈ BrokerMeta.ID <$> brokers.
Proof.
  intros Hz. unfold window. rewrite list_elem_of_fmap. intros (j & -> & _).
  unfold valueID. destruct (lookup_lt_is_Some_2 brokers ((pos + j) mod length brokers)%nat) as [b E];
    [apply Nat.mod_upper_bound, Hz|]. rewrite E. cbn. apply list_elem_of_fmap. exists b.
  split; [reflexivity|]. apply list_elem_of_lookup_2 in E. exact E.
Qed.

(** What a partition made for [topic] with [factor] replicas is like. *)
Definition well_assigned (brokers : list BrokerMeta.t) (topic : string) (factor : Z) (i : nat) (p : Partition.t) : Prop :=
  Partition.ID p = Z.of_nat i /\ Partition.Partition p = Z.of_nat i /\ Partition.Topic p = topic /\
  Partition.ISR p = Partition.AR p /\ head (Partition.AR p) = Some (Partition.Leader p) /\
  len (Partition.AR p) = factor /\ base.NoDup (Partition.AR p) /\
  Forall (fun id => id ∈ BrokerMeta.ID <$> brokers) (Partition.AR p).

Lemma assign_spec brokers topic factor rnd n : forall i pos,
  base.NoDup (BrokerMeta.ID <$> brokers) -> 1 <= factor <= len brokers -> factor < 2 ^ 15 ->
  (pos < length brokers)%nat ->
  exists ps, assign brokers n i topic factor rnd pos = Some ps /\ length ps = n /\
    forall j p, ps !! j = Some p -> well_assigned brokers topic factor (i + j) p.
Proof.
  induction n as [|n IH]; intros i pos Hnd Hf Hw Hp; cbn [assign].
  { exists []. split_and!; [reflexivity|reflexivity|]. intros j p. rewrite lookup_nil. discriminate. }
  assert (Hz : length brokers <> O) by lia. rewrite decide_False by exact Hz.
  set (q := Move brokers (rnd i) pos). assert (Hq : (q < length brokers)%nat) by (apply Move_lt, Hz).
  rewrite valueID_Some by exact Hq. cbn [mbind option_bind].
  destruct (moreReplicas_spec brokers (Z.to_nat (int16 (factor - 1))) q Hz Hq) as (q' & -> & Hq').
  cbn [mbind option_bind]. destruct (IH (S i) q' Hnd Hf Hw Hq') as (ps & -> & Hl & Hps).
  cbn [mbind option_bind]. eexists. split; [reflexivity|]. split; [cbn [length]; lia|].
  intros [|j] p; [|intros E; replace (i + S j)%nat with (S i + j)%nat by lia; exact (Hps j p E)].
  intros [= <-]. rewrite <- window_cons by exact Hq. unfold int16. rewrite sext_id by (unfold in_int; lia).
  replace (S (Z.to_nat (factor - 1))) with (Z.to_nat factor) by lia.
  assert (Hlen : len (window brokers q (Z.to_nat factor)) = factor)
    by (unfold len, window; rewrite length_fmap, length_seq; lia).
  split_and!; cbn; try lia; try reflexivity.
  - replace (Z.to_nat factor) with (S (Z.to_nat (factor - 1))) by lia. rewrite window_cons by exact Hq. reflexivity.
  - apply window_NoDup; [exact Hnd|unfold len in *; lia].
  - apply Forall_forall. intros id Hid. eapply window_elem; [exact Hz|]. apply list_elem_of_In. exact Hid.
Qed.
