(* ===== verification/BrokerState.v ===== *)
(** * The state of a broker

    The struct [Broker] of [src/jocko/broker.go] with what its handlers share:
    the configuration, replicas and their logs, applying an entry through raft,
    running a function under a timeout, and network calls.  Raft is a library:
    the class [Raft] holds the operations the code calls, [RaftLaws] what they
    promise; [SimpleRaft] is an instance. *)
From S2P Require Import Prelude ClusterApi Structs Store Cluster LogService.

(** ** Configuration: [src/jocko/config/config.go]

    The fields that the modelled code reads. *)
Module Config.
Record t := mk {
  ID : Z; NodeName : string; DevMode : bool; Addr : string; Bootstrap : bool; BootstrapExpect : Z;
  NonVoter : bool; RaftAddr : string; OffsetsTopicReplicationFactor : Z; StartJoinAddrsLAN : list string }.
Definition set_expect (n : Z) (c : t) : t :=
  mk (ID c) (NodeName c) (DevMode c) (Addr c) (Bootstrap c) n (NonVoter c) (RaftAddr c)
    (OffsetsTopicReplicationFactor c) (StartJoinAddrsLAN c).
End Config.

(** ** Raft *)

(** A server of the configuration; [Voter] is its suffrage. *)
Module Server.
Record t := mk { ID : string; Address : string; Voter : bool }.
#[global] Instance eq_dec : EqDecision t. Proof. solve_decision. Defined.
End Server.

(** [raft_apply buf r]: [Apply] with its future waited for, an error or the index
    at which the entry was committed.  The other calls return an error or
    nothing. *)
Class Raft (RF : Type) := {
  raft_isLeader : RF -> bool;
  raft_lastIndex : RF -> error + Z;
  raft_apply : list byte -> RF -> (error + Z) * RF;
  raft_configuration : RF -> error + list Server.t;
  raft_removeServer : string -> RF -> option error * RF;
  raft_addServer : bool -> string -> string -> RF -> option error * RF;
  raft_bootstrap : list Server.t -> RF -> option error * RF }.

(** Entries are committed at growing indexes and leave the configuration alone;
    changes of the configuration that succeed are in it. *)
Class RaftLaws (RF : Type) `{Raft RF} := {
  law_apply buf r i r' last :
    raft_lastIndex r = inr last -> raft_apply buf r = (inr i, r') -> last < i /\ raft_lastIndex r' = inr i;
  law_apply_config buf r x r' : raft_apply buf r = (x, r') -> raft_configuration r' = raft_configuration r;
  law_remove id r r' ss :
    raft_configuration r = inr ss -> raft_removeServer id r = (None, r') ->
    raft_configuration r' = inr (filter (fun s => Server.ID s <> id) ss);
  law_add voter id addr r r' ss :
    raft_configuration r = inr ss -> (forall s, s ∈ ss -> Server.ID s <> id /\ Server.Address s <> addr) ->
    raft_addServer voter id addr r = (None, r') ->
    raft_configuration r' = inr (ss ++ [Server.mk id addr voter]) }.

(** A raft of one member that always succeeds while it leads. *)
Record SimpleRaft := mkSimpleRaft { leads : bool; lastIndex : Z; servers : list Server.t }.
Definition whileLeading {A} (r : SimpleRaft) (ok : A * SimpleRaft) (no : A) : A * SimpleRaft :=
  if leads r then ok else (no, r).
#[local] Instance SimpleRaft_ops : Raft SimpleRaft := {
  raft_isLeader := leads;
  raft_lastIndex r := inr (lastIndex r);
  raft_apply _ r := whileLeading r
    (inr (lastIndex r + 1), mkSimpleRaft (leads r) (lastIndex r + 1) (servers r)) (inl (ErrOther "node is not the leader"));
  raft_configuration r := inr (servers r);
  raft_removeServer id r := whileLeading r
    (None, mkSimpleRaft (leads r) (lastIndex r) (filter (fun s => Server.ID s <> id) (servers r)))
    (Some (ErrOther "node is not the leader"));
  raft_addServer voter id addr r := whileLeading r
    (None, mkSimpleRaft (leads r) (lastIndex r) (servers r ++ [Server.mk id addr voter]))
    (Some (ErrOther "node is not the leader"));
  raft_bootstrap ss r := (None, mkSimpleRaft (leads r) (lastIndex r) ss) }.

#[local] Instance SimpleRaft_laws : RaftLaws SimpleRaft.
Proof.
  split; cbn; unfold whileLeading.
  - intros buf r i r' last [= <-]. destruct (leads r); intros [= <- <-]. cbn. split; [lia|reflexivity].
  - intros buf r x r'. destruct (leads r); intros [= _ <-]; reflexivity.
  - intros id r r' ss [= <-]. destruct (leads r); intros [= <-]. reflexivity.
  - intros v id addr r r' ss [= <-] _. destruct (leads r); intros [= <-]. reflexivity.
Qed.

(** ** Error codes: [src/protocol/error.go] *)
Definition ErrUnknown : Z := -1.
Definition ErrUnknownTopicOrPartition : Z := 3.
Definition ErrNotLeaderForPartition : Z := 6.
Definition ErrRequestTimedOut : Z := 7.
Definition ErrBrokerNotAvailable : Z := 8.
Definition ErrReplicaNotAvailable : Z := 9.
Definition ErrIllegalGeneration : Z := 22.
Definition ErrInvalidGroupId : Z := 24.
Definition ErrUnknownMemberId : Z := 25.
Definition ErrRebalanceInProgress : Z := 27.
Definition ErrTopicAlreadyExists : Z := 36.
Definition ErrNotController : Z := 41.

(** ** The broker *)
Section broker.
Context {L R D DB RF : Type} `{CommitLogOps L R} `{LogDirs D L} `{Memdb DB} `{Raft RF}.

(** A replicator as its replica sees it: the address of the leader it fetches from,
    whether it was started and whether its channel [done] was closed. *)
Record Replicating := mkReplicating { ReplLeader : string; ReplStarted : bool; ReplClosed : bool }.

Record Replica := mkReplica {
  BrokerID : Z; RPartition : Partition.t; IsLocal : bool; Log : option L; Hw : Z; Leo : Z;
  RReplicator : option Replicating }.

(** Replicas are shared by pointer: [replicas] is the heap they live in,
    [replicaLookup] refers to them by number.  [disk] holds the directories of
    logs, named by a number.  Of the world outside the state keeps the members
    that serf knows, whether the next network calls succeed ([calls]; none does
    when it has run out) and the leader-and-ISR requests given to connections
    with the addresses they were made to ([sent]). *)
Record Broker := mkBroker {
  config : Config.t; db : DB; replicas : list Replica; replicaLookup : gmap string (gmap Z nat);
  disk : gmap Z D; knownBrokers : brokerLookup; raft : RF; members : list SerfMember.t;
  reconcileCh : list SerfMember.t; calls : list bool; sent : list (string * LeaderAndISRRequest.t) }.

Definition configID (b : Broker) : Z := Config.ID (config b).

Definition set_config (c : Config.t) (b : Broker) : Broker :=
  mkBroker c (db b) (replicas b) (replicaLookup b) (disk b) (knownBrokers b) (raft b) (members b)
    (reconcileCh b) (calls b) (sent b).
Definition set_db (d : DB) (b : Broker) : Broker :=
  mkBroker (config b) d (replicas b) (replicaLookup b) (disk b) (knownBrokers b) (raft b) (members b)
    (reconcileCh b) (calls b) (sent b).
Definition set_replicas (rs : list Replica) (b : Broker) : Broker :=
  mkBroker (config b) (db b) rs (replicaLookup b) (disk b) (knownBrokers b) (raft b) (members b)
    (reconcileCh b) (calls b) (sent b).
Definition set_replicaLookup (rl : gmap string (gmap Z nat)) (b : Broker) : Broker :=
  mkBroker (config b) (db b) (replicas b) rl (disk b) (knownBrokers b) (raft b) (members b)
    (reconcileCh b) (calls b) (sent b).
Definition set_disk (d : gmap Z D) (b : Broker) : Broker :=
  mkBroker (config b) (db b) (replicas b) (replicaLookup b) d (knownBrokers b) (raft b) (members b)
    (reconcileCh b) (calls b) (sent b).
Definition set_knownBrokers (l : brokerLookup) (b : Broker) : Broker :=
  mkBroker (config b) (db b) (replicas b) (replicaLookup b) (disk b) l (raft b) (members b)
    (reconcileCh b) (calls b) (sent b).
Definition set_raft (r : RF) (b : Broker) : Broker :=
  mkBroker (config b) (db b) (replicas b) (replicaLookup b) (disk b) (knownBrokers b) r (members b)
    (reconcileCh b) (calls b) (sent b).
Definition set_members (ms : list SerfMember.t) (b : Broker) : Broker :=
  mkBroker (config b) (db b) (replicas b) (replicaLookup b) (disk b) (knownBrokers b) (raft b) ms
    (reconcileCh b) (calls b) (sent b).
Definition set_reconcileCh (ms : list SerfMember.t) (b : Broker) : Broker :=
  mkBroker (config b) (db b) (replicas b) (replicaLookup b) (disk b) (knownBrokers b) (raft b) (members b)
    ms (calls b) (sent b).
Definition set_calls (cs : list bool) (b : Broker) : Broker :=
  mkBroker (config b) (db b) (replicas b) (replicaLookup b) (disk b) (knownBrokers b) (raft b) (members b)
    (reconcileCh b) cs (sent b).
Definition set_sent (ms : list (string * LeaderAndISRRequest.t)) (b : Broker) : Broker :=
  mkBroker (config b) (db b) (replicas b) (replicaLookup b) (disk b) (knownBrokers b) (raft b) (members b)
    (reconcileCh b) (calls b) ms.

(** ** Replicas and their logs *)
Definition setReplica (ptr : nat) (r : Replica) (b : Broker) : Broker :=
  set_replicas (<[ptr := r]> (replicas b)) b.
Definition setLog (l : L) (r : Replica) : Replica :=
  mkReplica (BrokerID r) (RPartition r) (IsLocal r) (Some l) (Hw r) (Leo r) (RReplicator r).

(** The replica behind a pointer. *)
Definition replica (ptr : nat) : M Broker Replica := fun b =>
  match replicas b !! ptr with Some r => Ret r b | None => Crash end.

Lemma bind_replica {A} ptr r (k : Replica -> M Broker A) (b : Broker) :
  replicas b !! ptr = Some r -> (replica ptr ≫= k) b = k r b.
Proof. intros E. unfold replica, mbind, M_bind. rewrite E. reflexivity. Qed.

(** The directory of a log is named after the number of its partition. *)
Definition dir (id : Z) (b : Broker) : D := default dir_empty (disk b !! id).
Definition dirName (r : Replica) : Z := Partition.ID (RPartition r).
Definition logOf (r : Replica) (b : Broker) : option L := in_dir (dir (dirName r) b) <$> Log r.
Definition putLog (ptr : nat) (r : Replica) (l : L) (b : Broker) : Broker :=
  set_disk (<[dirName r := dir_of l]> (disk b)) (setReplica ptr (setLog l r) b).

(** A call of a method of the log of a replica. *)
Definition on_log {A} (ptr : nat) (l : L) (m : M L A) : M Broker (error + A) := fun b =>
  match replicas b !! ptr with
  | None => Crash
  | Some r =>
      match m l with
      | Ret a l => Ret (inr a) (putLog ptr r l b)
      | Fail e l => Ret (inl e) (putLog ptr r l b)
      | Crash => Crash
      end
  end.

(** ** Raft and the network *)

(** [raftApply] of [src/jocko/leader.go]: when raft has committed the entry, it has
    been applied to the store, and what the store answered, an error or nothing,
    is the response. *)
Definition isLeader : M Broker bool := gets (fun b => raft_isLeader (raft b)).
Definition isController : M Broker bool := isLeader.
Definition raftApply `{Msgpack Node.t} `{Msgpack Topic.t} `{Msgpack Partition.t} `{Msgpack Group.t}
    `{Msgpack A} (t : Z) (msg : A) : M Broker (error + option error) := fun b =>
  match Encode t msg with
  | None => Ret (inl (ErrOther "failed to encode request")) b
  | Some buf =>
      match raft_apply buf (raft b) with
      | (inl e, r) => Ret (inl e) (set_raft r b)
      | (inr index, r) =>
          match Apply buf index (db b) with
          | Ret _ d => Ret (inr None) (set_db d (set_raft r b))
          | Fail e d => Ret (inr (Some e)) (set_db d (set_raft r b))
          | Crash => Crash
          end
      end
  end.

(** Whether a call over the network succeeds. *)
Definition call : M Broker bool := fun b =>
  match calls b with
  | [] => Ret false b
  | ok :: cs => Ret ok (set_calls cs b)
  end.
(** [Dial] and [conn.LeaderAndISR]. *)
Definition sendLeaderAndISR (addr : string) (req : LeaderAndISRRequest.t) : M Broker bool :=
  dialed ← call;
  if negb dialed then mret false else
  modify (fun b => set_sent (sent b ++ [(addr, req)]) b) ;;
  call.

Lemma sendLeaderAndISR_cases addr req (b : Broker) : exists ok cs se,
  sendLeaderAndISR addr req b = Ret ok (set_sent se (set_calls cs b)) /\
  (ok = true -> se = sent b ++ [(addr, req)]).
Proof.
  unfold sendLeaderAndISR, call, mbind, M_bind, modify, mret, M_ret, set_sent, set_calls. destruct b as [c d rs rl di kb rf ms ch cs se].
  cbn. destruct cs as [|[] [|[] cs]]; cbn; eexists _, _, _; (split; [reflexivity|]); discriminate || reflexivity.
Qed.

(** ** [withTimeout]

    [fn] returns its error code with what it writes into the response, or [None]
    when it never returns.  [expired] says whether the timer fires first.  A
    function that was started without a timer (a timeout that is not positive)
    is not waited for: its effects happen, but what it writes does not reach the
    response.  A function that returns after its timer fired sends its result on
    a channel that the deferred [close(c)] has closed, which panics. *)
Definition waited {St A} (timeout : Z) (expired : bool) (r : option (Z * A)) : M St (Z * option A) :=
  if timeout <=? 0 then mret (ErrNone, None)
  else match r with
       | Some (code, a) => if expired then crash else mret (code, Some a)
       | None => mret (ErrRequestTimedOut, None)
       end.
Definition withTimeout {A} (timeout : Z) (expired : bool) (fn : M Broker (option (Z * A)))
  : M Broker (Z * option A) :=
  r ← fn; waited timeout expired r.

(** [for i, x := range xs { out[i] = f(i, x) }] *)
Fixpoint collect {St A B} (f : nat -> A -> M St B) (i : nat) (xs : list A) : M St (list B) :=
  match xs with
  | [] => mret []
  | x :: xs => y ← f i x; ys ← collect f (S i) xs; mret (y :: ys)
  end.
End broker.
Arguments Replica : clear implicits.
Arguments Broker : clear implicits.
