(* ===== verification/Errors.v ===== *)
(** * Errors of the protocol

    [src/protocol/error.go]: an error with its code and text, the table of the
    errors by code.  The handlers answer with codes only; those they use are
    plain numbers in [Cluster] and [BrokerState], which [codes_agree] compares. *)
From S2P Require Import Prelude Structs Store Cluster LogService BrokerState.

Module Error.
(** [err] is the text of the error that was wrapped, if there is one. *)
Record t := mk { code : Z; msg : string; err : option string }.
Definition Code (e : t) : Z := code e.
Definition String (e : t) : string := msg e.
Definition Error (e : t) : string :=
  match err e with Some s => msg e +:+ ": " +:+ s | None => msg e end.
Definition WithErr (e : t) (s : string) : t := mk (code e) (msg e) (Some s).
#[global] Instance eq_dec : EqDecision t. Proof. solve_decision. Defined.

Definition ErrUnknown : t := mk (-1) "unknown" None.
Definition ErrNone : t := mk 0 "none" None.
Definition ErrOffsetOutOfRange : t := mk 1 "offset out of range" None.
Definition ErrCorruptMessage : t := mk 2 "corrupt message" None.
Definition ErrUnknownTopicOrPartition : t := mk 3 "unknown topic or partition" None.
Definition ErrInvalidFetchSize : t := mk 4 "invalid fetch size" None.
Definition ErrLeaderNotAvailable : t := mk 5 "leader not available" None.
Definition ErrNotLeaderForPartition : t := mk 6 "not leader for partition" None.
Definition ErrRequestTimedOut : t := mk 7 "request timed out" None.
Definition ErrBrokerNotAvailable : t := mk 8 "broker not available" None.
Definition ErrReplicaNotAvailable : t := mk 9 "replica not available" None.
Definition ErrMessageTooLarge : t := mk 10 "message too large" None.
Definition ErrStaleControllerEpoch : t := mk 11 "stale controller epoch" None.
Definition ErrOffsetMetadataTooLarge : t := mk 12 "offset metadata too large" None.
Definition ErrNetworkException : t := mk 13 "network exception" None.
Definition ErrCoordinatorLoadInProgress : t := mk 14 "coordinator load in progress" None.
Definition ErrCoordinatorNotAvailable : t := mk 15 "coordinator not available" None.
Definition ErrNotCoordinator : t := mk 16 "not coordinator" None.
Definition ErrInvalidTopicException : t := mk 17 "invalid topic exception" None.
Definition ErrRecordListTooLarge : t := mk 18 "record list too large" None.
Definition ErrNotEnoughReplicas : t := mk 19 "not enough replicas" None.
Definition ErrNotEnoughReplicasAfterAppend : t := mk 20 "not enough replicas after append" None.
Definition ErrInvalidRequiredAcks : t := mk 21 "invalid required acks" None.
Definition ErrIllegalGeneration : t := mk 22 "illegal generation" None.
Definition ErrInconsistentGroupProtocol : t := mk 23 "inconsistent group protocol" None.
Definition ErrInvalidGroupId : t := mk 24 "invalid group id" None.
Definition ErrUnknownMemberId : t := mk 25 "unknown member id" None.
Definition ErrInvalidSessionTimeout : t := mk 26 "invalid session timeout" None.
Definition ErrRebalanceInProgress : t := mk 27 "rebalance in progress" None.
Definition ErrInvalidCommitOffsetSize : t := mk 28 "invalid commit offset size" None.
Definition ErrTopicAuthorizationFailed : t := mk 29 "topic authorization failed" None.
Definition ErrGroupAuthorizationFailed : t := mk 30 "group authorization failed" None.
Definition ErrClusterAuthorizationFailed : t := mk 31 "cluster authorization failed" None.
Definition ErrInvalidTimestamp : t := mk 32 "invalid timestamp" None.
Definition ErrUnsupportedSaslMechanism : t := mk 33 "unsupported sasl mechanism" None.
Definition ErrIllegalSaslState : t := mk 34 "illegal sasl state" None.
Definition ErrUnsupportedVersion : t := mk 35 "unsupported Version" None.
Definition ErrTopicAlreadyExists : t := mk 36 "topic already exists" None.
Definition ErrInvalidPartitions : t := mk 37 "invalid partitions" None.
Definition ErrInvalidReplicationFactor : t := mk 38 "invalid replication factor" None.
Definition ErrInvalidReplicaAssignment : t := mk 39 "invalid replica assignment" None.
Definition ErrInvalidConfig : t := mk 40 "invalid config" None.
Definition ErrNotController : t := mk 41 "not controller" None.
Definition ErrInvalidRequest : t := mk 42 "invalid request" None.
Definition ErrUnsupportedForMessageFormat : t := mk 43 "unsupported for message format" None.
Definition ErrPolicyViolation : t := mk 44 "policy violation" None.
Definition ErrOutOfOrderSequenceNumber : t := mk 45 "out of order sequence number" None.
Definition ErrDuplicateSequenceNumber : t := mk 46 "duplicate sequence number" None.
Definition ErrInvalidProducerEpoch : t := mk 47 "invalid producer epoch" None.
Definition ErrInvalidTxnState : t := mk 48 "invalid txn state" None.
Definition ErrInvalidProducerIdMapping : t := mk 49 "invalid producer id mapping" None.
Definition ErrInvalidTransactionTimeout : t := mk 50 "invalid transaction timeout" None.
Definition ErrConcurrentTransactions : t := mk 51 "concurrent transactions" None.
Definition ErrTransactionCoordinatorFenced : t := mk 52 "transaction coordinator fenced" None.
Definition ErrTransactionalIdAuthorizationFailed : t := mk 53 "transactional id authorization failed" None.
Definition ErrSecurityDisabled : t := mk 54 "security disabled" None.
Definition ErrOperationNotAttempted : t := mk 55 "operation not attempted" None.

(** [Errs] *)
Definition table : list (Z * t) :=
  [(-1, ErrUnknown); (0, ErrNone); (1, ErrOffsetOutOfRange);
   (2, ErrCorruptMessage); (3, ErrUnknownTopicOrPartition); (4, ErrInvalidFetchSize);
   (5, ErrLeaderNotAvailable); (6, ErrNotLeaderForPartition); (7, ErrRequestTimedOut);
   (8, ErrBrokerNotAvailable); (9, ErrReplicaNotAvailable); (10, ErrMessageTooLarge);
   (11, ErrStaleControllerEpoch); (12, ErrOffsetMetadataTooLarge); (13, ErrNetworkException);
   (14, ErrCoordinatorLoadInProgress); (15, ErrCoordinatorNotAvailable); (16, ErrNotCoordinator);
   (17, ErrInvalidTopicException); (18, ErrRecordListTooLarge); (19, ErrNotEnoughReplicas);
   (20, ErrNotEnoughReplicasAfterAppend); (21, ErrInvalidRequiredAcks); (22, ErrIllegalGeneration);
   (23, ErrInconsistentGroupProtocol); (24, ErrInvalidGroupId); (25, ErrUnknownMemberId);
   (26, ErrInvalidSessionTimeout); (27, ErrRebalanceInProgress); (28, ErrInvalidCommitOffsetSize);
   (29, ErrTopicAuthorizationFailed); (30, ErrGroupAuthorizationFailed); (31, ErrClusterAuthorizationFailed);
   (32, ErrInvalidTimestamp); (33, ErrUnsupportedSaslMechanism); (34, ErrIllegalSaslState);
   (35, ErrUnsupportedVersion); (36, ErrTopicAlreadyExists); (37, ErrInvalidPartitions);
   (38, ErrInvalidReplicationFactor); (39, ErrInvalidReplicaAssignment); (40, ErrInvalidConfig);
   (41, ErrNotController); (42, ErrInvalidRequest); (43, ErrUnsupportedForMessageFormat);
   (44, ErrPolicyViolation); (45, ErrOutOfOrderSequenceNumber); (46, ErrDuplicateSequenceNumber);
   (47, ErrInvalidProducerEpoch); (48, ErrInvalidTxnState); (49, ErrInvalidProducerIdMapping);
   (50, ErrInvalidTransactionTimeout); (51, ErrConcurrentTransactions); (52, ErrTransactionCoordinatorFenced);
   (53, ErrTransactionalIdAuthorizationFailed); (54, ErrSecurityDisabled); (55, ErrOperationNotAttempted)].
Definition Errs : gmap Z t := list_to_map table.
End Error.

(** Every code is found under itself, and no two errors share one. *)
Lemma Errs_code c e : Error.Errs !! c = Some e -> Error.Code e = c /\ Error.err e = None.
Proof.
  intros E. apply elem_of_list_to_map_2 in E. revert E. generalize c e.
  assert (Hall : Forall (fun ce => Error.Code (snd ce) = fst ce /\ Error.err (snd ce) = None) Error.table)
    by (apply (bool_decide_unpack _); vm_compute; exact I).
  intros c0 e0 Hin. exact (Forall_elem _ _ _ Hall Hin).
Qed.
Lemma Errs_all : base.NoDup Error.table.*1 /\ length Error.table = 57%nat.
Proof. split; [apply (bool_decide_unpack _); vm_compute; exact I|reflexivity]. Qed.

(** The codes of the handlers. *)
Lemma codes_agree :
  [Cluster.ErrNone; Cluster.ErrInvalidReplicationFactor; BrokerState.ErrUnknown; BrokerState.ErrUnknownTopicOrPartition;
   BrokerState.ErrNotLeaderForPartition; BrokerState.ErrRequestTimedOut; BrokerState.ErrBrokerNotAvailable;
   BrokerState.ErrReplicaNotAvailable; BrokerState.ErrIllegalGeneration; BrokerState.ErrInvalidGroupId;
   BrokerState.ErrUnknownMemberId; BrokerState.ErrRebalanceInProgress; BrokerState.ErrTopicAlreadyExists;
   BrokerState.ErrNotController] =
  Error.Code <$> [Error.ErrNone; Error.ErrInvalidReplicationFactor; Error.ErrUnknown; Error.ErrUnknownTopicOrPartition;
   Error.ErrNotLeaderForPartition; Error.ErrRequestTimedOut; Error.ErrBrokerNotAvailable;
   Error.ErrReplicaNotAvailable; Error.ErrIllegalGeneration; Error.ErrInvalidGroupId;
   Error.ErrUnknownMemberId; Error.ErrRebalanceInProgress; Error.ErrTopicAlreadyExists; Error.ErrNotController].
Proof. reflexivity. Qed.
