(* ===== verification/Broker.v ===== *)
(** * The broker: producing and fetching

    The handlers of [src/jocko/broker.go] that clients use to write to and read
    from the partitions, over the replicated store, the replicas and their logs.
    They are stated against the interfaces [Memdb] of the store and
    [CommitLogOps] of a log. *)
From S2P Require Import Prelude Decoder Codec ClientApi LogMessage Structs Store Cluster LogService BrokerState.

Section broker.
Context {L R D DB RF : Type} `{CommitLogOps L R} `{LogDirs D L} `{Memdb DB} `{Raft RF}.
Abbreviation Broker := (BrokerState.Broker L D DB RF).

(** ** [handleProduce] *)

(** The function run for one partition: base offset and append time are written
    when the append succeeds. *)
Definition produceFn (topic : string) (p : Data.t) (now : Z) : M Broker (option (Z * option (Z * Z))) :=
  b ← gets (fun b => b);
  match snd (GetTopic topic (db b)) with
  | None => mret (Some (ErrUnknownTopicOrPartition, None))
  | Some _ =>
      match Cluster.Replica topic (Data.Partition p) (replicaLookup b) with
      | inl _ => mret (Some (ErrReplicaNotAvailable, None))
      | inr ptr =>
          r ← replica ptr;
          match logOf r b with
          | None => mret (Some (ErrReplicaNotAvailable, None))
          | Some l =>
              o ← on_log ptr l (log_append (default [] (Data.RecordSet p)));
              match o with
              | inr offset => mret (Some (ErrNone, Some (offset, now)))
              | inl _ => mret (Some (ErrUnknown, None))
              end
          end
      end
  end.

(** [now i j] is the time and [expired i j] the timer of partition [j] of topic
    [i]. *)
Definition producePartition (timeout : Z) (topic : string) (expired : bool) (now : Z) (p : Data.t)
  : M Broker ProducePartitionResponse.t :=
  r ← withTimeout timeout expired (produceFn topic p now);
  mret match snd r with
       | Some (Some (offset, time)) => ProducePartitionResponse.mk (Data.Partition p) (fst r) offset time 0
       | _ => ProducePartitionResponse.mk (Data.Partition p) (fst r) 0 zeroTime 0
       end.

Definition handleProduce (req : ProduceRequest.t) (expired : nat -> nat -> bool) (now : nat -> nat -> Z)
  : M Broker ProduceResponse.t :=
  rs ← collect (fun i td =>
    ps ← collect (fun j p =>
           producePartition (ProduceRequest.Timeout req) (TopicData.Topic td) (expired i j) (now i j) p)
           0 (TopicData.Data td);
    mret (ProduceTopicResponse.mk (TopicData.Topic td) ps)) 0 (ProduceRequest.TopicData req);
  mret (ProduceResponse.mk (ProduceRequest.APIVersion req) rs 0).

(** ** [handleFetch] *)

(** [bytes.Buffer.ReadFrom]: read until the end; [room i] is the space that the
    buffer offers in round [i], 512 bytes at least.  The bytes copied, the error
    (end of file is none) and the reader.  A round that does not reach the end
    fills the space, so that the bytes of the log bound the rounds. *)
Fixpoint copyAll (fuel : nat) (room : nat -> nat) (i : nat) (l : L) (r : R)
  : option (list byte * option error * R) :=
  match fuel with
  | O => Some ([], Some (ErrOther "out of fuel"), r)
  | S fuel =>
      '(bs, err, r) ← log_read l r (room i);
      match err with
      | Some EOF => Some (bs, None, r)
      | Some e => Some (bs, Some e, r)
      | None => '(bs', err, r) ← copyAll fuel room (S i) l r; Some (bs ++ bs', err, r)
      end
  end.

(** How the loop that fills the buffer ends. *)
Inductive fetched := Filled (bs : list byte) | CopyError | Spins | Panics.

(** [for n < r.MinBytes { io.Copy(buf, rdr) ... }]: a copy that brings nothing
    leaves the reader where it was, and the loop goes on for ever (as long as
    nothing is appended meanwhile).  A copy that brings something moves the
    reader on, so the bytes of the log bound the rounds. *)
Fixpoint fetchLoop (fuel copyFuel : nat) (room : nat -> nat) (minBytes n : Z) (buf : list byte) (l : L) (r : R)
  : fetched :=
  if n <? minBytes then
    match fuel with
    | O => Spins
    | S fuel =>
        match copyAll copyFuel room 0 l r with
        | None => Panics
        | Some (_, Some _, _) => CopyError
        | Some (bs, None, r) =>
            if decide (bs = []) then Spins
            else fetchLoop fuel copyFuel room minBytes (int32 (n + int32 (len bs))) (buf ++ bs) l r
        end
    end
  else Filled buf.

(** The record set is nil when nothing was asked for. *)
Definition fetchFn (topic : string) (p : FetchPartition.t) (minBytes : Z) (room : nat -> nat) (fuel : nat)
  : M Broker (option (Z * option (Z * option (list byte)))) :=
  b ← gets (fun b => b);
  match Cluster.Replica topic (FetchPartition.Partition p) (replicaLookup b) with
  | inl _ => mret (Some (ErrReplicaNotAvailable, None))
  | inr ptr =>
      r ← replica ptr;
      if negb (Partition.Leader (RPartition r) =? configID b) then mret (Some (ErrNotLeaderForPartition, None))
      else match logOf r b with
      | None => mret (Some (ErrReplicaNotAvailable, None))
      | Some l =>
          match log_reader (FetchPartition.FetchOffset p) l with
          | None => crash
          | Some (inl _) => mret (Some (ErrUnknown, None))
          | Some (inr rdr) =>
              match fetchLoop fuel fuel room minBytes 0 [] l rdr with
              | Panics => crash
              | CopyError => mret (Some (ErrUnknown, None))
              | Spins => mret None
              | Filled buf =>
                  o ← on_log ptr l log_newest;
                  match o with
                  | inl _ => crash
                  | inr newest =>
                      mret (Some (ErrNone, Some (newest - 1, if 0 <? minBytes then Some buf else None)))
                  end
              end
          end
      end
  end.

Definition fetchPartition (req : FetchRequest.t) (topic : string) (expired : bool) (room : nat -> nat) (fuel : nat)
    (p : FetchPartition.t) : M Broker FetchPartitionResponse.t :=
  r ← withTimeout (FetchRequest.MaxWaitTime req) expired (fetchFn topic p (FetchRequest.MinBytes req) room fuel);
  mret match snd r with
       | Some (Some (hw, rs)) => FetchPartitionResponse.mk (FetchPartition.Partition p) (fst r) hw 0 [] rs
       | _ => FetchPartitionResponse.mk (FetchPartition.Partition p) (fst r) 0 0 [] None
       end.

Definition handleFetch (req : FetchRequest.t) (expired : nat -> nat -> bool) (room : nat -> nat) (fuel : nat)
  : M Broker FetchResponse.t :=
  rs ← collect (fun i t =>
    ps ← collect (fun j p => fetchPartition req (FetchTopic.Topic t) (expired i j) room fuel p)
           0 (FetchTopic.Partitions t);
    mret (FetchTopicResponse.mk (FetchTopic.Topic t) ps)) 0 (FetchRequest.Topics req);
  mret (FetchResponse.mk (FetchRequest.APIVersion req) 0 rs).

(** ** [handleOffsets] *)

(** A partition without a replica is left out of the response; a replica
    without a log panics. *)
Definition offsetsPartition (topic : string) (p : OffsetsPartition.t) : M Broker (option PartitionResponse.t) :=
  b ← gets (fun b => b);
  match Cluster.Replica topic (OffsetsPartition.Partition p) (replicaLookup b) with
  | inl _ => mret None
  | inr ptr =>
      r ← replica ptr;
      match logOf r b with
      | None => crash
      | Some l =>
          o ← on_log ptr l (if OffsetsPartition.Timestamp p =? -2 then log_oldest else log_newest);
          match o with
          | inl _ => crash
          | inr offset => mret (Some (PartitionResponse.mk (OffsetsPartition.Partition p) ErrNone zeroTime [offset] 0))
          end
      end
  end.

Definition handleOffsets (req : OffsetsRequest.t) : M Broker OffsetsResponse.t :=
  rs ← collect (fun _ t =>
    ps ← collect (fun _ p => offsetsPartition (OffsetsTopic.Topic t) p) 0 (OffsetsTopic.Partitions t);
    mret (OffsetResponse.mk (OffsetsTopic.Topic t) (omap id ps))) 0 (OffsetsRequest.Topics req);
  mret (OffsetsResponse.mk (OffsetsRequest.APIVersion req) 0 rs).
End broker.

(** ** Lemmas *)
Section lemmas.
Context {L R D DB RF : Type} `{CommitLogLaws L R} `{LogDirs D L} `{!LogDirLaws D L R} `{Memdb DB} `{Raft RF}.

Lemma copyAll_spec room : (forall i, 0 < room i)%nat -> forall fuel i l r bs,
  reader_at l r bs -> (length bs < fuel)%nat ->
  exists r', copyAll fuel room i l r = Some (bs, None, r') /\ reader_at l r' [].
Proof.
  intros Hroom fuel. induction fuel as [|fuel IH]; intros i l r bs Hat Hf; [lia|]. cbn [copyAll].
  destruct (law_read l r bs (room i) Hat) as (r1 & -> & Hat1). cbn [mbind option_bind].
  specialize (Hroom i). case_decide as Hd.
  - exists r1. rewrite take_ge by lia. rewrite drop_ge in Hat1 by lia. auto.
  - destruct (IH (S i) l r1 (drop (room i) bs) Hat1) as (r2 & -> & Hat2); [rewrite length_drop; lia|].
    cbn [mbind option_bind]. exists r2. rewrite take_drop. auto.
Qed.

(** The loop ends exactly when the log has as many bytes as were asked for. *)
Lemma fetchLoop_spec room fuel copyFuel minBytes l r bs :
  (forall i, 0 < room i)%nat -> reader_at l r bs -> (length bs < copyFuel)%nat -> (2 <= fuel)%nat ->
  0 < minBytes -> len bs < 2 ^ 31 ->
  fetchLoop fuel copyFuel room minBytes 0 [] l r = if minBytes <=? len bs then Filled bs else Spins.
Proof.
  intros Hroom Hat Hc Hf Hmin H31. destruct fuel as [|[|fuel]]; [lia|lia|]. cbn [fetchLoop].
  rewrite (proj2 (Z.ltb_lt 0 minBytes)) by exact Hmin.
  destruct (copyAll_spec room Hroom copyFuel 0 l r bs Hat Hc) as (r1 & -> & Hat1).
  case_decide as Hb.
  { subst bs. change (len (@nil byte)) with 0. rewrite (proj2 (Z.leb_gt minBytes 0)) by exact Hmin. reflexivity. }
  assert (Hi : int32 (0 + int32 (len bs)) = len bs).
  { assert (in_int 32 (len bs)) by (unfold in_int, len in *; lia).
    unfold int32. rewrite (sext_id 32 (len bs)), Z.add_0_l, sext_id by (assumption || lia). reflexivity. }
  rewrite Hi. destruct (Z.leb_spec minBytes (len bs)).
  - rewrite (proj2 (Z.ltb_ge _ _)) by lia. reflexivity.
  - rewrite (proj2 (Z.ltb_lt _ _)) by lia.
    destruct (copyAll_spec room Hroom copyFuel 0 l r1 [] Hat1) as (r2 & -> & _); [cbn [length]; lia|].
    rewrite decide_True by reflexivity. reflexivity.
Qed.

(** [serves b topic p ptr rep l b0 msgs]: partition [p] of [topic], known to the
    store, has the replica [rep] at [ptr], whose log [l] holds [msgs] from [b0]
    on; the directory is as [l] left it. *)
Definition serves (b : Broker L D DB RF) (topic : string) (p : Z) (ptr : nat) (rep : Replica L) (l : L)
    (b0 : Z) (msgs : list (list byte)) : Prop :=
  is_Some (snd (GetTopic topic (db b))) /\ Cluster.Replica topic p (replicaLookup b) = inr ptr /\
  replicas b !! ptr = Some rep /\ Log rep = Some l /\ disk b !! dirName rep = Some (dir_of l) /\
  log_holds l b0 msgs.

Lemma on_log_Ret {A} (b : Broker L D DB RF) ptr rep l (m : M L A) a l' :
  replicas b !! ptr = Some rep -> m l = Ret a l' ->
  on_log ptr l m b = Ret (inr a) (putLog ptr rep l' b).
Proof. intros E Em. unfold on_log. rewrite E, Em. reflexivity. Qed.

(** A log whose directory nothing else has changed. *)
Lemma logOf_serves (b : Broker L D DB RF) rep l :
  Log rep = Some l -> disk b !! dirName rep = Some (dir_of l) -> logOf rep b = Some l.
Proof. intros E Ed. unfold logOf, dir. rewrite E, Ed. cbn. rewrite law_in_dir. reflexivity. Qed.

Lemma serves_putLog (b : Broker L D DB RF) topic p ptr rep l b0 msgs l' b0' msgs' :
  serves b topic p ptr rep l b0 msgs -> log_holds l' b0' msgs' ->
  serves (putLog ptr rep l' b) topic p ptr (setLog l' rep) l' b0' msgs'.
Proof.
  intros (Ht & Hl & Hp & Hlog & Hd & _) Hh. split_and!; [exact Ht|exact Hl| |reflexivity| |exact Hh]; cbn.
  - apply list_lookup_insert_eq. eapply lookup_lt_Some, Hp.
  - apply lookup_insert_eq.
Qed.

Lemma produceFn_spec (b : Broker L D DB RF) topic p ptr rep l b0 msgs rs now :
  serves b topic p ptr rep l b0 msgs -> (8 <= length rs)%nat -> in_int 64 (b0 + len msgs) ->
  exists l' dropped kept m,
    produceFn topic (Data.mk p (Some rs)) now b =
      Ret (Some (ErrNone, Some (b0 + len msgs, now))) (putLog ptr rep l' b) /\
    LogMessageSet.PutOffset rs (b0 + len msgs) = Some m /\ msgs = dropped ++ kept /\
    serves (putLog ptr rep l' b) topic p ptr (setLog l' rep) l' (b0 + len dropped) (kept ++ [m]).
Proof.
  intros Hs Hrs H64. destruct (Hs) as ([t Ht] & Hl & Hp & Hlog & Hd & Hh).
  destruct (law_append l b0 msgs rs Hh Hrs H64) as (l' & dr & kept & m & E & Ep & Em & Hh').
  exists l', dr, kept, m. split_and!; auto; [|eapply serves_putLog; eassumption].
  unfold produceFn. erewrite bind_Ret by reflexivity. rewrite Ht. cbn [Data.Partition Data.RecordSet].
  rewrite Hl. erewrite bind_Ret by (unfold replica; rewrite Hp; reflexivity).
  rewrite (logOf_serves b rep l Hlog Hd).
  erewrite bind_Ret by (eapply on_log_Ret; [exact Hp|exact E]). reflexivity.
Qed.

(** Reading the newest offset leaves the replica and its directory as they were. *)
Lemma putLog_same (b : Broker L D DB RF) ptr rep l :
  replicas b !! ptr = Some rep -> Log rep = Some l -> disk b !! dirName rep = Some (dir_of l) ->
  putLog ptr rep l b = b.
Proof.
  intros Hp Hl Hd. destruct b as [c d rs lk di kb rf ms ch cs st], rep as [x1 x2 x3 lo x5 x6 x7]. cbn in *. subst lo.
  unfold putLog, setReplica, setLog, set_disk, set_replicas. cbn.
  rewrite list_insert_id by exact Hp. rewrite insert_id by exact Hd. reflexivity.
Qed.

Lemma fetchFn_spec (b : Broker L D DB RF) topic p off max ptr rep l b0 msgs minBytes room fuel :
  serves b topic p ptr rep l b0 msgs -> Partition.Leader (RPartition rep) = configID b ->
  b0 <= off < b0 + len msgs -> (forall i, 0 < room i)%nat -> 0 < minBytes ->
  len (concat msgs) < 2 ^ 31 -> (length (concat msgs) + 2 <= fuel)%nat ->
  exists k, Z.of_nat k <= off - b0 /\
    fetchFn topic (FetchPartition.mk p off max) minBytes room fuel b =
    if minBytes <=? len (concat (drop k msgs))
    then Ret (Some (ErrNone, Some (b0 + len msgs - 1, Some (concat (drop k msgs))))) b
    else Ret None b.
Proof.
  intros (_ & Hl & Hp & Hlog & Hd & Hh) Hlead Hoff Hroom Hmin H31 Hf.
  destruct (law_reader l b0 msgs off Hh Hoff) as (r & k & Er & Hk & Hat). exists k. split; [exact Hk|].
  assert (Hle : (length (concat (drop k msgs)) <= length (concat msgs))%nat)
    by (rewrite <- (take_drop k msgs) at 2; rewrite concat_app, length_app; lia).
  unfold fetchFn. erewrite bind_Ret by reflexivity. cbn [FetchPartition.Partition FetchPartition.FetchOffset].
  rewrite Hl. erewrite bind_Ret by (unfold replica; rewrite Hp; reflexivity).
  rewrite Hlead, Z.eqb_refl. cbn [negb]. rewrite (logOf_serves b rep l Hlog Hd), Er.
  rewrite (fetchLoop_spec room fuel fuel minBytes l r (concat (drop k msgs)) Hroom Hat)
    by (unfold len in *; lia).
  destruct (minBytes <=? len (concat (drop k msgs))); [|reflexivity].
  erewrite bind_Ret by (eapply on_log_Ret; [exact Hp|exact (law_newest l b0 msgs Hh)]).
  rewrite (putLog_same b ptr rep l Hp Hlog Hd), (proj2 (Z.ltb_lt _ _)) by exact Hmin. reflexivity.
Qed.

(** Requests for one partition. *)
Lemma handleFetch_one req topic p expired room fuel (b b' : Broker L D DB RF) o :
  FetchRequest.Topics req = [FetchTopic.mk topic [p]] ->
  fetchFn topic p (FetchRequest.MinBytes req) room fuel b = Ret o b' ->
  handleFetch req expired room fuel b =
  (w ← waited (FetchRequest.MaxWaitTime req) (expired 0%nat 0%nat) o;
   mret (FetchResponse.mk (FetchRequest.APIVersion req) 0 [FetchTopicResponse.mk topic [
     match snd w with
     | Some (Some (hw, rs)) => FetchPartitionResponse.mk (FetchPartition.Partition p) (fst w) hw 0 [] rs
     | _ => FetchPartitionResponse.mk (FetchPartition.Partition p) (fst w) 0 0 [] None
     end]])) b'.
Proof.
  intros Ht E. unfold handleFetch. rewrite Ht.
  cbn [collect FetchTopic.Topic FetchTopic.Partitions]. unfold fetchPartition, withTimeout.
  unfold mbind, M_bind. rewrite E. destruct (waited _ _ o b') as [w b1|e b1|]; reflexivity.
Qed.

Lemma handleProduce_one req topic p expired now (b b' : Broker L D DB RF) o :
  ProduceRequest.TopicData req = [TopicData.mk topic [p]] ->
  produceFn topic p (now 0%nat 0%nat) b = Ret o b' ->
  handleProduce req expired now b =
  (w ← waited (ProduceRequest.Timeout req) (expired 0%nat 0%nat) o;
   mret (ProduceResponse.mk (ProduceRequest.APIVersion req) [ProduceTopicResponse.mk topic [
     match snd w with
     | Some (Some (offset, time)) => ProducePartitionResponse.mk (Data.Partition p) (fst w) offset time 0
     | _ => ProducePartitionResponse.mk (Data.Partition p) (fst w) 0 zeroTime 0
     end]] 0)) b'.
Proof.
  intros Ht E. unfold handleProduce. rewrite Ht.
  cbn [collect TopicData.Topic TopicData.Data]. unfold producePartition, withTimeout.
  unfold mbind, M_bind. rewrite E. destruct (waited _ _ o b') as [w b1|e b1|]; reflexivity.
Qed.

(** What was produced is fetched. *)
Lemma produce_fetch (b : Broker L D DB RF) (topic : string) (p max : Z) (ptr : nat) (rep : Replica L) (l : L)
    (b0 : Z) (msgs : list (list byte)) (rs : list byte) (req : ProduceRequest.t) (freq : FetchRequest.t)
    (expired : nat -> nat -> bool) (now : nat -> nat -> Z) (room : nat -> nat) (fuel : nat)
    (Hs : serves b topic p ptr rep l b0 msgs) (Hlead : Partition.Leader (RPartition rep) = configID b)
    (Hrs : (8 <= length rs)%nat) (H64 : in_int 64 (b0 + len msgs))
    (Hreq : ProduceRequest.TopicData req = [TopicData.mk topic [Data.mk p (Some rs)]])
    (Ht : 0 < ProduceRequest.Timeout req) (Hexp : expired 0%nat 0%nat = false)
    (Hfreq : FetchRequest.Topics freq = [FetchTopic.mk topic [FetchPartition.mk p (b0 + len msgs) max]])
    (Hwait : 0 < FetchRequest.MaxWaitTime freq) (Hmin : 0 < FetchRequest.MinBytes freq <= len rs)
    (Hroom : forall i, (0 < room i)%nat) (H31 : len (concat msgs) + len rs < 2 ^ 31)
    (Hfuel : (length (concat msgs) + length rs + 2 <= fuel)%nat) :
  exists b' m j,
    handleProduce req expired now b =
      Ret (ProduceResponse.mk (ProduceRequest.APIVersion req) [ProduceTopicResponse.mk topic
             [ProducePartitionResponse.mk p ErrNone (b0 + len msgs) (now 0%nat 0%nat) 0]] 0) b' /\
    LogMessageSet.PutOffset rs (b0 + len msgs) = Some m /\
    handleFetch freq expired room fuel b' =
      Ret (FetchResponse.mk (FetchRequest.APIVersion freq) 0 [FetchTopicResponse.mk topic
             [FetchPartitionResponse.mk p ErrNone (b0 + len msgs) 0 [] (Some (concat (drop j msgs) ++ m))]]) b'.
Proof.
  destruct (produceFn_spec b topic p ptr rep l b0 msgs rs (now 0%nat 0%nat) Hs Hrs H64)
    as (l' & dr & kept & m & E & Ep & Em & Hs').
  pose proof (PutOffset_length _ _ _ Ep) as Hlm.
  assert (Hcat : (length (concat (kept ++ [m])) <= length (concat msgs) + length rs)%nat)
    by (rewrite Em, !concat_app, !length_app; cbn [concat]; rewrite app_nil_r; lia).
  destruct (fetchFn_spec (putLog ptr rep l' b) topic p (b0 + len msgs) max ptr (setLog l' rep) l'
    (b0 + len dr) (kept ++ [m]) (FetchRequest.MinBytes freq) room fuel Hs' Hlead) as (k & Hk & Ef);
    [subst msgs; len_solve|exact Hroom|lia|unfold len in *; lia|lia|].
  assert (Hd : concat (drop k (kept ++ [m])) = concat (drop k kept) ++ m).
  { rewrite drop_app_le by (subst msgs; unfold len in Hk; rewrite length_app in Hk; lia).
    rewrite concat_app. cbn [concat]. rewrite app_nil_r. reflexivity. }
  rewrite Hd, (proj2 (Z.leb_le _ _)) in Ef by (unfold len in *; rewrite length_app; lia).
  eexists _, m, (length dr + k)%nat. split.
  - rewrite (handleProduce_one req topic _ expired now b _ _ Hreq E). unfold waited, mbind, M_bind.
    rewrite (proj2 (Z.leb_gt _ _)), Hexp by exact Ht. reflexivity.
  - split; [exact Ep|]. rewrite (handleFetch_one freq topic _ expired room fuel _ _ _ Hfreq Ef). unfold waited, mbind, M_bind.
    rewrite (proj2 (Z.leb_gt _ _)), Hexp by exact Hwait. cbn [mret M_ret fst snd FetchPartition.Partition].
    replace (b0 + len dr + len (kept ++ [m]) - 1) with (b0 + len msgs) by (subst msgs; len_solve).
    rewrite Em, <- drop_drop, drop_app_length. reflexivity.
Qed.

(** *** Loops that panic *)

(** [f] returns or panics. *)
Definition no_fail {St A} (m : M St A) : Prop := forall s, match m s with Fail _ _ => False | _ => True end.

Lemma no_fail_bind {St A B} (m : M St A) (f : A -> M St B) :
  no_fail m -> (forall a, no_fail (f a)) -> no_fail (m ≫= f).
Proof.
  intros Hm Hf s. specialize (Hm s). unfold mbind, M_bind.
  destruct (m s) as [a s'|e s'|]; [apply Hf|exact Hm|exact I].
Qed.

Lemma no_fail_collect {St A B} (f : nat -> A -> M St B) :
  (forall i x, no_fail (f i x)) -> forall xs i, no_fail (collect f i xs).
Proof.
  intros Hf xs. induction xs as [|x xs IH]; intros i; [exact (fun _ => I)|]. cbn [collect].
  apply no_fail_bind; [apply Hf|]. intros y. apply no_fail_bind; [apply IH|]. intros ys s. exact I.
Qed.

Lemma collect_crash {St A B} (f : nat -> A -> M St B) : (forall i x, no_fail (f i x)) ->
  forall xs i j x, xs !! j = Some x -> (forall s, f (i + j)%nat x s = Crash) ->
  forall s, collect f i xs s = Crash.
Proof.
  intros Hf xs. induction xs as [|y xs IH]; intros i j x E Hc s; [destruct j; discriminate|].
  cbn [collect]. unfold mbind at 1, M_bind at 1. destruct j as [|j]; cbn in E.
  - injection E as ->. rewrite Nat.add_0_r in Hc. rewrite Hc. reflexivity.
  - pose proof (Hf i y s) as Hy. destruct (f i y s) as [z s'|e s'|]; [|destruct Hy|reflexivity].
    unfold mbind at 1, M_bind at 1. rewrite (IH (S i) j x E); [reflexivity|].
    intros s1. rewrite <- (Hc s1). f_equal. lia.
Qed.

(** What is run for a partition returns a result or panics. *)
Lemma produceFn_returns (b : Broker L D DB RF) topic p now :
  produceFn topic p now b = Crash \/ exists r b', produceFn topic p now b = Ret (Some r) b'.
Proof.
  unfold produceFn. erewrite bind_Ret by reflexivity.
  destruct (snd (GetTopic topic (db b))); [|right; eauto].
  destruct (Cluster.Replica topic _ _) as [e|ptr]; [right; eauto|].
  unfold replica, on_log, mbind, M_bind. destruct (replicas b !! ptr) as [r|] eqn:E; [|left; reflexivity].
  destruct (logOf r b) as [l|]; [|right; eauto]. rewrite E.
  destruct (log_append _ l); [right; eauto|right; eauto|left; reflexivity].
Qed.

Lemma producePartition_no_fail timeout topic expired now p :
  no_fail (producePartition timeout topic expired now p : M (Broker L D DB RF) _).
Proof.
  intros b. unfold producePartition, withTimeout, mbind, M_bind.
  destruct (produceFn_returns b topic p now) as [->|(r & b' & ->)]; [exact I|]. destruct r as [code a].
  unfold waited. destruct (timeout <=? 0); [exact I|]. destruct expired; exact I.
Qed.

Lemma producePartition_late timeout topic now p (b : Broker L D DB RF) : 0 < timeout ->
  producePartition timeout topic true now p b = Crash.
Proof.
  intros Ht. unfold producePartition, withTimeout, mbind, M_bind.
  destruct (produceFn_returns b topic p now) as [->|(r & b' & ->)]; [reflexivity|]. destruct r as [code a].
  unfold waited. rewrite (proj2 (Z.leb_gt _ _)) by exact Ht. reflexivity.
Qed.
End lemmas.
