(* ===== verification/TopicAdmin.v ===== *)
(** * Topics and replicas

    The handlers of [src/jocko/broker.go] that create and delete topics and that
    start the replicas of a broker. *)
From S2P Require Import Prelude Codec TopicApi ClusterApi Structs Store StoreSteps Cluster LogService BrokerState Broker.

Section topics.
Context {L R D DB RF : Type} `{CommitLogOps L R} `{LogDirs D L} `{Memdb DB} `{Raft RF}.
Context `{Msgpack Node.t} `{Msgpack Topic.t} `{Msgpack Partition.t} `{Msgpack Group.t}.
Abbreviation Broker := (BrokerState.Broker L D DB RF).

(** ** Starting replicas *)

(** [topic.Config.GetValue("cleanup.policy").(string)]; [None] is the panic of
    the type assertion. *)
Definition cleanupPolicy (topic : Topic.t) : option string :=
  c ← Topic.Config topic;
  match TopicConfig.GetValue c "cleanup.policy" with Some (VString s) => Some s | _ => None end.

(** [commitlog.New] in the directory of a replica. *)
Definition openLog (ptr : nat) (r : Replica L) (policy : string) : M Broker Z := fun b =>
  match log_new 1024 (-1) policy (dir (dirName r) b) with
  | Ret _ l => Ret ErrNone (putLog ptr r l b)
  | Fail _ l => Ret ErrUnknown (set_disk (<[dirName r := dir_of l]> (disk b)) b)
  | Crash => Crash
  end.

Definition startReplica (ptr : nat) : M Broker Z :=
  r ← replica ptr;
  d ← gets db;
  match snd (GetTopic (Partition.Topic (RPartition r)) d) with
  | None => mret ErrUnknownTopicOrPartition
  | Some topic =>
      match Log r with
      | Some _ => mret ErrNone
      | None =>
          match cleanupPolicy topic with
          | None => crash
          | Some policy => openLog ptr r policy
          end
      end
  end.

Definition setReplicator (o : option Replicating) (r : Replica L) : Replica L :=
  mkReplica (BrokerID r) (RPartition r) (IsLocal r) (Log r) (Hw r) (Leo r) o.

(** [replica.Replicator.Close()], if there is one: it closes a channel, which
    panics the second time, and returns no error. *)
Definition closeReplicator (ptr : nat) : M Broker unit :=
  r ← replica ptr;
  match RReplicator r with
  | None => mret tt
  | Some rp =>
      if ReplClosed rp then crash
      else modify (setReplica ptr (setReplicator (Some (mkReplicating (ReplLeader rp) (ReplStarted rp) true)) r))
  end.

(** The replica that leads from now on, without a replicator. *)
Definition leading (cmd : PartitionState.t) (r : Replica L) : Replica L :=
  let p := RPartition r in
  mkReplica (BrokerID r)
    (Partition.mk (Partition.ID p) (Partition.Partition p) (Partition.Topic p) (PartitionState.ISR cmd)
       (PartitionState.Replicas cmd) (PartitionState.Leader cmd) (Partition.ControllerEpoch p)
       (PartitionState.ZKVersion cmd) (Partition.Raft p))
    (IsLocal r) (Log r) (Hw r) (Leo r) None.
Definition becomeLeader (ptr : nat) (cmd : PartitionState.t) : M Broker Z :=
  closeReplicator ptr ;;
  r ← replica ptr;
  modify (setReplica ptr (leading cmd r)) ;;
  mret ErrNone.

(** A call of a method of the log of the replica at [ptr]; a nil log panics. *)
Definition call_log {A} (ptr : nat) (m : M L A) : M Broker (error + A) :=
  r ← replica ptr;
  b ← gets (fun b => b);
  match logOf r b with None => crash | Some l => on_log ptr l m end.

Definition becomeFollower (ptr : nat) (cmd : PartitionState.t) : M Broker Z :=
  closeReplicator ptr ;;
  hw ← call_log ptr log_newest;
  match hw with
  | inl _ => crash
  | inr hw =>
      t ← call_log ptr (log_truncate hw);
      match t with
      | inl _ => mret ErrUnknown
      | inr _ =>
          b ← gets (fun b => b);
          match BrokerByID (itoa (PartitionState.Leader cmd)) (knownBrokers b) with
          | None => mret ErrBrokerNotAvailable
          | Some broker =>
              dialed ← call;
              if negb dialed then mret ErrUnknown else
              r ← replica ptr;
              modify (setReplica ptr
                (setReplicator (Some (mkReplicating (BrokerMeta.BrokerAddr broker) (negb (Config.DevMode (config b))) false)) r)) ;;
              mret ErrNone
          end
      end
  end.

Definition contains (rs : list Z) (r : Z) : bool := existsb (Z.eqb r) rs.

(** ** [handleLeaderAndISR] *)

(** [&Replica{...}] for a partition of the request. *)
Definition newReplica (id : Z) (p : PartitionState.t) : Replica L :=
  mkReplica id
    (Partition.mk (PartitionState.Partition p) (PartitionState.Partition p) (PartitionState.Topic p)
       (PartitionState.ISR p) (PartitionState.Replicas p) (PartitionState.Leader p)
       (PartitionState.ZKVersion p) (PartitionState.LeaderEpoch p) RaftIndex.zero)
    true None 0 0 None.
Definition addReplica (r : Replica L) : M Broker nat := fun b =>
  let ptr := length (replicas b) in
  Ret ptr (set_replicas (replicas b ++ [r])
    (set_replicaLookup (AddReplica (Partition.Topic (RPartition r)) (Partition.ID (RPartition r)) ptr (replicaLookup b)) b)).

(** The error code for one partition. *)
Definition applyState (p : PartitionState.t) : M Broker Z :=
  id ← gets configID;
  ptr ← addReplica (newReplica id p);
  if (PartitionState.Leader p =? id) && (Partition.Leader (RPartition (newReplica id p)) =? id) then
    code ← startReplica ptr;
    if negb (code =? ErrNone) then mret code else becomeLeader ptr p
  else if contains (PartitionState.Replicas p) id && negb (PartitionState.Leader p =? id) then
    code ← startReplica ptr;
    if negb (code =? ErrNone) then mret code else becomeFollower ptr p
  else mret ErrNone.

Definition handleLeaderAndISR (req : LeaderAndISRRequest.t) : M Broker LeaderAndISRResponse.t :=
  ps ← collect (fun _ p =>
    code ← applyState p;
    mret (LeaderAndISRPartition.mk (PartitionState.Topic p) (PartitionState.Partition p) code)) 0
    (LeaderAndISRRequest.PartitionStates req);
  mret (LeaderAndISRResponse.mk (LeaderAndISRRequest.APIVersion req) 0 ps).

(** ** Creating topics *)
Definition createPartition (p : Partition.t) : M Broker (option error) :=
  r ← raftApply RegisterPartitionRequestType p;
  mret match r with inl e => Some e | inr _ => None end.

(** [for _, p := range ps { if err := b.createPartition(p); err != nil { ... } }]:
    whether all were applied. *)
Fixpoint createPartitions (ps : list Partition.t) : M Broker bool :=
  match ps with
  | [] => mret true
  | p :: ps =>
      e ← createPartition p;
      match e with Some _ => mret false | None => createPartitions ps end
  end.

Definition topicOf (name : string) (internal : bool) (ps : list Partition.t) : Topic.t :=
  Topic.mk "" name (foldl (fun m p => <[Partition.ID p := Partition.AR p]> m) ∅ ps) None internal RaftIndex.zero.

Definition stateOf (p : Partition.t) : PartitionState.t :=
  PartitionState.mk (Partition.Topic p) (Partition.ID p) 0 (Partition.Leader p) 0 (Partition.ISR p) 0
    (Partition.AR p) false.

(** The loop over the brokers of the cluster; [None] when a call failed, which
    ends it. *)
Fixpoint announce (req : LeaderAndISRRequest.t) (brokers : list BrokerMeta.t) : M Broker (option unit) :=
  match brokers with
  | [] => mret (Some tt)
  | br :: brokers =>
      id ← gets configID;
      if BrokerMeta.ID br =? id then
        res ← handleLeaderAndISR req;
        if negb (LeaderAndISRResponse.ErrorCode res =? ErrNone) then crash else announce req brokers
      else
        ok ← sendLeaderAndISR (BrokerMeta.BrokerAddr br) req;
        if negb (ok : bool) then mret None else announce req brokers
  end.

(** [o1] and [o2] are the orders in which the map of brokers is iterated, [rnd]
    the random moves of [buildPartitions]. *)
Definition createTopic (o1 o2 : map_order) (rnd : nat -> nat) (req : CreateTopicRequest.t) : M Broker Z :=
  b ← gets (fun b => b);
  let name := CreateTopicRequest.Topic req in
  match snd (GetTopic name (db b)) with
  | Some _ => mret ErrTopicAlreadyExists
  | None =>
      match buildPartitions (Brokers o1 (knownBrokers b)) name (CreateTopicRequest.NumPartitions req)
              (CreateTopicRequest.ReplicationFactor req) rnd with
      | None => crash
      | Some (inl code) => mret code
      | Some (inr ps) =>
          r ← raftApply RegisterTopicRequestType (topicOf name false ps);
          match r with
          | inl _ => mret ErrUnknown
          | inr _ =>
              ok ← createPartitions ps;
              if negb (ok : bool) then mret ErrUnknown else
              bs ← gets (fun b => Brokers o2 (knownBrokers b));
              a ← announce (LeaderAndISRRequest.mk 0 (configID b) 0 (stateOf <$> ps) []) bs;
              mret match a with Some _ => ErrNone | None => ErrUnknown end
          end
      end
  end.

(** A function that writes nothing but its error code. *)
Definition coded (m : M Broker Z) : M Broker (option (Z * unit)) := code ← m; mret (Some (code, tt)).

Definition handleCreateTopic (expired : nat -> bool) (o1 o2 : nat -> map_order) (rnd : nat -> nat -> nat)
    (reqs : CreateTopicRequests.t) : M Broker CreateTopicsResponse.t :=
  controller ← isController;
  cs ← collect (fun i req =>
    code ← (if negb (controller : bool) then mret ErrNotController else
            n ← gets (fun b => len (members b));
            if int16 n <? CreateTopicRequest.ReplicationFactor req then mret ErrInvalidReplicationFactor else
            r ← withTimeout (CreateTopicRequests.Timeout reqs) (expired i)
                  (coded (createTopic (o1 i) (o2 i) (rnd i) req));
            mret (fst r));
    mret (TopicErrorCode.mk (CreateTopicRequest.Topic req) code None)) 0 (CreateTopicRequests.Requests reqs);
  mret (CreateTopicsResponse.mk (CreateTopicRequests.APIVersion reqs) 0 cs).

(** ** Deleting topics *)
Definition handleDeleteTopics (expired : nat -> bool) (reqs : DeleteTopicsRequest.t)
  : M Broker DeleteTopicsResponse.t :=
  controller ← isController;
  cs ← collect (fun i topic =>
    code ← (if negb (controller : bool) then mret ErrNotController else
            r ← withTimeout (DeleteTopicsRequest.Timeout reqs) (expired i) (coded (
                  r ← raftApply DeregisterTopicRequestType (Topic.mk "" topic ∅ None false RaftIndex.zero);
                  mret match r with inl _ => ErrUnknown | inr _ => ErrNone end));
            mret (fst r));
    mret (TopicErrorCode.mk topic code None)) 0 (DeleteTopicsRequest.Topics reqs);
  mret (DeleteTopicsResponse.mk (DeleteTopicsRequest.APIVersion reqs) 0 cs).
End topics.

(** ** What a computation of the broker leaves alone *)
Section keeping.
Context {L R D DB RF : Type} `{CommitLogOps L R} `{LogDirs D L} `{Memdb DB} `{Raft RF}.
Abbreviation Broker := (BrokerState.Broker L D DB RF).

(** Computations that leave the store and raft alone, and make some network calls. *)
Definition keepsStore {A} (m : M Broker A) : Prop :=
  forall b a b', m b = Ret a b' -> db b' = db b /\ raft b' = raft b /\ calls b' `suffix_of` calls b.

Lemma keeps_ret {A} (a : A) : keepsStore (mret a).
Proof. intros b x b' [= <- <-]. auto. Qed.
Lemma keeps_crash {A} : keepsStore (crash (A := A)).
Proof. intros b x b' C. discriminate. Qed.
Lemma keeps_gets {A} (f : Broker -> A) : keepsStore (gets f).
Proof. intros b x b' [= <- <-]. auto. Qed.
Lemma keeps_bind {A B} (m : M Broker A) (f : A -> M Broker B) :
  keepsStore m -> (forall a, keepsStore (f a)) -> keepsStore (m ≫= f).
Proof.
  intros Hm Hf b x b'. unfold mbind, M_bind. destruct (m b) as [a b1|e b1|] eqn:E; [|discriminate..].
  intros E'. destruct (Hm _ _ _ E) as (? & ? & Hs), (Hf _ _ _ _ E') as (? & ? & Hs').
  split_and!; [congruence..|]. etrans; eassumption.
Qed.
Lemma keeps_modify (f : Broker -> Broker) : (forall b, db (f b) = db b /\ raft (f b) = raft b /\ calls (f b) = calls b) ->
  keepsStore (modify f).
Proof. intros Hf b x b' [= <- <-]. destruct (Hf b) as (-> & -> & ->). auto. Qed.
Lemma keeps_replica ptr : keepsStore (replica ptr).
Proof. intros b x b'. unfold replica. destruct (replicas b !! ptr); [|discriminate]. intros [= <- <-]. auto. Qed.
Lemma keeps_call : keepsStore (call (L := L) (D := D) (DB := DB) (RF := RF)).
Proof. intros b x b'. unfold call. destruct (calls b) as [|ok cs] eqn:E; intros [= <- <-]; cbn; rewrite ?E; auto using suffix_cons_r. Qed.
Lemma keeps_on_log {A} ptr l (m : M L A) : keepsStore (on_log ptr l m).
Proof.
  intros b x b'. unfold on_log. destruct (replicas b !! ptr); [|discriminate].
  destruct (m l); [| |discriminate]; intros [= <- <-]; auto.
Qed.
Lemma keeps_openLog ptr r policy : keepsStore (openLog ptr r policy).
Proof. intros b x b'. unfold openLog. destruct (log_new _ _ _ _); [| |discriminate]; intros [= <- <-]; auto. Qed.
Lemma keeps_addReplica r : keepsStore (addReplica r).
Proof. intros b x b' [= <- <-]. auto. Qed.
Lemma keeps_collect {A B} (f : nat -> A -> M Broker B) xs : (forall i x, keepsStore (f i x)) -> forall i, keepsStore (collect f i xs).
Proof.
  intros Hf. induction xs as [|x xs IH]; intros i; cbn [collect]; [apply keeps_ret|].
  apply keeps_bind; [apply Hf|]. intros y. apply keeps_bind; [apply IH|]. intros ys. apply keeps_ret.
Qed.

Ltac keeps_go :=
  repeat first
    [ apply keeps_ret | apply keeps_crash | apply keeps_gets | apply keeps_replica | apply keeps_call | apply keeps_on_log
    | apply keeps_openLog | apply keeps_addReplica | apply keeps_modify; intros ?; split_and!; reflexivity
    | apply keeps_collect; intros ? ? | apply keeps_bind; [|intros ?]
    | match goal with |- keepsStore (match ?x with _ => _ end) => destruct x end ].

Lemma keeps_handleLeaderAndISR req : keepsStore (handleLeaderAndISR req).
Proof.
  unfold handleLeaderAndISR, applyState, startReplica, becomeLeader, becomeFollower, closeReplicator, call_log. keeps_go.
Qed.
Lemma keeps_sendLeaderAndISR addr req : keepsStore (sendLeaderAndISR addr req).
Proof. unfold sendLeaderAndISR. keeps_go. Qed.
Lemma keeps_announce req brokers : keepsStore (announce req brokers).
Proof.
  induction brokers as [|br brokers IH]; cbn [announce]; keeps_go;
    first [apply keeps_handleLeaderAndISR|apply keeps_sendLeaderAndISR|exact IH].
Qed.

(** The last network call failed, or none was left to succeed. *)
Definition callFailed (b b' : Broker) : Prop := false :: calls b' `suffix_of` calls b \/ calls b' = [].

Lemma callFailed_after (b b1 b' : Broker) : calls b1 `suffix_of` calls b -> callFailed b1 b' -> callFailed b b'.
Proof. intros Hs [Hf|Hn]; [left; etrans; eassumption|right; exact Hn]. Qed.

Lemma sendLeaderAndISR_failed addr req (b b' : Broker) : sendLeaderAndISR addr req b = Ret false b' -> callFailed b b'.
Proof.
  unfold sendLeaderAndISR, call, mbind, M_bind, modify, mret, M_ret, callFailed.
  destruct (calls b) as [|[] cs] eqn:E; cbn; rewrite ?E.
  - intros [= <-]. auto.
  - destruct cs as [|[] cs]; intros [= <-]; cbn; [auto|]. left. apply suffix_cons_r. reflexivity.
  - intros [= <-]. left. reflexivity.
Qed.

(** The cluster is told unless a call fails. *)
Lemma announce_failed req brokers : forall b b' : Broker, announce req brokers b = Ret None b' -> callFailed b b'.
Proof.
  induction brokers as [|br brokers IH]; intros b b' E; cbn [announce] in E; [discriminate|].
  apply bind_inv in E as (id & b0 & E0 & E). injection E0 as <- <-. destruct (BrokerMeta.ID br =? configID b).
  - apply bind_inv in E as (res & b1 & E1 & E). destruct (negb _); [discriminate|].
    eapply callFailed_after; [|exact (IH _ _ E)]. apply (keeps_handleLeaderAndISR _ _ _ _ E1).
  - apply bind_inv in E as (ok & b1 & E1 & E). destruct ok; cbn [negb] in E.
    + eapply callFailed_after; [|exact (IH _ _ E)]. apply (keeps_sendLeaderAndISR _ _ _ _ _ E1).
    + injection E as <-. exact (sendLeaderAndISR_failed _ _ _ _ E1).
Qed.
End keeping.

(** ** Lemmas *)
Section lemmas.
Context {L R D DB RF : Type} `{CommitLogLaws L R} `{LogDirs D L} `{!LogDirLaws D L R}.
Context {ToLower : string -> string} `{MemdbLaws ToLower DB} `{Raft RF}.
Context `{Msgpack Node.t} `{Msgpack Topic.t} `{Msgpack Partition.t} `{Msgpack Group.t}.
Abbreviation Broker := (BrokerState.Broker L D DB RF).

(** *** Entries that raft commits *)

(** The next [n] entries are committed. *)
Fixpoint commits (n : nat) (r : RF) : Prop :=
  match n with
  | O => True
  | S n => forall buf, exists i r', raft_apply buf r = (inr i, r') /\ commits n r'
  end.

Lemma raftApply_Ret {A} `{Msgpack A} t (msg : A) buf i r d (b : Broker) :
  Encode t msg = Some buf -> raft_apply buf (raft b) = (inr i, r) -> Apply buf i (db b) = Ret tt d ->
  raftApply t msg b = Ret (inr None) (set_db d (set_raft r b)).
Proof. intros E1 E2 E3. unfold raftApply. rewrite E1, E2, E3. reflexivity. Qed.

(** An object of a table is registered under its key. *)
Lemma register_row {K V} `{Msgpack V} (t : table K V) (v : V) n (b : Broker) :
  row t = true -> indexable t v = true ->
  (exists buf, mp_encode v = Some buf /\ decodeRow t buf = Some v) -> commits (S n) (raft b) ->
  exists d r idx, raftApply (registerType t) v b = Ret (inr None) (set_db d (set_raft r b)) /\ commits n r /\
    updated ToLower t (idOf t v) (Some (stamp t idx (First t (idOf t v) (db b)) (prepared t v))) idx (db b) d.
Proof.
  intros Hr Hi (buf & Eb & Ed) Hc. destruct (Hc (byte_of_Z (registerType t) :: buf)) as (i & r & Ea & Hc').
  destruct (ensure_updates t i (prepared t v) (db b) Hr) as (d & E & Hu);
    [rewrite indexable_prepared; exact Hi|].
  rewrite idOf_prepared in Hu. exists d, r, i. split; [|split; [exact Hc'|exact Hu]].
  eapply raftApply_Ret; [unfold Encode; rewrite Eb; reflexivity|exact Ea|].
  rewrite (Apply_register t buf v i (db b) Hr Ed). exact E.
Qed.

(** What the registration of some partitions of a topic does to the store. *)
Definition partitionKey (p : Partition.t) : string * Z := (Partition.Topic p, Partition.Partition p).
Definition registered (ps : list Partition.t) (d d' : DB) : Prop :=
  (forall p, p ∈ ps -> exists ri, First Partitions (partitionKey p) d' = Some (Partition.set_raft ri p)) /\
  (forall k, k ∉ partitionKey <$> ps -> First Partitions k d' = First Partitions k d) /\
  (forall K V (t : table K V) k, row t = true -> tableName t <> "partitions" -> First t k d' = First t k d).

Lemma registered_cons p ps d d1 d2 idx o : partitionKey p ∉ partitionKey <$> ps ->
  updated ToLower Partitions (partitionKey p) (Some (stamp Partitions idx o p)) idx d d1 -> registered ps d1 d2 ->
  registered (p :: ps) d d2.
Proof.
  intros Hp (Hu1 & Hu2 & _) (Hr1 & Hr2 & Hr3). split; [|split].
  - intros q Hq. apply elem_of_cons in Hq as [->|Hq]; [|exact (Hr1 q Hq)].
    rewrite (Hr2 _ Hp), Hu1, decide_True by reflexivity. eexists. reflexivity.
  - intros k Hk. rewrite fmap_cons, not_elem_of_cons in Hk. destruct Hk as [Hk1 Hk2].
    rewrite (Hr2 k Hk2), Hu1, decide_False by exact Hk1. reflexivity.
  - intros K V t k Ht Hn. rewrite (Hr3 _ _ t k Ht Hn). apply Hu2; [exact Ht|]. intros C. apply Hn. rewrite <- C. reflexivity.
Qed.

Lemma createPartitions_spec ps : forall n (b : Broker),
  base.NoDup (partitionKey <$> ps) -> (forall p, p ∈ ps -> Partition.Topic p <> "" /\ packs p) ->
  commits (length ps + n) (raft b) ->
  exists d r, createPartitions ps b = Ret true (set_db d (set_raft r b)) /\ commits n r /\ registered ps (db b) d.
Proof.
  induction ps as [|p ps IH]; intros n b Hnd Hok Hc.
  - exists (db b), (raft b). split; [destruct b; reflexivity|]. split; [exact Hc|].
    split; [intros p Hp; inversion Hp|]. split; reflexivity.
  - rewrite fmap_cons, list.NoDup_cons in Hnd. destruct Hnd as [Hp Hnd]. destruct (Hok p ltac:(left)) as [Hname (buf & Eb & Ed)].
    destruct (register_row Partitions p (length ps + n) b eq_refl) as (d & r & i & Ea & Hc' & Hu);
      [cbn; rewrite bool_decide_false by exact Hname; reflexivity|exists buf; auto|exact Hc|].
    destruct (IH n (set_db d (set_raft r b)) Hnd) as (d2 & r2 & E2 & Hc2 & Hr2);
      [intros q Hq; apply Hok; right; exact Hq|exact Hc'|].
    exists d2, r2. split; [|split; [exact Hc2|eapply registered_cons; eassumption]].
    cbn [createPartitions]. unfold createPartition. rewrite bind_assoc.
    erewrite bind_Ret by exact Ea. erewrite bind_Ret by reflexivity. exact E2.
Qed.

(** *** Replicas that are started *)

(** [b'] is [b] with other replicas, after some network calls. *)
Definition same_but_replicas (b b' : Broker) : Prop :=
  exists dk rs rl cs, b' = set_calls cs (set_disk dk (set_replicas rs (set_replicaLookup rl b))).

Lemma same_trans (b b1 b2 : Broker) : same_but_replicas b b1 -> same_but_replicas b1 b2 -> same_but_replicas b b2.
Proof. intros (dk & rs & rl & cs & ->) (dk2 & rs2 & rl2 & cs2 & ->). exists dk2, rs2, rl2, cs2. reflexivity. Qed.

(** [b'] is [b] with a new replica for the partition of [st], and no other
    directory touched. *)
Definition extends (st : PartitionState.t) (b b' : Broker) : Prop :=
  same_but_replicas b b' /\
  (forall ptr r, replicas b !! ptr = Some r -> replicas b' !! ptr = Some r) /\
  (forall q, q <> PartitionState.Partition st -> disk b' !! q = disk b !! q) /\
  replicaLookup b' = AddReplica (PartitionState.Topic st) (PartitionState.Partition st) (length (replicas b))
                       (replicaLookup b).

(** Only a broker that is to lead or to follow opens the log. *)
Definition involved (id : Z) (st : PartitionState.t) : bool :=
  (PartitionState.Leader st =? id) || contains (PartitionState.Replicas st) id.

(** What a broker needs to obey: the topic is known, with the default policy, and
    nothing has used the directory. *)
Definition startable (b : Broker) (st : PartitionState.t) : Prop :=
  (exists topic, snd (GetTopic (PartitionState.Topic st) (db b)) = Some topic /\ cleanupPolicy topic = Some "delete") /\
  (involved (configID b) st = true -> disk b !! PartitionState.Partition st = None).

(** A broker that serves a partition, as its leader. *)
Definition hosts (b : Broker) (topic : string) (p : Z) : Prop :=
  exists ptr rep l, serves b topic p ptr rep l 0 [] /\ Partition.Leader (RPartition rep) = configID b /\ dirName rep = p.

Lemma added_replica {A} (b : list A) r : (b ++ [r]) !! length b = Some r.
Proof. rewrite lookup_app_r, Nat.sub_diag by lia. reflexivity. Qed.
Lemma added_set {A} (b : list A) r x : <[length b := x]> (b ++ [r]) = b ++ [x].
Proof. rewrite insert_app_r_alt, Nat.sub_diag by lia. reflexivity. Qed.

(** The broker with the new replica [r]. *)
Definition added (st : PartitionState.t) (r : Replica L) (b : Broker) : Broker :=
  set_replicas (replicas b ++ [r])
    (set_replicaLookup (AddReplica (PartitionState.Topic st) (PartitionState.Partition st) (length (replicas b))
                          (replicaLookup b)) b).
Definition opened (st : PartitionState.t) (r : Replica L) (l : L) (b : Broker) : Broker :=
  set_disk (<[PartitionState.Partition st := dir_of l]> (disk b)) (added st r b).

Lemma opened_extends st r l cs (b : Broker) : extends st b (set_calls cs (opened st r l b)).
Proof.
  split_and!.
  - eexists _, _, _, _. reflexivity.
  - intros ptr r' E. cbn. rewrite lookup_app_l by (eapply lookup_lt_Some, E). exact E.
  - intros q Hq. cbn. rewrite lookup_insert_ne by congruence. reflexivity.
  - reflexivity.
Qed.

Lemma added_extends st r (b : Broker) : extends st b (added st r b).
Proof.
  split_and!.
  - exists (disk b), (replicas b ++ [r]), (replicaLookup (added st r b)), (calls b). destruct b; reflexivity.
  - intros ptr r' E. cbn. rewrite lookup_app_l by (eapply lookup_lt_Some, E). exact E.
  - reflexivity.
  - reflexivity.
Qed.

Lemma startReplica_opens (b : Broker) st r topic l : log_new 1024 (-1) "delete" dir_empty = Ret tt l ->
  r = newReplica (configID b) st -> snd (GetTopic (PartitionState.Topic st) (db b)) = Some topic ->
  cleanupPolicy topic = Some "delete" -> disk b !! PartitionState.Partition st = None ->
  startReplica (length (replicas b)) (added st r b) = Ret ErrNone (opened st (setLog l r) l b).
Proof.
  intros El -> Ht Hpol Hd. unfold startReplica.
  erewrite bind_replica by apply added_replica.
  erewrite bind_Ret by reflexivity. cbn [newReplica RPartition Partition.Topic Log].
  change (db (added st _ b)) with (db b). rewrite Ht, Hpol. unfold openLog, dir, dirName.
  change (disk (added st _ b)) with (disk b). cbn [newReplica RPartition Partition.ID]. rewrite Hd.
  cbn [default]. rewrite El. unfold putLog, opened, setReplica, added, set_disk, set_replicas. cbn.
  rewrite added_set. reflexivity.
Qed.

Lemma closeReplicator_none ptr r (b : Broker) : replicas b !! ptr = Some r -> RReplicator r = None ->
  closeReplicator ptr b = Ret tt b.
Proof. intros E Hr. unfold closeReplicator. erewrite bind_replica by exact E. rewrite Hr. reflexivity. Qed.

Lemma becomeLeader_spec (b : Broker) st r l : RReplicator r = None ->
  becomeLeader (length (replicas b)) st (opened st r l b) = Ret ErrNone (opened st (leading st r) l b).
Proof.
  intros Hr. unfold becomeLeader.
  erewrite bind_Ret by (eapply closeReplicator_none; [apply added_replica|exact Hr]).
  erewrite bind_replica by apply added_replica.
  erewrite bind_Ret by reflexivity. unfold mret, M_ret. f_equal.
  unfold setReplica, opened, added, set_disk, set_replicas. cbn. rewrite added_set. reflexivity.
Qed.

(** A method of the log of the new replica that leaves the log as it is. *)
Lemma call_log_opened {A} (b : Broker) st r l (m : M L A) a : Log r = Some l ->
  dirName r = PartitionState.Partition st -> m l = Ret a l ->
  call_log (length (replicas b)) m (opened st r l b) = Ret (inr a) (opened st r l b).
Proof.
  intros Hl Hd Em. assert (Hr : replicas (opened st r l b) !! length (replicas b) = Some r)
    by (cbn; apply added_replica).
  assert (Hdk : disk (opened st r l b) !! dirName r = Some (dir_of l)) by (cbn; rewrite Hd; apply lookup_insert_eq).
  unfold call_log. erewrite bind_replica by exact Hr.
  erewrite bind_Ret by reflexivity. rewrite (logOf_serves _ r l Hl Hdk).
  erewrite on_log_Ret by eassumption. f_equal. apply putLog_same; assumption.
Qed.

Lemma becomeFollower_spec (b : Broker) st r l : RReplicator r = None -> Log r = Some l -> dirName r = PartitionState.Partition st ->
  log_holds l 0 [] ->
  exists code b', becomeFollower (length (replicas b)) st (opened st r l b) = Ret code b' /\ extends st b b'.
Proof.
  intros Hr Hl Hd Hh. unfold becomeFollower.
  erewrite bind_Ret by (eapply closeReplicator_none; [apply added_replica|exact Hr]).
  rewrite (bind_Ret _ _ _ _ _ (call_log_opened b st r l _ _ Hl Hd (law_newest l 0 [] Hh))).
  change (0 + len (@nil (list byte))) with 0. cbv beta iota.
  rewrite (bind_Ret _ _ _ _ _ (call_log_opened b st r l _ _ Hl Hd (law_truncate l 0 Hh))).
  erewrite bind_Ret by reflexivity. change (knownBrokers (opened st r l b)) with (knownBrokers b).
  assert (He : extends st b (opened st r l b))
    by (pose proof (opened_extends st r l (calls b) b) as He; destruct b; exact He).
  destruct (BrokerByID _ _) as [br|]; [|eexists _, _; split; [reflexivity|exact He]].
  unfold call at 1. unfold mbind at 1, M_bind at 1. change (calls (opened st r l b)) with (calls b).
  destruct (calls b) as [|ok cs]; [eexists _, _; split; [reflexivity|exact He]|].
  destruct ok; cbn [negb]; [|eexists _, _; split; [reflexivity|apply opened_extends]].
  rewrite (bind_replica _ r) by apply added_replica. eexists _, _. split; [reflexivity|].
  unfold setReplica, set_replicas. cbn. rewrite added_set. apply (opened_extends st _ l cs b).
Qed.

(** Whatever its part is, a broker obeys without a panic; when it is to lead, it
    serves the partition from then on. *)
Lemma applyState_spec (b : Broker) st : startable b st ->
  exists code b', applyState st b = Ret code b' /\ extends st b b' /\
    (PartitionState.Leader st = configID b ->
       code = ErrNone /\ hosts b' (PartitionState.Topic st) (PartitionState.Partition st)).
Proof.
  intros ((topic & Ht & Hpol) & Hd). unfold involved in Hd.
  destruct (law_new 1024 (-1) ltac:(lia)) as (l & El & Hl).
  set (r := newReplica (configID b) st : Replica L).
  unfold applyState. erewrite bind_Ret by reflexivity.
  assert (Ea : addReplica r b = Ret (length (replicas b)) (added st r b)) by reflexivity.
  erewrite bind_Ret by exact Ea. cbn [newReplica RPartition Partition.Leader].
  destruct (Z.eqb_spec (PartitionState.Leader st) (configID b)) as [Hlead|Hlead]; cbn [andb orb negb] in *.
  - erewrite bind_Ret by (eapply startReplica_opens; eauto). cbn [negb ErrNone Z.eqb].
    eexists _, _. split; [apply becomeLeader_spec; reflexivity|].
    split; [pose proof (opened_extends st (leading st (setLog l r)) l (calls b) b) as He; destruct b; exact He|].
    intros _. split; [reflexivity|]. exists (length (replicas b)), (leading st (setLog l r)), l.
    split; [|split; [exact Hlead|reflexivity]]. split_and!; [eexists; exact Ht| | |reflexivity| |exact Hl]; cbn.
    + rewrite Replica_AddReplica, decide_True by auto. reflexivity.
    + apply added_replica.
    + apply lookup_insert_eq.
  - destruct (contains (PartitionState.Replicas st) (configID b)); cbn [andb].
    + erewrite bind_Ret by (eapply startReplica_opens; eauto). cbn [negb ErrNone Z.eqb].
      destruct (becomeFollower_spec b st (setLog l r) l eq_refl eq_refl eq_refl Hl) as (code & b' & E & He).
      exists code, b'. split; [exact E|]. split; [exact He|contradiction].
    + eexists _, _. split; [reflexivity|]. split; [apply added_extends|contradiction].
Qed.

Lemma extends_serves st (b b' : Broker) topic p ptr rep l b0 msgs : extends st b b' ->
  serves b topic p ptr rep l b0 msgs -> dirName rep = p -> p <> PartitionState.Partition st ->
  serves b' topic p ptr rep l b0 msgs.
Proof.
  intros ((dk & rs & rl & cs & ->) & Hr & Hd & Hlk) (Ht & Hl & Hp & Hlog & Hdir & Hh) Hn Hne.
  split_and!; [exact Ht| |exact (Hr _ _ Hp)|exact Hlog| |exact Hh].
  - rewrite Hlk, Replica_AddReplica, decide_False by naive_solver. exact Hl.
  - rewrite Hd by congruence. exact Hdir.
Qed.

Lemma extends_startable st (b b' : Broker) st' : extends st b b' -> startable b st' ->
  PartitionState.Partition st' <> PartitionState.Partition st -> startable b' st'.
Proof.
  intros ((dk & rs & rl & cs & ->) & _ & Hd & _) (Ht & Hdir) Hne. split; [exact Ht|].
  intros Hi. rewrite Hd by exact Hne. exact (Hdir Hi).
Qed.

(** The answer to one partition of a request. *)
Definition answers (id : Z) (st : PartitionState.t) (c : LeaderAndISRPartition.t) : Prop :=
  exists code, c = LeaderAndISRPartition.mk (PartitionState.Topic st) (PartitionState.Partition st) code /\
    (PartitionState.Leader st = id -> code = ErrNone).

(** A broker obeys a whole request: it serves the partitions that it is to lead,
    and still those that it served before from other directories. *)
Lemma isr_loop sts : forall i (b : Broker), Forall (startable b) sts ->
  base.NoDup (PartitionState.Partition <$> sts) ->
  exists cs b', collect (fun _ p =>
      code ← applyState p;
      mret (LeaderAndISRPartition.mk (PartitionState.Topic p) (PartitionState.Partition p) code)) i sts b
    = Ret cs b' /\ Forall2 (answers (configID b)) sts cs /\ same_but_replicas b b' /\
    (forall st, st ∈ sts -> PartitionState.Leader st = configID b ->
       hosts b' (PartitionState.Topic st) (PartitionState.Partition st)) /\
    (forall topic p ptr rep l b0 msgs, serves b topic p ptr rep l b0 msgs -> dirName rep = p ->
       p ∉ PartitionState.Partition <$> sts -> serves b' topic p ptr rep l b0 msgs).
Proof.
  induction sts as [|st sts IH]; intros i b Hall Hnd.
  - exists [], b. split; [reflexivity|]. split; [constructor|].
    split; [exists (disk b), (replicas b), (replicaLookup b), (calls b); destruct b; reflexivity|].
    split; [intros st Hst; inversion Hst|auto].
  - apply list.Forall_cons in Hall as [Hst Hall]. rewrite fmap_cons, list.NoDup_cons in Hnd. destruct Hnd as [Hni Hnd].
    destruct (applyState_spec b st Hst) as (code & b1 & E & He & Hlead). destruct (He) as (Hs1 & _).
    assert (Hid : configID b1 = configID b) by (destruct Hs1 as (? & ? & ? & ? & ->); reflexivity).
    assert (Hne : forall st', st' ∈ sts -> PartitionState.Partition st' <> PartitionState.Partition st)
      by (intros st' Hin C; apply Hni; rewrite <- C; apply list_elem_of_fmap_2, Hin).
    destruct (IH (S i) b1) as (cs & b' & E' & Hans & Hsame & Hh & Hf); [|exact Hnd|].
    { apply list.Forall_forall. intros st' Hin. eapply extends_startable; [exact He| |exact (Hne st' Hin)].
      exact (Forall_elem _ _ _ Hall Hin). }
    rewrite Hid in Hans, Hh.
    eexists _, b'. split; [|split; [|split; [|split]]].
    + cbn [collect]. rewrite bind_assoc. erewrite bind_Ret by exact E.
      erewrite bind_Ret by reflexivity. erewrite bind_Ret by exact E'. reflexivity.
    + constructor; [|exact Hans]. exists code. split; [reflexivity|]. intros Hl. apply (Hlead Hl).
    + eapply same_trans; eassumption.
    + intros st' Hin Hl. apply elem_of_cons in Hin as [->|Hin]; [|exact (Hh st' Hin Hl)].
      destruct (proj2 (Hlead Hl)) as (ptr & rep & l' & Hs & Hrl & Hd).
      exists ptr, rep, l'. split; [apply Hf; assumption|]. split; [|exact Hd].
      rewrite Hrl. destruct Hsame as (? & ? & ? & ? & ->). reflexivity.
    + intros topic p ptr rep l0 b0 msgs Hs Hd Hp. rewrite fmap_cons, not_elem_of_cons in Hp. destruct Hp as [Hp1 Hp2].
      apply Hf; [|exact Hd|exact Hp2]. eapply extends_serves; eassumption.
Qed.

Lemma handleLeaderAndISR_spec (b : Broker) req : Forall (startable b) (LeaderAndISRRequest.PartitionStates req) ->
  base.NoDup (PartitionState.Partition <$> LeaderAndISRRequest.PartitionStates req) ->
  exists cs b', handleLeaderAndISR req b = Ret (LeaderAndISRResponse.mk (LeaderAndISRRequest.APIVersion req) 0 cs) b' /\
    Forall2 (answers (configID b)) (LeaderAndISRRequest.PartitionStates req) cs /\ same_but_replicas b b' /\
    (forall st, st ∈ LeaderAndISRRequest.PartitionStates req -> PartitionState.Leader st = configID b ->
       hosts b' (PartitionState.Topic st) (PartitionState.Partition st)) /\
    (forall topic p ptr rep l b0 msgs, serves b topic p ptr rep l b0 msgs -> dirName rep = p ->
       p ∉ PartitionState.Partition <$> LeaderAndISRRequest.PartitionStates req ->
       serves b' topic p ptr rep l b0 msgs).
Proof.
  intros Hall Hnd. destruct (isr_loop _ 0 b Hall Hnd) as (cs & b' & E & Hrest).
  exists cs, b'. split; [|exact Hrest]. unfold handleLeaderAndISR. erewrite bind_Ret by exact E. reflexivity.
Qed.

(** *** Telling the cluster *)

(** [b'] is [b] with other replicas, after some network calls and requests. *)
Definition same_but_net (b b' : Broker) : Prop :=
  exists se b1, same_but_replicas b b1 /\ b' = set_sent se b1.

(** The requests that go to the other brokers. *)
Definition told (id : Z) (req : LeaderAndISRRequest.t) (brokers : list BrokerMeta.t)
  : list (string * LeaderAndISRRequest.t) :=
  (fun br => (BrokerMeta.BrokerAddr br, req)) <$> filter (fun br => BrokerMeta.ID br <> id) brokers.

(** All brokers other than this one are told. *)
Lemma announce_others req brokers : forall b : Broker,
  (forall br, br ∈ brokers -> BrokerMeta.ID br <> configID b) ->
  exists r b', announce req brokers b = Ret r b' /\
    (exists cs se, b' = set_sent se (set_calls cs b)) /\
    (r = None -> brokers <> []) /\ (r <> None -> sent b' = sent b ++ told (configID b) req brokers).
Proof.
  induction brokers as [|br brokers IH]; intros b Hne.
  - eexists _, b. split; [reflexivity|]. split; [exists (calls b), (sent b); destruct b; reflexivity|].
    split; [discriminate|]. intros _. cbn. rewrite app_nil_r. reflexivity.
  - cbn [announce]. erewrite bind_Ret by reflexivity.
    rewrite (proj2 (Z.eqb_neq _ _)) by (apply Hne; left).
    destruct (sendLeaderAndISR_cases (BrokerMeta.BrokerAddr br) req b) as (ok & cs & se & E & Hok).
    erewrite bind_Ret by exact E. destruct ok; cbn [negb].
    2:{ eexists _, _. split; [reflexivity|]. split; [eauto|]. split; [discriminate|contradiction]. }
    destruct (IH (set_sent se (set_calls cs b))) as (r & b' & E' & (cs' & se' & Hb) & _ & Hsent);
      [intros x Hx; apply Hne; right; exact Hx|].
    exists r, b'. split; [exact E'|]. split; [exists cs', se'; rewrite Hb; reflexivity|]. split; [discriminate|].
    intros Hr. rewrite (Hsent Hr). cbn [set_sent sent]. rewrite (Hok eq_refl). unfold told. cbn [filter list_filter].
    rewrite decide_True by (apply Hne; left). cbn. rewrite <- app_assoc. reflexivity.
Qed.

Lemma announce_app req xs ys (b : Broker) :
  announce req (xs ++ ys) b =
  (r ← announce req xs; match r with None => mret None | Some _ => announce req ys end) b.
Proof.
  revert b. induction xs as [|x xs IH]; intros b; [reflexivity|]. cbn [app announce].
  unfold mbind, M_bind. cbn [gets]. unfold gets. destruct (BrokerMeta.ID x =? configID b).
  - destruct (handleLeaderAndISR req b) as [res b1|e b1|]; [|reflexivity|reflexivity].
    destruct (negb _); [reflexivity|]. rewrite IH. reflexivity.
  - destruct (sendLeaderAndISR _ req b) as [ok b1|e b1|]; [|reflexivity|reflexivity].
    destruct (negb ok); [reflexivity|]. rewrite IH. reflexivity.
Qed.

(** The whole cluster is told, this broker among them; a call that fails ends it. *)
Lemma announce_spec (b : Broker) req pre me post : Forall (startable b) (LeaderAndISRRequest.PartitionStates req) ->
  base.NoDup (PartitionState.Partition <$> LeaderAndISRRequest.PartitionStates req) ->
  BrokerMeta.ID me = configID b -> (forall br, br ∈ pre ++ post -> BrokerMeta.ID br <> configID b) ->
  exists r b', announce req (pre ++ me :: post) b = Ret r b' /\ same_but_net b b' /\
    (r = None -> pre ++ post <> []) /\
    (r <> None -> sent b' = sent b ++ told (configID b) req (pre ++ me :: post) /\
       forall st, st ∈ LeaderAndISRRequest.PartitionStates req -> PartitionState.Leader st = configID b ->
         hosts b' (PartitionState.Topic st) (PartitionState.Partition st)).
Proof.
  intros Hst Hnd Hme Hne. rewrite announce_app.
  destruct (announce_others req pre b) as (r1 & b1 & E1 & (cs1 & se1 & Hb1) & Hn1 & Hs1);
    [intros br Hbr; apply Hne, elem_of_app; left; exact Hbr|].
  assert (Hsame1 : same_but_net b b1).
  { exists se1, (set_calls cs1 b). split; [|exact Hb1].
    exists (disk b), (replicas b), (replicaLookup b), cs1. destruct b; reflexivity. }
  erewrite bind_Ret by exact E1. destruct r1 as [u|].
  2:{ exists None, b1. split; [reflexivity|]. split; [exact Hsame1|]. split; [|contradiction].
      intros _. specialize (Hn1 eq_refl). destruct pre; [contradiction|discriminate]. }
  destruct (handleLeaderAndISR_spec b1 req) as (cs & b2 & E2 & _ & Hsame2 & Hh & _);
    [subst b1; exact Hst|exact Hnd|].
  assert (Hid1 : configID b1 = configID b) by (subst b1; reflexivity).
  assert (Hid2 : configID b2 = configID b) by (rewrite <- Hid1; destruct Hsame2 as (? & ? & ? & ? & ->); reflexivity).
  cbn [announce]. erewrite bind_Ret by reflexivity. rewrite Hid1, Hme, Z.eqb_refl.
  erewrite bind_Ret by exact E2. cbn [LeaderAndISRResponse.ErrorCode ErrNone Z.eqb negb].
  destruct (announce_others req post b2) as (r3 & b3 & E3 & (cs3 & se3 & Hb3) & Hn3 & Hs3).
  { intros br Hbr. rewrite Hid2. apply Hne, elem_of_app. right. exact Hbr. }
  exists r3, b3. split; [exact E3|]. split; [|split].
  - destruct Hsame2 as (dk & rs & rl & cs2 & Hb2). exists se3, (set_calls cs3 (set_disk dk (set_replicas rs (set_replicaLookup rl b)))).
    split; [eexists _, _, _, _; reflexivity|]. rewrite Hb3, Hb2, Hb1. reflexivity.
  - intros ->. specialize (Hn3 eq_refl). intros C. apply app_eq_nil in C as [_ C]. exact (Hn3 C).
  - intros Hr. split.
    + rewrite (Hs3 Hr). assert (sent b2 = sent b1) as -> by (destruct Hsame2 as (? & ? & ? & ? & ->); reflexivity).
      rewrite (Hs1 ltac:(discriminate)), Hid2, <- app_assoc. f_equal. unfold told. rewrite list.filter_app, fmap_app.
      cbn [filter list_filter]. rewrite (decide_False (P := BrokerMeta.ID me <> configID b)) by (intros C; exact (C Hme)).
      reflexivity.
    + intros st Hin Hl. rewrite <- Hid1 in Hl.
      destruct (Hh st Hin Hl) as (ptr & rep & l & Hserve & Hrl & Hd).
      exists ptr, rep, l. subst b3. split; [exact Hserve|]. split; [exact Hrl|exact Hd].
Qed.

(** *** Creating a topic *)

(** [numbered name ps]: the partitions of [name], numbered from 0. *)
Definition numbered (name : string) (ps : list Partition.t) : Prop :=
  forall i p, ps !! i = Some p ->
    Partition.ID p = Z.of_nat i /\ Partition.Partition p = Z.of_nat i /\ Partition.Topic p = name.

Lemma numbered_NoDup {A} name ps (f : Partition.t -> A) : numbered name ps ->
  (forall p q, p ∈ ps -> q ∈ ps -> f p = f q -> Partition.ID p = Partition.ID q) -> base.NoDup (f <$> ps).
Proof.
  intros Hn Hf. apply NoDup_alt. intros i j x Hi Hj.
  rewrite list_lookup_fmap, fmap_Some in Hi, Hj. destruct Hi as (p & Hp & ->), Hj as (q & Hq & E).
  pose proof (Hf p q (list_elem_of_lookup_2 _ _ _ Hp) (list_elem_of_lookup_2 _ _ _ Hq) E) as Hid.
  destruct (Hn i p Hp) as (E1 & _), (Hn j q Hq) as (E2 & _). lia.
Qed.

Lemma insert_ids_lookup ps : forall (m : gmap Z (list Z)), base.NoDup (Partition.ID <$> ps) ->
  (forall p, p ∈ ps -> foldl (fun m p => <[Partition.ID p := Partition.AR p]> m) m ps !! Partition.ID p = Some (Partition.AR p)) /\
  (forall k, k ∉ Partition.ID <$> ps -> foldl (fun m p => <[Partition.ID p := Partition.AR p]> m) m ps !! k = m !! k).
Proof.
  induction ps as [|q ps IH]; intros m Hnd; [split; [intros p Hp; inversion Hp|reflexivity]|].
  rewrite fmap_cons, list.NoDup_cons in Hnd. destruct Hnd as [Hq Hnd].
  destruct (IH (<[Partition.ID q := Partition.AR q]> m) Hnd) as [H1' H2']. cbn [foldl]. split.
  - intros p Hp. apply elem_of_cons in Hp as [->|Hp]; [|exact (H1' p Hp)].
    rewrite H2' by exact Hq. apply lookup_insert_eq.
  - intros k Hk. rewrite fmap_cons, not_elem_of_cons in Hk. destruct Hk as [Hk1 Hk2].
    rewrite H2' by exact Hk2. apply lookup_insert_ne. congruence.
Qed.

Lemma default_policy t : Topic.Config t = None -> cleanupPolicy (Topic.with_config t) = Some "delete".
Proof. intros E. unfold cleanupPolicy, Topic.with_config. cbn [Topic.Config]. rewrite E. vm_compute. reflexivity. Qed.

Lemma topicOf_partitions name internal ps : numbered name ps ->
  map_to_list (Topic.Partitions (topicOf name internal ps)) ≡ₚ (fun p => (Partition.ID p, Partition.AR p)) <$> ps.
Proof.
  intros Hn. assert (Hnd : base.NoDup (Partition.ID <$> ps)) by (apply (numbered_NoDup name); [exact Hn|auto]).
  assert (Hnd' : base.NoDup ((fun p => (Partition.ID p, Partition.AR p)) <$> ps).*1)
    by (rewrite <- list_fmap_compose; exact Hnd).
  rewrite <- (map_to_list_to_map (M := gmap Z) _ Hnd'). f_equiv. unfold topicOf. cbn [Topic.Partitions].
  destruct (insert_ids_lookup ps ∅ Hnd) as [Hin Hout]. apply map_eq. intros k.
  destruct (decide (k ∈ Partition.ID <$> ps)) as [Hk|Hk].
  - apply list_elem_of_fmap in Hk as (p & -> & Hp). rewrite (Hin p Hp). symmetry.
    apply elem_of_list_to_map; [exact Hnd'|]. apply list_elem_of_fmap. eauto.
  - rewrite (Hout k Hk), lookup_empty. symmetry. apply not_elem_of_list_to_map.
    rewrite <- list_fmap_compose. exact Hk.
Qed.

(** In the store [d] the topic [name] is [topic], with the partitions [ps]. *)
Definition knownAs (name : string) (ps : list Partition.t) (topic : Topic.t) (d : DB) : Prop :=
  snd (GetTopic name d) = Some topic /\ Topic.Topic topic = name /\
  map_to_list (Topic.Partitions topic) ≡ₚ (fun p => (Partition.ID p, Partition.AR p)) <$> ps /\
  (forall i p, ps !! i = Some p -> exists ri, snd (GetPartition name (Z.of_nat i) d) = Some (Partition.set_raft ri p)).

(** Registering the topic and its partitions. *)
Lemma register_topic (b : Broker) name internal ps n : name <> "" -> numbered name ps ->
  packs (topicOf name internal ps) -> (forall p, p ∈ ps -> packs p) ->
  commits (S (length ps) + n) (raft b) ->
  exists d1 d r1 r topic,
    raftApply RegisterTopicRequestType (topicOf name internal ps) b = Ret (inr None) (set_db d1 (set_raft r1 b)) /\
    createPartitions ps (set_db d1 (set_raft r1 b)) = Ret true (set_db d (set_raft r b)) /\
    knownAs name ps topic d /\ cleanupPolicy topic = Some "delete" /\
    (forall k, First Nodes k d = First Nodes k (db b)).
Proof.
  intros Hname Hn Hpt Hpp Hc.
  destruct (register_row Topics (topicOf name internal ps) (length ps + n) b eq_refl) as (d1 & r1 & i1 & E1 & Hc1 & Hu & Hother & _);
    [cbn; rewrite bool_decide_false by exact Hname; reflexivity|exact Hpt|exact Hc|].
  destruct (createPartitions_spec ps n (set_db d1 (set_raft r1 b))) as (d & r & E2 & _ & Hr1 & _ & Hr3).
  { apply (numbered_NoDup name); [exact Hn|]. intros p q Hp Hq C.
    apply list_elem_of_lookup in Hp as [i Hi]. apply list_elem_of_lookup in Hq as [j Hj].
    destruct (Hn i p Hi) as (-> & E & _), (Hn j q Hj) as (-> & F & _). unfold partitionKey in C. congruence. }
  { intros p Hp. apply list_elem_of_lookup in Hp as [i Hi]. destruct (Hn i p Hi) as (_ & _ & ->).
    split; [exact Hname|]. apply Hpp. eapply list_elem_of_lookup_2, Hi. }
  { exact Hc1. }
  eexists d1, d, r1, r, _. split; [exact E1|]. split; [exact E2|].
  unfold knownAs, GetTopic, GetPartition. cbn [snd]. split_and!.
  - rewrite (Hr3 _ _ Topics) by (reflexivity || discriminate). cbn [set_db db].
    rewrite Hu. cbn. rewrite decide_True by reflexivity. reflexivity.
  - reflexivity.
  - apply (topicOf_partitions name internal ps Hn).
  - intros i p Hi. destruct (Hr1 p) as [ri E]; [eapply list_elem_of_lookup_2, Hi|].
    destruct (Hn i p Hi) as (_ & Hid & Ht). unfold partitionKey in E. rewrite Hid, Ht in E. eauto.
  - apply default_policy. reflexivity.
  - intros k. rewrite (Hr3 _ _ Nodes) by (reflexivity || discriminate). cbn [set_db db].
    apply Hother; [reflexivity|discriminate].
Qed.

(** The topic [name] is known with the partitions [ps]. *)
Definition created (b' : Broker) (name : string) (ps : list Partition.t) : Prop :=
  exists topic, knownAs name ps topic (db b').

(** The members, the brokers and the registered nodes are the same. *)
Definition same_cluster (b b' : Broker) : Prop :=
  members b' = members b /\ knownBrokers b' = knownBrokers b /\ config b' = config b /\
  (forall k, First Nodes k (db b') = First Nodes k (db b)).

Lemma Brokers_orders o1 o2 kb : valid_order o1 -> valid_order o2 -> Brokers o1 kb ≡ₚ Brokers o2 kb.
Proof. intros H1' H2'. unfold Brokers, range. rewrite (H1' _ _ _ _ (addressToBroker kb)), (H2' _ _ _ _ (addressToBroker kb)). reflexivity. Qed.

Lemma well_assigned_numbered brokers name factor ps :
  (forall i p, ps !! i = Some p -> well_assigned brokers name factor i p) -> numbered name ps.
Proof. intros Hw i p Hi. destruct (Hw i p Hi) as (E1 & E2 & E3 & _). auto. Qed.

(** The brokers are this one and others. *)
Lemma split_me (id : Z) (brokers : list BrokerMeta.t) : base.NoDup (BrokerMeta.ID <$> brokers) ->
  id ∈ BrokerMeta.ID <$> brokers ->
  exists pre me post, brokers = pre ++ me :: post /\ BrokerMeta.ID me = id /\
    forall br, br ∈ pre ++ post -> BrokerMeta.ID br <> id.
Proof.
  intros Hnd Hin. apply list_elem_of_fmap in Hin as (me & -> & Hin).
  apply list_elem_of_split in Hin as (pre & post & ->). exists pre, me, post. split; [reflexivity|]. split; [reflexivity|].
  rewrite fmap_app, fmap_cons, list.NoDup_app, list.NoDup_cons in Hnd. destruct Hnd as (_ & Hpre & Hpost & _).
  intros br Hbr C. apply elem_of_app in Hbr as [Hbr|Hbr].
  - apply (Hpre (BrokerMeta.ID br)); [apply list_elem_of_fmap_2, Hbr|]. rewrite C. left.
  - apply Hpost. rewrite <- C. apply list_elem_of_fmap_2, Hbr.
Qed.

(** What the creation of a topic needs: brokers with different numbers, this one
    and enough others for the factor among them; a new topic with a name; a
    serialization that keeps topics and partitions; a raft that commits the
    entries; unused directories. *)
Record creatable (o1 o2 : map_order) (req : CreateTopicRequest.t) (b : Broker) : Prop := {
  cr_orders : valid_order o1 /\ valid_order o2;
  cr_brokers : base.NoDup (BrokerMeta.ID <$> Brokers o1 (knownBrokers b)) /\
    configID b ∈ BrokerMeta.ID <$> Brokers o1 (knownBrokers b);
  cr_factor : 1 <= CreateTopicRequest.ReplicationFactor req <= len (Brokers o1 (knownBrokers b)) /\
    CreateTopicRequest.ReplicationFactor req < 2 ^ 15;
  cr_name : CreateTopicRequest.Topic req <> "" /\ snd (GetTopic (CreateTopicRequest.Topic req) (db b)) = None;
  cr_packs : (forall t : Topic.t, Topic.Config t = None -> packs t) /\ (forall p : Partition.t, packs p);
  cr_raft : commits (S (Z.to_nat (CreateTopicRequest.NumPartitions req))) (raft b);
  cr_disk : forall i, (i < Z.to_nat (CreateTopicRequest.NumPartitions req))%nat -> disk b !! Z.of_nat i = None }.

(** What it does: the partitions [ps] of the topic are assigned and known; the
    code is an error only when the last network call that was made, to another
    broker, failed (none succeeds when [calls] has run out); otherwise all others
    were told. *)
Record topicMade (o1 : map_order) (req : CreateTopicRequest.t) (b : Broker) (code : Z) (b' : Broker)
    (ps : list Partition.t) : Prop := {
  tm_count : length ps = Z.to_nat (CreateTopicRequest.NumPartitions req);
  tm_assigned : forall i p, ps !! i = Some p ->
    well_assigned (Brokers o1 (knownBrokers b)) (CreateTopicRequest.Topic req)
      (CreateTopicRequest.ReplicationFactor req) i p;
  tm_known : created b' (CreateTopicRequest.Topic req) ps;
  tm_cluster : same_cluster b b';
  tm_code : code = ErrNone \/ code = ErrUnknown /\
    (exists br, br ∈ Brokers o1 (knownBrokers b) /\ BrokerMeta.ID br <> configID b) /\
    (false :: calls b' `suffix_of` calls b \/ calls b' = []);
  tm_sent : code = ErrNone -> sent b' ≡ₚ sent b ++ told (configID b)
    (LeaderAndISRRequest.mk 0 (configID b) 0 (stateOf <$> ps) []) (Brokers o1 (knownBrokers b));
  tm_hosts : code = ErrNone -> forall i p, ps !! i = Some p -> Partition.Leader p = configID b ->
    hosts b' (CreateTopicRequest.Topic req) (Z.of_nat i);
  tm_policy : exists topic, snd (GetTopic (CreateTopicRequest.Topic req) (db b')) = Some topic /\
    cleanupPolicy topic = Some "delete" }.

Lemma createTopic_spec (b : Broker) o1 o2 rnd req : creatable o1 o2 req b ->
  exists code b' ps, createTopic o1 o2 rnd req b = Ret code b' /\ topicMade o1 req b code b' ps.
Proof.
  intros [[Ho1 Ho2] [Hnd Hme] [Hf Hf15] [Hname Hnew] [Hpt Hpp] Hc Hdisk].
  set (name := CreateTopicRequest.Topic req) in *. set (brokers := Brokers o1 (knownBrokers b)) in *.
  set (count := Z.to_nat (CreateTopicRequest.NumPartitions req)) in *.
  set (factor := CreateTopicRequest.ReplicationFactor req) in *.
  destruct (assign_spec brokers name factor rnd count 0 0 Hnd) as (ps & Eps & Hlen & Hw); [lia|lia|unfold len in *; lia|].
  cbn [Nat.add] in Hw. pose proof (well_assigned_numbered _ _ _ _ Hw) as Hn.
  destruct (register_topic b name false ps 0 Hname Hn) as (d1 & d & r1 & r & topic & E1 & E2 & Ht & Hpol & Hnodes);
    [apply Hpt; reflexivity|auto|rewrite Hlen, Nat.add_0_r; exact Hc|].
  set (b2 := set_db d (set_raft r b)).
  pose proof (Brokers_orders o1 o2 (knownBrokers b) Ho1 Ho2) as Hperm.
  set (req' := LeaderAndISRRequest.mk 0 (configID b) 0 (stateOf <$> ps) []).
  destruct (split_me (configID b) (Brokers o2 (knownBrokers b))) as (pre & me & post & Ebs & Hmid & Hoth);
    [rewrite <- Hperm; exact Hnd|rewrite <- Hperm; exact Hme|].
  destruct (announce_spec b2 req' pre me post) as (a & b' & Ea & Hsame & Hfail & Hok); [| |exact Hmid|exact Hoth|].
  { apply list.Forall_forall. intros st Hst. cbn in Hst. apply list_elem_of_fmap in Hst as (p & -> & Hp).
    apply list_elem_of_lookup in Hp as [i Hi]. destruct (Hn i p Hi) as (Hid & _ & Htop).
    split; cbn; [rewrite Htop; exists topic; split; [apply Ht|exact Hpol]|]. intros _. rewrite Hid. apply Hdisk. rewrite <- Hlen. eapply lookup_lt_Some, Hi. }
  { cbn. rewrite <- list_fmap_compose. apply (numbered_NoDup name); [exact Hn|]. intros p q _ _ C. exact C. }
  assert (Hdb : db b' = d) by (destruct Hsame as (se & b1 & (dk & rs & rl & cs & ->) & ->); reflexivity).
  exists (match a with Some _ => ErrNone | None => ErrUnknown end), b', ps. split; [|constructor; [exact Hlen|exact Hw| | | |..]].
  - unfold createTopic. erewrite bind_Ret by reflexivity. fold name. rewrite Hnew. fold brokers factor.
    unfold buildPartitions. rewrite (proj2 (Z.ltb_ge _ _)) by lia. fold count. rewrite Eps. cbn [mbind option_bind].
    erewrite bind_Ret by exact E1. cbv beta iota. erewrite bind_Ret by exact E2. cbn [negb]. erewrite bind_Ret by reflexivity.
    change (knownBrokers _) with (knownBrokers b). rewrite Ebs. erewrite bind_Ret by exact Ea. reflexivity.
  - exists topic. rewrite Hdb. exact Ht.
  - destruct Hsame as (se & b1 & (dk & rs & rl & cs & ->) & ->). split_and!; [reflexivity..|exact Hnodes].
  - destruct a as [u|]; [left; reflexivity|right]. split; [reflexivity|]. specialize (Hfail eq_refl).
    split; [|exact (announce_failed _ _ _ _ Ea)].
    destruct (pre ++ post) as [|br l] eqn:Epp; [contradiction|]. exists br. split; [|apply Hoth; left].
    unfold brokers. rewrite Hperm, Ebs. assert (Hin : br ∈ pre ++ post) by (rewrite Epp; left).
    apply elem_of_app in Hin as [Hin|Hin]; apply elem_of_app; [left|right; right]; exact Hin.
  - destruct a as [u|]; [|discriminate]. intros _. destruct (Hok ltac:(discriminate)) as [Hsent _].
    rewrite Hsent. unfold told. rewrite <- Ebs. unfold brokers. rewrite Hperm. reflexivity.
  - destruct a as [u|]; [|discriminate]. intros _ i p Hi Hl. destruct (Hok ltac:(discriminate)) as [_ Hh].
    destruct (Hn i p Hi) as (Hid & _ & Htop).
    specialize (Hh (stateOf p) ltac:(apply list_elem_of_fmap_2, (list_elem_of_lookup_2 _ _ _ Hi)) Hl).
    cbn in Hh. rewrite Hid, Htop in Hh. exact Hh.
  - exists topic. rewrite Hdb. split; [apply Ht|exact Hpol].
Qed.

(** *** Requests for one topic *)

(** A request that creates one topic, on the controller, and that is waited for. *)
Definition single (reqs : CreateTopicRequests.t) (req : CreateTopicRequest.t) (b : Broker) : Prop :=
  CreateTopicRequests.Requests reqs = [req] /\ 0 < CreateTopicRequests.Timeout reqs /\
  raft_isLeader (raft b) = true.

Definition topicAnswer (reqs : CreateTopicRequests.t) (req : CreateTopicRequest.t) (code : Z) : CreateTopicsResponse.t :=
  CreateTopicsResponse.mk (CreateTopicRequests.APIVersion reqs) 0
    [TopicErrorCode.mk (CreateTopicRequest.Topic req) code None].

Lemma handleCreateTopic_one expired o1 o2 rnd reqs req (b : Broker) : single reqs req b ->
  expired 0%nat = false ->
  handleCreateTopic expired o1 o2 rnd reqs b =
  (code ← (if int16 (len (members b)) <? CreateTopicRequest.ReplicationFactor req
           then mret ErrInvalidReplicationFactor else createTopic (o1 0%nat) (o2 0%nat) (rnd 0%nat) req);
   mret (topicAnswer reqs req code)) b.
Proof.
  intros (Hr & Ht & Hl) He. unfold handleCreateTopic, isController, isLeader.
  erewrite bind_Ret by reflexivity. rewrite Hl, Hr. cbn [collect negb].
  unfold mbind, M_bind, gets, mret, M_ret. destruct (_ <? _); [reflexivity|].
  unfold withTimeout, coded, waited, mbind, M_bind, mret, M_ret.
  rewrite (proj2 (Z.leb_gt _ _)) by exact Ht. rewrite He.
  destruct (createTopic _ _ _ req b); reflexivity.
Qed.

Lemma handleCreateTopic_made expired o1 o2 rnd reqs req (b : Broker) :
  single reqs req b -> expired 0%nat = false -> CreateTopicRequest.ReplicationFactor req <= int16 (len (members b)) ->
  creatable (o1 0%nat) (o2 0%nat) req b ->
  exists code b' ps, handleCreateTopic expired o1 o2 rnd reqs b = Ret (topicAnswer reqs req code) b' /\
    topicMade (o1 0%nat) req b code b' ps.
Proof.
  intros Hreq Hexp Hmem Hcr. destruct (createTopic_spec b (o1 0%nat) (o2 0%nat) (rnd 0%nat) req Hcr) as (code & b' & ps & E & Hmade).
  exists code, b', ps. split; [|exact Hmade]. rewrite (handleCreateTopic_one _ _ _ _ _ req b Hreq Hexp).
  rewrite (proj2 (Z.ltb_ge _ _)) by exact Hmem. erewrite bind_Ret by exact E. reflexivity.
Qed.

Lemma createTopic_exists o1 o2 rnd req (b : Broker) topic :
  snd (GetTopic (CreateTopicRequest.Topic req) (db b)) = Some topic ->
  createTopic o1 o2 rnd req b = Ret ErrTopicAlreadyExists b.
Proof. intros E. unfold createTopic. erewrite bind_Ret by reflexivity. rewrite E. reflexivity. Qed.

Lemma createTopic_factor o1 o2 rnd req (b : Broker) :
  snd (GetTopic (CreateTopicRequest.Topic req) (db b)) = None ->
  len (Brokers o1 (knownBrokers b)) < CreateTopicRequest.ReplicationFactor req ->
  createTopic o1 o2 rnd req b = Ret ErrInvalidReplicationFactor b.
Proof.
  intros E Hf. unfold createTopic. erewrite bind_Ret by reflexivity. rewrite E. unfold buildPartitions.
  rewrite (proj2 (Z.ltb_lt _ _)) by exact Hf. reflexivity.
Qed.
End lemmas.
