(* ===== verification/ClusterWide.v ===== *)
(** * Brokers that share a raft log

    What the broker that leads has committed is applied, entry by entry, by the
    state machine of every other broker ([FSM.Apply] of [src/jocko/fsm/fsm.go],
    called by the raft library), and the requests it sends out are handled
    there ([handleLeaderAndISR] of [src/jocko/broker.go]). *)
From S2P Require Import Prelude Codec ClientApi TopicApi ClusterApi LogMessage Structs Store StoreSteps Cluster LogService BrokerState Broker TopicAdmin.

(** The entries that raft has applied here.  The documentation of [raft.Apply]:
    a future without an error means that the entry was committed and applied. *)
Class RaftEntries (RF : Type) `{Raft RF} := {
  raft_entries : RF -> list (Z * list byte);
  law_committed buf r i r' : raft_apply buf r = (inr i, r') -> raft_entries r' = raft_entries r ++ [(i, buf)] }.

(** A raft that keeps its entries; it commits all of them while it leads. *)
Record LoggedRaft := mkLoggedRaft { lr_leads : bool; lr_entries : list (Z * list byte); lr_servers : list Server.t }.
Definition lr_last (r : LoggedRaft) : Z := from_option fst 0 (list.last (lr_entries r)).
#[local] Instance LoggedRaft_ops : Raft LoggedRaft := {
  raft_isLeader := lr_leads;
  raft_lastIndex r := inr (lr_last r);
  raft_apply buf r :=
    if lr_leads r then
      (inr (lr_last r + 1), mkLoggedRaft (lr_leads r) (lr_entries r ++ [(lr_last r + 1, buf)]) (lr_servers r))
    else (inl (ErrOther "node is not the leader"), r);
  raft_configuration r := inr (lr_servers r);
  raft_removeServer id r :=
    (None, mkLoggedRaft (lr_leads r) (lr_entries r) (filter (fun s => Server.ID s <> id) (lr_servers r)));
  raft_addServer voter id addr r :=
    (None, mkLoggedRaft (lr_leads r) (lr_entries r) (lr_servers r ++ [Server.mk id addr voter]));
  raft_bootstrap ss r := (None, mkLoggedRaft (lr_leads r) (lr_entries r) ss) }.
#[local] Instance LoggedRaft_entries : RaftEntries LoggedRaft.
Proof. refine {| raft_entries := lr_entries |}. cbn. intros buf r i r'. destruct (lr_leads r); [|discriminate]. intros [= <- <-]. reflexivity. Defined.

Section cluster.
Context {L R D DB RF : Type} `{CommitLogLaws L R} `{LogDirs D L} `{!LogDirLaws D L R}.
Context {ToLower : string -> string} `{MemdbLaws ToLower DB} `{Raft RF} `{!RaftEntries RF}.
Context `{Msgpack Node.t} `{Msgpack Topic.t} `{Msgpack Partition.t} `{Msgpack Group.t}.
Abbreviation Broker := (BrokerState.Broker L D DB RF).

(** A broker applies entries that the leader has committed; [None] is a panic. *)
Definition catchUp (es : list (Z * list byte)) (b : Broker) : option Broker :=
  d ← replay es (db b); Some (set_db d b).

(** ** What the leader commits *)

(** [b'] is reached from [b] by entries [es] and other changes that do not
    concern the store. *)
Definition commitsTo (es : list (Z * list byte)) (b b' : Broker) : Prop :=
  raft_entries (raft b') = raft_entries (raft b) ++ es /\ replay es (db b) = Some (db b').

Lemma replay_app es es' (d d1 : DB) : replay es d = Some d1 -> replay (es ++ es') d = replay es' d1.
Proof.
  revert d. induction es as [|[i data] es IH]; intros d; cbn [replay app]; [intros [= <-]; reflexivity|].
  destruct (after (Apply data i d)); cbn; [apply IH|discriminate].
Qed.

Lemma commitsTo_trans es es' (b b1 b2 : Broker) : commitsTo es b b1 -> commitsTo es' b1 b2 -> commitsTo (es ++ es') b b2.
Proof.
  intros [E1 R1] [E2 R2]. split; [rewrite E2, E1, app_assoc; reflexivity|]. rewrite (replay_app _ _ _ _ R1). exact R2.
Qed.

Lemma raftApply_commits {A} `{Msgpack A} t (msg : A) (b b' : Broker) x :
  raftApply t msg b = Ret (inr x) b' -> exists es, commitsTo es b b'.
Proof.
  unfold raftApply. destruct (Encode t msg) as [buf|]; [|discriminate].
  destruct (raft_apply buf (raft b)) as [[e|i] r] eqn:E; [discriminate|].
  destruct (Apply buf i (db b)) as [u d|e d|] eqn:Ea; [| |discriminate]; intros [= <- <-];
    (exists [(i, buf)]; split; [exact (law_committed _ _ _ _ E)|cbn; rewrite Ea; reflexivity]).
Qed.

Lemma createPartitions_commits ps : forall b b' : Broker, createPartitions ps b = Ret true b' -> exists es, commitsTo es b b'.
Proof.
  induction ps as [|p ps IH]; intros b b'; cbn [createPartitions].
  - intros [= <-]. exists []. split; [symmetry; apply app_nil_r|reflexivity].
  - unfold createPartition, mbind, M_bind. destruct (raftApply _ p b) as [[e|x] b1|e b1|] eqn:E; try discriminate.
    cbn. intros E'. destruct (raftApply_commits _ _ _ _ _ E) as [es1 C1]. destruct (IH _ _ E') as [es2 C2].
    eexists. eapply commitsTo_trans; eassumption.
Qed.

(** A topic that was created has its entries in the log. *)
Lemma createTopic_commits o1 o2 rnd req (b b' : Broker) :
  createTopic o1 o2 rnd req b = Ret ErrNone b' -> snd (GetTopic (CreateTopicRequest.Topic req) (db b)) = None ->
  CreateTopicRequest.ReplicationFactor req <= len (Brokers o1 (knownBrokers b)) -> exists es, commitsTo es b b'.
Proof.
  intros E Hnew Hf. unfold createTopic in E. unfold mbind, M_bind in E. unfold gets in E at 1. cbv beta iota zeta in E. rewrite Hnew in E.
  unfold buildPartitions in E. rewrite (proj2 (Z.ltb_ge _ _)) in E by lia.
  destruct (assign _ _ _ _ _ _) as [ps|]; [|discriminate]. cbn [mbind option_bind] in E. cbv beta iota in E.
  destruct (raftApply RegisterTopicRequestType _ b) as [[e|x] b1|e b1|] eqn:E1; try discriminate.
  destruct (createPartitions ps b1) as [ok b2|e b2|] eqn:E2; try discriminate. destruct ok; cbn [negb] in E; [|discriminate].
  unfold gets in E. destruct (announce _ _ b2) as [a b3|e b3|] eqn:E3; try discriminate. injection E as _ <-.
  destruct (raftApply_commits _ _ _ _ _ E1) as [es1 C1]. destruct (createPartitions_commits _ _ _ E2) as [es2 C2].
  destruct (keeps_announce _ _ _ _ _ E3) as (Hdb & Hrf & _). exists (es1 ++ es2).
  destruct (commitsTo_trans _ _ _ _ _ C1 C2) as [Cr Cd]. split; [rewrite Hrf; exact Cr|rewrite Hdb; exact Cd].
Qed.

(** ** What the other brokers make of it *)

(** The request that goes out for new partitions. *)
Definition isrRequest (b : Broker) (ps : list Partition.t) : LeaderAndISRRequest.t :=
  LeaderAndISRRequest.mk 0 (configID b) 0 (stateOf <$> ps) [].

Lemma states_NoDup name ps : numbered name ps -> base.NoDup (PartitionState.Partition <$> (stateOf <$> ps)).
Proof. intros Hn. rewrite <- list_fmap_compose. apply (numbered_NoDup name); [exact Hn|]. intros p q _ _ C. exact C. Qed.

(** A broker that knows the topic serves the partitions that it is to lead. *)
Lemma follower_serves (b f : Broker) name ps topic : numbered name ps ->
  snd (GetTopic name (db f)) = Some topic -> cleanupPolicy topic = Some "delete" ->
  (forall i, (i < length ps)%nat -> disk f !! Z.of_nat i = None) ->
  exists cs f', handleLeaderAndISR (isrRequest b ps) f = Ret (LeaderAndISRResponse.mk 0 0 cs) f' /\
    forall i p, ps !! i = Some p -> Partition.Leader p = configID f -> hosts f' name (Z.of_nat i).
Proof.
  intros Hn Ht Hp Hd. destruct (handleLeaderAndISR_spec f (isrRequest b ps)) as (cs & f' & E & _ & _ & Hh & _).
  - apply list.Forall_forall. cbn. intros st Hst. apply list_elem_of_fmap in Hst as (p & -> & Hin).
    apply list_elem_of_lookup in Hin as [i Hi]. destruct (Hn i p Hi) as (Hid & _ & Htop).
    split; cbn; [rewrite Htop; eauto|]. intros _. rewrite Hid. apply Hd. eapply lookup_lt_Some, Hi.
  - apply (states_NoDup name), Hn.
  - exists cs, f'. split; [exact E|]. intros i p Hi Hl. destruct (Hn i p Hi) as (Hid & _ & Htop).
    specialize (Hh (stateOf p) ltac:(apply list_elem_of_fmap_2, (list_elem_of_lookup_2 _ _ _ Hi)) Hl).
    cbn in Hh. rewrite Hid, Htop in Hh. exact Hh.
Qed.

(** A replica that was added without a log. *)
Definition idle (f : Broker) (name : string) (p : Z) : Prop :=
  exists ptr r, Cluster.Replica name p (replicaLookup f) = inr ptr /\ replicas f !! ptr = Some r /\ Log r = None.

(** A broker that does not know the topic only adds the replica. *)
Lemma applyState_early (f : Broker) st : snd (GetTopic (PartitionState.Topic st) (db f)) = None ->
  exists code, applyState st f = Ret code (added st (newReplica (configID f) st) f) /\
    (PartitionState.Leader st = configID f -> code = ErrUnknownTopicOrPartition).
Proof.
  intros Ht. set (r := newReplica (configID f) st : Replica L).
  assert (Es : startReplica (length (replicas f)) (added st r f) = Ret ErrUnknownTopicOrPartition (added st r f)).
  { unfold startReplica. erewrite bind_replica by apply added_replica. erewrite bind_Ret by reflexivity.
    change (db (added st r f)) with (db f). cbn [newReplica RPartition Partition.Topic r]. rewrite Ht. reflexivity. }
  unfold applyState. erewrite bind_Ret by reflexivity.
  assert (Ea : addReplica r f = Ret (length (replicas f)) (added st r f)) by reflexivity.
  erewrite bind_Ret by exact Ea. cbn [newReplica RPartition Partition.Leader].
  destruct (Z.eqb_spec (PartitionState.Leader st) (configID f)) as [Hl|Hl]; cbn [andb].
  - erewrite bind_Ret by exact Es. eexists. split; [reflexivity|auto].
  - destruct (contains (PartitionState.Replicas st) (configID f)); cbn [andb negb].
    + erewrite bind_Ret by exact Es. eexists. split; [reflexivity|]. contradiction.
    + eexists. split; [reflexivity|]. contradiction.
Qed.

(** The answer for a partition that the broker [id] was to lead and cannot. *)
Definition declined (id : Z) (st : PartitionState.t) (c : LeaderAndISRPartition.t) : Prop :=
  PartitionState.Leader st = id ->
  c = LeaderAndISRPartition.mk (PartitionState.Topic st) (PartitionState.Partition st) ErrUnknownTopicOrPartition.

Lemma early_loop sts : forall i (f : Broker),
  (forall st, st ∈ sts -> snd (GetTopic (PartitionState.Topic st) (db f)) = None) ->
  base.NoDup (PartitionState.Partition <$> sts) ->
  exists cs f', collect (fun _ p =>
      code ← applyState p;
      mret (LeaderAndISRPartition.mk (PartitionState.Topic p) (PartitionState.Partition p) code)) i sts f
    = Ret cs f' /\ same_but_replicas f f' /\ Forall2 (declined (configID f)) sts cs /\
    (forall st, st ∈ sts -> idle f' (PartitionState.Topic st) (PartitionState.Partition st)) /\
    (forall name p, p ∉ PartitionState.Partition <$> sts -> idle f name p -> idle f' name p).
Proof.
  induction sts as [|st sts IH]; intros i f Ht Hnd.
  - exists [], f. split; [reflexivity|]. split; [|split; [constructor|split; [intros st Hst; inversion Hst|auto]]].
    exists (disk f), (replicas f), (replicaLookup f), (calls f). destruct f; reflexivity.
  - rewrite fmap_cons, list.NoDup_cons in Hnd. destruct Hnd as [Hni Hnd].
    destruct (applyState_early f st) as (code & E & Hcode); [apply Ht; left|].
    set (f1 := added st (newReplica (configID f) st) f) in *.
    assert (Hkeep : forall name p, p <> PartitionState.Partition st -> idle f name p -> idle f1 name p).
    { intros name p Hp (ptr & r & Hr & Hl & Hlog). exists ptr, r. cbn.
      rewrite Replica_AddReplica, decide_False by naive_solver. split; [exact Hr|].
      rewrite lookup_app_l by (eapply lookup_lt_Some, Hl). auto. }
    assert (Hnew : idle f1 (PartitionState.Topic st) (PartitionState.Partition st)).
    { exists (length (replicas f)), (newReplica (configID f) st). cbn.
      rewrite Replica_AddReplica, decide_True by auto. rewrite added_replica. auto. }
    destruct (IH (S i) f1) as (cs & f' & E' & Hs & Hd & Hi & Hk); [intros st' Hin; apply Ht; right; exact Hin|exact Hnd|].
    eexists _, f'. split; [|split; [|split; [|split]]].
    + cbn [collect]. rewrite bind_assoc. erewrite bind_Ret by exact E.
      erewrite bind_Ret by reflexivity. erewrite bind_Ret by exact E'. reflexivity.
    + eapply same_trans; [|exact Hs]. destruct (added_extends st (newReplica (configID f) st) f) as [Hx _]. exact Hx.
    + constructor; [|exact Hd]. intros Hl. rewrite (Hcode Hl). reflexivity.
    + intros st' Hin. apply elem_of_cons in Hin as [->|Hin]; [|exact (Hi _ Hin)]. apply Hk; [exact Hni|exact Hnew].
    + intros name p Hp Hid. rewrite fmap_cons, not_elem_of_cons in Hp. destruct Hp as [Hp1 Hp2].
      apply Hk; [exact Hp2|]. apply Hkeep; [exact Hp1|exact Hid].
Qed.

(** A request for a topic that is not known here yet. *)
Lemma early_request (b f : Broker) name ps : numbered name ps -> snd (GetTopic name (db f)) = None ->
  exists cs f', handleLeaderAndISR (isrRequest b ps) f = Ret (LeaderAndISRResponse.mk 0 0 cs) f' /\ db f' = db f /\
    (forall i p, ps !! i = Some p -> Partition.Leader p = configID f ->
       cs !! i = Some (LeaderAndISRPartition.mk name (Z.of_nat i) ErrUnknownTopicOrPartition)) /\
    forall i p, ps !! i = Some p -> idle f' name (Z.of_nat i).
Proof.
  intros Hn Ht. destruct (early_loop (stateOf <$> ps) 0 f) as (cs & f' & E & Hs & Hd & Hi & _).
  - intros st Hst. apply list_elem_of_fmap in Hst as (p & -> & Hin). apply list_elem_of_lookup in Hin as [i Hi].
    destruct (Hn i p Hi) as (_ & _ & Htop). cbn. rewrite Htop. exact Ht.
  - apply (states_NoDup name), Hn.
  - exists cs, f'. split; [unfold handleLeaderAndISR; erewrite bind_Ret by exact E; reflexivity|].
    split; [destruct Hs as (dk & rs & rl & ca & ->); reflexivity|]. split; intros i p Hp.
    { intros Hl. destruct (Forall2_lookup_l _ _ _ i (stateOf p) Hd) as (c & Hc & E').
      - rewrite list_lookup_fmap, Hp. reflexivity.
      - rewrite Hc, (E' Hl). destruct (Hn i p Hp) as (Hid & _ & Htop). cbn. rewrite Hid, Htop. reflexivity. }
    specialize (Hi (stateOf p) (list_elem_of_fmap_2 _ _ _ (list_elem_of_lookup_2 _ _ _ Hp))).
    destruct (Hn i p Hp) as (Hid & _ & Htop). cbn in Hi. rewrite Hid, Htop in Hi. exact Hi.
Qed.

(** From a replica without a log nothing is taken. *)
Lemma idle_refuses (f : Broker) name p rs now topic : idle f name p -> snd (GetTopic name (db f)) = Some topic ->
  produceFn name (Data.mk p rs) now f = Ret (Some (ErrReplicaNotAvailable, None)) f.
Proof.
  intros (ptr & r & Hr & Hl & Hlog) Ht. unfold produceFn. erewrite bind_Ret by reflexivity. rewrite Ht.
  cbn [Data.Partition]. rewrite Hr. erewrite bind_replica by exact Hl. unfold logOf. rewrite Hlog. reflexivity.
Qed.

Lemma idle_set_db d (f : Broker) name p : idle f name p -> idle (set_db d f) name p.
Proof. exact id. Qed.

(** ** A creation, seen from another broker *)

(** [f] is another broker: the controller [b] knows it as [br], it has applied
    what [b] has, and has no partitions of the numbers that come. *)
Record follows (brokers : list BrokerMeta.t) (req : CreateTopicRequest.t) (b f : Broker) (br : BrokerMeta.t) : Prop := {
  fo_known : br ∈ brokers /\ BrokerMeta.ID br = configID f /\ configID f <> configID b;
  fo_agree : agree (db b) (db f);
  fo_disk : forall i, 0 <= i < CreateTopicRequest.NumPartitions req -> disk f !! i = None }.

(** Two databases that agree know the same topics. *)
Lemma agree_topic name (d1 d2 : DB) : agree d1 d2 -> snd (GetTopic name d1) = snd (GetTopic name d2).
Proof. intros [Ha _]. exact (Ha _ _ Topics name eq_refl). Qed.

Lemma catchUp_agree es (b b' f : Broker) : agree (db b) (db f) -> replay es (db b) = Some (db b') ->
  exists d, replay es (db f) = Some d /\ agree (db b') d.
Proof.
  intros Ha E. pose proof (replay_agree es _ _ Ha) as Hf. rewrite E in Hf. inversion Hf as [x d Hd|]. eauto.
Qed.

(** A creation without an error: what it has committed and to whom it was sent. *)
Lemma creation_seen (b b' f : Broker) expired o1 o2 rnd reqs req br :
  single reqs req b -> expired 0%nat = false ->
  CreateTopicRequest.ReplicationFactor req <= int16 (len (members b)) ->
  creatable (o1 0%nat) (o2 0%nat) req b -> follows (Brokers (o1 0%nat) (knownBrokers b)) req b f br ->
  handleCreateTopic expired o1 o2 rnd reqs b = Ret (topicAnswer reqs req ErrNone) b' ->
  exists ps es d, topicMade (o1 0%nat) req b ErrNone b' ps /\ numbered (CreateTopicRequest.Topic req) ps /\
    commitsTo es b b' /\ (BrokerMeta.BrokerAddr br, isrRequest b ps) ∈ sent b' /\
    replay es (db f) = Some d /\ agree (db b') d.
Proof.
  intros Hreq Hexp Hmem Hcr [(Hin & Hid & Hne) Ha _] E.
  destruct (createTopic_spec b (o1 0%nat) (o2 0%nat) (rnd 0%nat) req Hcr) as (code & b1 & ps & E1 & Hm).
  rewrite (handleCreateTopic_one _ _ _ _ _ req b Hreq Hexp), (proj2 (Z.ltb_ge _ _)) in E by exact Hmem.
  erewrite bind_Ret in E by exact E1. injection E as Ec <-. subst code.
  destruct (createTopic_commits _ _ _ _ _ _ E1 (proj2 (cr_name _ _ _ _ Hcr)) (proj2 (proj1 (cr_factor _ _ _ _ Hcr)))) as [es Hes].
  destruct (catchUp_agree es b b1 f Ha (proj2 Hes)) as (d & Ed & Hd).
  exists ps, es, d. split; [exact Hm|]. split; [eapply well_assigned_numbered, (tm_assigned _ _ _ _ _ _ Hm)|].
  split; [exact Hes|]. split; [|split; [exact Ed|exact Hd]].
  rewrite (tm_sent _ _ _ _ _ _ Hm eq_refl). apply elem_of_app. right.
  apply (list_elem_of_fmap_2 (fun br => (BrokerMeta.BrokerAddr br, _))). apply list_elem_of_filter. split; [congruence|exact Hin].
Qed.
End cluster.
