(* ===== verification/ClusterInfo.v ===== *)
(** * What a broker tells clients about the cluster

    [Host] and [Port] of [src/jocko/metadata/metadata.go] and the handlers of
    [src/jocko/broker.go] that answer with API versions, metadata and the
    coordinator of a group. *)
From S2P Require Import Prelude Codec TopicApi GroupApi ClientApi ClusterApi Structs Store StoreSteps Cluster LogService BrokerState Broker TopicAdmin.
From Stdlib Require Import Strings.Byte.

(** ** Addresses *)

(** [net.SplitHostPort] of the standard library. *)
Definition colon : byte := x3a.
Definition lbracket : byte := x5b.
Definition rbracket : byte := x5d.

(** The first position of a byte, and the last. *)
Fixpoint byteIndex (c : byte) (s : list byte) : option nat :=
  match s with
  | [] => None
  | b :: s => if decide (b = c) then Some O else S <$> byteIndex c s
  end.
Fixpoint lastByte (c : byte) (s : list byte) : option nat :=
  match s with
  | [] => None
  | b :: s =>
      match lastByte c s with
      | Some i => Some (S i)
      | None => if decide (b = c) then Some O else None
      end
  end.
Definition has (c : byte) (s : list byte) : bool := bool_decide (is_Some (byteIndex c s)).

(** [j] and [k]: there is no stray bracket before these positions. *)
Definition SplitHostPort (hostport : list byte) : option (list byte * list byte) :=
  i ← lastByte colon hostport;
  '(host, j, k) ←
    match hostport with
    | b :: _ =>
        if decide (b = lbracket) then
          e ← byteIndex rbracket hostport;
          if decide (S e = i) then Some (drop 1 (take e hostport), 1%nat, S e) else None
        else
          let host := take i hostport in
          if has colon host then None else Some (host, O, O)
    | [] => None
    end;
  if has lbracket (drop j hostport) then None
  else if has rbracket (drop k hostport) then None
  else Some (host, drop (S i) hostport).

(** [None] is a panic. *)
Definition Host (b : BrokerMeta.t) : option string :=
  '(host, _) ← SplitHostPort (bytes_of_string (BrokerMeta.BrokerAddr b)); Some (string_of_bytes host).
Definition Port (b : BrokerMeta.t) : option Z :=
  '(_, portStr) ← SplitHostPort (bytes_of_string (BrokerMeta.BrokerAddr b));
  port ← Atoi (string_of_bytes portStr); Some (int32 port).

(** [serf.StatusAlive] *)
Definition StatusAlive : Z := 1.
Definition OffsetsTopicName : string := "__consumer_offsets".

Section handlers.
Context {L R D DB RF : Type} `{CommitLogOps L R} `{LogDirs D L} `{Memdb DB} `{Raft RF}.
Context `{Msgpack Node.t} `{Msgpack Topic.t} `{Msgpack Partition.t} `{Msgpack Group.t}.
Abbreviation Broker := (BrokerState.Broker L D DB RF).

(** A computation that panics when there is nothing. *)
Definition must {St A} (o : option A) : M St A := fun s => match o with Some a => Ret a s | None => Crash end.

(** ** API versions *)

(** One response for every request. *)
Definition apiVersions : APIVersionsResponse.t := APIVersionsResponse.mk 0 0 APIVersions 0.
Definition handleAPIVersions (req : APIVersionsRequest.t) : M Broker APIVersionsResponse.t := mret apiVersions.

(** ** Metadata *)

(** The entry of a partition of a topic. *)
Definition partitionMetadata (d : DB) (topic : string) (id : Z) : PartitionMetadata.t :=
  match snd (GetPartition topic id d) with
  | None => PartitionMetadata.mk ErrUnknownTopicOrPartition id 0 [] []
  | Some p => PartitionMetadata.mk ErrNone (Partition.ID p) (Partition.Leader p) (Partition.AR p) (Partition.ISR p)
  end.
Definition topicMetadataFn (d : DB) (o : map_order) (topic : Topic.t) (err : Z) : TopicMetadata.t :=
  if negb (err =? ErrNone) then TopicMetadata.mk err (Topic.Topic topic) []
  else TopicMetadata.mk ErrNone (Topic.Topic topic)
         ((fun kv => partitionMetadata d (Topic.Topic topic) (fst kv)) <$> range o (Topic.Partitions topic)).

(** The brokers among the members that are alive. *)
Fixpoint aliveBrokers (ms : list SerfMember.t) : M Broker (list ClientApi.Broker.t) :=
  match ms with
  | [] => mret []
  | m :: ms =>
      if negb (SerfMember.Status m =? StatusAlive) then aliveBrokers ms else
      match IsBroker m with
      | None => aliveBrokers ms
      | Some br =>
          host ← must (Host br);
          port ← must (Port br);
          rest ← aliveBrokers ms;
          mret (ClientApi.Broker.mk (BrokerMeta.ID br) host port :: rest)
      end
  end.

(** The nodes that pass their check are collected but not used; a node without a
    check panics. *)
Definition passing (nodes : list Node.t) : M Broker (list Node.t) :=
  checks ← must (mapM Node.Check nodes);
  mret (fst <$> filter (fun nc => HealthCheck.Status (snd nc) = HealthPassing) (zip nodes checks)).

(** [o i] is the order in which the partitions of the [i]-th topic are iterated. *)
Definition handleMetadata (o : nat -> map_order) (req : MetadataRequest.t) : M Broker MetadataResponse.t :=
  b ← gets (fun b => b);
  _ ← passing (snd (GetNodes (db b)));
  brokers ← aliveBrokers (members b);
  let topicMetadata :=
    match MetadataRequest.Topics req with
    | [] => imap (fun i topic => topicMetadataFn (db b) (o i) topic ErrNone) (snd (GetTopics (db b)))
    | names =>
        imap (fun i name =>
          match snd (GetTopic name (db b)) with
          | None => topicMetadataFn (db b) (o i) (Topic.mk "" name ∅ None false RaftIndex.zero) ErrUnknownTopicOrPartition
          | Some topic => topicMetadataFn (db b) (o i) topic ErrNone
          end) names
    end in
  mret (MetadataResponse.mk (MetadataRequest.APIVersion req) brokers 0 topicMetadata).

(** ** The coordinator of a group *)

(** [o] is the order of the map of brokers, [rnd] the random moves of
    [buildPartitions].  An error is returned with no topic; when raft does not
    apply the topic, the error is returned after the partitions. *)
Definition offsetsTopicOf (ps : list Partition.t) : Topic.t :=
  Topic.mk "" OffsetsTopicName (foldl (fun m p => <[Partition.Partition p := Partition.AR p]> m) ∅ ps) None true
    RaftIndex.zero.
Definition offsetsTopic (o : map_order) (rnd : nat -> nat) : M Broker (error + Topic.t) :=
  b ← gets (fun b => b);
  match snd (GetTopic OffsetsTopicName (db b)) with
  | Some topic => mret (inr topic)
  | None =>
      match buildPartitions (Brokers o (knownBrokers b)) OffsetsTopicName 50
              (Config.OffsetsTopicReplicationFactor (config b)) rnd with
      | None => crash
      | Some (inl _) => mret (inl (ErrOther "invalid replication factor"))
      | Some (inr ps) =>
          r ← raftApply RegisterTopicRequestType (offsetsTopicOf ps);
          ok ← createPartitions ps;
          mret (if negb (ok : bool) then inl (ErrOther "create partition")
                else match r with inl e => inl e | inr _ => inr (offsetsTopicOf ps) end)
      end
  end.

(** [util.Hash], a hash function of a library. *)
Context (Hash : string -> Z).

Definition noCoordinator (code : Z) (req : FindCoordinatorRequest.t) : FindCoordinatorResponse.t :=
  FindCoordinatorResponse.mk (FindCoordinatorRequest.APIVersion req) 0 code None (Coordinator.mk 0 "" 0).
Definition handleFindCoordinator (o : map_order) (rnd : nat -> nat) (req : FindCoordinatorRequest.t)
  : M Broker FindCoordinatorResponse.t :=
  r ← offsetsTopic o rnd;
  match r with
  | inl _ => mret (noCoordinator ErrUnknown req)
  | inr topic =>
      let n := Z.of_nat (size (Topic.Partitions topic)) in
      if n =? 0 then crash else
      let i := int32 (Hash (FindCoordinatorRequest.CoordinatorKey req) mod n) in
      b ← gets (fun b => b);
      match snd (GetPartition OffsetsTopicName i (db b)) with
      | None => mret (noCoordinator ErrUnknownTopicOrPartition req)
      | Some p =>
          broker ← must (BrokerByID (itoa (Partition.Leader p)) (knownBrokers b));
          host ← must (Host broker);
          port ← must (Port broker);
          mret (FindCoordinatorResponse.mk (FindCoordinatorRequest.APIVersion req) 0 ErrNone None
                  (Coordinator.mk (BrokerMeta.ID broker) host port))
      end
  end.
End handlers.

(** ** Addresses that are a host and a port *)
Definition plain (s : list byte) : Prop := Forall (fun c => c <> colon /\ c <> lbracket /\ c <> rbracket) s.

Lemma byteIndex_None c s : Forall (fun b => b <> c) s -> byteIndex c s = None.
Proof. induction 1 as [|b s Hb _ IH]; cbn; [reflexivity|]. rewrite decide_False by exact Hb. rewrite IH. reflexivity. Qed.
Lemma lastByte_None c s : Forall (fun b => b <> c) s -> lastByte c s = None.
Proof. induction 1 as [|b s Hb _ IH]; cbn; [reflexivity|]. rewrite IH, decide_False by exact Hb. reflexivity. Qed.
Lemma lastByte_app c s s' : Forall (fun b => b <> c) s' -> lastByte c (s ++ c :: s') = Some (length s).
Proof.
  intros Hs'. induction s as [|b s IH]; cbn; [|rewrite IH; reflexivity].
  rewrite (lastByte_None c s' Hs'), decide_True by reflexivity. reflexivity.
Qed.
Lemma has_false c s : Forall (fun b => b <> c) s -> has c s = false.
Proof. intros Hs. unfold has. rewrite (byteIndex_None c s Hs). apply bool_decide_false. intros [? ?]. discriminate. Qed.

Lemma plain_ne c s : plain s -> c = colon \/ c = lbracket \/ c = rbracket -> Forall (fun b => b <> c) s.
Proof. intros Hs Hc. revert Hs. apply Forall_impl. intros b (? & ? & ?). destruct Hc as [->|[->| ->]]; assumption. Qed.

Lemma SplitHostPort_join host port : plain host -> plain port ->
  SplitHostPort (host ++ colon :: port) = Some (host, port).
Proof.
  intros Hh Hp.
  assert (Hw : forall c, c = lbracket \/ c = rbracket -> Forall (fun b => b <> c) (host ++ colon :: port)).
  { intros c Hc. apply Forall_app. split; [|constructor; [destruct Hc as [->| ->]; discriminate|]];
      apply plain_ne; tauto. }
  unfold SplitHostPort. rewrite lastByte_app by auto using plain_ne. cbn [mbind option_bind].
  replace (take (length host) (host ++ colon :: port)) with host by (rewrite take_app_length; reflexivity).
  rewrite (has_false colon host) by auto using plain_ne.
  assert (Ed : drop (S (length host)) (host ++ colon :: port) = port).
  { replace (S (length host)) with (length (host ++ [colon])) by (rewrite length_app; cbn; lia).
    replace (host ++ colon :: port) with ((host ++ [colon]) ++ port) by (rewrite <- app_assoc; reflexivity).
    apply drop_app_length. }
  pose proof (Hw lbracket ltac:(auto)) as Hl. pose proof (Hw rbracket ltac:(auto)) as Hr. revert Ed Hl Hr.
  destruct (host ++ colon :: port) as [|b l] eqn:E; [destruct host; discriminate|]. intros Ed Hl Hr.
  rewrite decide_False by (inversion Hl; subst; assumption). cbn [mbind option_bind]. change (drop 0 (b :: l)) with (b :: l).
  rewrite (has_false lbracket _ Hl), (has_false rbracket _ Hr), Ed. reflexivity.
Qed.

Lemma digit_plain d : 0 <= d < 10 -> digit d <> colon /\ digit d <> lbracket /\ digit d <> rbracket.
Proof.
  intros Hd. split_and!; intros C; apply (f_equal Z_of_byte) in C; unfold digit in C;
    rewrite Z_of_byte_of_Z, Z.mod_small in C by lia;
    [change (Z_of_byte colon) with 58 in C|change (Z_of_byte lbracket) with 91 in C|change (Z_of_byte rbracket) with 93 in C];
    lia.
Qed.

Lemma digits_plain fuel : forall n, 0 <= n < 2 ^ Z.of_nat (S fuel) -> plain (digits fuel n).
Proof.
  induction fuel as [|fuel IH]; intros n Hn; cbn [digits].
  - change (2 ^ Z.of_nat 1) with 2 in Hn. repeat constructor; apply digit_plain; lia.
  - destruct (Z.ltb_spec n 10); [repeat constructor; apply digit_plain; lia|].
    apply Forall_app. split; [apply IH, div10_range; lia|].
    pose proof (Z.mod_pos_bound n 10 ltac:(lia)). repeat constructor; apply digit_plain; lia.
Qed.

Lemma itoa_plain z : plain (bytes_of_string (itoa z)).
Proof.
  unfold itoa. rewrite bytes_of_string_of_bytes.
  assert (Hu : forall n, 0 <= n -> plain (utoa n)) by (intros n Hn; apply digits_plain, log2_fuel, Hn).
  destruct (Z.ltb_spec z 0); [constructor; [split_and!; discriminate|]|]; apply Hu; lia.
Qed.

(** The address of a broker is a host and a port. *)
Definition addressed (br : BrokerMeta.t) (host : string) (port : Z) : Prop :=
  bytes_of_string (BrokerMeta.BrokerAddr br) = bytes_of_string host ++ colon :: bytes_of_string (itoa port) /\
  plain (bytes_of_string host) /\ in_int 32 port.

Lemma Host_addressed br host port : addressed br host port -> Host br = Some host.
Proof.
  intros (E & Hh & _). unfold Host. rewrite E, SplitHostPort_join by auto using itoa_plain. cbn.
  rewrite string_of_bytes_of_string. reflexivity.
Qed.
Lemma Port_addressed br host port : addressed br host port -> Port br = Some port.
Proof.
  intros (E & Hh & Hp). unfold Port. rewrite E, SplitHostPort_join by auto using itoa_plain.
  cbn [mbind option_bind]. rewrite string_of_bytes_of_string, Atoi_itoa by (unfold in_int in *; lia).
  cbn [mbind option_bind]. unfold int32. rewrite sext_id by (exact Hp || lia). reflexivity.
Qed.

(** ** Lemmas *)
Section lemmas.
Context {L R D DB RF : Type} `{CommitLogLaws L R} `{LogDirs D L} `{!LogDirLaws D L R}.
Context {ToLower : string -> string} `{MemdbLaws ToLower DB} `{Raft RF}.
Context `{Msgpack Node.t} `{Msgpack Topic.t} `{Msgpack Partition.t} `{Msgpack Group.t}.
Abbreviation Broker := (BrokerState.Broker L D DB RF).

(** *** Metadata *)

(** The brokers that metadata lists, for members whose addresses can be read. *)
Definition listed (m : SerfMember.t) : option ClientApi.Broker.t :=
  if SerfMember.Status m =? StatusAlive then
    br ← IsBroker m; host ← Host br; port ← Port br; Some (ClientApi.Broker.mk (BrokerMeta.ID br) host port)
  else None.
Definition readable (m : SerfMember.t) : Prop :=
  forall br, SerfMember.Status m = StatusAlive -> IsBroker m = Some br -> exists host port, addressed br host port.

Lemma aliveBrokers_spec ms (b : Broker) : Forall readable ms -> aliveBrokers ms b = Ret (omap listed ms) b.
Proof.
  induction 1 as [|m ms Hm _ IH]; [reflexivity|]. cbn [aliveBrokers omap list_omap]. unfold listed at 1.
  destruct (Z.eqb_spec (SerfMember.Status m) StatusAlive) as [Hs|]; cbn [negb]; [|exact IH].
  destruct (IsBroker m) as [br|] eqn:E; cbn [mbind option_bind]; [|exact IH].
  destruct (Hm br Hs E) as (host & port & Ha). rewrite (Host_addressed _ _ _ Ha), (Port_addressed _ _ _ Ha).
  cbn [mbind option_bind]. unfold must, mbind, M_bind. rewrite IH. reflexivity.
Qed.

Definition described (p : Partition.t) : PartitionMetadata.t :=
  PartitionMetadata.mk ErrNone (Partition.ID p) (Partition.Leader p) (Partition.AR p) (Partition.ISR p).

(** The answer for a topic that is known: every partition once, as it is
    registered. *)
Lemma topicMetadataFn_known (d : DB) o name ps topic : valid_order o -> numbered name ps -> knownAs name ps topic d ->
  exists pm, topicMetadataFn d o topic ErrNone = TopicMetadata.mk ErrNone name pm /\ pm ≡ₚ described <$> ps.
Proof.
  intros Ho Hn (_ & Ht & Hp & Hps). unfold topicMetadataFn. cbn [ErrNone Z.eqb negb]. rewrite Ht.
  eexists. split; [reflexivity|]. unfold range. rewrite (Ho _ _ _ _ (Topic.Partitions topic)), Hp.
  rewrite <- list_fmap_compose. apply Permutation_refl'. apply list_fmap_ext. intros i p Hi. cbn.
  destruct (Hps i p Hi) as [ri E]. destruct (Hn i p Hi) as (Hid & _). unfold partitionMetadata.
  rewrite Hid, E. reflexivity.
Qed.

(** Every node has a check, and every broker that is alive an address. *)
Definition wellRegistered (b : Broker) : Prop :=
  (forall k n, First Nodes k (db b) = Some n -> is_Some (Node.Check n)) /\ Forall readable (members b).

Lemma handleMetadata_Ret o req (b : Broker) : wellRegistered b ->
  exists tm, handleMetadata o req b =
    Ret (MetadataResponse.mk (MetadataRequest.APIVersion req) (omap listed (members b)) 0 tm) b /\
    (forall name, MetadataRequest.Topics req = [name] ->
       tm = [match snd (GetTopic name (db b)) with
             | None => TopicMetadata.mk ErrUnknownTopicOrPartition name []
             | Some topic => topicMetadataFn (db b) (o 0%nat) topic ErrNone
             end]).
Proof.
  intros [Hc Hm]. unfold handleMetadata. erewrite bind_Ret by reflexivity.
  assert (Hp : exists ns, passing (snd (GetNodes (db b))) b = Ret ns b).
  { unfold passing. destruct (mapM Node.Check (snd (GetNodes (db b)))) as [checks|] eqn:E.
    - eexists. reflexivity.
    - exfalso. apply mapM_None, Exists_exists in E as (n & Hn & En). apply list_elem_of_In, Get_spec in Hn.
      destruct (Hc _ _ Hn) as [c Hc']. congruence. }
  destruct Hp as [ns Ens]. erewrite bind_Ret by exact Ens. erewrite bind_Ret by (apply aliveBrokers_spec, Hm).
  eexists. split; [reflexivity|]. intros name ->. cbn. destruct (First Topics name (db b)); reflexivity.
Qed.

Lemma wellRegistered_same (b b' : Broker) : same_cluster b b' -> wellRegistered b -> wellRegistered b'.
Proof. intros (Hms & _ & _ & Hn) [Hc Hm]. split; [intros k n; rewrite Hn; apply Hc|rewrite Hms; exact Hm]. Qed.

(** *** The coordinator *)

(** A broker can be looked up by its number, and its address read. *)
Definition reachable (b : Broker) (id : Z) (br : BrokerMeta.t) (host : string) (port : Z) : Prop :=
  BrokerByID (itoa id) (knownBrokers b) = Some br /\ BrokerMeta.ID br = id /\ addressed br host port.

Definition coordinator (req : FindCoordinatorRequest.t) (br : BrokerMeta.t) (host : string) (port : Z) : FindCoordinatorResponse.t :=
  FindCoordinatorResponse.mk (FindCoordinatorRequest.APIVersion req) 0 ErrNone None
    (Coordinator.mk (BrokerMeta.ID br) host port).

(** Once the offsets topic is known with [ps], the answer is the leader of the
    partition that the key selects. *)
Lemma coordinator_of Hash o rnd req (b b1 : Broker) t topic ps p br host port :
  offsetsTopic o rnd b1 = Ret (inr t) b -> knownAs OffsetsTopicName ps topic (db b) ->
  size (Topic.Partitions t) = length ps -> len ps < 2 ^ 31 ->
  ps !! Z.to_nat (Hash (FindCoordinatorRequest.CoordinatorKey req) mod len ps) = Some p ->
  reachable b (Partition.Leader p) br host port ->
  handleFindCoordinator Hash o rnd req b1 = Ret (coordinator req br host port) b.
Proof.
  intros E (_ & _ & Hp & Hps) Hsz Hlen Hi (Hbr & Hid & Ha). unfold handleFindCoordinator. erewrite bind_Ret by exact E.
  cbv beta iota zeta. rewrite Hsz. fold (len ps). assert (Hpos : 0 < len ps) by (apply lookup_lt_Some in Hi; unfold len; lia).
  rewrite (proj2 (Z.eqb_neq _ _)) by lia. erewrite bind_Ret by reflexivity.
  set (i := Hash _ mod len ps) in *. assert (Hi' : 0 <= i < len ps) by (apply Z.mod_pos_bound, Hpos).
  unfold int32. rewrite sext_id by (unfold in_int; lia).
  destruct (Hps _ p Hi) as [ri E2]. rewrite Z2Nat.id in E2 by lia. rewrite E2. cbn [Partition.set_raft Partition.Leader].
  rewrite Hbr. unfold must, mbind, M_bind. rewrite (Host_addressed _ _ _ Ha), (Port_addressed _ _ _ Ha). reflexivity.
Qed.

Lemma offsetsTopicOf_eq ps : numbered OffsetsTopicName ps -> offsetsTopicOf ps = topicOf OffsetsTopicName true ps.
Proof.
  intros Hn. unfold offsetsTopicOf, topicOf. f_equal.
  assert (Hsame : Forall (fun p => Partition.Partition p = Partition.ID p) ps).
  { apply list.Forall_forall. intros p Hp. apply list_elem_of_lookup in Hp as [i Hi].
    destruct (Hn i p Hi) as (E1 & E2 & _). congruence. }
  generalize (∅ : gmap Z (list Z)) as m. clear Hn. induction Hsame as [|p ps E _ IH]; intros m; [reflexivity|].
  cbn [foldl]. rewrite E. apply IH.
Qed.

(** What making the offsets topic needs. *)
Record offsetsReady (o : map_order) (b : Broker) : Prop := {
  or_brokers : base.NoDup (BrokerMeta.ID <$> Brokers o (knownBrokers b));
  or_factor : 1 <= Config.OffsetsTopicReplicationFactor (config b) <= len (Brokers o (knownBrokers b)) /\
    Config.OffsetsTopicReplicationFactor (config b) < 2 ^ 15;
  or_packs : (forall t : Topic.t, Topic.Config t = None -> packs t) /\ (forall p : Partition.t, packs p);
  or_raft : commits 51 (raft b) }.

Lemma offsetsTopic_makes o rnd (b : Broker) : offsetsReady o b -> snd (GetTopic OffsetsTopicName (db b)) = None ->
  exists b' ps t topic, offsetsTopic o rnd b = Ret (inr t) b' /\ same_cluster b b' /\ length ps = 50%nat /\
    (forall i p, ps !! i = Some p ->
       well_assigned (Brokers o (knownBrokers b)) OffsetsTopicName (Config.OffsetsTopicReplicationFactor (config b)) i p) /\
    knownAs OffsetsTopicName ps topic (db b') /\ size (Topic.Partitions t) = length ps.
Proof.
  intros [Hnd [Hf Hf15] [Hpt Hpp] Hc] Hnew.
  destruct (assign_spec (Brokers o (knownBrokers b)) OffsetsTopicName (Config.OffsetsTopicReplicationFactor (config b))
    rnd 50 0 0 Hnd) as (ps & Eps & Hlen & Hw); [lia|lia|unfold len in *; lia|].
  cbn [Nat.add] in Hw. pose proof (well_assigned_numbered _ _ _ _ Hw) as Hn.
  destruct (register_topic b OffsetsTopicName true ps 0 ltac:(discriminate) Hn) as
    (d1 & d & r1 & r & topic & E1 & E2 & Ht & _ & Hnodes); [apply Hpt; reflexivity|auto|rewrite Hlen; exact Hc|].
  exists (set_db d (set_raft r b)), ps, (offsetsTopicOf ps), topic.
  split_and!; [|split_and!; [reflexivity..|exact Hnodes]|exact Hlen|exact Hw|exact Ht|].
  - unfold offsetsTopic. erewrite bind_Ret by reflexivity. rewrite Hnew. unfold buildPartitions.
    rewrite (proj2 (Z.ltb_ge _ _)) by lia. change (Z.to_nat 50) with 50%nat. rewrite Eps. cbn [mbind option_bind].
    rewrite (offsetsTopicOf_eq ps Hn). erewrite bind_Ret by exact E1. erewrite bind_Ret by exact E2. reflexivity.
  - rewrite (offsetsTopicOf_eq ps Hn), <- length_map_to_list, (topicOf_partitions _ _ _ Hn), length_fmap. reflexivity.
Qed.

Lemma offsetsTopic_known o rnd (b : Broker) topic : snd (GetTopic OffsetsTopicName (db b)) = Some topic ->
  offsetsTopic o rnd b = Ret (inr topic) b.
Proof. intros E. unfold offsetsTopic. erewrite bind_Ret by reflexivity. rewrite E. reflexivity. Qed.
End lemmas.
