(* ===== verification/Dialer.v ===== *)
(** * Dialing a broker

    [src/jocko/dialer.go]: the address is resolved, a connection opened, secured
    and authenticated.  The network, the resolver and the TLS library answer as
    they are given to. *)
From S2P Require Import Prelude Structs Store Cluster LogService BrokerState ClusterInfo.
From Stdlib Require Import Strings.Byte.

(** [LookupHost] of the resolver. *)
Record SASL := mkSASL { User : string; Pass : string }.
Record Dialer := mkDialer {
  ClientID : string; Resolver : option (list byte -> error + list (list byte)); TLS : bool; DSASL : option SASL }.
Definition NewDialer (clientID : string) : Dialer := mkDialer clientID None false None.

(** A connection: whether it is open, what was written to it and what the peer
    sends. *)
Record Socket := mkSocket { SOpen : bool; SWritten : list byte; SPeer : list byte }.
Definition SClose (s : Socket) : Socket := mkSocket false (SWritten s) (SPeer s).

(** How the handshake of TLS ends: the context may be done first. *)
Inductive handshake := Handshook | HandshakeError (e : error) | ContextDone (e : error).

(** ** Addresses *)
Definition splitHostPort (s : list byte) : list byte * list byte :=
  let '(host, port) := default ([], []) (SplitHostPort s) in
  if decide (host = [] /\ port = []) then (s, port) else (host, port).
(** [net.JoinHostPort] of the standard library. *)
Definition JoinHostPort (host port : list byte) : list byte :=
  if has colon host then lbracket :: host ++ rbracket :: colon :: port else host ++ colon :: port.

(** The address to connect to: the first that the resolver knows for the host, with
    the port that was asked for. *)
Definition resolve (d : Dialer) (address : list byte) : error + list byte :=
  match Resolver d with
  | None => inr address
  | Some lookupHost =>
      let '(host, port) := splitHostPort address in
      match lookupHost host with
      | inl e => inl e
      | inr addrs =>
          let address := match addrs with a :: _ => a | [] => address end in
          inr (if decide (port = []) then address else JoinHostPort (fst (splitHostPort address)) port)
      end
  end.

(** ** Securing and authenticating *)

(** The connection and the error.  When the context is done both connections are
    closed; after an error of the handshake they are not. *)
Definition connectTLS (h : handshake) (s : Socket) : Socket * option error :=
  match h with
  | Handshook => (s, None)
  | HandshakeError e => (s, Some e)
  | ContextDone e => (SClose s, Some e)
  end.

Definition saslMessage (a : SASL) : list byte :=
  let user := bytes_of_string (User a) in
  let pass := bytes_of_string (Pass a) in
  let length := 1 + len user + 1 + len pass in
  be_put 4 (uint32 length) ++ x00 :: user ++ x00 :: pass.
(** [write] is the error of the write; the answer is four bytes that are not
    looked at. *)
Definition connectSASLPlain (a : SASL) (write : option error) (s : Socket) : Socket * option error :=
  match write with
  | Some e => (s, Some e)
  | None =>
      let s := mkSocket (SOpen s) (SWritten s ++ saslMessage a) (SPeer s) in
      if decide (length (SPeer s) < 4)%nat then (mkSocket (SOpen s) (SWritten s) [], Some (if decide (SPeer s = []) then EOF else ErrOther "unexpected EOF"))
      else (mkSocket (SOpen s) (SWritten s) (drop 4 (SPeer s)), None)
  end.

(** ** Dial *)

(** A socket; or an error, with the socket that was opened before it, if one was.
    [dial] connects to an address, to a peer that sends the bytes it gives. *)
Definition dialContext (d : Dialer) (dial : list byte -> error + list byte) (h : handshake) (write : option error)
    (address : list byte) : (error * option Socket) + Socket :=
  match resolve d address with
  | inl e => inl (e, None)
  | inr address =>
      match dial address with
      | inl e => inl (e, None)
      | inr peer =>
          let '(s, err) := if TLS d then connectTLS h (mkSocket true [] peer) else (mkSocket true [] peer, None) in
          match err with
          | Some e => inl (e, Some s)
          | None =>
              match DSASL d with
              | None => inr s
              | Some a =>
                  let '(s, err) := connectSASLPlain a write s in
                  match err with Some e => inl (e, Some (SClose s)) | None => inr s end
              end
          end
      end
  end.

(** The connection of a client that was dialed. *)
Record Dialed := mkDialed { DClientID : string; DSocket : Socket }.
Definition DialContext (d : Dialer) dial h write address : (error * option Socket) + Dialed :=
  match dialContext d dial h write address with
  | inl e => inl e
  | inr s => inr (mkDialed (ClientID d) s)
  end.

(** ** Lemmas *)

(** What the peer is sent and answers before the connection is handed out. *)
Definition greeting (d : Dialer) : list byte := match DSASL d with Some a => saslMessage a | None => [] end.
Definition answer (d : Dialer) : nat := match DSASL d with Some _ => 4 | None => 0 end.

(** The socket of a failed dial is closed, but after a handshake that failed. *)
Definition abandoned (d : Dialer) (h : handshake) (s : option Socket) : Prop :=
  forall so, s = Some so -> SOpen so = true -> TLS d = true /\ exists e, h = HandshakeError e.

Lemma authenticate_cases d h write peer :
  match (match DSASL d with
         | None => inr (mkSocket true [] peer)
         | Some a => let '(s, err) := connectSASLPlain a write (mkSocket true [] peer) in
             match err with Some e => inl (e, Some (SClose s)) | None => inr s end
         end : (error * option Socket) + Socket) with
  | inl (_, s) => abandoned d h s
  | inr s => s = mkSocket true (greeting d) (drop (answer d) peer)
  end.
Proof.
  unfold abandoned, greeting, answer. destruct (DSASL d) as [a|]; [|reflexivity].
  unfold connectSASLPlain. destruct write as [e|]; [intros so [= <-]; discriminate|]. cbn.
  case_decide; [intros so [= <-]; discriminate|reflexivity].
Qed.

Lemma dialContext_cases d dial h write address :
  match dialContext d dial h write address with
  | inl (_, s) => abandoned d h s
  | inr s => exists addr peer, resolve d address = inr addr /\ dial addr = inr peer /\
      s = mkSocket true (greeting d) (drop (answer d) peer)
  end.
Proof.
  unfold dialContext. destruct (resolve d address) as [e|addr]; [intros so [=]|].
  destruct (dial addr) as [e|peer] eqn:Ed; [intros so [=]|].
  pose proof (authenticate_cases d h write peer) as Ha.
  assert (Hok : match (match DSASL d with
         | None => inr (mkSocket true [] peer)
         | Some a => let '(s, err) := connectSASLPlain a write (mkSocket true [] peer) in
             match err with Some e => inl (e, Some (SClose s)) | None => inr s end
         end : (error * option Socket) + Socket) with
    | inl (_, s) => abandoned d h s
    | inr s => exists addr' peer', inr addr = @inr error _ addr' /\ dial addr' = inr peer' /\
        s = mkSocket true (greeting d) (drop (answer d) peer')
    end) by (destruct (match DSASL d with None => _ | Some _ => _ end) as [[e s]|s]; [exact Ha|eauto]).
  destruct (TLS d) eqn:Et; [|exact Hok]. destruct h as [|e|e]; cbn [connectTLS]; [exact Hok| |].
  - intros so _ _. eauto.
  - intros so [= <-]. discriminate.
Qed.

(** ** Addresses *)

(** A host name without the special characters of addresses. *)
Lemma splitHostPort_plain s : plain s -> s <> [] -> splitHostPort s = (s, []).
Proof.
  intros Hp Hne. unfold splitHostPort, SplitHostPort. rewrite lastByte_None; [cbn; rewrite decide_True by auto; reflexivity|].
  revert Hp. apply Forall_impl. tauto.
Qed.

(** The resolver names a host; the port is the one that was asked for. *)
Lemma resolve_plain d lookupHost host port target others : Resolver d = Some lookupHost ->
  plain host -> plain port -> port <> [] -> plain target -> target <> [] ->
  lookupHost host = inr (target :: others) -> resolve d (host ++ colon :: port) = inr (target ++ colon :: port).
Proof.
  intros Er Hh Hp Hne Ht Htne El. unfold resolve. rewrite Er.
  assert (Es : splitHostPort (host ++ colon :: port) = (host, port)).
  { unfold splitHostPort. rewrite SplitHostPort_join by assumption. cbn. rewrite decide_False by tauto. reflexivity. }
  rewrite Es, El, decide_False by exact Hne. rewrite (splitHostPort_plain target Ht Htne). cbn [fst].
  unfold JoinHostPort. rewrite has_false by (apply plain_ne; [exact Ht|auto]). reflexivity.
Qed.

(** The message of SASL: its length is in front of it. *)
Lemma saslMessage_framed a : slen (User a) + slen (Pass a) + 2 < 2 ^ 32 ->
  exists body, saslMessage a = be_put 4 (len body) ++ body /\
    body = x00 :: bytes_of_string (User a) ++ x00 :: bytes_of_string (Pass a).
Proof.
  intros Hl. eexists. split; [|reflexivity]. unfold saslMessage. f_equal. f_equal.
  assert (E : len (x00 :: bytes_of_string (User a) ++ x00 :: bytes_of_string (Pass a)) =
    1 + len (bytes_of_string (User a)) + 1 + len (bytes_of_string (Pass a))).
  { unfold len. cbn [length]. rewrite length_app. cbn [length]. lia. }
  rewrite E. unfold uint32. apply zext_id. unfold in_uint, slen, len in *. lia.
Qed.
