(* ===== verification/Commands.v ===== *)
(** * The command line

    [src/cmd/jocko/main.go]: the command that creates a topic, and the flag that
    holds the address of serf. *)
From S2P Require Import Prelude Codec TopicApi ClusterApi Structs Store StoreSteps Cluster LogService BrokerState Errors Broker TopicAdmin ClusterInfo.

(** The flags of [topic create]. *)
Record TopicCfg := mkTopicCfg { CTopic : string; CPartitions : Z; CReplicationFactor : Z }.

(** The request that the command sends; its timeout is not set. *)
Definition createTopicRequests (cfg : TopicCfg) : CreateTopicRequests.t :=
  CreateTopicRequests.mk 0 [CreateTopicRequest.mk (CTopic cfg) (CPartitions cfg) (int16 (CReplicationFactor cfg)) ∅ ∅] 0 false.

(** How the command ends, given the response: the error it reports, if any. *)
Fixpoint reported (codes : list TopicErrorCode.t) : option Errors.Error.t :=
  match codes with
  | [] => None
  | c :: codes =>
      if negb (TopicErrorCode.ErrorCode c =? Errors.Error.Code Errors.Error.ErrNone)
      then Some (default (Errors.Error.mk 0 "" None) (Errors.Error.Errs !! TopicErrorCode.ErrorCode c))
      else reported codes
  end.
Definition createTopicCommand (resp : CreateTopicsResponse.t) : option Errors.Error.t :=
  reported (CreateTopicsResponse.TopicErrorCodes resp).

(** ** The flag for serf's address *)
Record BindAddress := mkBindAddress { BindAddr : string; BindPort : Z }.

(** [Set]; [None] is an error, after which the value is not used. *)
Definition setBindAddress (s : string) : option BindAddress :=
  '(bindIP, bindPort) ← SplitHostPort (bytes_of_string s);
  port ← Atoi (string_of_bytes bindPort);
  Some (mkBindAddress (string_of_bytes bindIP) port).
Definition bindAddressString (v : BindAddress) : string := BindAddr v +:+ ":" +:+ itoa (BindPort v).

Lemma bytes_of_string_app s1 s2 : bytes_of_string (s1 +:+ s2) = bytes_of_string s1 ++ bytes_of_string s2.
Proof.
  unfold bytes_of_string, String.list_byte_of_string. rewrite <- map_app. f_equal.
  induction s1 as [|c s1 IH]; [reflexivity|]. exact (f_equal (cons c) IH).
Qed.

(** What is printed is read back. *)
Lemma setBindAddress_string v : plain (bytes_of_string (BindAddr v)) -> in_int 64 (BindPort v) ->
  setBindAddress (bindAddressString v) = Some v.
Proof.
  intros Hp Hn. unfold setBindAddress, bindAddressString. rewrite !bytes_of_string_app.
  change (bytes_of_string ":") with [colon]. cbn [app].
  rewrite SplitHostPort_join by auto using itoa_plain. cbn [mbind option_bind].
  rewrite !string_of_bytes_of_string, Atoi_itoa by exact Hn. destruct v; reflexivity.
Qed.

(** ** The configuration of a broker *)

(** What the program sets of the configuration of serf. *)
Record SerfConfig := mkSerfConfig { QueueDepthWarning : Z; ReconnectTimeout : Z; Bind : BindAddress }.
Definition Second : Z := 1000000000.
Definition DefaultLANSerfPort : Z := 8301.

(** The configuration of the process: [Base] is what a broker reads of it. *)
Record BrokerCfg := mkBrokerCfg {
  Base : Config.t; DataDir : string; SerfLANConfig : SerfConfig; StartJoinAddrsWAN : list string;
  LeaveDrainTime : Z; ReconcileInterval : Z }.

Definition serfDefaultConfig (base : SerfConfig) : SerfConfig :=
  mkSerfConfig 1000000 (ReconnectTimeout base) (Bind base).

(** [hostname] and [base] are what the operating system and serf give; [None] is
    a panic. *)
Definition DefaultConfig (hostname : option string) (base : SerfConfig) : option BrokerCfg :=
  name ← hostname;
  let serf := serfDefaultConfig base in
  Some (mkBrokerCfg (Config.mk 0 name false "" false 0 false "" 3 []) ""
    (mkSerfConfig (QueueDepthWarning serf) (3 * 24 * 3600 * Second) (mkBindAddress (BindAddr (Bind serf)) DefaultLANSerfPort))
    [] (5 * Second) (60 * Second)).

(** [newMemberlistConfigValue]: the error of [Set] is dropped. *)
Definition newMemberlistConfigValue (v : BindAddress) (val : string) : BindAddress := default v (setBindAddress val).

(** [init]: defining the flags sets their variables to the defaults. *)
Definition initBroker (cfg : BrokerCfg) : BrokerCfg :=
  let c := Base cfg in
  mkBrokerCfg
    (Config.mk 0 (Config.NodeName c) (Config.DevMode c) "0.0.0.0:9092" false 0 (Config.NonVoter c) "127.0.0.1:9093"
       (Config.OffsetsTopicReplicationFactor c) [])
    "/tmp/jocko"
    (mkSerfConfig (QueueDepthWarning (SerfLANConfig cfg)) (ReconnectTimeout (SerfLANConfig cfg))
       (newMemberlistConfigValue (Bind (SerfLANConfig cfg)) "0.0.0.0:9094"))
    [] (LeaveDrainTime cfg) (ReconcileInterval cfg).
Definition initTopic : TopicCfg := mkTopicCfg "" 1 1.

(** Without flags a broker listens on three ports of its own, and asks for three
    replicas of the topic of consumer offsets. *)
Lemma defaults_ports name base cfg : DefaultConfig (Some name) base = Some cfg ->
  let c := initBroker cfg in
  (Config.Addr (Base c), Config.RaftAddr (Base c), bindAddressString (Bind (SerfLANConfig c))) =
    ("0.0.0.0:9092", "127.0.0.1:9093", "0.0.0.0:9094") /\
  Config.OffsetsTopicReplicationFactor (Base c) = 3 /\ Config.NodeName (Base c) = name.
Proof. intros [= <-]. cbn [Base initBroker Bind SerfLANConfig]. split; [|split; reflexivity]. vm_compute. reflexivity. Qed.
