(* ===== verification/GroupAdmin.v ===== *)
(** * Consumer groups

    The handlers of [src/jocko/broker.go] for groups: join, leave, sync,
    heartbeat, list, describe and the committed offsets, with those that are not
    implemented. *)
From S2P Require Import Prelude Codec GroupApi ClusterApi Structs Store StoreSteps Cluster LogService BrokerState Broker TopicAdmin.

Section handlers.
Context {L R D DB RF : Type} `{CommitLogOps L R} `{LogDirs D L} `{Memdb DB} `{Raft RF}.
Context `{Msgpack Node.t} `{Msgpack Topic.t} `{Msgpack Partition.t} `{Msgpack Structs.Group.t}.
Abbreviation Broker := (BrokerState.Broker L D DB RF).
Abbreviation group := Structs.Group.t.

(** ** Groups of the store *)
Definition setLeader (id : string) (g : group) : group :=
  Structs.Group.mk (Structs.Group.ID g) (Structs.Group.Group g) (Structs.Group.Coordinator g) id (Structs.Group.Members g)
    (Structs.Group.State g) (Structs.Group.GenerationID g) (Structs.Group.Raft g).
Definition setMembers (ms : gmap string Structs.Member.t) (g : group) : group :=
  Structs.Group.mk (Structs.Group.ID g) (Structs.Group.Group g) (Structs.Group.Coordinator g) (Structs.Group.LeaderID g) ms
    (Structs.Group.State g) (Structs.Group.GenerationID g) (Structs.Group.Raft g).

(** The store hands out pointers to its objects: a handler that writes to a field
    of a group it was given changes the object in the table, and not the index of
    groups by coordinator. *)
Definition poke (g : group) : M Broker unit := modify (fun b => set_db (Write Groups g (db b)) b).

Definition groupOf (id : string) : M Broker (option group) := gets (fun b => snd (GetGroup id (db b))).

(** [raftApply] of a group, whose response is not looked at. *)
Definition saveGroup (g : group) : M Broker (option error) :=
  r ← raftApply RegisterGroupRequestType g;
  mret match r with inl e => Some e | inr _ => None end.

(** ** Join *)

(** [id] is the client id of the request with a dash and a new UUID. *)
Definition joined (id memberID : string) (g : group) : string * group :=
  let '(memberID, g) :=
    if decide (memberID = "") then (id, setMembers (<[id := Structs.Member.mk id None None]> (Structs.Group.Members g)) g)
    else (memberID, g) in
  (memberID, if decide (Structs.Group.LeaderID g = "") then setLeader memberID g else g).
Definition newGroup (coordinator : Z) (id : string) : group :=
  Structs.Group.mk "" id coordinator "" ∅ GroupStatePreparingRebalance 0 RaftIndex.zero.

Definition joinError (r : JoinGroupRequest.t) : JoinGroupResponse.t :=
  JoinGroupResponse.mk (JoinGroupRequest.APIVersion r) 0 ErrUnknown 0 "" "" "" [].
Definition membersOf (o : map_order) (g : group) : list GroupApi.Member.t :=
  (fun kv => GroupApi.Member.mk (Structs.Member.ID (snd kv)) (Structs.Member.Metadata (snd kv))) <$>
    range o (Structs.Group.Members g).
Definition joinAnswer (o : map_order) (r : JoinGroupRequest.t) (memberID : string) (g : group) : JoinGroupResponse.t :=
  JoinGroupResponse.mk (JoinGroupRequest.APIVersion r) 0 ErrNone 0 "" (Structs.Group.LeaderID g) memberID
    (if decide (Structs.Group.LeaderID g = memberID) then membersOf o g else []).

Definition handleJoinGroup (o : map_order) (clientID uuid : string) (r : JoinGroupRequest.t)
  : M Broker JoinGroupResponse.t :=
  found ← groupOf (JoinGroupRequest.GroupID r);
  coordinator ← gets configID;
  let group := match found with Some g => g | None => newGroup coordinator (JoinGroupRequest.GroupID r) end in
  let '(memberID, group) := joined (clientID +:+ "-" +:+ uuid) (JoinGroupRequest.MemberID r) group in
  match found with Some _ => poke group | None => mret tt end ;;
  err ← saveGroup group;
  match err with
  | Some _ => mret (joinError r)
  | None => mret (joinAnswer o r memberID group)
  end.

(** ** Leave *)
Definition leaveAnswer (r : LeaveGroupRequest.t) (code : Z) : LeaveGroupResponse.t :=
  LeaveGroupResponse.mk (LeaveGroupRequest.APIVersion r) 0 code.
Definition handleLeaveGroup (r : LeaveGroupRequest.t) : M Broker LeaveGroupResponse.t :=
  found ← groupOf (LeaveGroupRequest.GroupID r);
  match found with
  | None => mret (leaveAnswer r ErrInvalidGroupId)
  | Some group =>
      match Structs.Group.Members group !! LeaveGroupRequest.MemberID r with
      | None => mret (leaveAnswer r ErrUnknownMemberId)
      | Some _ =>
          let group := setMembers (base.delete (LeaveGroupRequest.MemberID r) (Structs.Group.Members group)) group in
          poke group ;;
          err ← saveGroup group;
          mret (leaveAnswer r match err with Some _ => ErrUnknown | None => ErrNone end)
      end
  end.

(** ** Sync

    The assignments of the leader are written to copies of the members, so the
    group that is saved is the one that was found.  What the case of a
    completing rebalance collects is not used. *)
Definition syncAnswer (r : SyncGroupRequest.t) (code : Z) (a : option (list byte)) : SyncGroupResponse.t :=
  SyncGroupResponse.mk (SyncGroupRequest.APIVersion r) 0 code a.
Definition handleSyncGroup (r : SyncGroupRequest.t) : M Broker SyncGroupResponse.t :=
  found ← groupOf (SyncGroupRequest.GroupID r);
  match found with
  | None => mret (syncAnswer r ErrInvalidGroupId None)
  | Some group =>
      match Structs.Group.Members group !! SyncGroupRequest.MemberID r with
      | None => mret (syncAnswer r ErrUnknownMemberId None)
      | Some m =>
          if negb (SyncGroupRequest.GenerationID r =? Structs.Group.GenerationID group) then
            mret (syncAnswer r ErrIllegalGeneration None)
          else if (Structs.Group.State group =? GroupStateEmpty) || (Structs.Group.State group =? GroupStateDead) then
            mret (syncAnswer r ErrUnknownMemberId None)
          else if Structs.Group.State group =? GroupStatePreparingRebalance then
            mret (syncAnswer r ErrRebalanceInProgress None)
          else if decide (Structs.Group.LeaderID group = SyncGroupRequest.MemberID r) then
            if forallb (fun ga => bool_decide (is_Some (Structs.Group.Members group !! GroupAssignment.MemberID ga)))
                 (SyncGroupRequest.GroupAssignments r) then
              err ← saveGroup group;
              mret (syncAnswer r match err with Some _ => ErrUnknown | None => ErrNone end None)
            else crash
          else mret (syncAnswer r ErrNone (Structs.Member.Assignment m))
      end
  end.

(** ** Heartbeat *)
Definition handleHeartbeat (r : HeartbeatRequest.t) : M Broker HeartbeatResponse.t :=
  found ← groupOf (HeartbeatRequest.GroupID r);
  mret (HeartbeatResponse.mk (HeartbeatRequest.APIVersion r) 0
          match found with None => ErrInvalidGroupId | Some _ => ErrNone end).

(** ** List and describe *)
Definition handleListGroups (req : ListGroupsRequest.t) : M Broker ListGroupsResponse.t :=
  groups ← gets (fun b => snd (GetGroups (db b)));
  mret (ListGroupsResponse.mk (ListGroupsRequest.APIVersion req) 0 ErrNone
          ((fun g => ListGroup.mk (Structs.Group.Group g) "consumer") <$> groups)).

(** A group that does not exist is a nil pointer, and the map its members are
    written to is nil, so either panics.  What is built is not appended. *)
Fixpoint describeLoop (ids : list string) : M Broker unit :=
  match ids with
  | [] => mret tt
  | id :: ids =>
      g ← groupOf id;
      match g with
      | None => crash
      | Some g => if decide (Structs.Group.Members g = ∅) then describeLoop ids else crash
      end
  end.
Definition handleDescribeGroups (req : DescribeGroupsRequest.t) : M Broker DescribeGroupsResponse.t :=
  describeLoop (DescribeGroupsRequest.GroupIDs req) ;;
  mret (DescribeGroupsResponse.mk (DescribeGroupsRequest.APIVersion req) 0 []).

(** ** Committed offsets: a zero response for every topic *)
Definition handleOffsetFetch (req : OffsetFetchRequest.t) : M Broker OffsetFetchResponse.t :=
  mret (OffsetFetchResponse.mk (OffsetFetchRequest.APIVersion req)
          ((fun _ => OffsetFetchTopicResponse.zero) <$> OffsetFetchRequest.Topics req)).

(** ** Not implemented *)
Definition handleSaslHandshake (req : EmptyRequest.t) : M Broker EmptyResponse.t := crash.
Definition handleStopReplica (req : StopReplicaRequest.t) : M Broker StopReplicaResponse.t := crash.
Definition handleUpdateMetadata (req : EmptyRequest.t) : M Broker EmptyResponse.t := crash.
Definition handleControlledShutdown (req : EmptyRequest.t) : M Broker ControlledShutdownResponse.t := crash.
Definition handleOffsetCommit (req : OffsetCommitRequest.t) : M Broker OffsetCommitResponse.t := crash.
End handlers.

(** ** Lemmas *)
Section lemmas.
Context {L R D DB RF : Type} `{CommitLogOps L R} `{LogDirs D L}.
Context {ToLower : string -> string} `{MemdbLaws ToLower DB} `{Raft RF}.
Context `{Msgpack Node.t} `{Msgpack Topic.t} `{Msgpack Partition.t} `{Msgpack Structs.Group.t}.
Abbreviation Broker := (BrokerState.Broker L D DB RF).
Abbreviation group := Structs.Group.t.

(** [d'] is [d] with the group [g] in place of what had its name. *)
Definition holdsGroup (g : group) (d d' : DB) : Prop :=
  (forall k, First Groups k d' =
     if decide (norm ToLower Groups k = norm ToLower Groups (Structs.Group.Group g)) then Some g else First Groups k d) /\
  (forall K V (t : table K V) k, row t = true -> tableName t <> "groups" -> First t k d' = First t k d).

Lemma holdsGroup_trans g g' d d1 d2 : Structs.Group.Group g' = Structs.Group.Group g ->
  holdsGroup g d d1 -> holdsGroup g' d1 d2 -> holdsGroup g' d d2.
Proof.
  intros E [Hk1 Ht1] [Hk2 Ht2]. split.
  - intros k. rewrite Hk2, Hk1, E. case_decide; reflexivity.
  - intros K V t k Hr Hn. rewrite (Ht2 _ _ _ _ Hr Hn). apply Ht1; assumption.
Qed.

Lemma holdsGroup_at g d d' id : holdsGroup g d d' ->
  norm ToLower Groups id = norm ToLower Groups (Structs.Group.Group g) -> snd (GetGroup id d') = Some g.
Proof. intros [Hk _] E. unfold GetGroup. cbn [snd]. rewrite Hk, decide_True by exact E. reflexivity. Qed.

(** The name of a group that was found is not empty, and that asked for up to
    case. *)
Lemma group_named id g (d : DB) : First Groups id d = Some g ->
  norm ToLower Groups id = norm ToLower Groups (Structs.Group.Group g).
Proof. intros E. symmetry. exact (First_id Groups id g d E). Qed.

Definition named (g : group) : Prop := Structs.Group.Group g <> "".
#[global] Instance named_dec g : Decision (named g). Proof. unfold named. apply _. Defined.
Lemma named_indexable g : named g -> indexable Groups g = true.
Proof. intros Hn. cbn. rewrite bool_decide_false by exact Hn. reflexivity. Qed.

Lemma poke_spec g w (b : Broker) : First Groups (Structs.Group.Group g) (db b) = Some w ->
  exists d, poke g b = Ret tt (set_db d b) /\ holdsGroup g (db b) d.
Proof.
  intros Hw. exists (Write Groups g (db b)). split; [reflexivity|]. split.
  - intros k. case_decide as Hk.
    + rewrite (First_norm Groups k (Structs.Group.Group g)) by exact Hk. exact (First_write Groups g w _ Hw).
    + exact (First_write_ne Groups g k _ Hk).
  - intros K V t k _ Ht. apply (First_write_table Groups t g k). intros C. apply Ht. rewrite <- C. reflexivity.
Qed.

(** A group that is found is found under its own name. *)
Lemma group_found id g (d : DB) : First Groups id d = Some g -> First Groups (Structs.Group.Group g) d = Some g.
Proof. intros E. rewrite <- E. apply First_norm. symmetry. exact (group_named _ _ _ E). Qed.

(** Saving a group: raft refuses it, or commits it, and then it is in the store
    with new indexes. *)
Lemma saveGroup_refused g buf (b : Broker) : mp_encode g = Some buf ->
  (exists e r, raft_apply (byte_of_Z RegisterGroupRequestType :: buf) (raft b) = (inl e, r)) ->
  exists e r, saveGroup g b = Ret (Some e) (set_raft r b).
Proof.
  intros Eb (e & r & Ea). exists e, r. unfold saveGroup, raftApply, Encode, mbind, M_bind. rewrite Eb. cbn [option_bind].
  rewrite Ea. reflexivity.
Qed.

Lemma saveGroup_committed g n (b : Broker) : named g -> packs g -> commits (S n) (raft b) ->
  exists d r ri, saveGroup g b = Ret None (set_db d (set_raft r b)) /\ commits n r /\
    holdsGroup (Structs.Group.set_raft ri g) (db b) d.
Proof.
  intros Hn Hp Hc.
  destruct (register_row Groups g n b eq_refl (named_indexable g Hn) Hp Hc) as (d & r & i & E & Hc' & Hu1 & Hu2 & _).
  eexists d, r, _. split; [|split; [exact Hc'|split; [exact Hu1|]]].
  - unfold saveGroup. erewrite bind_Ret by exact E. reflexivity.
  - intros K V t k Hr Ht. apply Hu2; [exact Hr|]. intros C. apply Ht. rewrite <- C. reflexivity.
Qed.

(** Whatever raft does. *)
Lemma saveGroup_cases g (b : Broker) : packs g ->
  exists o b', saveGroup g b = Ret o b' /\
    (db b' = db b \/ named g /\ exists ri, holdsGroup (Structs.Group.set_raft ri g) (db b) (db b')).
Proof.
  intros (buf & Eb & Ed). destruct (raft_apply (byte_of_Z RegisterGroupRequestType :: buf) (raft b)) as [[e|i] r] eqn:Ea.
  { destruct (saveGroup_refused g buf b Eb ltac:(eauto)) as (e' & r' & E). exists (Some e'), (set_raft r' b). auto. }
  assert (Ereg := Apply_register Groups buf g i (db b) eq_refl Ed). cbn [registerType prepared] in Ereg.
  unfold saveGroup, raftApply, Encode, mbind, M_bind. rewrite Eb. cbn [option_bind]. rewrite Ea.
  unfold RegisterGroupRequestType in *. rewrite Ereg.
  destruct (indexable Groups g) eqn:Hi.
  - destruct (ensure_updates Groups i g (db b) eq_refl Hi) as (d & E & Hu1 & Hu2 & _). rewrite E.
    eexists _, _. split; [reflexivity|]. right. split; [|eexists; split; [exact Hu1|]].
    { cbn in Hi. intros C. rewrite bool_decide_true in Hi by exact C. discriminate. }
    intros K V t k Hr Ht. apply Hu2; [exact Hr|]. intros C. apply Ht. rewrite <- C. reflexivity.
  - rewrite (ensure_fails Groups i g (db b) Hi). eexists _, _. split; [reflexivity|]. left. reflexivity.
Qed.

(** *** Joining and leaving *)

(** The group that a member joins: the one found, or a new one. *)
Definition joining (b : Broker) (r : JoinGroupRequest.t) : group :=
  match snd (GetGroup (JoinGroupRequest.GroupID r) (db b)) with
  | Some g => g
  | None => newGroup (configID b) (JoinGroupRequest.GroupID r)
  end.

Lemma joined_name id m g : Structs.Group.Group (snd (joined id m g)) = Structs.Group.Group g.
Proof. unfold joined. destruct (decide (m = "")); cbn; destruct (decide _); reflexivity. Qed.

Lemma joining_name (b : Broker) r : norm ToLower Groups (JoinGroupRequest.GroupID r) =
  norm ToLower Groups (Structs.Group.Group (joining b r)).
Proof.
  unfold joining, GetGroup. cbn [snd]. destruct (First Groups _ (db b)) as [g|] eqn:E; [|reflexivity].
  exact (group_named _ _ _ E).
Qed.

(** The part of the handler before the group is saved: the group in the store, if
    there was one, is changed already. *)
Lemma join_prefix o clientID uuid r (b : Broker) id g : named (joining b r) ->
  joined (clientID +:+ "-" +:+ uuid) (JoinGroupRequest.MemberID r) (joining b r) = (id, g) ->
  exists d, handleJoinGroup o clientID uuid r b =
      (err ← saveGroup g;
       match err with Some _ => mret (joinError r) | None => mret (joinAnswer o r id g) end) (set_db d b) /\
    (d = db b /\ snd (GetGroup (JoinGroupRequest.GroupID r) (db b)) = None \/ holdsGroup g (db b) d).
Proof.
  intros Hn Ej. assert (Hg : named g).
  { unfold named. pose proof (joined_name (clientID +:+ "-" +:+ uuid) (JoinGroupRequest.MemberID r) (joining b r)) as E.
    rewrite Ej in E. cbn in E. rewrite E. exact Hn. }
  unfold handleJoinGroup, groupOf. do 2 erewrite bind_Ret by reflexivity. unfold joining in Ej. revert Ej.
  pose proof (joined_name (clientID +:+ "-" +:+ uuid) (JoinGroupRequest.MemberID r)) as Hname.
  destruct (snd (GetGroup _ (db b))) as [g0|] eqn:E0; intros Ej.
  - specialize (Hname g0). rewrite Ej in Hname. cbn [snd] in Hname.
    destruct (poke_spec g g0 b) as (d & E & Hd); [rewrite Hname; exact (group_found _ _ _ E0)|]. rewrite Ej. exists d. split; [|right; exact Hd].
    erewrite bind_Ret by exact E. reflexivity.
  - rewrite Ej. exists (db b). split; [|left; auto]. erewrite bind_Ret by reflexivity. destruct b; reflexivity.
Qed.

(** A join that raft commits. *)
Lemma join_committed o clientID uuid r n (b : Broker) id g : named (joining b r) -> packs g ->
  joined (clientID +:+ "-" +:+ uuid) (JoinGroupRequest.MemberID r) (joining b r) = (id, g) ->
  commits (S n) (raft b) ->
  exists b' ri, handleJoinGroup o clientID uuid r b = Ret (joinAnswer o r id g) b' /\ commits n (raft b') /\
    holdsGroup (Structs.Group.set_raft ri g) (db b) (db b').
Proof.
  intros Hn Hp Ej Hc. destruct (join_prefix o clientID uuid r b id g Hn Ej) as (d & E & Hd).
  assert (Hg : named g) by (unfold named in *; rewrite <- (joined_name (clientID +:+ "-" +:+ uuid) (JoinGroupRequest.MemberID r)),
    Ej in Hn; exact Hn).
  destruct (saveGroup_committed g n (set_db d b) Hg Hp Hc) as (d' & rf & ri & Es & Hc' & Hh).
  exists (set_db d' (set_raft rf (set_db d b))), ri. split; [|split; [exact Hc'|]].
  - rewrite E. erewrite bind_Ret by exact Es. reflexivity.
  - destruct Hd as [[-> _]|Hd]; [exact Hh|]. exact (holdsGroup_trans g (Structs.Group.set_raft ri g) _ _ _ eq_refl Hd Hh).
Qed.

(** A join that raft refuses, of a group that exists. *)
Lemma join_refused o clientID uuid r (b : Broker) id g g0 buf : named (joining b r) ->
  joined (clientID +:+ "-" +:+ uuid) (JoinGroupRequest.MemberID r) (joining b r) = (id, g) ->
  snd (GetGroup (JoinGroupRequest.GroupID r) (db b)) = Some g0 -> mp_encode g = Some buf ->
  (exists e rf, raft_apply (byte_of_Z RegisterGroupRequestType :: buf) (raft b) = (inl e, rf)) ->
  exists b', handleJoinGroup o clientID uuid r b = Ret (joinError r) b' /\ holdsGroup g (db b) (db b').
Proof.
  intros Hn Ej Eg Eb Ha. destruct (join_prefix o clientID uuid r b id g Hn Ej) as (d & E & [[_ C]|Hd]); [congruence|].
  destruct (saveGroup_refused g buf (set_db d b) Eb Ha) as (e & rf & Es).
  exists (set_raft rf (set_db d b)). split; [|exact Hd]. rewrite E. erewrite bind_Ret by exact Es. reflexivity.
Qed.

(** Leaving a group, when raft commits it. *)
Lemma leave_committed r n (b : Broker) g m : let id := LeaveGroupRequest.MemberID r in
  snd (GetGroup (LeaveGroupRequest.GroupID r) (db b)) = Some g -> named g -> Structs.Group.Members g !! id = Some m ->
  packs (setMembers (base.delete id (Structs.Group.Members g)) g) -> commits (S n) (raft b) ->
  exists b' ri, handleLeaveGroup r b = Ret (leaveAnswer r ErrNone) b' /\ commits n (raft b') /\
    holdsGroup (Structs.Group.set_raft ri (setMembers (base.delete id (Structs.Group.Members g)) g)) (db b) (db b').
Proof.
  intros id Eg Hn Em Hp Hc. set (g' := setMembers _ g) in *.
  assert (Hg' : named g') by exact Hn.
  destruct (poke_spec g' g b (group_found _ _ _ Eg)) as (d & E & Hd).
  destruct (saveGroup_committed g' n (set_db d b) Hg' Hp Hc) as (d' & rf & ri & Es & Hc' & Hh).
  exists (set_db d' (set_raft rf (set_db d b))), ri. split; [|split; [exact Hc'|exact (holdsGroup_trans g' (Structs.Group.set_raft ri g') _ _ _ eq_refl Hd Hh)]].
  unfold handleLeaveGroup, groupOf. erewrite bind_Ret by reflexivity. rewrite Eg. fold id. rewrite Em. fold g'.
  erewrite bind_Ret by exact E. erewrite bind_Ret by exact Es. reflexivity.
Qed.

(** *** Groups that wait for a rebalance forever *)

(** No group has left its first state and generation. *)
Definition preparing (g : group) : Prop :=
  Structs.Group.State g = GroupStatePreparingRebalance /\ Structs.Group.GenerationID g = 0.
Definition fresh (d : DB) : Prop := forall id g, First Groups id d = Some g -> named g /\ preparing g.

Lemma holdsGroup_fresh g d d' : holdsGroup g d d' -> named g -> preparing g -> fresh d -> fresh d'.
Proof. intros [Hk _] Hn Hg Hf id g'. rewrite Hk. case_decide; [intros [= <-]; split; assumption|apply Hf]. Qed.

Lemma saveGroup_fresh g (b : Broker) : packs g -> preparing g -> fresh (db b) ->
  exists o b', saveGroup g b = Ret o b' /\ fresh (db b').
Proof.
  intros Hp Hg Hf. destruct (saveGroup_cases g b Hp) as (o & b' & E & [Ed|[Hn [ri Hh]]]); exists o, b'; (split; [exact E|]).
  - rewrite Ed. exact Hf.
  - exact (holdsGroup_fresh _ _ _ Hh Hn Hg Hf).
Qed.

(** What the handlers that save groups do: one request each. *)
Inductive groupStep : Broker -> Broker -> Prop :=
| StepJoin o clientID uuid r b res b' : handleJoinGroup o clientID uuid r b = Ret res b' -> groupStep b b'
| StepLeave r b res b' : handleLeaveGroup r b = Ret res b' -> groupStep b b'
| StepSync r b res b' : handleSyncGroup r b = Ret res b' -> groupStep b b'.

Lemma joined_preparing id m g : preparing g -> preparing (snd (joined id m g)).
Proof. intros Hg. unfold joined. destruct (decide (m = "")); cbn; destruct (decide _); exact Hg. Qed.

(** What a sync answers to a fresh store. *)
Definition syncCode (r : SyncGroupRequest.t) (d : DB) : Z :=
  match snd (GetGroup (SyncGroupRequest.GroupID r) d) with
  | None => ErrInvalidGroupId
  | Some g =>
      if decide (Structs.Group.Members g !! SyncGroupRequest.MemberID r = None) then ErrUnknownMemberId
      else if SyncGroupRequest.GenerationID r =? 0 then ErrRebalanceInProgress else ErrIllegalGeneration
  end.

Lemma sync_fresh r (b : Broker) : fresh (db b) ->
  handleSyncGroup r b = Ret (syncAnswer r (syncCode r (db b)) None) b.
Proof.
  intros Hf. unfold handleSyncGroup, groupOf. erewrite bind_Ret by reflexivity. unfold syncCode.
  unfold GetGroup. cbn [snd]. destruct (First Groups (SyncGroupRequest.GroupID r) (db b)) as [g|] eqn:E; [|reflexivity].
  destruct (Hf _ _ E) as (_ & Hs & Hg). rewrite Hs, Hg.
  destruct (Structs.Group.Members g !! SyncGroupRequest.MemberID r) as [m|]; [|reflexivity].
  rewrite (decide_False (P := Some m = None)) by discriminate. destruct (_ =? 0); reflexivity.
Qed.

Lemma join_fresh o clientID uuid r (b : Broker) : (forall g : group, packs g) -> fresh (db b) ->
  exists res b', handleJoinGroup o clientID uuid r b = Ret res b' /\ fresh (db b').
Proof.
  intros Hp Hf. unfold handleJoinGroup, groupOf. do 2 erewrite bind_Ret by reflexivity.
  set (found := snd (GetGroup (JoinGroupRequest.GroupID r) (db b))).
  set (g0 := match found with Some g => g | None => _ end).
  assert (Hg0 : preparing g0).
  { unfold g0, found, GetGroup. cbn [snd]. destruct (First Groups _ (db b)) as [g|] eqn:E;
      [exact (proj2 (Hf _ _ E))|split; reflexivity]. }
  pose proof (joined_preparing (clientID +:+ "-" +:+ uuid) (JoinGroupRequest.MemberID r) g0 Hg0) as Hg.
  pose proof (joined_name (clientID +:+ "-" +:+ uuid) (JoinGroupRequest.MemberID r) g0) as Hname.
  destruct (joined _ _ g0) as [id g] eqn:Ej. cbn [snd] in Hg, Hname.
  assert (Hpre : exists b1, match found with Some _ => poke g | None => mret tt end b = Ret tt b1 /\ fresh (db b1)).
  { unfold g0, found, GetGroup in *. cbn [snd] in *. destruct (First Groups _ (db b)) as [g1|] eqn:E;
      [|exists b; auto]. assert (Hn : named g) by (unfold named; rewrite Hname; exact (proj1 (Hf _ _ E))).
    destruct (poke_spec g g1 b) as (d & Ep & Hd); [rewrite Hname; exact (group_found _ _ _ E)|]. exists (set_db d b). split; [exact Ep|].
    exact (holdsGroup_fresh _ _ _ Hd Hn Hg Hf). }
  destruct Hpre as (b1 & Epre & Hf1). erewrite bind_Ret by exact Epre.
  destruct (saveGroup_fresh g b1 (Hp g) Hg Hf1) as (err & b2 & Es & Hf2). erewrite bind_Ret by exact Es.
  destruct err; eexists _, b2; (split; [reflexivity|exact Hf2]).
Qed.

Lemma leave_fresh r (b : Broker) : (forall g : group, packs g) -> fresh (db b) ->
  exists res b', handleLeaveGroup r b = Ret res b' /\ fresh (db b').
Proof.
  intros Hp Hf. unfold handleLeaveGroup, groupOf. erewrite bind_Ret by reflexivity. unfold GetGroup. cbn [snd].
  destruct (First Groups _ (db b)) as [g|] eqn:E; [|eexists _, b; split; [reflexivity|exact Hf]].
  destruct (Structs.Group.Members g !! _) as [m|]; [|eexists _, b; split; [reflexivity|exact Hf]].
  set (g' := setMembers _ g). destruct (Hf _ _ E) as [Hn Hg]. assert (Hn' : named g') by exact Hn.
  destruct (poke_spec g' g b (group_found _ _ _ E)) as (d & Ep & Hd). erewrite bind_Ret by exact Ep.
  destruct (saveGroup_fresh g' (set_db d b) (Hp g') Hg (holdsGroup_fresh _ _ _ Hd Hn' Hg Hf)) as (err & b2 & Es & Hf2).
  erewrite bind_Ret by exact Es. eexists _, b2. split; [reflexivity|exact Hf2].
Qed.

Lemma groupStep_fresh (b b' : Broker) : (forall g : group, packs g) -> groupStep b b' -> fresh (db b) -> fresh (db b').
Proof.
  intros Hp Hs Hf. destruct Hs as [o c u r b res b' E|r b res b' E|r b res b' E].
  - destruct (join_fresh o c u r b Hp Hf) as (res' & b1 & E' & Hf'). rewrite E in E'. injection E' as _ ->. exact Hf'.
  - destruct (leave_fresh r b Hp Hf) as (res' & b1 & E' & Hf'). rewrite E in E'. injection E' as _ ->. exact Hf'.
  - rewrite (sync_fresh r b Hf) in E. injection E as _ <-. exact Hf.
Qed.

(** *** The index of groups by coordinator *)

Lemma raftApply_indexed {A K V} `{Msgpack A} (i : intIndex K V) ty (msg : A) (b b' : Broker) x :
  raftApply ty msg b = Ret x b' -> indexed i (db b) -> indexed i (db b').
Proof.
  unfold raftApply. destruct (Encode ty msg) as [buf|]; [|intros [= _ <-]; auto].
  destruct (raft_apply buf (raft b)) as [[e|j] r]; [intros [= _ <-]; auto|].
  destruct (Apply buf j (db b)) as [u d|e d|] eqn:E; [| |discriminate]; intros [= _ <-]; cbn;
    apply (Apply_indexed i buf j); rewrite E; reflexivity.
Qed.

Lemma saveGroup_indexed {K V} (i : intIndex K V) g (b b' : Broker) o :
  saveGroup g b = Ret o b' -> indexed i (db b) -> indexed i (db b').
Proof. intros E. unfold saveGroup in E. apply bind_inv in E as (r & b1 & E & [= _ <-]). exact (raftApply_indexed i _ _ _ _ _ E). Qed.

(** A write in place that leaves the coordinator alone. *)
Lemma poke_indexed {K V} (i : intIndex K V) g w (b b' : Broker) u :
  First Groups (Structs.Group.Group g) (db b) = Some w -> Structs.Group.Coordinator g = Structs.Group.Coordinator w ->
  poke g b = Ret u b' -> indexed i (db b) -> indexed i (db b').
Proof. intros Hw Hc [= _ <-]. exact (indexed_write i Groups g w (db b) Hw Hc). Qed.

Lemma joined_coordinator id m g : Structs.Group.Coordinator (snd (joined id m g)) = Structs.Group.Coordinator g.
Proof. unfold joined. destruct (decide (m = "")); cbn; destruct (decide _); reflexivity. Qed.

(** What members do keeps the indexes right: only a change of the coordinator
    breaks one. *)
Lemma groupStep_indexed {K V} (i : intIndex K V) (b b' : Broker) : groupStep b b' -> indexed i (db b) -> indexed i (db b').
Proof.
  destruct 1 as [o c u r b res b' E|r b res b' E|r b res b' E]; intros Hi.
  - unfold handleJoinGroup in E. apply bind_inv in E as (f & b0 & E0 & E). injection E0 as <- <-.
    apply bind_inv in E as (me & b0 & E0 & E). injection E0 as <- <-.
    match type of E with context [joined ?x ?y ?z] =>
      pose proof (joined_name x y z) as Hname; pose proof (joined_coordinator x y z) as Hc; destruct (joined x y z) as [id g] end.
    unfold GetGroup in *. cbn [snd] in *. apply bind_inv in E as (u1 & b1 & E1 & E). apply bind_inv in E as (err & b2 & E2 & E).
    assert (Hi2 : indexed i (db b2)).
    { refine (saveGroup_indexed i _ _ _ _ E2 _). destruct (First Groups _ (db b)) as [g0|] eqn:E0; [|injection E1 as _ <-; exact Hi].
      refine (poke_indexed i g g0 b b1 u1 _ Hc E1 Hi). rewrite Hname. exact (group_found _ _ _ E0). }
    destruct err; injection E as _ <-; exact Hi2.
  - unfold handleLeaveGroup in E. apply bind_inv in E as (f & b0 & E0 & E). injection E0 as <- <-.
    destruct (First Groups _ (db b)) as [g|] eqn:E0; [|injection E as _ <-; exact Hi].
    destruct (_ !! _); [|injection E as _ <-; exact Hi].
    apply bind_inv in E as (u1 & b1 & E1 & E). apply bind_inv in E as (err & b2 & E2 & E). injection E as _ <-.
    refine (saveGroup_indexed i _ _ _ _ E2 _).
    exact (poke_indexed i (setMembers _ g) g b b1 u1 (group_found _ _ _ E0) eq_refl E1 Hi).
  - unfold handleSyncGroup in E. apply bind_inv in E as (f & b0 & E0 & E). injection E0 as <- <-.
    destruct (First Groups _ (db b)) as [g|]; [|injection E as _ <-; exact Hi].
    destruct (_ !! _); [|injection E as _ <-; exact Hi].
    repeat match type of E with
    | (if ?x then _ else _) _ = _ => destruct x
    end; try discriminate E; try (injection E as _ <-; exact Hi).
    apply bind_inv in E as (err & b2 & E2 & E). injection E as _ <-. exact (saveGroup_indexed i _ _ _ _ E2 Hi).
Qed.

Lemma groupSteps_fresh (b b' : Broker) : (forall g : group, packs g) -> rtc groupStep b b' ->
  fresh (db b) -> fresh (db b').
Proof. intros Hp. induction 1 as [b|b b1 b' Hs _ IH]; intros Hf; [exact Hf|]. apply IH. exact (groupStep_fresh _ _ Hp Hs Hf). Qed.
End lemmas.
