(* ===== verification/Membership.v ===== *)
(** * Members of the cluster

    [src/jocko/serf.go]: the events of serf, the lookup of brokers, the first
    configuration of raft, and the members passed on to the leader; [Leave] and
    [numPeers] of [src/jocko/broker.go]. *)
From S2P Require Import Prelude ClusterApi Structs Store Cluster LogService BrokerState.

Definition StatusReap : Z := -1.

(** Serf's events about members; others are ignored. *)
Inductive EventType := EventMemberJoin | EventMemberLeave | EventMemberFailed | EventMemberUpdate | EventMemberReap.
#[global] Instance eventType_eq_dec : EqDecision EventType. Proof. solve_decision. Defined.
Record MemberEvent := mkMemberEvent { Type_ : EventType; Members : list SerfMember.t }.

(** The tags that [setupSerf] gives this member, which the others read with
    [IsBroker]; [serfLANAddr] is printed from the configuration of serf. *)
Definition setupTags (c : Config.t) (serfLANAddr : string) (tags : gmap string string) : gmap string string :=
  let tags := <["role" := "jocko"]> tags in
  let tags := <["id" := itoa (Config.ID c)]> tags in
  let tags := if Config.Bootstrap c then <["bootstrap" := "1"]> tags else tags in
  let tags := if negb (Config.BootstrapExpect c =? 0) then <["expect" := itoa (Config.BootstrapExpect c)]> tags else tags in
  let tags := if Config.NonVoter c then <["non_voter" := "1"]> tags else tags in
  let tags := <["raft_addr" := Config.RaftAddr c]> tags in
  let tags := <["serf_lan_addr" := serfLANAddr]> tags in
  <["broker_addr" := Config.Addr c]> tags.

Section events.
Context {L R D DB RF : Type} `{CommitLogOps L R} `{LogDirs D L} `{Memdb DB} `{Raft RF}.
Abbreviation Broker := (BrokerState.Broker L D DB RF).

(** ** The first configuration of raft *)

(** The brokers among the members; [None] when one of them expects another
    number of brokers or is in bootstrap mode. *)
Fixpoint expected (n : Z) (ms : list SerfMember.t) : option (list BrokerMeta.t) :=
  match ms with
  | [] => Some []
  | m :: ms =>
      match IsBroker m with
      | None => expected n ms
      | Some meta =>
          if negb (BrokerMeta.Expect meta =? 0) && negb (BrokerMeta.Expect meta =? n) then None
          else if BrokerMeta.Bootstrap meta then None
          else brokers ← expected n ms; Some (meta :: brokers)
      end
  end.
Definition peer (meta : BrokerMeta.t) : Server.t :=
  Server.mk (itoa (BrokerMeta.ID meta)) (BrokerMeta.RaftAddr meta) true.
Definition doneBootstrapping (b : Broker) : Broker := set_config (Config.set_expect 0 (config b)) b.

Definition maybeBootstrap : M Broker unit := fun b =>
  match raft_lastIndex (raft b) with
  | inl _ => Ret tt b
  | inr index =>
      if negb (index =? 0) then Ret tt (doneBootstrapping b) else
      match expected (Config.BootstrapExpect (config b)) (members b) with
      | None => Ret tt b
      | Some brokers =>
          if len brokers <? Config.BootstrapExpect (config b) then Ret tt b
          else Ret tt (doneBootstrapping (set_raft (snd (raft_bootstrap (peer <$> brokers) (raft b))) b))
      end
  end.

(** ** Events *)
Definition lanNodeJoin (ms : list SerfMember.t) : M Broker unit :=
  for_each ms (fun m =>
    match IsBroker m with
    | None => mret tt
    | Some meta =>
        modify (fun b => set_knownBrokers (AddBroker meta (knownBrokers b)) b) ;;
        expect ← gets (fun b => Config.BootstrapExpect (config b));
        when (negb (expect =? 0)) maybeBootstrap
    end).
Definition lanNodeFailed (ms : list SerfMember.t) : M Broker unit :=
  for_each ms (fun m =>
    match IsBroker m with
    | None => mret tt
    | Some meta => modify (fun b => set_knownBrokers (RemoveBroker meta (knownBrokers b)) b)
    end).

(** A member is dropped when the channel to the leader loop, of 32, is full. *)
Definition reconcileCap : nat := 32.
Definition offer (m : SerfMember.t) (ch : list SerfMember.t) : list SerfMember.t :=
  if decide (length ch < reconcileCap)%nat then ch ++ [m] else ch.
Definition reaped (m : SerfMember.t) : SerfMember.t :=
  SerfMember.mk (SerfMember.Name m) (SerfMember.Tags m) StatusReap.
Definition localMemberEvent (e : MemberEvent) : M Broker unit :=
  leader ← isLeader;
  if negb (leader : bool) then mret tt else
  let isReap := bool_decide (Type_ e = EventMemberReap) in
  for_each (Members e) (fun m =>
    let m := if isReap then reaped m else m in
    modify (fun b => set_reconcileCh (offer m (reconcileCh b)) b)).

(** The body of the loop of [lanEventHandler]. *)
Definition lanEvent (e : MemberEvent) : M Broker unit :=
  match Type_ e with
  | EventMemberJoin => lanNodeJoin (Members e) ;; localMemberEvent e
  | EventMemberReap => localMemberEvent e
  | EventMemberLeave | EventMemberFailed => lanNodeFailed (Members e) ;; localMemberEvent e
  | EventMemberUpdate => mret tt
  end.
(** Every event comes with the members that serf knows by then. *)
Definition lanEventHandler (es : list (list SerfMember.t * MemberEvent)) : M Broker unit :=
  for_each es (fun e => modify (set_members (fst e)) ;; lanEvent (snd e)).

(** ** Leaving *)
Definition numPeers (b : Broker) : error + Z :=
  match raft_configuration (raft b) with
  | inl e => inl e
  | inr servers => inr (len (filter (fun s => Server.Voter s = true) servers))
  end.

(** The wait until raft has removed a follower changes nothing. *)
Definition Leave : M Broker (option error) := fun b =>
  match numPeers b with
  | inl e => Ret (Some e) b
  | inr n =>
      if raft_isLeader (raft b) && (1 <? n) then
        Ret None (set_raft (snd (raft_removeServer (itoa (configID b)) (raft b))) b)
      else Ret None b
  end.
End events.

(** ** What the other members read of the tags *)
Lemma setup_IsBroker c serfLANAddr (tags : gmap string string) name status :
  in_int 32 (Config.ID c) -> in_int 64 (Config.BootstrapExpect c) ->
  tags !! "expect" = None -> tags !! "bootstrap" = None -> tags !! "non_voter" = None -> tags !! "name" = None ->
  IsBroker (SerfMember.mk name (setupTags c serfLANAddr tags) status) =
  Some (BrokerMeta.mk (Config.ID c) "" (Config.Bootstrap c) (Config.BootstrapExpect c) (Config.NonVoter c) status
          (Config.RaftAddr c) serfLANAddr (Config.Addr c)).
Proof.
  intros Hid Hex He Hb Hn Hname. unfold IsBroker, tag, setupTags. cbn [SerfMember.Tags SerfMember.Status].
  destruct (Config.NonVoter c), (Z.eqb_spec (Config.BootstrapExpect c) 0) as [Hz|Hz], (Config.Bootstrap c);
    cbn [negb]; rewrite ?Hz;
    repeat (rewrite lookup_insert_eq || rewrite lookup_insert_ne by discriminate);
    rewrite ?He, ?Hb, ?Hn, ?Hname; cbn [default id];
    rewrite (bool_decide_true ("jocko" = "jocko")) by reflexivity; cbn [negb mbind option_bind];
    rewrite ?Atoi_itoa by (exact Hex || (unfold in_int in *; lia)); cbn [mbind option_bind];
    unfold int32; rewrite sext_id by (exact Hid || lia); reflexivity.
Qed.

(** ** Lemmas *)
Section lemmas.
Context {L R D DB RF : Type} `{CommitLogOps L R} `{LogDirs D L} `{Memdb DB} `{Raft RF}.
Abbreviation Broker := (BrokerState.Broker L D DB RF).

(** What events do besides the lookup: raft is bootstrapped once at most, with the
    brokers that were expected; the channel stays within its capacity; nothing
    else of the broker changes. *)
Definition bootstraps (seen : list (list SerfMember.t)) (b b' : Broker) : Prop :=
  raft b' = raft b \/
  exists ms brokers, ms ∈ seen /\ raft_lastIndex (raft b) = inr 0 /\ Config.BootstrapExpect (config b) <> 0 /\
    expected (Config.BootstrapExpect (config b)) ms = Some brokers /\
    Config.BootstrapExpect (config b) <= len brokers /\
    raft b' = snd (raft_bootstrap (peer <$> brokers) (raft b)) /\ Config.BootstrapExpect (config b') = 0.

Definition expects (b b' : Broker) : Prop :=
  config b' = config b \/ config b' = Config.set_expect 0 (config b).

Record eventStep (seen : list (list SerfMember.t)) (b b' : Broker) : Prop := {
  es_raft : bootstraps seen b b';
  es_config : expects b b';
  es_ch : (length (reconcileCh b) <= reconcileCap)%nat -> (length (reconcileCh b') <= reconcileCap)%nat;
  es_rest : db b' = db b /\ replicas b' = replicas b /\ replicaLookup b' = replicaLookup b /\ disk b' = disk b }.

Lemma eventStep_refl seen (b : Broker) : eventStep seen b b.
Proof. split; [left|left|auto|]; auto. Qed.

Lemma set_expect_twice c : Config.set_expect 0 (Config.set_expect 0 c) = Config.set_expect 0 c.
Proof. reflexivity. Qed.

Lemma eventStep_trans seen (b b1 b2 : Broker) : eventStep seen b b1 -> eventStep seen b1 b2 -> eventStep seen b b2.
Proof.
  intros [R1 C1 H1' (D1 & P1 & Q1 & K1)] [R2 C2 H2' (D2 & P2 & Q2 & K2)]. split; [| |auto|split_and!; congruence].
  - destruct R1 as [E1|(ms & br & Hin & Hl & Hne & Hex & Hle & E1 & Hz)].
    + destruct R2 as [E2|(ms & br & Hin & Hl & Hne & Hex & Hle & E2 & Hz)]; [left; congruence|right].
      destruct C1 as [C1|C1]; [|rewrite C1 in Hne; destruct (Hne eq_refl)].
      exists ms, br. rewrite <- E1, <- C1. auto 10.
    + right. exists ms, br. destruct R2 as [E2|(? & ? & _ & _ & Hne' & _)]; [|destruct (Hne' Hz)].
      split_and!; try assumption; [congruence|]. destruct C2 as [->| ->]; [exact Hz|reflexivity].
  - unfold expects in *. destruct C1 as [C1|C1], C2 as [C2|C2]; rewrite C2, C1; rewrite ?set_expect_twice; auto.
Qed.

Lemma maybeBootstrap_step seen (b : Broker) : members b ∈ seen -> Config.BootstrapExpect (config b) <> 0 ->
  exists b', maybeBootstrap b = Ret tt b' /\ eventStep seen b b' /\ knownBrokers b' = knownBrokers b /\ members b' = members b.
Proof.
  intros Hin Hne. unfold maybeBootstrap. destruct (raft_lastIndex (raft b)) as [e|i] eqn:Hl.
  { exists b. split_and!; auto using eventStep_refl. }
  destruct (Z.eqb_spec i 0) as [->|]; cbn [negb].
  2:{ eexists. split; [reflexivity|]. split; [|auto]. split; [left|right|auto|]; auto. }
  destruct (expected _ (members b)) as [brokers|] eqn:Ex; [|exists b; split_and!; auto using eventStep_refl].
  destruct (Z.ltb_spec (len brokers) (Config.BootstrapExpect (config b))); [exists b; split_and!; auto using eventStep_refl|].
  eexists. split; [reflexivity|]. split; [|auto]. split; [right|right|auto|]; auto. exists (members b), brokers. auto 10.
Qed.

(** One step of the handler with what it does to the lookup. *)
Definition tracked (seen : list (list SerfMember.t)) (m : M Broker unit) (evs : list event) : Prop :=
  forall b : Broker, members b ∈ seen -> exists b', m b = Ret tt b' /\ eventStep seen b b' /\
    knownBrokers b' = foldl handleEvent (knownBrokers b) evs /\ members b' = members b.

Lemma tracked_ret seen : tracked seen (mret tt) [].
Proof. intros b Hb. exists b. split_and!; auto using eventStep_refl. Qed.

Lemma tracked_seq seen m1 m2 e1 e2 : tracked seen m1 e1 -> tracked seen m2 e2 -> tracked seen (m1 ;; m2) (e1 ++ e2).
Proof.
  intros T1 T2 b Hb. destruct (T1 b Hb) as (b1 & E1 & S1 & K1 & M1).
  destruct (T2 b1) as (b2 & E2 & S2 & K2 & M2); [rewrite M1; exact Hb|].
  exists b2. split; [erewrite bind_Ret by exact E1; exact E2|]. split; [exact (eventStep_trans _ _ _ _ S1 S2)|].
  rewrite K2, K1, foldl_app. split; [reflexivity|congruence].
Qed.

Lemma tracked_for_each {A} seen (xs : list A) f (ev : A -> list event) :
  (forall x, tracked seen (f x) (ev x)) -> tracked seen (for_each xs f) (xs ≫= ev).
Proof. intros Hf. induction xs as [|x xs IH]; [apply tracked_ret|]. cbn [for_each mbind list_bind]. apply tracked_seq; auto. Qed.

Lemma tracked_lookup seen f evs : (forall l, f l = foldl handleEvent l evs) ->
  tracked seen (modify (fun b => set_knownBrokers (f (knownBrokers b)) b)) evs.
Proof.
  intros Hf b Hb. eexists. split; [reflexivity|]. split; [split; [left|left|auto|]; auto|]. split; [apply Hf|reflexivity].
Qed.

Lemma tracked_bootstrap seen :
  tracked seen (expect ← gets (fun b => Config.BootstrapExpect (config b)); when (negb (expect =? 0)) maybeBootstrap) [].
Proof.
  intros b Hb. erewrite bind_Ret by reflexivity. destruct (Z.eqb_spec (Config.BootstrapExpect (config b)) 0); cbn [negb when].
  - exists b. split_and!; auto using eventStep_refl.
  - exact (maybeBootstrap_step seen b Hb n).
Qed.

Lemma handleEvent_broker m meta e l : IsBroker m = Some meta -> member e = m ->
  handleEvent l e = match e with NodeJoin _ => AddBroker meta l | NodeFailed _ => RemoveBroker meta l end.
Proof. intros E <-. unfold handleEvent. rewrite E. reflexivity. Qed.

Lemma tracked_skip seen m e : IsBroker m = None -> member e = m -> tracked seen (mret tt) [e].
Proof.
  intros E <- b Hb. exists b. split_and!; auto using eventStep_refl. cbn. unfold handleEvent. rewrite E. reflexivity.
Qed.

Lemma lanNodeJoin_tracked seen ms : tracked seen (lanNodeJoin ms) (ms ≫= fun m => [NodeJoin m]).
Proof.
  apply tracked_for_each. intros m. destruct (IsBroker m) as [meta|] eqn:E; [|exact (tracked_skip seen m (NodeJoin m) E eq_refl)].
  apply (tracked_seq seen _ _ [NodeJoin m] []); [|apply tracked_bootstrap].
  apply tracked_lookup. intros l. symmetry. exact (handleEvent_broker m meta (NodeJoin m) l E eq_refl).
Qed.
Lemma lanNodeFailed_tracked seen ms : tracked seen (lanNodeFailed ms) (ms ≫= fun m => [NodeFailed m]).
Proof.
  apply tracked_for_each. intros m. destruct (IsBroker m) as [meta|] eqn:E; [|exact (tracked_skip seen m (NodeFailed m) E eq_refl)].
  apply tracked_lookup. intros l. symmetry. exact (handleEvent_broker m meta (NodeFailed m) l E eq_refl).
Qed.

Lemma localMemberEvent_tracked seen e : tracked seen (localMemberEvent e) [].
Proof.
  assert (Ht : tracked seen (for_each (Members e) (fun m =>
    let m := if bool_decide (Type_ e = EventMemberReap) then reaped m else m in
    modify (fun b => set_reconcileCh (offer m (reconcileCh b)) b))) (Members e ≫= fun _ => [])).
  { apply tracked_for_each. intros m b Hb. cbv zeta. unfold modify. eexists. split; [reflexivity|]. split; [|split; reflexivity].
    split; [left|left| |]; auto. cbn [reconcileCh set_reconcileCh]. unfold offer.
    destruct (decide _) as [Hlt|]; [|auto]. rewrite length_app. cbn [length]. lia. }
  assert (Hnil : Members e ≫= (fun _ => @nil event) = []) by (clear; induction (Members e) as [|m ms IH]; [reflexivity|exact IH]).
  rewrite Hnil in Ht. intros b Hb. unfold localMemberEvent, isLeader. erewrite bind_Ret by reflexivity.
  destruct (raft_isLeader (raft b)); cbn [negb]; [exact (Ht b Hb)|exact (tracked_ret seen b Hb)].
Qed.

(** The events of the lookup that an event of serf stands for. *)
Definition eventsOf (e : MemberEvent) : list event :=
  match Type_ e with
  | EventMemberJoin => Members e ≫= fun m => [NodeJoin m]
  | EventMemberLeave | EventMemberFailed => Members e ≫= fun m => [NodeFailed m]
  | EventMemberReap | EventMemberUpdate => []
  end.

Lemma lanEvent_tracked seen e : tracked seen (lanEvent e) (eventsOf e).
Proof.
  assert (Hthen : forall m evs, tracked seen m evs -> tracked seen (m ;; localMemberEvent e) evs).
  { intros m evs Hm. rewrite <- (app_nil_r evs). apply tracked_seq; [exact Hm|apply localMemberEvent_tracked]. }
  unfold lanEvent, eventsOf. destruct (Type_ e);
    auto using tracked_ret, lanNodeJoin_tracked, lanNodeFailed_tracked, localMemberEvent_tracked.
Qed.

Lemma lanEventHandler_spec es : forall b : Broker,
  exists b', lanEventHandler es b = Ret tt b' /\ eventStep es.*1 b b' /\
    knownBrokers b' = foldl handleEvent (knownBrokers b) (es.*2 ≫= eventsOf).
Proof.
  assert (Hgen : forall seen es', (forall e, e ∈ es' -> fst e ∈ seen) -> forall b : Broker, exists b',
    lanEventHandler es' b = Ret tt b' /\ eventStep seen b b' /\
    knownBrokers b' = foldl handleEvent (knownBrokers b) (es'.*2 ≫= eventsOf)).
  { intros seen. induction es' as [|e es' IH]; intros Hin b; [exists b; split_and!; auto using eventStep_refl|].
    destruct (lanEvent_tracked seen (snd e) (set_members (fst e) b)) as (b1 & E1 & S1 & K1 & _); [apply Hin; left|].
    destruct (IH (fun x Hx => Hin x ltac:(right; exact Hx)) b1) as (b2 & E2 & S2 & K2).
    exists b2. split.
    - unfold lanEventHandler in *. cbn [for_each]. rewrite bind_assoc. erewrite bind_Ret by reflexivity.
      erewrite bind_Ret by exact E1. exact E2.
    - split; [|rewrite K2, K1, fmap_cons; cbn [mbind list_bind]; rewrite foldl_app; reflexivity].
      apply (eventStep_trans _ _ b1); [|exact S2]. destruct S1 as [A1 A2 A3 A4]. split; assumption. }
  apply Hgen. intros e He. apply list_elem_of_fmap_2, He.
Qed.
End lemmas.
