(* ===== verification/Leader.v ===== *)
(** * The leader of the cluster

    [src/jocko/leader.go]: the leader keeps the nodes of the store and the
    servers of raft in step with the members that serf knows, and gives the
    partitions of a broker that failed to others. *)
From S2P Require Import Prelude Codec ClusterApi Structs Store StoreSteps Cluster LogService BrokerState Broker TopicAdmin GroupAdmin ClusterInfo Membership.

(** Statuses of serf. *)
Definition StatusLeft : Z := 3.
Definition StatusFailed : Z := 4.

Section leader.
Context {L R D DB RF : Type} `{CommitLogOps L R} `{LogDirs D L} `{Memdb DB} `{Raft RF}.
Context `{Msgpack Node.t} `{Msgpack Topic.t} `{Msgpack Partition.t} `{Msgpack Structs.Group.t}.
Abbreviation Broker := (BrokerState.Broker L D DB RF).

(** The functions return an error or nil; [on_ok e k] goes on with [k] when there
    is none. *)
Definition on_ok (m : M Broker (option error)) (k : M Broker (option error)) : M Broker (option error) :=
  e ← m; match e with Some e => mret (Some e) | None => k end.
Definition applied {A} `{Msgpack A} (t : Z) (msg : A) : M Broker (option error) :=
  r ← raftApply t msg; mret match r with inl e => Some e | inr _ => None end.
Definition onRaft (f : RF -> option error * RF) : M Broker (option error) := fun b =>
  let '(e, r) := f (raft b) in Ret e (set_raft r b).

(** ** The servers of raft *)

(** The loop over the servers: [Some true] when the member is one of them. *)
Fixpoint dropDuplicates (addr id : string) (servers : list Server.t) : M Broker (error + bool) :=
  match servers with
  | [] => mret (inr false)
  | s :: servers =>
      let sameAddr := bool_decide (Server.Address s = addr) in
      let sameID := bool_decide (Server.ID s = id) in
      if sameAddr || sameID then
        if sameAddr && sameID then mret (inr true) else
        e ← onRaft (raft_removeServer (Server.ID s));
        match e with Some e => mret (inl e) | None => dropDuplicates addr id servers end
      else dropDuplicates addr id servers
  end.

(** Another member is in bootstrap mode. *)
Definition otherBootstrap (name : string) (members : list SerfMember.t) : bool :=
  existsb (fun m => match IsBroker m with
                    | Some p => negb (bool_decide (SerfMember.Name m = name)) && BrokerMeta.Bootstrap p
                    | None => false
                    end) members.

Definition joinCluster (m : SerfMember.t) (parts : BrokerMeta.t) : M Broker (option error) :=
  b ← gets (fun b => b);
  if BrokerMeta.Bootstrap parts && otherBootstrap (SerfMember.Name m) (members b) then mret None else
  match raft_configuration (raft b) with
  | inl e => mret (Some e)
  | inr servers =>
      if bool_decide (SerfMember.Name m = Config.NodeName (config b)) && (len servers <? 3) then mret None else
      let id := itoa (BrokerMeta.ID parts) in
      r ← dropDuplicates (BrokerMeta.RaftAddr parts) id servers;
      match r with
      | inl e => mret (Some e)
      | inr true => mret None
      | inr false => onRaft (raft_addServer (negb (BrokerMeta.NonVoter parts)) id (BrokerMeta.RaftAddr parts))
      end
  end.

Fixpoint removeLoop (id : string) (servers : list Server.t) : M Broker (option error) :=
  match servers with
  | [] => mret None
  | s :: servers =>
      if negb (bool_decide (Server.ID s = id)) then removeLoop id servers
      else on_ok (onRaft (raft_removeServer id)) (removeLoop id servers)
  end.
Definition removeServer (meta : BrokerMeta.t) : M Broker (option error) :=
  b ← gets (fun b => b);
  match raft_configuration (raft b) with
  | inl e => mret (Some e)
  | inr servers => removeLoop (itoa (BrokerMeta.ID meta)) servers
  end.

(** ** Members that are alive, that left and that are reaped *)
Definition checkOf (node status output : string) : HealthCheck.t :=
  HealthCheck.mk node SerfCheckID SerfCheckName status output RaftIndex.zero.
Definition aliveNode (meta : BrokerMeta.t) : Node.t :=
  Node.mk 0 (BrokerMeta.ID meta) (BrokerMeta.BrokerAddr meta)
    (Some (checkOf (itoa (BrokerMeta.ID meta)) HealthPassing SerfCheckAliveOutput))
    (<["raft_addr" := BrokerMeta.RaftAddr meta]> (<["serf_lan_addr" := BrokerMeta.SerfLANAddr meta]>
      {["name" := BrokerMeta.Name meta]}))
    RaftIndex.zero.

(** The number of a member that is not a broker is read from a nil pointer. *)
Definition handleAliveMember (m : SerfMember.t) : M Broker (option error) :=
  match IsBroker m with
  | None => crash
  | Some meta =>
      on_ok (joinCluster m meta) (
        b ← gets (fun b => b);
        match snd (GetNode (BrokerMeta.ID meta) (db b)) with
        | Some _ => mret None
        | None => applied RegisterNodeRequestType (aliveNode meta)
        end)
  end.

Definition bareNode (id : Z) : Node.t := Node.mk 0 id "" None ∅ RaftIndex.zero.
Definition handleDeregisterMember (m : SerfMember.t) : M Broker (option error) :=
  match IsBroker m with
  | None => mret None
  | Some meta =>
      me ← gets configID;
      if BrokerMeta.ID meta =? me then mret None else
      on_ok (removeServer meta) (
        b ← gets (fun b => b);
        match snd (GetNode (BrokerMeta.ID meta) (db b)) with
        | None => mret None
        | Some _ => applied DeregisterNodeRequestType (bareNode (BrokerMeta.ID meta))
        end)
  end.
Definition handleLeftMember : SerfMember.t -> M Broker (option error) := handleDeregisterMember.
Definition handleReapMember : SerfMember.t -> M Broker (option error) := handleDeregisterMember.

(** ** Members that failed *)
Definition failedNode (meta : BrokerMeta.t) (m : SerfMember.t) : Node.t :=
  Node.mk 0 (BrokerMeta.ID meta) "" (Some (checkOf (tag m "raft_addr") HealthCritical SerfCheckFailedOutput)) ∅
    RaftIndex.zero.

(** The nodes that pass their check; the field compared with the number of the
    member that failed is [ID], which nothing sets.  [None]: a node without a
    check panics. *)
Definition passingNodes (failed : Z) (nodes : list Node.t) : option (list Node.t) :=
  checks ← mapM Node.Check nodes;
  Some (fst <$> filter (fun nc => HealthCheck.Status (snd nc) = HealthPassing /\ Node.ID (fst nc) <> failed)
          (zip nodes checks)).

(** [passing[rand.Intn(len(passing))]], which panics when there is none; [n] is
    the random number. *)
Definition pick (passing : list Node.t) (n : nat) : option Node.t := passing !! (n mod length passing)%nat.

Definition setCoordinator (id : Z) (g : Structs.Group.t) : Structs.Group.t :=
  Structs.Group.mk (Structs.Group.ID g) (Structs.Group.Group g) id (Structs.Group.LeaderID g) (Structs.Group.Members g)
    (Structs.Group.State g) (Structs.Group.GenerationID g) (Structs.Group.Raft g).

(** The coordinator of a group is changed in place, then registered. *)
Fixpoint moveGroups (passing : list Node.t) (rnd : nat -> nat) (i : nat) (groups : list Structs.Group.t)
  : M Broker (option error) :=
  match groups with
  | [] => mret None
  | g :: groups =>
      node ← must (pick passing (rnd i));
      poke (setCoordinator (Node.Node node) g) ;;
      on_ok (applied RegisterGroupRequestType (setCoordinator (Node.Node node) g)) (moveGroups passing rnd (S i) groups)
  end.

Definition without (id : Z) (rs : list Z) : list Z := filter (fun r => r <> id) rs.
(** The partition with its new leader, and what is announced of it: the partition
    as it was. *)
Definition movedPartition (failed leader : Z) (p : Partition.t) : Partition.t :=
  Partition.mk (Partition.Partition p) (Partition.Partition p) (Partition.Topic p) (without failed (Partition.ISR p))
    (without failed (Partition.AR p)) leader 0 0 RaftIndex.zero.
Definition announcedState (p : Partition.t) : PartitionState.t :=
  PartitionState.mk (Partition.Topic p) (Partition.Partition p) 0 (Partition.Leader p) 0 (Partition.ISR p) 0
    (Partition.AR p) false.
Fixpoint movePartitions (failed : Z) (passing : list Node.t) (rnd : nat -> nat) (i : nat) (ps : list Partition.t)
  : M Broker (option error) :=
  match ps with
  | [] => mret None
  | p :: ps =>
      node ← must (pick passing (rnd i));
      on_ok (applied RegisterPartitionRequestType (movedPartition failed (Node.Node node) p))
        (movePartitions failed passing rnd (S i) ps)
  end.

Fixpoint announceTo (req : LeaderAndISRRequest.t) (nodes : list Node.t) : M Broker (option error) :=
  match nodes with
  | [] => mret None
  | n :: nodes =>
      known ← gets knownBrokers;
      match BrokerByID (itoa (Node.Node n)) known with
      | None => announceTo req nodes
      | Some broker =>
          ok ← sendLeaderAndISR (BrokerMeta.BrokerAddr broker) req;
          if (ok : bool) then announceTo req nodes else mret (Some (ErrOther "leader and isr"))
      end
  end.

(** [rg] and [rp] are the random numbers drawn for groups and for partitions.  The
    partitions of the request are collected as they are registered. *)
Definition handleFailedMember (rg rp : nat -> nat) (m : SerfMember.t) : M Broker (option error) :=
  match IsBroker m with
  | None => mret None
  | Some meta =>
      let failed := BrokerMeta.ID meta in
      on_ok (applied RegisterNodeRequestType (failedNode meta m)) (
        b ← gets (fun b => b);
        let partitions := snd (PartitionsByLeader failed (db b)) in
        passing ← must (passingNodes failed (snd (GetNodes (db b))));
        let groups := snd (GetGroupsByCoordinator failed (db b)) in
        on_ok (moveGroups passing rg 0 groups) (
        on_ok (movePartitions failed passing rp 0 partitions) (
        announceTo (LeaderAndISRRequest.mk 0 (configID b) 0 (announcedState <$> partitions) []) passing)))
  end.

(** ** Reconciliation *)

(** An error is logged and dropped. *)
Definition reconcileMember (rg rp : nat -> nat) (m : SerfMember.t) : M Broker (option error) :=
  _ ← (if SerfMember.Status m =? StatusAlive then handleAliveMember m
       else if SerfMember.Status m =? StatusFailed then handleFailedMember rg rp m
       else if SerfMember.Status m =? StatusReap then handleReapMember m
       else if SerfMember.Status m =? StatusLeft then handleLeftMember m
       else mret None);
  mret None.

Definition reapedMember (node : Z) : SerfMember.t :=
  SerfMember.mk "" (<["id" := itoa node]> {["role" := "jocko"]}) 0.
Fixpoint reconcileReaped (known : gset Z) (nodes : list Node.t) : M Broker (option error) :=
  match nodes with
  | [] => mret None
  | n :: nodes =>
      if decide (Node.Node n ∈ known) then reconcileReaped known nodes
      else on_ok (handleReapMember (reapedMember (Node.Node n))) (reconcileReaped known nodes)
  end.

(** The loop over the members, with the numbers of the brokers among them. *)
Fixpoint reconcileMembers (rg rp : nat -> nat -> nat) (i : nat) (ms : list SerfMember.t) (known : gset Z)
  : M Broker (error + gset Z) :=
  match ms with
  | [] => mret (inr known)
  | m :: ms =>
      e ← reconcileMember (rg i) (rp i) m;
      match e with
      | Some e => mret (inl e)
      | None =>
          reconcileMembers rg rp (S i) ms
            match IsBroker m with None => known | Some meta => {[BrokerMeta.ID meta]} ∪ known end
      end
  end.
Definition reconcile (rg rp : nat -> nat -> nat) : M Broker (option error) :=
  ms ← gets members;
  r ← reconcileMembers rg rp 0 ms ∅;
  match r with
  | inl e => mret (Some e)
  | inr known => nodes ← gets (fun b => snd (GetNodes (db b))); reconcileReaped known nodes
  end.

(** ** The leader loop

    [ReadyForConsistentReads] is the flag of the broker.  While a loop runs,
    [Established] is the local of that name and [Listening] whether the loop
    takes members from the channel. *)
Record LeaderLoop := mkLoop { Established : bool; Listening : bool }.
Record Leadership := mkLeadership { ReadyForConsistentReads : bool; Loop : option LeaderLoop }.
Definition setConsistentReadReady (s : Leadership) : Leadership := mkLeadership true (Loop s).
Definition resetConsistentReadReady (s : Leadership) : Leadership := mkLeadership false (Loop s).
Definition establishLeadership : Leadership -> Leadership := setConsistentReadReady.
Definition revokeLeadership : Leadership -> Leadership := resetConsistentReadReady.
Definition setLoop (l : option LeaderLoop) (s : Leadership) : Leadership :=
  mkLeadership (ReadyForConsistentReads s) l.

(** From [RECONCILE] to [WAIT]; [barrier] says whether the barrier was written. *)
Definition runReconcile (barrier : bool) (rg rp : nat -> nat -> nat) (l : LeaderLoop) (s : Leadership)
  : M Broker Leadership :=
  if negb barrier then mret (setLoop (Some (mkLoop (Established l) false)) s) else
  let s := if Established l then s else establishLeadership s in
  e ← reconcile rg rp;
  mret (setLoop (Some (mkLoop true match e with None => true | Some _ => false end)) s).

(** [<-raftNotifyCh] of [monitorLeadership]: a loop is started, or the loop that
    runs is stopped, and what it deferred done.  Starting a loop while one runs
    and stopping without one are refused. *)
Definition monitorLeadership (isLeader : bool) (s : Leadership) : Leadership :=
  match Loop s, isLeader with
  | None, true => setLoop (Some (mkLoop false false)) s
  | Some l, false => setLoop None (if Established l then revokeLeadership s else s)
  | _, _ => s
  end.

(** What can happen next: a notification of raft, the shutdown of the broker, which
    ends the loop like a loss of leadership, the start of the loop or the end of
    its interval, a member from the channel. *)
Inductive leaderEvent :=
| Notify (isLeader : bool)
| Shutdown
| Interval (barrier : bool) (rg rp : nat -> nat -> nat)
| FromChannel (rg rp : nat -> nat).
Definition leaderStep (e : leaderEvent) (s : Leadership) : M Broker Leadership :=
  match e with
  | Notify isLeader => mret (monitorLeadership isLeader s)
  | Shutdown => mret (monitorLeadership false s)
  | Interval barrier rg rp =>
      match Loop s with Some l => runReconcile barrier rg rp l s | None => mret s end
  | FromChannel rg rp =>
      ch ← gets reconcileCh;
      match Loop s, ch with
      | Some l, m :: ch =>
          if Listening l then modify (set_reconcileCh ch) ;; _ ← reconcileMember rg rp m; mret s else mret s
      | _, _ => mret s
      end
  end.
End leader.

(** ** Lemmas *)
Section lemmas.
Context {L R D DB RF : Type} `{CommitLogOps L R} `{LogDirs D L}.
Context {ToLower : string -> string} `{MemdbLaws ToLower DB} `{RaftLaws RF}.
Context `{Msgpack Node.t} `{Msgpack Topic.t} `{Msgpack Partition.t} `{Msgpack Structs.Group.t}.
Abbreviation Broker := (BrokerState.Broker L D DB RF).

(** *** Steps that change the store through raft *)
Definition alwaysCommits (r : RF) : Prop := forall n, commits n r.

Lemma alwaysCommits_apply r buf : alwaysCommits r -> exists i r', raft_apply buf r = (inr i, r') /\ alwaysCommits r'.
Proof.
  intros Hr. destruct (Hr 1%nat buf) as (i & r' & E & _). exists i, r'. split; [exact E|].
  intros n. destruct (Hr (S n) buf) as (i' & r2 & E' & Hn). rewrite E in E'. injection E' as _ ->. exact Hn.
Qed.

(** The store and raft have moved on, the configuration is the same. *)
Definition stepTo (b b' : Broker) : Prop := exists d r,
  b' = set_db d (set_raft r b) /\ alwaysCommits r /\ raft_configuration r = raft_configuration (raft b).

Lemma stepTo_refl (b : Broker) : alwaysCommits (raft b) -> stepTo b b.
Proof. intros Hr. exists (db b), (raft b). split_and!; [destruct b; reflexivity|exact Hr|reflexivity]. Qed.
Lemma stepTo_trans (b b1 b2 : Broker) : stepTo b b1 -> stepTo b1 b2 -> stepTo b b2.
Proof.
  intros (d1 & r1 & -> & _ & E1) (d2 & r2 & -> & H2' & E2). exists d2, r2. split; [reflexivity|]. split; [exact H2'|].
  rewrite E2. exact E1.
Qed.
Lemma stepTo_commits (b b' : Broker) : stepTo b b' -> alwaysCommits (raft b').
Proof. intros (d & r & -> & Hr & _). exact Hr. Qed.

(** An entry whose application to the store has the effect [Q]. *)
Lemma applied_spec {A} `{Msgpack A} t (msg : A) buf (Q : DB -> Prop) (b : Broker) :
  alwaysCommits (raft b) -> mp_encode msg = Some buf ->
  (forall i, exists d, Apply (byte_of_Z t :: buf) i (db b) = Ret tt d /\ Q d) ->
  exists b', applied t msg b = Ret None b' /\ stepTo b b' /\ Q (db b').
Proof.
  intros Hr Eb HQ. destruct (alwaysCommits_apply (raft b) (byte_of_Z t :: buf) Hr) as (i & r & Ea & Hr').
  destruct (HQ i) as (d & Ed & Hd). exists (set_db d (set_raft r b)). split; [|split; [|exact Hd]].
  - unfold applied, raftApply, Encode, mbind, M_bind. rewrite Eb. cbn [option_bind]. rewrite Ea, Ed. reflexivity.
  - exists d, r. split; [reflexivity|]. split; [exact Hr'|]. exact (law_apply_config _ _ _ _ Ea).
Qed.

(** [d'] is [d] with [o] under [k] in the table [t]. *)
Definition setsRow {K V} (t : table K V) (k : K) (o : option V) (d d' : DB) : Prop :=
  (forall k', First t k' d' = if decide (norm ToLower t k' = norm ToLower t k) then o else First t k' d) /\
  (forall K' V' (t' : table K' V') k', row t' = true -> tableName t <> tableName t' -> First t' k' d' = First t' k' d).

Lemma applied_register {K V} `{Msgpack V} (t : table K V) (v : V) (b : Broker) :
  row t = true -> indexable t v = true ->
  (exists buf, mp_encode v = Some buf /\ decodeRow t buf = Some v) -> alwaysCommits (raft b) ->
  exists b', applied (registerType t) v b = Ret None b' /\ stepTo b b' /\
    exists ri, setsRow t (idOf t v) (Some (setRaft t ri (prepared t v))) (db b) (db b').
Proof.
  intros Hr Hi (buf & Eb & Ed) Hc.
  apply (applied_spec (registerType t) v buf (fun d => exists ri, setsRow t (idOf t v) (Some (setRaft t ri (prepared t v))) (db b) d)
    b Hc Eb). intros i.
  destruct (ensure_updates t i (prepared t v) (db b) Hr) as (d & E & Hu1 & Hu2 & _);
    [rewrite indexable_prepared; exact Hi|]. rewrite idOf_prepared in Hu1.
  exists d. split; [rewrite (Apply_register t buf v i (db b) Hr Ed); exact E|]. eexists. split; [exact Hu1|exact Hu2].
Qed.

Lemma applied_deregister {K V} `{Msgpack V} (t : table K V) ty (v v0 : V) (b : Broker) :
  row t = true -> deregisterType t = Some ty -> First t (idOf t v) (db b) = Some v0 ->
  (exists buf, mp_encode v = Some buf /\ decodeRow t buf = Some v) -> alwaysCommits (raft b) ->
  exists b', applied ty v b = Ret None b' /\ stepTo b b' /\ setsRow t (idOf t v) None (db b) (db b').
Proof.
  intros Hr Ht Hv (buf & Eb & Ed) Hc.
  apply (applied_spec ty v buf (setsRow t (idOf t v) None (db b)) b Hc Eb). intros i.
  destruct (delete_updates t i (idOf t v) v0 (db b) Hr Hv) as (d & E & Hu1 & Hu2 & _).
  exists d. split; [rewrite (Apply_deregister t ty buf v i (db b) Ht Ed); exact E|]. split; [exact Hu1|exact Hu2].
Qed.

Lemma on_ok_Ret m k (b b' : Broker) : m b = Ret None b' -> on_ok m k b = k b'.
Proof. intros E. unfold on_ok. erewrite bind_Ret by exact E. reflexivity. Qed.

(** *** Members that raft knows already *)
Definition sameServer (meta : BrokerMeta.t) (s : Server.t) : Prop :=
  Server.Address s = BrokerMeta.RaftAddr meta /\ Server.ID s = itoa (BrokerMeta.ID meta).
Definition inConfiguration (meta : BrokerMeta.t) (servers : list Server.t) : Prop :=
  Exists (sameServer meta) servers /\
  Forall (fun s => Server.Address s = BrokerMeta.RaftAddr meta \/ Server.ID s = itoa (BrokerMeta.ID meta) ->
                   sameServer meta s) servers.

Lemma dropDuplicates_known meta servers (b : Broker) : inConfiguration meta servers ->
  dropDuplicates (BrokerMeta.RaftAddr meta) (itoa (BrokerMeta.ID meta)) servers b = Ret (inr true) b.
Proof.
  intros [He Hf]. induction He as [s servers [Ea Ei]|s servers _ IH]; cbn [dropDuplicates].
  - rewrite !bool_decide_true by assumption. reflexivity.
  - apply list.Forall_cons in Hf as [Hs Hf]. unfold sameServer in Hs.
    destruct (decide (Server.Address s = BrokerMeta.RaftAddr meta)) as [Ea|Ea],
      (decide (Server.ID s = itoa (BrokerMeta.ID meta))) as [Ei|Ei].
    + rewrite !bool_decide_true by assumption. reflexivity.
    + destruct Ei. apply Hs. auto.
    + destruct Ea. apply Hs. auto.
    + rewrite !bool_decide_false by assumption. exact (IH Hf).
Qed.

Lemma joinCluster_known m meta servers (b : Broker) : raft_configuration (raft b) = inr servers ->
  inConfiguration meta servers -> joinCluster m meta b = Ret None b.
Proof.
  intros Ec Hin. unfold joinCluster. erewrite bind_Ret by reflexivity. rewrite Ec.
  destruct (_ && otherBootstrap _ _); [reflexivity|]. destruct (_ && (_ <? 3)); [reflexivity|].
  erewrite bind_Ret by (apply dropDuplicates_known, Hin). reflexivity.
Qed.

Lemma removeServer_absent meta servers (b : Broker) : raft_configuration (raft b) = inr servers ->
  Forall (fun s => Server.ID s <> itoa (BrokerMeta.ID meta)) servers -> removeServer meta b = Ret None b.
Proof.
  intros Ec Hf. unfold removeServer. erewrite bind_Ret by reflexivity. rewrite Ec. clear Ec.
  induction Hf as [|s ss Hs _ IH]; [reflexivity|]. cbn [removeLoop]. rewrite bool_decide_false by exact Hs. exact IH.
Qed.

(** *** Reconciliation with members that are alive *)

(** The numbers of the brokers among the members. *)
Definition brokerIDs (ms : list SerfMember.t) : list Z := BrokerMeta.ID <$> omap IsBroker ms.
(** An alive broker that raft knows already. *)
Definition settled (servers : list Server.t) (m : SerfMember.t) : Prop :=
  SerfMember.Status m = StatusAlive /\ exists meta, IsBroker m = Some meta /\ inConfiguration meta servers.

(** [n] is the node of a broker [k] among the members, with its address and a check
    that passes; [kept]: unless there was one before. *)
Definition aliveAs (ms : list SerfMember.t) (k : Z) (n : Node.t) : Prop :=
  exists m meta, m ∈ ms /\ IsBroker m = Some meta /\ BrokerMeta.ID meta = k /\
    Node.Address n = BrokerMeta.BrokerAddr meta /\ HealthCheck.Status <$> Node.Check n = Some HealthPassing.
Definition kept (ms : list SerfMember.t) (k : Z) (before : option Node.t) (n : Node.t) : Prop :=
  match before with Some n0 => n = n0 | None => aliveAs ms k n end.
Lemma kept_cons m ms k before n : kept ms k before n -> kept (m :: ms) k before n.
Proof. destruct before; [auto|]. intros (m' & meta & Hm & Hrest). exists m', meta. split; [right; exact Hm|exact Hrest]. Qed.

(** [b'] is [b] after a step that changes no table but the nodes, and there only
    those with the numbers [ids]. *)
Definition nodesOnly (ids : list Z) (b b' : Broker) : Prop :=
  stepTo b b' /\
  (forall K V (t : table K V) k, row t = true -> tableName t <> "nodes" -> First t k (db b') = First t k (db b)) /\
  (forall k, k ∉ ids -> First Nodes k (db b') = First Nodes k (db b)).

Lemma nodesOnly_refl ids (b : Broker) : alwaysCommits (raft b) -> nodesOnly ids b b.
Proof. intros Hr. split; [exact (stepTo_refl b Hr)|]. split; reflexivity. Qed.
Lemma nodesOnly_trans ids (b b1 b2 : Broker) : nodesOnly ids b b1 -> nodesOnly ids b1 b2 -> nodesOnly ids b b2.
Proof.
  intros (S1 & T1 & N1) (S2 & T2 & N2). split; [exact (stepTo_trans _ _ _ S1 S2)|]. split.
  - intros K V t k Ht Hn. rewrite (T2 _ _ _ _ Ht Hn). exact (T1 _ _ _ _ Ht Hn).
  - intros k Hk. rewrite (N2 k Hk). exact (N1 k Hk).
Qed.
Lemma nodesOnly_weaken ids ids' (b b' : Broker) : ids ⊆ ids' -> nodesOnly ids b b' -> nodesOnly ids' b b'.
Proof. intros Hs (S1 & T1 & N1). split; [exact S1|]. split; [exact T1|]. intros k Hk. apply N1. auto. Qed.
Lemma nodesOnly_sets id o (b b' : Broker) : stepTo b b' -> setsRow Nodes id o (db b) (db b') -> nodesOnly [id] b b'.
Proof.
  intros Hs [H1' H2']. split; [exact Hs|]. split.
  - intros K V t k Ht Hn. apply H2'; [exact Ht|]. intros C. apply Hn. rewrite <- C. reflexivity.
  - intros k Hk. rewrite H1', decide_False; [reflexivity|]. cbn. intros ->. apply Hk. left.
Qed.

Lemma alive_registers m meta servers (b : Broker) : raft_configuration (raft b) = inr servers ->
  IsBroker m = Some meta -> inConfiguration meta servers -> alwaysCommits (raft b) -> (forall n : Node.t, packs n) ->
  exists b', handleAliveMember m b = Ret None b' /\ nodesOnly [BrokerMeta.ID meta] b b' /\
    match First Nodes (BrokerMeta.ID meta) (db b) with
    | Some n => b' = b
    | None => exists ri, First Nodes (BrokerMeta.ID meta) (db b') = Some (Node.set_raft ri (aliveNode meta))
    end.
Proof.
  intros Ec Em Hin Hr Hp. unfold handleAliveMember. rewrite Em.
  rewrite (on_ok_Ret _ _ b b (joinCluster_known m meta servers b Ec Hin)). erewrite bind_Ret by reflexivity.
  unfold GetNode. cbn [snd]. destruct (First Nodes (BrokerMeta.ID meta) (db b)) as [n|] eqn:En.
  { exists b. split; [reflexivity|]. split; [exact (nodesOnly_refl _ b Hr)|reflexivity]. }
  destruct (applied_register Nodes (aliveNode meta) b eq_refl eq_refl (Hp _) Hr) as (b' & E & Hs & ri & Hset).
  exists b'. split; [exact E|]. split; [exact (nodesOnly_sets _ _ _ _ Hs Hset)|]. exists ri.
  rewrite (proj1 Hset), decide_True by reflexivity. reflexivity.
Qed.

Lemma stepTo_config (b b' : Broker) servers : stepTo b b' -> raft_configuration (raft b) = inr servers ->
  raft_configuration (raft b') = inr servers.
Proof. intros (d & r & -> & _ & E) Ec. cbn. rewrite E. exact Ec. Qed.

Lemma reconcileMembers_spec servers rg rp ms : (forall n : Node.t, packs n) -> Forall (settled servers) ms ->
  forall i known (b : Broker), raft_configuration (raft b) = inr servers -> alwaysCommits (raft b) ->
  exists b', reconcileMembers rg rp i ms known b = Ret (inr (list_to_set (brokerIDs ms) ∪ known)) b' /\
    nodesOnly (brokerIDs ms) b b' /\
    (forall k, is_Some (First Nodes k (db b)) -> First Nodes k (db b') = First Nodes k (db b)) /\
    (forall k, k ∈ brokerIDs ms -> exists n, First Nodes k (db b') = Some n /\ kept ms k (First Nodes k (db b)) n).
Proof.
  intros Hp Hms. induction Hms as [|m ms (Hst & meta & Em & Hin) _ IH]; intros i known b Ec Hr.
  { exists b. split; [cbn; f_equal; f_equal; set_solver|]. split; [exact (nodesOnly_refl _ b Hr)|].
    split; [reflexivity|]. intros k Hk. inversion Hk. }
  destruct (alive_registers m meta servers b Ec Em Hin Hr Hp) as (b1 & E1 & Hn1 & Hreg).
  assert (Eids : brokerIDs (m :: ms) = BrokerMeta.ID meta :: brokerIDs ms)
    by (unfold brokerIDs; cbn [omap list_omap]; rewrite Em; reflexivity).
  destruct (IH (S i) ({[BrokerMeta.ID meta]} ∪ known) b1) as (b2 & E2 & Hn2 & Hkeep2 & Hreg2);
    [exact (stepTo_config _ _ _ (proj1 Hn1) Ec)|exact (stepTo_commits _ _ (proj1 Hn1))|].
  assert (Hkeep1 : forall k, is_Some (First Nodes k (db b)) -> First Nodes k (db b1) = First Nodes k (db b)).
  { intros k Hk. destruct (decide (k = BrokerMeta.ID meta)) as [->|Hne].
    - destruct (First Nodes (BrokerMeta.ID meta) (db b)) eqn:En; [subst b1; exact En|destruct Hk; discriminate].
    - apply Hn1. set_solver. }
  assert (Hreg1 : exists n, First Nodes (BrokerMeta.ID meta) (db b1) = Some n /\
    kept (m :: ms) (BrokerMeta.ID meta) (First Nodes (BrokerMeta.ID meta) (db b)) n).
  { destruct (First Nodes (BrokerMeta.ID meta) (db b)) as [n|] eqn:En; [subst b1; exists n; split; [exact En|reflexivity]|].
    destruct Hreg as [ri ->]. eexists. split; [reflexivity|]. exists m, meta. split; [left|auto]. }
  exists b2. split; [|split; [|split]].
  - cbn [reconcileMembers]. unfold reconcileMember. rewrite Hst. cbn [StatusAlive Z.eqb Pos.eqb].
    rewrite bind_assoc. erewrite bind_Ret by exact E1. erewrite bind_Ret by reflexivity. rewrite Em, E2, Eids.
    f_equal. f_equal. set_solver.
  - rewrite Eids. apply (nodesOnly_trans _ _ b1); eapply nodesOnly_weaken; try eassumption; set_solver.
  - intros k Hk. rewrite Hkeep2; [exact (Hkeep1 k Hk)|]. rewrite (Hkeep1 k Hk). exact Hk.
  - intros k. rewrite Eids, elem_of_cons. destruct (decide (k = BrokerMeta.ID meta)) as [->|Hne].
    + intros _. destruct Hreg1 as (n & En & Hk). exists n. rewrite Hkeep2 by (rewrite En; eauto). auto.
    + intros [C|Hk]; [destruct (Hne C)|]. destruct (Hreg2 k Hk) as (n & En & Hkept). exists n. split; [exact En|].
      apply kept_cons. rewrite <- (proj2 (proj2 Hn1) k) by set_solver. exact Hkept.
Qed.

(** *** Nodes without a member *)
Lemma reapedMember_broker num : in_int 32 num ->
  exists meta, IsBroker (reapedMember num) = Some meta /\ BrokerMeta.ID meta = num.
Proof.
  intros Hid. unfold IsBroker, reapedMember, tag. cbn [SerfMember.Tags SerfMember.Status].
  repeat (rewrite lookup_insert_eq || rewrite lookup_insert_ne by discriminate || rewrite lookup_singleton_eq ||
          rewrite lookup_singleton_ne by discriminate).
  cbn [default id]. rewrite bool_decide_true by reflexivity. cbn [negb mbind option_bind].
  rewrite Atoi_itoa by (unfold in_int in *; lia). cbn [mbind option_bind]. eexists. split; [reflexivity|].
  cbn. unfold int32. rewrite sext_id by (exact Hid || lia). reflexivity.
Qed.

Lemma reap_removes id servers (b : Broker) : raft_configuration (raft b) = inr servers -> in_int 32 id ->
  Forall (fun s => Server.ID s <> itoa id) servers -> alwaysCommits (raft b) -> (forall n : Node.t, packs n) ->
  exists b', handleReapMember (reapedMember id) b = Ret None b' /\ nodesOnly [id] b b' /\
    First Nodes id (db b') = if decide (id = configID b) then First Nodes id (db b) else None.
Proof.
  intros Ec Hid Hs Hr Hp. destruct (reapedMember_broker id Hid) as (meta & Em & <-).
  unfold handleReapMember, handleDeregisterMember. rewrite Em. erewrite bind_Ret by reflexivity.
  destruct (Z.eqb_spec (BrokerMeta.ID meta) (configID b)) as [Eid|Eid].
  { exists b. split; [reflexivity|]. split; [exact (nodesOnly_refl _ b Hr)|]. rewrite decide_True by exact Eid. reflexivity. }
  rewrite (decide_False (P := BrokerMeta.ID meta = configID b)) by exact Eid.
  rewrite (on_ok_Ret _ _ b b (removeServer_absent meta servers b Ec Hs)). erewrite bind_Ret by reflexivity.
  unfold GetNode. cbn [snd]. destruct (First Nodes (BrokerMeta.ID meta) (db b)) as [n|] eqn:En.
  2:{ exists b. split; [reflexivity|]. split; [exact (nodesOnly_refl _ b Hr)|exact En]. }
  destruct (applied_deregister Nodes DeregisterNodeRequestType (bareNode (BrokerMeta.ID meta)) n b eq_refl eq_refl En (Hp _) Hr)
    as (b' & E & Hst & Hset).
  exists b'. split; [exact E|]. split; [exact (nodesOnly_sets _ _ _ _ Hst Hset)|].
  rewrite (proj1 Hset), decide_True by reflexivity. reflexivity.
Qed.

Lemma node_key k n (d : DB) : First Nodes k d = Some n -> Node.Node n = k.
Proof. exact (First_id Nodes k n d). Qed.

Lemma configID_step (b b' : Broker) : stepTo b b' -> configID b' = configID b.
Proof. intros (d & r & -> & _). reflexivity. Qed.

(** Every node of the list that has no member is gone afterwards, but this one. *)
Lemma reconcileReaped_spec servers known nodes : (forall n : Node.t, packs n) ->
  (forall n, n ∈ nodes -> in_int 32 (Node.Node n)) ->
  (forall n, n ∈ nodes -> Node.Node n ∉ known -> Forall (fun s => Server.ID s <> itoa (Node.Node n)) servers) ->
  forall b : Broker, raft_configuration (raft b) = inr servers -> alwaysCommits (raft b) ->
  exists b', reconcileReaped known nodes b = Ret None b' /\
    nodesOnly (filter (fun k => k ∉ known) (Node.Node <$> nodes)) b b' /\
    (forall k n, First Nodes k (db b') = Some n -> First Nodes k (db b) = Some n) /\
    (forall n, n ∈ nodes -> Node.Node n ∉ known -> Node.Node n <> configID b -> First Nodes (Node.Node n) (db b') = None).
Proof.
  intros Hp. induction nodes as [|n nodes IH]; intros Hint Hsrv b Ec Hr.
  { exists b. split; [reflexivity|]. split; [exact (nodesOnly_refl _ b Hr)|]. split; [auto|]. intros n Hn. inversion Hn. }
  specialize (IH (fun x Hx => Hint x ltac:(right; exact Hx)) (fun x Hx => Hsrv x ltac:(right; exact Hx))).
  cbn [reconcileReaped]. rewrite fmap_cons. cbn [filter list_filter].
  destruct (decide (Node.Node n ∈ known)) as [Hk|Hk].
  { destruct (IH b Ec Hr) as (b' & E & Hn & Hsub & Hgone). rewrite decide_False by (intros C; exact (C Hk)). exists b'.
    split; [exact E|]. split; [exact Hn|]. split; [exact Hsub|]. intros x Hx Hx'.
    apply elem_of_cons in Hx as [->|Hx]; [destruct (Hx' Hk)|exact (Hgone x Hx Hx')]. }
  rewrite (decide_True (P := Node.Node n ∉ known)) by exact Hk.
  destruct (reap_removes (Node.Node n) servers b Ec (Hint n ltac:(left)) (Hsrv n ltac:(left) Hk) Hr Hp) as (b1 & E1 & Hn1 & Hone).
  destruct (IH b1) as (b2 & E2 & Hn2 & Hsub2 & Hgone2);
    [exact (stepTo_config _ _ _ (proj1 Hn1) Ec)|exact (stepTo_commits _ _ (proj1 Hn1))|].
  assert (Hsub1 : forall k x, First Nodes k (db b1) = Some x -> First Nodes k (db b) = Some x).
  { intros k x Hx. destruct (decide (k = Node.Node n)) as [->|Hne].
    - rewrite Hone in Hx. destruct (decide _); [exact Hx|discriminate].
    - rewrite <- (proj2 (proj2 Hn1) k) by (rewrite list_elem_of_singleton; exact Hne). exact Hx. }
  exists b2. split; [rewrite (on_ok_Ret _ _ _ _ E1); exact E2|]. split; [|split; [auto|]].
  - apply (nodesOnly_trans _ _ b1); eapply nodesOnly_weaken; try eassumption; intros k; rewrite ?list_elem_of_singleton, elem_of_cons; auto.
  - intros x Hx Hx' Hme. apply elem_of_cons in Hx as [->|Hx].
    + destruct (First Nodes (Node.Node n) (db b2)) as [y|] eqn:Ey; [|reflexivity].
      apply Hsub2 in Ey. rewrite Hone, decide_False in Ey by exact Hme. discriminate.
    + apply Hgone2; [exact Hx|exact Hx'|]. rewrite (configID_step _ _ (proj1 Hn1)). exact Hme.
Qed.

(** The servers of raft are brokers among the members. *)
Definition membersOnly (ms : list SerfMember.t) (servers : list Server.t) : Prop :=
  Forall (fun s => exists id, id ∈ brokerIDs ms /\ Server.ID s = itoa id) servers.

Lemma IsBroker_int32 m meta : IsBroker m = Some meta -> in_int 32 (BrokerMeta.ID meta).
Proof.
  unfold IsBroker. destruct (negb _); [discriminate|]. destruct (match _ with Some s => Atoi s | None => Some 0 end) as [ex|]; [|discriminate].
  cbn [mbind option_bind]. destruct (Atoi (tag m "id")) as [z|]; [|discriminate]. intros [= <-]. apply sext_range. lia.
Qed.
Lemma brokerIDs_int32 ms k : k ∈ brokerIDs ms -> in_int 32 k.
Proof.
  unfold brokerIDs. rewrite list_elem_of_fmap. intros (meta & -> & Hm). apply list_elem_of_omap in Hm as (m & _ & E).
  exact (IsBroker_int32 m meta E).
Qed.

(** Reconciliation in a steady state: the nodes of the store become the brokers
    among the members, besides this broker itself. *)
Lemma reconcile_spec servers rg rp (b : Broker) : (forall n : Node.t, packs n) ->
  raft_configuration (raft b) = inr servers -> alwaysCommits (raft b) ->
  Forall (settled servers) (members b) -> membersOnly (members b) servers ->
  (forall k n, First Nodes k (db b) = Some n -> in_int 32 k) ->
  exists b', reconcile rg rp b = Ret None b' /\ stepTo b b' /\
    (forall K V (t : table K V) k, row t = true -> tableName t <> "nodes" -> First t k (db b') = First t k (db b)) /\
    (forall k, k ∈ brokerIDs (members b) ->
       exists n, First Nodes k (db b') = Some n /\ kept (members b) k (First Nodes k (db b)) n) /\
    (forall k, is_Some (First Nodes k (db b')) -> k ∈ brokerIDs (members b) \/ k = configID b).
Proof.
  intros Hp Ec Hr Hms Honly Hint.
  destruct (reconcileMembers_spec servers rg rp (members b) Hp Hms 0 ∅ b Ec Hr) as (b1 & E1 & Hn1 & Hkeep1 & Hreg1).
  set (known := list_to_set (brokerIDs (members b)) ∪ ∅ : gset Z) in *.
  assert (Hknown : forall k, k ∈ known <-> k ∈ brokerIDs (members b)).
  { intros k. unfold known. rewrite elem_of_union, elem_of_list_to_set, elem_of_empty. tauto. }
  assert (Hint1 : forall n, n ∈ snd (GetNodes (db b1)) -> in_int 32 (Node.Node n)).
  { intros n Hn. apply Get_spec in Hn. cbn [idOf] in Hn. destruct (decide (Node.Node n ∈ brokerIDs (members b))) as [Hk|Hk].
    - exact (brokerIDs_int32 _ _ Hk).
    - rewrite (proj2 (proj2 Hn1) _ Hk) in Hn. exact (Hint _ _ Hn). }
  destruct (reconcileReaped_spec servers known (snd (GetNodes (db b1))) Hp Hint1) with (b := b1) as (b2 & E2 & Hn2 & Hsub2 & Hgone2).
  - intros n Hn Hk. rewrite Hknown in Hk. revert Honly. apply Forall_impl. intros s (id & Hid & ->) C.
    apply itoa_inj in C; [subst id; exact (Hk Hid)|pose proof (brokerIDs_int32 _ _ Hid); unfold in_int in *; lia|].
    pose proof (Hint1 n Hn). unfold in_int in *; lia.
  - exact (stepTo_config _ _ _ (proj1 Hn1) Ec).
  - exact (stepTo_commits _ _ (proj1 Hn1)).
  - assert (Hkeep2 : forall k, k ∈ brokerIDs (members b) -> First Nodes k (db b2) = First Nodes k (db b1)).
    { intros k Hk. apply Hn2. rewrite list_elem_of_filter, Hknown. tauto. }
    exists b2. split_and!.
    + unfold reconcile. erewrite bind_Ret by reflexivity. erewrite bind_Ret by exact E1. cbv beta iota.
      erewrite bind_Ret by reflexivity. exact E2.
    + exact (stepTo_trans _ _ _ (proj1 Hn1) (proj1 Hn2)).
    + intros K V t k Ht Hne. rewrite (proj1 (proj2 Hn2) _ _ _ _ Ht Hne). apply Hn1; assumption.
    + intros k Hk. rewrite (Hkeep2 k Hk). exact (Hreg1 k Hk).
    + intros k [n Hn]. destruct (decide (k ∈ brokerIDs (members b))) as [Hk|Hk]; [left; exact Hk|right].
      destruct (decide (k = configID b)) as [He|He]; [exact He|exfalso].
      pose proof (Hsub2 k n Hn) as Hn'. pose proof (node_key k n (db b1) Hn') as Ek.
      rewrite <- Ek in Hn. rewrite (Hgone2 n) in Hn; [discriminate| | |].
      * apply Get_spec. cbn [idOf]. rewrite Ek. exact Hn'.
      * rewrite Hknown, Ek. exact Hk.
      * rewrite Ek, (configID_step _ _ (proj1 Hn1)). exact He.
Qed.

Lemma reconcileMembers_app rg rp ms1 ms2 : forall i known (b : Broker),
  reconcileMembers rg rp i (ms1 ++ ms2) known b =
  (r ← reconcileMembers rg rp i ms1 known;
   match r with inl e => mret (inl e) | inr known => reconcileMembers rg rp (i + length ms1) ms2 known end) b.
Proof.
  induction ms1 as [|m ms1 IH]; intros i known b.
  { cbn. rewrite Nat.add_0_r. reflexivity. }
  cbn [app reconcileMembers]. rewrite bind_assoc. unfold mbind, M_bind in *.
  destruct (reconcileMember (rg i) (rp i) m b) as [e b1|e b1|]; [|reflexivity..].
  destruct e as [e|]; [reflexivity|]. rewrite IH. cbn [length]. rewrite Nat.add_succ_r. reflexivity.
Qed.
End lemmas.
