(* ===== verification/Failover.v ===== *)
(** * What happens when a broker fails

    Lemmas about [handleFailedMember] of [src/jocko/leader.go]: the groups and the
    partitions of a broker that failed get another, and what is announced. *)
From S2P Require Import Prelude Codec ClusterApi Structs Store StoreSteps Cluster LogService BrokerState Broker TopicAdmin GroupAdmin ClusterInfo Membership Leader.

Section failover.
Context {L R D DB RF : Type} `{CommitLogOps L R} `{LogDirs D L}.
Context {ToLower : string -> string} `{MemdbLaws ToLower DB} `{RaftLaws RF}.
Context `{Msgpack Node.t} `{Msgpack Topic.t} `{Msgpack Partition.t} `{Msgpack Structs.Group.t}.
Abbreviation Broker := (BrokerState.Broker L D DB RF).
Abbreviation setsRow := (Leader.setsRow (ToLower := ToLower)).

(** ** Rows that are replaced one after the other *)

(** [d] is [d0] with each of the rows [vs] replaced by [new x v] for a good [x]. *)
Definition moved {K V} (t : table K V) (new : Z -> V -> V) (good : Z -> Prop) (vs : list V) (d0 d : DB) : Prop :=
  (forall k v, First t k d0 = Some v -> v ∈ vs -> exists x ri, good x /\ First t k d = Some (setRaft t ri (new x v))) /\
  (forall k v, First t k d0 = Some v -> v ∉ vs -> First t k d = Some v) /\
  (forall k, First t k d0 = None -> First t k d = None) /\
  (forall K' V' (t' : table K' V') k, row t' = true -> tableName t <> tableName t' -> First t' k d = First t' k d0).

Lemma moved_refl {K V} (t : table K V) new good d : moved t new good [] d d.
Proof. split; [intros k v _ Hv; inversion Hv|]. auto. Qed.

Lemma moved_step {K V} (t : table K V) new good vs v x ri d0 d d' : moved t new good vs d0 d -> good x ->
  First t (idOf t v) d0 = Some v -> setsRow t (idOf t v) (Some (setRaft t ri (new x v))) d d' ->
  moved t new good (vs ++ [v]) d0 d'.
Proof.
  intros (Hin & Hout & Hnone & Hrest) Hx Hv [Hset Hother].
  assert (Hcase : forall k, (norm ToLower t k = norm ToLower t (idOf t v) /\ First t k d0 = Some v /\
      First t k d' = Some (setRaft t ri (new x v))) \/
    (norm ToLower t k <> norm ToLower t (idOf t v) /\ First t k d' = First t k d)).
  { intros k. rewrite Hset. case_decide as Hk; [left|right; auto]. split; [exact Hk|].
    rewrite (First_norm t k (idOf t v) d0 Hk). auto. }
  split_and!.
  - intros k w Hw Hin'. destruct (Hcase k) as [(_ & Hk & ->)|(Hk & ->)]; [replace w with v by congruence; eauto|].
    apply (Hin k w Hw). apply elem_of_app in Hin' as [Hin'|Hin']; [exact Hin'|].
    apply list_elem_of_singleton in Hin' as ->. destruct Hk. symmetry. exact (First_id t k v d0 Hw).
  - intros k w Hw Hni. rewrite elem_of_app, list_elem_of_singleton in Hni.
    destruct (Hcase k) as [(_ & Hk & _)|(_ & ->)]; [destruct Hni; right; congruence|]. apply Hout; [exact Hw|]. tauto.
  - intros k Hk. destruct (Hcase k) as [(_ & C & _)|(_ & ->)]; [congruence|exact (Hnone k Hk)].
  - intros K' V' t' k Ht Hne. rewrite (Hother _ _ _ _ Ht Hne). exact (Hrest _ _ _ _ Ht Hne).
Qed.

Lemma setsRow_twice {K V} (t : table K V) k o1 o2 d d1 d2 : setsRow t k o1 d d1 -> setsRow t k o2 d1 d2 -> setsRow t k o2 d d2.
Proof.
  intros [H1' H2'] [H3' H4']. split.
  - intros k'. rewrite H3', H1'. case_decide; reflexivity.
  - intros K' V' t' k' Ht Hne. rewrite (H4' _ _ _ _ Ht Hne). exact (H2' _ _ _ _ Ht Hne).
Qed.

(** ** The random choice *)
Lemma pick_good passing n : passing <> [] -> exists node, pick passing n = Some node /\ node ∈ passing.
Proof.
  intros Hne. unfold pick. destruct (lookup_lt_is_Some_2 passing (n mod length passing)) as [node E].
  - apply Nat.mod_upper_bound. destruct passing; [contradiction|discriminate].
  - exists node. split; [exact E|]. exact (list_elem_of_lookup_2 _ _ _ E).
Qed.

Definition among (passing : list Node.t) (x : Z) : Prop := x ∈ Node.Node <$> passing.

(** ** Partitions *)
Lemma movePartitions_spec failed passing rnd d0 ps : passing <> [] -> (forall p : Partition.t, packs p) ->
  (forall p, p ∈ ps -> First Partitions (idOf Partitions p) d0 = Some p /\ Partition.Topic p <> "") ->
  forall i done (b : Broker), alwaysCommits (raft b) -> moved Partitions (movedPartition failed) (among passing) done d0 (db b) ->
  exists b', movePartitions failed passing rnd i ps b = Ret None b' /\ stepTo b b' /\
    moved Partitions (movedPartition failed) (among passing) (done ++ ps) d0 (db b').
Proof.
  intros Hne Hp. induction ps as [|p ps IH]; intros Hps i done b Hr Hm.
  { exists b. rewrite app_nil_r. split; [reflexivity|]. split; [exact (stepTo_refl b Hr)|exact Hm]. }
  destruct (Hps p ltac:(left)) as [Hfirst Htopic]. destruct (pick_good passing (rnd i) Hne) as (node & Ep & Hnode).
  destruct (applied_register Partitions (movedPartition failed (Node.Node node) p) b eq_refl) as (b1 & E1 & Hs1 & ri & Hset);
    [cbn; rewrite bool_decide_false by exact Htopic; reflexivity|exact (Hp _)|exact Hr|].
  destruct (IH (fun q Hq => Hps q ltac:(right; exact Hq)) (S i) (done ++ [p]) b1) as (b2 & E2 & Hs2 & Hm2).
  { exact (stepTo_commits _ _ Hs1). }
  { eapply moved_step; [exact Hm| |exact Hfirst|exact Hset]. apply list_elem_of_fmap_2, Hnode. }
  exists b2. split; [|split; [exact (stepTo_trans _ _ _ Hs1 Hs2)|rewrite <- app_assoc in Hm2; exact Hm2]].
  cbn [movePartitions]. unfold must, mbind, M_bind. rewrite Ep. rewrite (on_ok_Ret _ _ _ _ E1). exact E2.
Qed.

(** ** Groups *)
Lemma moveGroups_spec passing rnd d0 gs : passing <> [] -> (forall g : Structs.Group.t, packs g) ->
  (forall g, g ∈ gs -> First Groups (idOf Groups g) d0 = Some g /\ named g) ->
  forall i done (b : Broker), alwaysCommits (raft b) -> moved Groups setCoordinator (among passing) done d0 (db b) ->
  exists b', moveGroups passing rnd i gs b = Ret None b' /\ stepTo b b' /\
    moved Groups setCoordinator (among passing) (done ++ gs) d0 (db b').
Proof.
  intros Hne Hp. induction gs as [|g gs IH]; intros Hgs i done b Hr Hm.
  { exists b. rewrite app_nil_r. split; [reflexivity|]. split; [exact (stepTo_refl b Hr)|exact Hm]. }
  destruct (Hgs g ltac:(left)) as [Hfirst Hn]. destruct (pick_good passing (rnd i) Hne) as (node & Ep & Hnode).
  set (g' := setCoordinator (Node.Node node) g). assert (Hn' : named g') by exact Hn.
  assert (Hw : exists w, First Groups (Structs.Group.Group g') (db b) = Some w).
  { destruct Hm as (Hin & Hout & _). change (Structs.Group.Group g') with (idOf Groups g).
    destruct (decide (g ∈ done)) as [Hd|Hd]; [destruct (Hin _ _ Hfirst Hd) as (x & ri & _ & E)|pose proof (Hout _ _ Hfirst Hd) as E];
      rewrite E; eauto. }
  destruct Hw as [w Hw]. destruct (poke_spec g' w b Hw) as (d & Epoke & Hk & Ht).
  destruct (applied_register Groups g' (set_db d b) eq_refl (named_indexable g' Hn') (Hp g') Hr) as (b1 & E1 & Hs1 & ri & Hset).
  assert (Hs : stepTo b b1) by (destruct Hs1 as (d1 & r1 & -> & Hr1 & Ec); exists d1, r1; split_and!; auto).
  destruct (IH (fun q Hq => Hgs q ltac:(right; exact Hq)) (S i) (done ++ [g]) b1) as (b2 & E2 & Hs2 & Hm2).
  { exact (stepTo_commits _ _ Hs1). }
  { eapply moved_step; [exact Hm|apply list_elem_of_fmap_2, Hnode|exact Hfirst|].
    eapply setsRow_twice; [|exact Hset]. split; [exact Hk|]. intros K V t k Hrow Hne'. apply Ht; [exact Hrow|].
    intros C. apply Hne'. rewrite C. reflexivity. }
  exists b2. split; [|split; [exact (stepTo_trans _ _ _ Hs Hs2)|rewrite <- app_assoc in Hm2; exact Hm2]].
  cbn [moveGroups]. unfold must. unfold mbind at 1, M_bind at 1. rewrite Ep. erewrite bind_Ret by exact Epoke. fold g'.
  rewrite (on_ok_Ret _ _ _ _ E1). exact E2.
Qed.

(** ** The announcement *)
Lemma sendLeaderAndISR_sent addr req (b : Broker) : exists ok cs se,
  sendLeaderAndISR addr req b = Ret ok (set_sent (sent b ++ se) (set_calls cs b)) /\ Forall (fun m => snd m = req) se.
Proof.
  unfold sendLeaderAndISR, call, mbind, M_bind, modify, mret, M_ret, set_sent, set_calls.
  destruct b as [c d rs rl di kb rf ms ch cs se]. cbn.
  destruct cs as [|[] [|[] cs]]; cbn; eexists _, _, _; (split; [|]);
    try (instantiate (1 := [(addr, req)]); reflexivity); try (rewrite app_nil_r; reflexivity); repeat constructor.
Qed.

Lemma announceTo_spec req nodes : forall b : Broker, exists e cs se,
  announceTo req nodes b = Ret e (set_sent (sent b ++ se) (set_calls cs b)) /\ Forall (fun m => snd m = req) se.
Proof.
  assert (Hnil : forall b : Broker, b = set_sent (sent b ++ []) (set_calls (calls b) b)) by (intros []; cbn; rewrite app_nil_r; reflexivity).
  induction nodes as [|n nodes IH]; intros b.
  { exists None, (calls b), []. split; [rewrite <- Hnil; reflexivity|constructor]. }
  cbn [announceTo]. erewrite bind_Ret by reflexivity. destruct (BrokerByID _ _) as [br|]; [|exact (IH b)].
  destruct (sendLeaderAndISR_sent (BrokerMeta.BrokerAddr br) req b) as (ok & cs & se & E & Hse).
  erewrite bind_Ret by exact E. destruct ok.
  - destruct (IH (set_sent (sent b ++ se) (set_calls cs b))) as (e & cs2 & se2 & E2 & Hse2).
    exists e, cs2, (se ++ se2). rewrite E2, app_assoc. split; [reflexivity|]. apply Forall_app. auto.
  - eexists _, cs, se. split; [reflexivity|exact Hse].
Qed.

(** ** The nodes that pass *)
Definition passes (n : Node.t) : Prop := exists c, Node.Check n = Some c /\ HealthCheck.Status c = HealthPassing.
Lemma passingNodes_spec failed nodes : (forall n, n ∈ nodes -> is_Some (Node.Check n)) ->
  exists ps, passingNodes failed nodes = Some ps /\
    forall n, n ∈ ps <-> n ∈ nodes /\ passes n /\ Node.ID n <> failed.
Proof.
  intros Hc. unfold passingNodes.
  assert (Hm : exists cs, mapM Node.Check nodes = Some cs /\ Forall2 (fun n c => Node.Check n = Some c) nodes cs).
  { induction nodes as [|n nodes IH]; [exists []; split; [reflexivity|constructor]|].
    destruct (Hc n ltac:(left)) as [c Ec]. destruct IH as (cs & E & Hf); [intros x Hx; apply Hc; right; exact Hx|].
    exists (c :: cs). cbn [mapM]. rewrite Ec. cbn [mbind option_bind]. rewrite E. split; [reflexivity|constructor; assumption]. }
  destruct Hm as (cs & -> & Hf). cbn [mbind option_bind]. eexists. split; [reflexivity|]. clear Hc.
  intros n. rewrite list_elem_of_fmap. split.
  - intros ([x c] & -> & Hx). apply list_elem_of_filter in Hx as ((Hpass & Hid) & Hx). cbn in *.
    apply list_elem_of_lookup in Hx as [i Hi]. apply lookup_zip_Some in Hi as [Hi1 Hi2].
    pose proof (Forall2_lookup_lr _ _ _ _ _ _ Hf Hi1 Hi2) as Ec.
    split; [exact (list_elem_of_lookup_2 _ _ _ Hi1)|]. split; [exists c; auto|exact Hid].
  - intros (Hn & (c & Ec & Hpass) & Hid). apply list_elem_of_lookup in Hn as [i Hi].
    destruct (Forall2_lookup_l _ _ _ _ _ Hf Hi) as (c' & Hi' & Ec'). replace c' with c in * by congruence.
    exists (n, c). split; [reflexivity|]. apply list_elem_of_filter. split; [auto|].
    apply list_elem_of_lookup. exists i. apply lookup_zip_Some. auto.
Qed.

(** ** The handler *)

(** A store as the leader fills it: nodes have a check and no [ID]; partitions and
    groups have names. *)
Record registeredStore (d : DB) : Prop := {
  rs_nodes : forall k n, First Nodes k d = Some n -> is_Some (Node.Check n) /\ Node.ID n = 0;
  rs_partitions : forall k p, First Partitions k d = Some p -> Partition.Topic p <> "";
  rs_groups : forall k g, First Groups k d = Some g -> named g;
  rs_leaders : indexed Store.Leader d;
  rs_coordinators : indexed Coordinator d }.

Lemma registeredStore_Get d :
  Forall (fun n => is_Some (Node.Check n) /\ Node.ID n = 0) (Get Nodes d) ->
  Forall (fun p => Partition.Topic p <> "") (Get Partitions d) -> Forall named (Get Groups d) ->
  indexed Store.Leader d -> indexed Coordinator d -> registeredStore d.
Proof.
  intros Hn Hp Hg Hil Hic. split; [intros k v E; apply First_Get in E..|exact Hil|exact Hic].
  - exact (Forall_elem _ _ _ Hn E).
  - exact (Forall_elem _ _ _ Hp E).
  - exact (Forall_elem _ _ _ Hg E).
Qed.

(** The store once the node has been marked. *)
Lemma applied_indexed {A K V} `{Msgpack A} (i : intIndex K V) ty (msg : A) (b b' : Broker) e :
  applied ty msg b = Ret e b' -> indexed i (db b) -> indexed i (db b').
Proof.
  intros E. unfold applied in E. apply bind_inv in E as (r & b1 & E & [= _ <-]). exact (raftApply_indexed i _ _ _ _ _ E).
Qed.

Lemma mark_failed (b : Broker) m meta : (forall n : Node.t, packs n) -> alwaysCommits (raft b) ->
  registeredStore (db b) ->
  exists b1 ri, applied RegisterNodeRequestType (failedNode meta m) b = Ret None b1 /\ stepTo b b1 /\
    setsRow Nodes (BrokerMeta.ID meta) (Some (Node.set_raft ri (failedNode meta m))) (db b) (db b1) /\
    registeredStore (db b1).
Proof.
  intros Hp Hr [Hn Hps Hgs Hil Hic].
  destruct (applied_register Nodes (failedNode meta m) b eq_refl eq_refl (Hp _) Hr) as (b1 & E & Hs & ri & Hset).
  exists b1, ri. split; [exact E|]. split; [exact Hs|]. split; [exact Hset|]. destruct Hset as [Hk Ht]. split.
  - intros k n. rewrite Hk. case_decide; [|exact (Hn k n)]. intros [= <-]. split; [eexists; reflexivity|reflexivity].
  - intros k p. rewrite Ht by (reflexivity || discriminate). apply Hps.
  - intros k g. rewrite Ht by (reflexivity || discriminate). apply Hgs.
  - exact (applied_indexed _ _ _ _ _ _ E Hil).
  - exact (applied_indexed _ _ _ _ _ _ E Hic).
Qed.

(** The nodes that take over. *)
Definition takesOver (d : DB) (failed x : Z) : Prop := exists n, First Nodes x d = Some n /\ passes n /\ x <> failed.

Lemma passing_after failed (b b1 : Broker) n0 ri : registeredStore (db b1) -> failed <> 0 ->
  Node.Node n0 = failed -> ~ passes n0 ->
  setsRow Nodes failed (Some (Node.set_raft ri n0)) (db b) (db b1) ->
  exists passing, passingNodes failed (snd (GetNodes (db b1))) = Some passing /\
    forall x, among passing x <-> takesOver (db b) failed x.
Proof.
  intros [Hn _ _ _ _] Hz E0 Hnp [Hk _].
  destruct (passingNodes_spec failed (snd (GetNodes (db b1)))) as (ps & E & Hin).
  { intros n Hin. apply Get_spec in Hin. exact (proj1 (Hn _ _ Hin)). }
  exists ps. split; [exact E|]. intros x. unfold among. rewrite list_elem_of_fmap. split.
  - intros (n & -> & Hps). apply Hin in Hps as (Hn' & Hpass & _). apply Get_spec in Hn'. cbn [idOf] in Hn'.
    rewrite Hk in Hn'. case_decide as Hd; [injection Hn' as <-; destruct (Hnp Hpass)|].
    exists n. split; [exact Hn'|]. split; [exact Hpass|]. exact Hd.
  - intros (n & Hn' & Hpass & Hne). assert (Hn1 : First Nodes x (db b1) = Some n).
    { rewrite Hk, decide_False by exact Hne. exact Hn'. }
    pose proof (node_key (ToLower := ToLower) _ _ _ Hn1) as Ex. exists n. split; [symmetry; exact Ex|]. apply Hin. split_and!.
    + apply Get_spec. cbn [idOf]. rewrite Ex. exact Hn1.
    + exact Hpass.
    + rewrite (proj2 (Hn _ _ Hn1)). congruence.
Qed.

Lemma moved_weaken {K V} (t : table K V) new (good good' : Z -> Prop) vs d0 d : (forall x, good x -> good' x) ->
  moved t new good vs d0 d -> moved t new good' vs d0 d.
Proof.
  intros Hg (H1' & H2'). split; [|exact H2']. intros k v Hv Hin. destruct (H1' k v Hv Hin) as (x & ri & Hx & E). eauto.
Qed.

(** The rows of a table whose index field is [failed] were replaced, the others
    were not. *)
Definition replaced {K V} (i : intIndex K V) (becomes : V -> V -> Prop) (failed : Z) (d0 d : DB) : Prop :=
  forall k v, First (indexTable i) k d0 = Some v ->
    if decide (indexField i v = failed)
    then exists v', First (indexTable i) k d = Some v' /\ becomes v v'
    else First (indexTable i) k d = Some v.

(** A partition that another broker leads now, and which the failed one is no
    replica of. *)
Record handedOver (failed : Z) (good : Z -> Prop) (p p' : Partition.t) : Prop := {
  ho_name : Partition.Topic p' = Partition.Topic p /\ Partition.Partition p' = Partition.Partition p;
  ho_leader : good (Partition.Leader p');
  ho_replicas : forall r, r ∈ Partition.AR p' <-> r ∈ Partition.AR p /\ r <> failed;
  ho_insync : forall r, r ∈ Partition.ISR p' <-> r ∈ Partition.ISR p /\ r <> failed }.

(** A group that another broker coordinates now. *)
Record recoordinated (good : Z -> Prop) (g g' : Structs.Group.t) : Prop := {
  rc_name : Structs.Group.Group g' = Structs.Group.Group g;
  rc_coordinator : good (Structs.Group.Coordinator g');
  rc_leader : Structs.Group.LeaderID g' = Structs.Group.LeaderID g;
  rc_members : Structs.Group.Members g' = Structs.Group.Members g;
  rc_state : Structs.Group.State g' = Structs.Group.State g }.

Lemma movedPartition_handedOver failed (good : Z -> Prop) x ri p :
  good x -> handedOver failed good p (setRaft Partitions ri (movedPartition failed x p)).
Proof.
  intros Hx. split; cbn; [auto|exact Hx|..]; intros r; unfold without; rewrite list_elem_of_filter; tauto.
Qed.
Lemma setCoordinator_recoordinated (good : Z -> Prop) x ri g :
  good x -> recoordinated good g (setRaft Groups ri (setCoordinator x g)).
Proof. intros Hx. split; cbn; auto. Qed.

(** The rows were read from [d1], and the table is the same in [d0], [d1] and
    [d2]. *)
Lemma moved_replaced {K V} (i : intIndex K V) new good becomes failed d0 d1 d2 d : let t := indexTable i in
  indexed i d1 ->
  (forall x ri v, good x -> becomes v (setRaft t ri (new x v))) ->
  (forall k, First t k d1 = First t k d0) -> (forall k, First t k d2 = First t k d1) ->
  moved t new good (GetBy i failed d1) d2 d -> replaced i becomes failed d0 d.
Proof.
  intros t Hidx Hnew E10 E21 (Hin & Hout & _) k v Hv. fold t. rewrite <- E10 in Hv.
  assert (Hid : First t (idOf t v) d1 = Some v).
  { rewrite (First_norm t (idOf t v) k); [exact Hv|]. exact (First_id _ _ _ _ Hv). }
  rewrite <- E21 in Hv. case_decide as Hf.
  - destruct (Hin k v Hv) as (x & ri & Hx & E); [rewrite (Hidx failed v); fold t; tauto|]. eauto.
  - apply Hout; [exact Hv|]. rewrite (Hidx failed v). fold t. tauto.
Qed.

(** What a failed member leaves behind: its node marked critical, its partitions and
    groups moved to nodes that pass, and requests that name it as the leader. *)
Record failedOver (m : SerfMember.t) (meta : BrokerMeta.t) (b b' : Broker) : Prop := {
  fo_node : exists n, First Nodes (BrokerMeta.ID meta) (db b') = Some n /\ Node.Node n = BrokerMeta.ID meta /\
    Node.Address n = "" /\ HealthCheck.Status <$> Node.Check n = Some HealthCritical;
  fo_others : forall k, k <> BrokerMeta.ID meta -> First Nodes k (db b') = First Nodes k (db b);
  fo_partitions : replaced Store.Leader (handedOver (BrokerMeta.ID meta) (takesOver (db b) (BrokerMeta.ID meta)))
    (BrokerMeta.ID meta) (db b) (db b');
  fo_groups : replaced Store.Coordinator (recoordinated (takesOver (db b) (BrokerMeta.ID meta)))
    (BrokerMeta.ID meta) (db b) (db b');
  fo_sent : exists told, sent b' = sent b ++ told /\
    Forall (fun ar => forall st, st ∈ LeaderAndISRRequest.PartitionStates (snd ar) ->
              PartitionState.Leader st = BrokerMeta.ID meta) told;
  fo_raft : alwaysCommits (raft b') /\ raft_configuration (raft b') = raft_configuration (raft b) }.

(** The steps of the handler, put together. *)
Lemma failedOver_intro m meta (b b1 b2 b3 : Broker) ri passing req cs se :
  let failed := BrokerMeta.ID meta in
  indexed Store.Leader (db b1) -> indexed Coordinator (db b1) -> stepTo b b1 -> setsRow Nodes failed (Some (Node.set_raft ri (failedNode meta m))) (db b) (db b1) ->
  (forall x, among passing x <-> takesOver (db b) failed x) ->
  stepTo b1 b2 -> moved Groups setCoordinator (among passing) (GetBy Coordinator failed (db b1)) (db b1) (db b2) ->
  stepTo b2 b3 ->
  moved Partitions (movedPartition failed) (among passing) (GetBy Store.Leader failed (db b1)) (db b2) (db b3) ->
  Forall (fun ar => snd ar = req) se ->
  (forall st, st ∈ LeaderAndISRRequest.PartitionStates req -> PartitionState.Leader st = failed) ->
  failedOver m meta b (set_sent (sent b3 ++ se) (set_calls cs b3)).
Proof.
  intros failed Hil Hic Hs1 [Hk Ht] Hgood Hs2 Hm2 Hs3 Hm3 Hse Hreq.
  assert (Hwk : forall x, among passing x -> takesOver (db b) failed x) by (intros x; apply Hgood).
  assert (Hrest2 := proj2 (proj2 (proj2 Hm2))). assert (Hrest3 := proj2 (proj2 (proj2 Hm3))).
  assert (Hnodes : forall k, First Nodes k (db b3) =
    if decide (k = failed) then Some (Node.set_raft ri (failedNode meta m)) else First Nodes k (db b)).
  { intros k. rewrite (Hrest3 _ _ Nodes), (Hrest2 _ _ Nodes), Hk by (reflexivity || discriminate). reflexivity. }
  split; cbn [db set_sent set_calls sent raft].
  - fold failed. rewrite Hnodes, decide_True by reflexivity. eexists. split_and!; reflexivity.
  - intros k Hne. rewrite Hnodes, decide_False by exact Hne. reflexivity.
  - apply (moved_replaced Store.Leader (movedPartition failed) (takesOver (db b) failed) _ _ (db b) (db b1) (db b2) _ Hil).
    + intros x ri' p Hx. exact (movedPartition_handedOver failed _ x ri' p Hx).
    + intros k. apply Ht; [reflexivity|discriminate].
    + intros k. apply Hrest2; [reflexivity|discriminate].
    + exact (moved_weaken _ _ _ _ _ _ _ Hwk Hm3).
  - intros k g Hg. cbn [indexTable]. rewrite (Hrest3 _ _ Groups) by (reflexivity || discriminate). revert k g Hg.
    apply (moved_replaced Coordinator setCoordinator (takesOver (db b) failed) _ _ (db b) (db b1) (db b1) _ Hic).
    + intros x ri' g Hx. exact (setCoordinator_recoordinated _ x ri' g Hx).
    + intros k. apply Ht; [reflexivity|discriminate].
    + reflexivity.
    + exact (moved_weaken _ _ _ _ _ _ _ Hwk Hm2).
  - exists se. split.
    + destruct Hs1 as (d1 & r1 & -> & _), Hs2 as (d2 & r2 & -> & _), Hs3 as (d3 & r3 & -> & _). reflexivity.
    + revert Hse. apply Forall_impl. intros ar ->. exact Hreq.
  - pose proof (stepTo_trans _ _ _ Hs1 (stepTo_trans _ _ _ Hs2 Hs3)) as (d3 & r3 & -> & Hr3 & Ec3). split; assumption.
Qed.

Lemma handleFailedMember_spec rg rp m meta (b : Broker) : IsBroker m = Some meta ->
  (forall n : Node.t, packs n) -> (forall p : Partition.t, packs p) -> (forall g : Structs.Group.t, packs g) ->
  alwaysCommits (raft b) -> registeredStore (db b) -> BrokerMeta.ID meta <> 0 ->
  (exists x, takesOver (db b) (BrokerMeta.ID meta) x) ->
  exists e b', handleFailedMember rg rp m b = Ret e b' /\ failedOver m meta b b'.
Proof.
  intros Em Hpn Hpp Hpg Hr Hstore Hz [x0 Hx0]. set (failed := BrokerMeta.ID meta) in *.
  destruct (mark_failed b m meta Hpn Hr Hstore) as (b1 & ri & E1 & Hs1 & Hset & Hstore1). fold failed in Hset.
  destruct (passing_after failed b b1 (failedNode meta m) ri Hstore1 Hz eq_refl) as (passing & Ep & Hgood); [|exact Hset|].
  { intros (c & [= <-] & C). discriminate C. }
  assert (Hne : passing <> []) by (intros ->; apply Hgood in Hx0; unfold among in Hx0; inversion Hx0).
  destruct (moveGroups_spec passing rg (db b1) (GetBy Coordinator failed (db b1)) Hne Hpg) with (i := O) (done := @nil Structs.Group.t) (b := b1)
    as (b2 & E2 & Hs2 & Hm2); [|exact (stepTo_commits _ _ Hs1)|apply moved_refl|].
  { intros g Hg. apply (rs_coordinators _ Hstore1) in Hg as [Hg _]. split; [exact Hg|]. exact (rs_groups _ Hstore1 _ _ Hg). }
  set (ps := GetBy Store.Leader failed (db b1)).
  destruct (movePartitions_spec failed passing rp (db b2) ps Hne Hpp) with (i := O) (done := @nil Partition.t) (b := b2)
    as (b3 & E3 & Hs3 & Hm3); [|exact (stepTo_commits _ _ Hs2)|apply moved_refl|].
  { intros p Hp. apply (rs_leaders _ Hstore1) in Hp as [Hp _]. cbn [indexTable] in Hp. split; [|exact (rs_partitions _ Hstore1 _ _ Hp)].
    destruct Hm2 as (_ & _ & _ & Hrest). rewrite Hrest by (reflexivity || discriminate). exact Hp. }
  destruct (announceTo_spec (LeaderAndISRRequest.mk 0 (configID b1) 0 (announcedState <$> ps) []) passing b3)
    as (e & cs & se & E4 & Hse).
  exists e, (set_sent (sent b3 ++ se) (set_calls cs b3)). split.
  - unfold handleFailedMember. rewrite Em. rewrite (on_ok_Ret _ _ _ _ E1). erewrite bind_Ret by reflexivity.
    fold failed. unfold must. unfold mbind at 1, M_bind at 1. rewrite Ep. rewrite (on_ok_Ret _ _ _ _ E2).
    rewrite (on_ok_Ret _ _ _ _ E3). exact E4.
  - eapply failedOver_intro; try eassumption; [exact (rs_leaders _ Hstore1)|exact (rs_coordinators _ Hstore1)|]. intros st Hst. cbn in Hst. apply list_elem_of_fmap in Hst as (p & -> & Hp).
    apply (rs_leaders _ Hstore1) in Hp as [_ Hp]. exact Hp.
Qed.

(** Broker 0: no node that passes is left, since [ID] is 0 for all. *)
Lemma handleFailedMember_zero rg rp m meta (b : Broker) p k : IsBroker m = Some meta -> BrokerMeta.ID meta = 0 ->
  (forall n : Node.t, packs n) -> alwaysCommits (raft b) -> registeredStore (db b) ->
  First Partitions k (db b) = Some p -> Partition.Leader p = 0 ->
  handleFailedMember rg rp m b = Crash.
Proof.
  intros Em Hz Hpn Hr Hstore Hp Hl.
  destruct (mark_failed b m meta Hpn Hr Hstore) as (b1 & ri & E1 & _ & [Hk Ht] & Hstore1).
  unfold handleFailedMember. rewrite Em. rewrite (on_ok_Ret _ _ _ _ E1). erewrite bind_Ret by reflexivity.
  destruct (passingNodes_spec (BrokerMeta.ID meta) (snd (GetNodes (db b1)))) as (ps & E & Hin).
  { intros n Hin. apply Get_spec in Hin. exact (proj1 (rs_nodes _ Hstore1 _ _ Hin)). }
  assert (Hnil : ps = []).
  { apply elem_of_nil_inv. intros n C. apply Hin in C as (C & _ & Hid). apply Get_spec in C.
    apply Hid. rewrite Hz. exact (proj2 (rs_nodes _ Hstore1 _ _ C)). }
  unfold must. unfold mbind at 1, M_bind at 1. rewrite E, Hnil.
  assert (Hpick : forall n, pick [] n = None) by reflexivity.
  destruct (snd (GetGroupsByCoordinator (BrokerMeta.ID meta) (db b1))) as [|g gs].
  2:{ unfold on_ok. cbn [moveGroups]. unfold must, mbind, M_bind. rewrite Hpick. reflexivity. }
  cbn [moveGroups]. erewrite on_ok_Ret by reflexivity.
  assert (Hmem : p ∈ snd (PartitionsByLeader (BrokerMeta.ID meta) (db b1))).
  { unfold PartitionsByLeader. cbn [snd]. apply (rs_leaders _ Hstore1). cbn [indexTable indexField]. split; [|congruence].
    rewrite Ht by (reflexivity || discriminate). rewrite (First_norm Partitions _ k); [exact Hp|].
    exact (First_id Partitions _ _ _ Hp). }
  destruct (snd (PartitionsByLeader _ (db b1))) as [|q qs]; [inversion Hmem|].
  unfold on_ok. cbn [movePartitions]. unfold must, mbind, M_bind. rewrite Hpick. reflexivity.
Qed.
End failover.
