(* ===== verification/Run.v ===== *)
(** * Serving requests

    [Run] of [src/jocko/broker.go], which hands every request to its handler, and
    [handleResponse] of [src/jocko/server.go]: with [handleRequest], the bytes of
    a connection turned into the bytes of the answers. *)
From S2P Require Import Prelude Encoder Decoder Codec ClientApi TopicApi GroupApi ClusterApi MessageSets Wire Conn Structs Store StoreSteps Cluster LogService BrokerState Broker TopicAdmin ClusterInfo GroupAdmin.

(** ** Answers: the bodies of responses that handlers return *)
Inductive Answer :=
| RProduce (r : ProduceResponse.t)
| RFetch (r : FetchResponse.t)
| ROffsets (r : OffsetsResponse.t)
| RMetadata (r : MetadataResponse.t)
| RLeaderAndISR (r : LeaderAndISRResponse.t)
| RStopReplica (r : StopReplicaResponse.t)
| RUpdateMetadata (r : EmptyResponse.t)
| RControlledShutdown (r : ControlledShutdownResponse.t)
| ROffsetCommit (r : OffsetCommitResponse.t)
| ROffsetFetch (r : OffsetFetchResponse.t)
| RFindCoordinator (r : FindCoordinatorResponse.t)
| RJoinGroup (r : JoinGroupResponse.t)
| RHeartbeat (r : HeartbeatResponse.t)
| RLeaveGroup (r : LeaveGroupResponse.t)
| RSyncGroup (r : SyncGroupResponse.t)
| RDescribeGroups (r : DescribeGroupsResponse.t)
| RListGroups (r : ListGroupsResponse.t)
| RSaslHandshake (r : EmptyResponse.t)
| RAPIVersions (r : APIVersionsResponse.t)
| RCreateTopics (r : CreateTopicsResponse.t)
| RDeleteTopics (r : DeleteTopicsResponse.t).

(** The key of the requests that an answer belongs to, and the version it is
    written at, if its type has one. *)
Definition answerKey (a : Answer) : Z :=
  match a with
  | RProduce _ => ProduceKey | RFetch _ => FetchKey | ROffsets _ => OffsetsKey | RMetadata _ => MetadataKey
  | RLeaderAndISR _ => LeaderAndISRKey | RStopReplica _ => StopReplicaKey | RUpdateMetadata _ => UpdateMetadataKey
  | RControlledShutdown _ => ControlledShutdownKey | ROffsetCommit _ => OffsetCommitKey
  | ROffsetFetch _ => OffsetFetchKey | RFindCoordinator _ => FindCoordinatorKey | RJoinGroup _ => JoinGroupKey
  | RHeartbeat _ => HeartbeatKey | RLeaveGroup _ => LeaveGroupKey | RSyncGroup _ => SyncGroupKey
  | RDescribeGroups _ => DescribeGroupsKey | RListGroups _ => ListGroupsKey | RSaslHandshake _ => SaslHandshakeKey
  | RAPIVersions _ => APIVersionsKey | RCreateTopics _ => CreateTopicsKey | RDeleteTopics _ => DeleteTopicsKey
  end.
Definition answerVersion (a : Answer) : option Z :=
  match a with
  | RProduce r => Some (ProduceResponse.APIVersion r) | RFetch r => Some (FetchResponse.APIVersion r)
  | ROffsets r => Some (OffsetsResponse.APIVersion r) | RMetadata r => Some (MetadataResponse.APIVersion r)
  | RLeaderAndISR r => Some (LeaderAndISRResponse.APIVersion r)
  | RStopReplica _ | RUpdateMetadata _ | RSaslHandshake _ => None
  | RControlledShutdown r => Some (ControlledShutdownResponse.APIVersion r)
  | ROffsetCommit r => Some (OffsetCommitResponse.APIVersion r) | ROffsetFetch r => Some (OffsetFetchResponse.APIVersion r)
  | RFindCoordinator r => Some (FindCoordinatorResponse.APIVersion r) | RJoinGroup r => Some (JoinGroupResponse.APIVersion r)
  | RHeartbeat r => Some (HeartbeatResponse.APIVersion r) | RLeaveGroup r => Some (LeaveGroupResponse.APIVersion r)
  | RSyncGroup r => Some (SyncGroupResponse.APIVersion r) | RDescribeGroups r => Some (DescribeGroupsResponse.APIVersion r)
  | RListGroups r => Some (ListGroupsResponse.APIVersion r) | RAPIVersions r => Some (APIVersionsResponse.APIVersion r)
  | RCreateTopics r => Some (CreateTopicsResponse.APIVersion r) | RDeleteTopics r => Some (DeleteTopicsResponse.APIVersion r)
  end.

(** The method [Encode] of an answer, through the interface. *)
Definition encodeAnswer (E : Type) `(PacketEncoder E) (o : map_order) (a : Answer) : M E unit :=
  match a with
  | RProduce r => resp_encode E _ o r | RFetch r => resp_encode E _ o r | ROffsets r => resp_encode E _ o r
  | RMetadata r => resp_encode E _ o r | RLeaderAndISR r => resp_encode E _ o r | RStopReplica r => resp_encode E _ o r
  | RUpdateMetadata r => resp_encode E _ o r | RControlledShutdown r => resp_encode E _ o r
  | ROffsetCommit r => resp_encode E _ o r | ROffsetFetch r => resp_encode E _ o r
  | RFindCoordinator r => resp_encode E _ o r | RJoinGroup r => resp_encode E _ o r | RHeartbeat r => resp_encode E _ o r
  | RLeaveGroup r => resp_encode E _ o r | RSyncGroup r => resp_encode E _ o r | RDescribeGroups r => resp_encode E _ o r
  | RListGroups r => resp_encode E _ o r | RSaslHandshake r => resp_encode E _ o r | RAPIVersions r => resp_encode E _ o r
  | RCreateTopics r => resp_encode E _ o r | RDeleteTopics r => resp_encode E _ o r
  end.

(** [handleResponse]: the frame of an answer, written to the connection. *)
Definition encodeResponse {E} `{PacketEncoder E} (o : map_order) (id : Z) (a : Answer) : M E unit :=
  Push (SizeField 0) ;; (PutInt32 id ;; encodeAnswer E _ o a) ;; Pop.
Definition handleResponse (oL oB : map_order) (id : Z) (a : Answer) : outcome unit (list byte) :=
  Encoder.Encode (encodeResponse oL id a) (encodeResponse oB id a).

(** ** Handlers *)

(** What is left open while a request is handled: timers, the clock, the room that
    a reader finds, the order of maps, random numbers, a new UUID and the hash of
    a library. *)
Record World := mkWorld {
  w_expired : nat -> nat -> bool; w_now : nat -> nat -> Z; w_room : nat -> nat; w_fuel : nat;
  w_order : nat -> map_order; w_order' : nat -> map_order; w_rnd : nat -> nat -> nat; w_uuid : string;
  w_hash : string -> Z }.

Section run.
Context {L R D DB RF : Type} `{CommitLogOps L R} `{LogDirs D L} `{Memdb DB} `{Raft RF}.
Context `{Msgpack Node.t} `{Msgpack Topic.t} `{Msgpack Structs.Partition.t} `{Msgpack Structs.Group.t}.
Abbreviation Broker := (BrokerState.Broker L D DB RF).

(** The [switch] of [Run]; the bodies of the last cases have no handler. *)
Definition dispatch (w : World) (header : RequestHeader.t) (req : Body) : M Broker (option Answer) :=
  let reply {A} (c : A -> Answer) (m : M Broker A) := res ← m; mret (Some (c res)) in
  match req with
  | Wire.Produce req => reply RProduce (handleProduce req (w_expired w) (w_now w))
  | Wire.Fetch req => reply RFetch (handleFetch req (w_expired w) (w_room w) (w_fuel w))
  | Wire.Offsets req => reply ROffsets (handleOffsets req)
  | Wire.Metadata req => reply RMetadata (handleMetadata (w_order w) req)
  | Wire.LeaderAndISR req => reply RLeaderAndISR (handleLeaderAndISR req)
  | Wire.StopReplica req => reply RStopReplica (handleStopReplica req)
  | Wire.UpdateMetadata req => reply RUpdateMetadata (handleUpdateMetadata req)
  | Wire.ControlledShutdown req => reply RControlledShutdown (handleControlledShutdown req)
  | Wire.OffsetCommit req => reply ROffsetCommit (handleOffsetCommit req)
  | Wire.OffsetFetch req => reply ROffsetFetch (handleOffsetFetch req)
  | Wire.FindCoordinator req => reply RFindCoordinator (handleFindCoordinator (w_hash w) (w_order w 0%nat) (w_rnd w 0%nat) req)
  | Wire.JoinGroup req => reply RJoinGroup (handleJoinGroup (w_order w 0%nat) (RequestHeader.ClientID header) (w_uuid w) req)
  | Wire.Heartbeat req => reply RHeartbeat (handleHeartbeat req)
  | Wire.LeaveGroup req => reply RLeaveGroup (handleLeaveGroup req)
  | Wire.SyncGroup req => reply RSyncGroup (handleSyncGroup req)
  | Wire.DescribeGroups req => reply RDescribeGroups (handleDescribeGroups req)
  | Wire.ListGroups req => reply RListGroups (handleListGroups req)
  | Wire.SaslHandshake req => reply RSaslHandshake (handleSaslHandshake req)
  | Wire.APIVersions req => reply RAPIVersions (handleAPIVersions req)
  | Wire.CreateTopics req =>
      reply RCreateTopics (handleCreateTopic (fun i => w_expired w i 0%nat) (w_order w) (w_order' w) (w_rnd w) req)
  | Wire.DeleteTopics req => reply RDeleteTopics (handleDeleteTopics (fun i => w_expired w i 0%nat) req)
  | Wire.DescribeConfigs _ | Wire.AlterConfigs _ => mret None
  end.

(** The loop: the requests in the order they come, each answer with the
    correlation id of its request. *)
Fixpoint Run (w : nat -> World) (i : nat) (requests : list (RequestHeader.t * Body)) : M Broker (list (Z * option Answer)) :=
  match requests with
  | [] => mret []
  | (header, req) :: requests =>
      res ← dispatch (w i) header req;
      rest ← Run w (S i) requests;
      mret ((RequestHeader.CorrelationID header, res) :: rest)
  end.

(** An answer that is nil cannot be written; one that cannot be encoded is logged
    and dropped. *)
Fixpoint respond (oL oB : map_order) (answers : list (Z * option Answer)) : option (list byte) :=
  match answers with
  | [] => Some []
  | (id, None) :: _ => None
  | (id, Some a) :: answers =>
      match handleResponse oL oB id a with
      | Ret frame _ => rest ← respond oL oB answers; Some (frame ++ rest)
      | Fail _ _ => respond oL oB answers
      | Crash => None
      end
  end.

(** A connection: the bytes that were sent on it, and those that come back. *)
Definition serve (oL oB : map_order) (w : nat -> World) (conn : list byte) : M Broker (list byte) :=
  let '(requests, panicked) := handleRequest conn in
  if (panicked : bool) then crash else
  answers ← Run w 0 requests;
  must (respond oL oB answers).

(** ** Lemmas *)

(** An answer of the right kind: the key of its request, and its version unless
    the type has none. *)
Definition inKind (h : RequestHeader.t) (a : Answer) : Prop :=
  answerKey a = RequestHeader.APIKey h /\
  match answerVersion a with
  | Some v => v = (if decide (RequestHeader.APIKey h ∈ [APIVersionsKey; CreateTopicsKey]) then 0
                   else RequestHeader.APIVersion h)
  | None => True
  end.

(** A body as it is read after the header [h]: of its key, and of its version
    where [Decode] keeps it. *)
Definition carries (h : RequestHeader.t) (req : Body) : Prop :=
  Key req = RequestHeader.APIKey h /\
  match req with
  | Wire.OffsetCommit _ | Wire.UpdateMetadata _ | Wire.ControlledShutdown _ | Wire.SaslHandshake _ => True
  | Wire.CreateTopics r => CreateTopicRequests.APIVersion r = 0
  | Wire.DescribeConfigs _ | Wire.AlterConfigs _ => False
  | b => Version b = RequestHeader.APIVersion h
  end.

Lemma reply_inv {A} (c : A -> Answer) (m : M Broker A) b a b' :
  (res ← m; mret (Some (c res))) b = Ret a b' -> exists res, m b = Ret res b' /\ a = Some (c res).
Proof.
  unfold mbind, M_bind. destruct (m b) as [res b1|e b1|]; [|discriminate..]. intros [= <- <-]. eauto.
Qed.

(** Computations whose results satisfy [P]. *)
Definition yields {St A} (P : A -> Prop) (m : M St A) : Prop := forall s a s', m s = Ret a s' -> P a.

Lemma yields_ret {St A} (P : A -> Prop) (a : A) : P a -> yields (St := St) P (mret a).
Proof. intros Ha s a' s' [= <- <-]. exact Ha. Qed.
Lemma yields_bind {St A B} (P : B -> Prop) (m : M St A) (f : A -> M St B) : (forall a, yields P (f a)) -> yields P (m ≫= f).
Proof.
  intros Hf s x s'. unfold mbind, M_bind. destruct (m s) as [a s1|e s1|]; [|discriminate..]. apply Hf.
Qed.
Lemma yields_crash {St A} (P : A -> Prop) : yields (St := St) P crash.
Proof. intros s a s' C. discriminate. Qed.

(** Follow a handler to its results. *)
Ltac yields_go :=
  repeat first
    [ apply yields_crash | apply yields_ret; reflexivity | apply yields_bind; intros ?
    | match goal with |- yields _ (match ?x with _ => _ end) => destruct x end ].

Lemma yields_reply {A} h (c : A -> Answer) (m : M Broker A) :
  yields (fun r => inKind h (c r)) m -> yields (fun a => exists x, a = Some x /\ inKind h x) (res ← m; mret (Some (c res))).
Proof. intros Hm s a s' E. apply reply_inv in E as (r & E & ->). exists (c r). split; [reflexivity|]. exact (Hm _ _ _ E). Qed.

(** Every handler that returns answers in kind. *)
Lemma dispatch_inKind w h req : carries h req ->
  yields (fun a => exists x, a = Some x /\ inKind h x) (dispatch w h req).
Proof.
  unfold carries. intros [Hk Hv]. destruct req; try contradiction; cbn [dispatch]; apply yields_reply; unfold inKind;
    cbn [answerKey Key answerVersion Version] in *; rewrite <- Hk; try (rewrite <- Hv);
    try (apply yields_crash);
    unfold handleProduce, handleFetch, handleOffsets, handleMetadata, handleLeaderAndISR, handleOffsetFetch,
      handleFindCoordinator, handleJoinGroup, handleHeartbeat, handleLeaveGroup, handleSyncGroup, handleDescribeGroups,
      handleListGroups, handleAPIVersions, handleCreateTopic, handleDeleteTopics;
    yields_go; try (apply yields_ret; split; reflexivity).
Qed.

Lemma Run_inKind w : forall reqs i, Forall (fun hr => carries (fst hr) (snd hr)) reqs ->
  yields (Forall2 (fun hr ia => fst ia = RequestHeader.CorrelationID (fst hr) /\
                                exists a, snd ia = Some a /\ inKind (fst hr) a) reqs) (Run w i reqs).
Proof.
  induction reqs as [|[h req] reqs IH]; intros i Hall; [apply yields_ret; constructor|].
  apply list.Forall_cons in Hall as [Hreq Hall]. intros b answers b'. cbn [Run]. unfold mbind, M_bind.
  destruct (dispatch (w i) h req b) as [a b1|e b1|] eqn:E1; [|discriminate..].
  destruct (Run w (S i) reqs b1) as [rest b2|e b2|] eqn:E2; [|discriminate..]. intros [= <- <-].
  constructor; [|exact (IH (S i) Hall _ _ _ E2)]. split; [reflexivity|]. exact (dispatch_inKind (w i) h req Hreq _ _ _ E1).
Qed.

(** An answer whose type reads back what it writes. *)
Definition writesAs {B} `{ResponseBody B} (inj : B -> Answer) : Prop :=
  forall E (P : PacketEncoder E) o r, encodeAnswer E P o (inj r) = resp_encode E P o r.

Lemma handleResponse_as {B} `{ResponseBody B} (inj : B -> Answer) oL oB id (r : B) : writesAs inj ->
  handleResponse oL oB id (inj r) =
  Encoder.Encode (Response.Encode oL (Response.mk 0 id r)) (Response.Encode oB (Response.mk 0 id r)).
Proof. intros Hw. unfold handleResponse, encodeResponse. rewrite !Hw. reflexivity. Qed.

(** What is read from a connection has the key and the version of its header. *)
Lemma carries_ctor {A} (c : A -> Body) (m : M ByteDecoder A) h : yields (fun x => carries h (c x)) m ->
  yields (carries h) (x ← m; mret (c x)).
Proof.
  intros Hm d b d'. unfold mbind, M_bind. destruct (m d) as [x d1|e d1|] eqn:E; [|discriminate..].
  intros [= <- <-]. exact (Hm _ _ _ E).
Qed.

Lemma decodeBody_carries h Dc : decodeBody (RequestHeader.APIKey h) (RequestHeader.APIVersion h) = Some Dc ->
  yields (carries h) Dc.
Proof.
  unfold decodeBody. destruct (RequestHeader.APIKey h) as [|p|p] eqn:Ek;
    [|do 5 (try destruct p as [p|p|]); try discriminate|discriminate];
    intros [= <-]; apply carries_ctor; unfold carries; rewrite Ek; cbn [Key Version];
    unfold ProduceRequest.Decode, FetchRequest.Decode, OffsetsRequest.Decode, MetadataRequest.Decode,
      LeaderAndISRRequest.Decode, StopReplicaRequest.Decode, EmptyRequest.Decode, OffsetCommitRequest.Decode,
      OffsetFetchRequest.Decode, FindCoordinatorRequest.Decode, JoinGroupRequest.Decode, HeartbeatRequest.Decode,
      LeaveGroupRequest.Decode, SyncGroupRequest.Decode, DescribeGroupsRequest.Decode, ListGroupsRequest.Decode,
      APIVersionsRequest.Decode, CreateTopicRequests.Decode, DeleteTopicsRequest.Decode;
    yields_go; apply yields_ret; split; reflexivity || exact I.
Qed.

Lemma readRequest_carries conn h body rest : readRequest conn = Got h body rest -> carries h body.
Proof.
  unfold readRequest. case_decide; [discriminate|]. case_bool; [discriminate|].
  case_decide; [discriminate|]. case_decide; [discriminate|].
  destruct (RequestHeader.Decode _) as [h' d|e d|]; try discriminate.
  destruct (decodeBody _ _) as [Dc|] eqn:ED; [|discriminate].
  destruct (Dc d) as [b d'|e d'|] eqn:E; try discriminate. intros [= <- <- _]. exact (decodeBody_carries _ _ ED _ _ _ E).
Qed.

Lemma handleRequest_carries conn : Forall (fun hr => carries (fst hr) (snd hr)) (fst (handleRequest conn)).
Proof.
  unfold handleRequest. generalize (S (length conn)) as fuel. intros fuel. revert conn.
  induction fuel as [|fuel IH]; intros conn; [constructor|]. cbn [handleRequests].
  destruct (readRequest conn) as [| |h body rest] eqn:E; [constructor..|].
  specialize (IH rest). destruct (handleRequests fuel rest) as [rs p]. cbn [fst] in *.
  constructor; [exact (readRequest_carries _ _ _ _ E)|exact IH].
Qed.
End run.
