(* ===== verification/ServerSteps.v ===== *)
(** * A server with several connections

    [src/jocko/server.go] and [Run] of [src/jocko/broker.go]: a goroutine per
    connection reads requests and sends them on [requestCh], the broker's loop
    handles them one by one and sends the answers on [responseCh], and one loop
    writes these to the connections.  Each goroutine's next action is a step. *)
From S2P Require Import Prelude Encoder Decoder Codec ClientApi TopicApi GroupApi ClusterApi MessageSets Wire Conn Structs Store StoreSteps Cluster LogService BrokerState Broker TopicAdmin ClusterInfo GroupAdmin Run.

(** A connection that was accepted: the bytes that have come in all and how many
    of them were read, the bytes that were written to it, whether it is open,
    whether the client has closed its side, whether it takes no more bytes for
    now, and the request that waits for room on [requestCh]. *)
Record Client := mkClient {
  received : list byte; pos : nat; written : list byte; isOpen : bool; eof : bool; stalled : bool;
  sending : option (RequestHeader.t * Body) }.

Definition newClient : Client := mkClient [] 0 [] true false false None.
Definition unread (k : Client) : list byte := drop (pos k) (received k).

Definition receive (bs : list byte) (k : Client) : Client :=
  mkClient (received k ++ bs) (pos k) (written k) (isOpen k) (eof k) (stalled k) (sending k).
Definition finish (k : Client) : Client :=
  mkClient (received k) (pos k) (written k) (isOpen k) true (stalled k) (sending k).
Definition stall (f : bool) (k : Client) : Client :=
  mkClient (received k) (pos k) (written k) (isOpen k) (eof k) f (sending k).
Definition took (h : RequestHeader.t) (b : Body) (rest : list byte) (k : Client) : Client :=
  mkClient (received k) (length (received k) - length rest) (written k) (isOpen k) (eof k) (stalled k) (Some (h, b)).
Definition sent (k : Client) : Client :=
  mkClient (received k) (pos k) (written k) (isOpen k) (eof k) (stalled k) None.
Definition hangUp (k : Client) : Client :=
  mkClient (received k) (pos k) (written k) false (eof k) (stalled k) (sending k).
Definition writeTo (frame : list byte) (k : Client) : Client :=
  mkClient (received k) (pos k) (written k ++ frame) (isOpen k) (eof k) (stalled k) (sending k).

(** All bytes of the frame at the front have come, or its size is out of range. *)
Definition complete (conn : list byte) : bool :=
  (4 <=? length conn)%nat &&
  let n := Z.to_nat (uint32 (be_get (take 4 conn) + 4)) in
  ((n <? 4) || (n <=? length conn))%nat.

(** The capacity of both channels. *)
Definition capacity : nat := 1024.

(** The part of a merged history that belongs to a connection. *)
Definition proj {A} (c : nat) (l : list (nat * A)) : list A := (filter (fun x => x.1 = c) l).*2.

Section server.
Context {L R D DB RF : Type} `{CommitLogOps L R} `{LogDirs D L} `{Memdb DB} `{Raft RF}.
Context `{Msgpack Node.t} `{Msgpack Topic.t} `{Msgpack Structs.Partition.t} `{Msgpack Structs.Group.t}.
Abbreviation Broker := (BrokerState.Broker L D DB RF).
Context (oL oB : map_order) (w : nat -> World).

(** [requestCh] and [responseCh] hold the connection of each request; [outgoing]
    is the answer that waits for room on [responseCh], [handled] the number of
    requests that were handled. *)
Record Server := mkServer {
  broker : Broker; clients : gmap nat Client; requestCh : list (nat * (RequestHeader.t * Body));
  outgoing : option (nat * (Z * option Answer)); responseCh : list (nat * (Z * option Answer)); handled : nat }.

Definition NewServer (b : Broker) : Server := mkServer b ∅ [] None [] 0.

Definition put (c : nat) (k : Client) (s : Server) : Server :=
  mkServer (broker s) (<[c := k]> (clients s)) (requestCh s) (outgoing s) (responseCh s) (handled s).

(** A step; [None] is the end of the process by a panic. *)
Inductive serverStep : Server -> option Server -> Prop :=
| SAccept c s : clients s !! c = None -> serverStep s (Some (put c newClient s))
| SArrive c k bs s : clients s !! c = Some k -> eof k = false -> serverStep s (Some (put c (receive bs k) s))
| SFinish c k s : clients s !! c = Some k -> serverStep s (Some (put c (finish k) s))
| SStall c k f s : clients s !! c = Some k -> serverStep s (Some (put c (stall f k) s))
(* the goroutine of [handleRequest] *)
| SRead c k h b rest s : clients s !! c = Some k -> isOpen k = true -> sending k = None ->
    readRequest (unread k) = Got h b rest -> serverStep s (Some (put c (took h b rest k) s))
| SHangUp c k s : clients s !! c = Some k -> isOpen k = true -> sending k = None ->
    readRequest (unread k) = Closed -> eof k = true \/ (4 <= length (unread k))%nat ->
    serverStep s (Some (put c (hangUp k) s))
| SReadPanic c k s : clients s !! c = Some k -> isOpen k = true -> sending k = None ->
    readRequest (unread k) = Panicked -> eof k = true \/ complete (unread k) = true -> serverStep s None
| SRequest c k hb s : clients s !! c = Some k -> sending k = Some hb ->
    (length (requestCh s) < capacity)%nat ->
    serverStep s (Some (mkServer (broker s) (<[c := sent k]> (clients s)) (requestCh s ++ [(c, hb)])
      (outgoing s) (responseCh s) (handled s)))
(* the loop of [Run] *)
| SHandle c h b q res b' s : requestCh s = (c, (h, b)) :: q -> outgoing s = None ->
    dispatch (w (handled s)) h b (broker s) = Ret res b' ->
    serverStep s (Some (mkServer b' (clients s) q (Some (c, (RequestHeader.CorrelationID h, res)))
      (responseCh s) (S (handled s))))
| SHandlePanic c h b q s : requestCh s = (c, (h, b)) :: q -> outgoing s = None ->
    dispatch (w (handled s)) h b (broker s) = Crash -> serverStep s None
| SRespond r s : outgoing s = Some r -> (length (responseCh s) < capacity)%nat ->
    serverStep s (Some (mkServer (broker s) (clients s) (requestCh s) None (responseCh s ++ [r]) (handled s)))
(* the loop that writes the responses *)
| SWrite c id a frame q k s : responseCh s = (c, (id, Some a)) :: q ->
    handleResponse oL oB id a = Ret frame tt -> clients s !! c = Some k -> isOpen k = true -> stalled k = false ->
    serverStep s (Some (mkServer (broker s) (<[c := writeTo frame k]> (clients s)) (requestCh s)
      (outgoing s) q (handled s)))
| SWriteClosed c id a frame q k s : responseCh s = (c, (id, Some a)) :: q ->
    handleResponse oL oB id a = Ret frame tt -> clients s !! c = Some k -> isOpen k = false ->
    serverStep s (Some (mkServer (broker s) (clients s) (requestCh s) (outgoing s) q (handled s)))
| SEncodeError c id a e q s : responseCh s = (c, (id, Some a)) :: q ->
    handleResponse oL oB id a = Fail e tt ->
    serverStep s (Some (mkServer (broker s) (clients s) (requestCh s) (outgoing s) q (handled s)))
| SWritePanic c id res q s : responseCh s = (c, (id, res)) :: q ->
    (forall a, res = Some a -> handleResponse oL oB id a = Crash) -> serverStep s None.

(** The states that the server goes through while the process lives. *)
Definition reaches : Server -> Server -> Prop := rtc (fun s s' => serverStep s (Some s')).

(** ** Lemmas *)

(** Requests taken one after the other off the front of some bytes. *)
Inductive parsed : list byte -> list (RequestHeader.t * Body) -> list byte -> Prop :=
| parsed_nil x : parsed x [] x
| parsed_cons x h b y rs z : readRequest x = Got h b y -> parsed y rs z -> parsed x ((h, b) :: rs) z.

Lemma parsed_snoc x rs y h b z : parsed x rs y -> readRequest y = Got h b z -> parsed x (rs ++ [(h, b)]) z.
Proof. induction 1 as [x|x h' b' y rs z' E _ IH]; intros; econstructor; eauto. constructor. Qed.

Lemma readRequest_more x h b rest y : readRequest x = Got h b rest -> readRequest (x ++ y) = Got h b (rest ++ y).
Proof.
  unfold readRequest. case_decide as Hfour; [discriminate|].
  rewrite (decide_False (P := (length (x ++ y) < 4)%nat)) by (rewrite length_app; lia).
  rewrite (take_app_le x), (drop_app_le x) by lia. case_bool; [discriminate|].
  case_decide as Hn; [discriminate|]. case_decide as Hr; [discriminate|].
  rewrite (decide_False (P := (length (drop 4 x ++ y) < _)%nat)) by (rewrite length_app; lia).
  rewrite (take_app_le (drop 4 x)), (drop_app_le (drop 4 x)) by lia.
  destruct (RequestHeader.Decode _) as [h' d|e d|]; try discriminate.
  destruct (decodeBody _ _) as [Dc|]; [|discriminate].
  destruct (Dc d); try discriminate. intros [= <- <- <-]. reflexivity.
Qed.

Lemma parsed_more x rs y z : parsed x rs y -> parsed (x ++ z) rs (y ++ z).
Proof. induction 1; econstructor; eauto using readRequest_more. Qed.

Lemma parsed_suffix x rs y : parsed x rs y -> exists n, y = drop n x /\ (n <= length x)%nat.
Proof.
  induction 1 as [x|x h b y rs z E _ (n & -> & Hn)]; [exists 0%nat; auto with lia|].
  assert (Hy : exists m, y = drop m x /\ (m <= length x)%nat).
  { revert E. unfold readRequest. case_decide; [discriminate|]. case_bool; [discriminate|].
    case_decide; [discriminate|]. case_decide as Hr; [discriminate|].
    destruct (RequestHeader.Decode _) as [h' d|e d|]; try discriminate.
    destruct (decodeBody _ _) as [Dc|]; [|discriminate]. destruct (Dc d); try discriminate. intros [= _ _ <-].
    eexists. rewrite drop_drop. split; [reflexivity|]. rewrite length_drop in Hr. lia. }
  destruct Hy as (m & -> & Hm). rewrite drop_drop. eexists. split; [reflexivity|].
  rewrite length_drop in Hn. lia.
Qed.

(** What was taken so far is the front of what the bytes hold. *)
Lemma parsed_handleRequest x rs y : parsed x rs y ->
  (handleRequest x).1 = rs ++ (handleRequest y).1.
Proof.
  induction 1 as [x|x h b y rs z E _ IH]; [reflexivity|]. cbn [app]. rewrite <- IH.
  unfold handleRequest at 1. cbn [handleRequests]. rewrite E.
  pose proof (readRequest_progress _ _ _ _ E) as Hp. unfold handleRequest.
  rewrite <- (handleRequests_fuel (S (length y)) (length x)) by lia.
  destruct (handleRequests (S (length y)) y). reflexivity.
Qed.

Definition opt_list {A} (o : option A) : list A := match o with Some a => [a] | None => [] end.

Lemma proj_app {A} c (l l' : list (nat * A)) : proj c (l ++ l') = proj c l ++ proj c l'.
Proof. unfold proj. rewrite list.filter_app, fmap_app. reflexivity. Qed.
Lemma proj_one {A} c c' (a : A) : proj c [(c', a)] = if decide (c' = c) then [a] else [].
Proof. unfold proj. rewrite list.filter_cons. cbn. destruct (decide (c' = c)); reflexivity. Qed.
Lemma proj_none {A} c (l : list (nat * A)) : (forall x, x ∈ l -> x.1 <> c) -> proj c l = [].
Proof.
  induction l as [|x l IH]; intros Hl; [reflexivity|]. unfold proj. rewrite list.filter_cons_False by (apply Hl; left).
  apply IH. intros y Hy. apply Hl. right. exact Hy.
Qed.

Lemma Run_snoc reqs : forall i b0 ans b1 h req res b2, Run w i reqs b0 = Ret ans b1 ->
  dispatch (w (i + length reqs)%nat) h req b1 = Ret res b2 ->
  Run w i (reqs ++ [(h, req)]) b0 = Ret (ans ++ [(RequestHeader.CorrelationID h, res)]) b2.
Proof.
  induction reqs as [|[h' r'] reqs IH]; intros i b0 ans b1 h req res b2 Hr Hd; cbn [app Run length] in *.
  - injection Hr as <- <-. rewrite Nat.add_0_r in Hd. erewrite bind_Ret by exact Hd. reflexivity.
  - unfold mbind, M_bind in *. destruct (dispatch (w i) h' r' b0) as [x b'|e b'|]; try discriminate.
    destruct (Run w (S i) reqs b') as [rest b''|e b''|] eqn:E; try discriminate. injection Hr as <- <-.
    rewrite Nat.add_succ_r in Hd. rewrite (IH (S i) _ _ _ _ _ _ _ E Hd). reflexivity.
Qed.

Lemma respond_app l l' x y : respond oL oB l = Some x -> respond oL oB l' = Some y ->
  respond oL oB (l ++ l') = Some (x ++ y).
Proof.
  revert x. induction l as [|[id [a|]] l IH]; intros x Hl Hl'; cbn [respond app] in *.
  - injection Hl as <-. exact Hl'.
  - destruct (handleResponse oL oB id a) as [frame u|e u|]; [|eauto|discriminate].
    destruct (respond oL oB l) as [z|]; [|discriminate]. injection Hl as <-.
    rewrite (IH z eq_refl Hl'). cbn. rewrite app_assoc. reflexivity.
  - discriminate.
Qed.

(** What has been read, handled and written, as one merged history [hist] of
    requests with the answers [ans] to them, of which [wr] are off [responseCh]. *)
Record history (b0 : Broker) hist ans wr (s : Server) : Prop := {
  s_run : Run w 0 (hist.*2) b0 = Ret ans (broker s);
  s_handled : handled s = length hist;
  s_length : length ans = length hist;
  s_queue : zip (hist.*1) ans = wr ++ responseCh s ++ opt_list (outgoing s);
  s_known : forall c x, (c, x) ∈ hist ++ requestCh s -> is_Some (clients s !! c);
  s_read : forall c k, clients s !! c = Some k -> (pos k <= length (received k))%nat /\
    parsed (received k) (proj c (hist ++ requestCh s) ++ opt_list (sending k)) (unread k);
  s_written : forall c k, clients s !! c = Some k -> exists n,
    respond oL oB (take n (proj c wr)) = Some (written k) /\
    (n <= length (proj c wr))%nat /\ (isOpen k = true -> n = length (proj c wr));
  s_room : (length (requestCh s) <= capacity)%nat /\ (length (responseCh s) <= capacity)%nat }.

Lemma history_written_known b0 hist ans wr s c x : history b0 hist ans wr s ->
  (c, x) ∈ wr ++ responseCh s -> is_Some (clients s !! c).
Proof.
  intros Hh Hx. assert (Hz : (c, x) ∈ zip (hist.*1) ans).
  { rewrite (s_queue _ _ _ _ _ Hh), app_assoc. apply elem_of_app. left. exact Hx. }
  apply elem_of_zip_l, list_elem_of_fmap in Hz as ([c' y] & Ec & Hy). cbn in Ec. subst c'.
  apply (s_known _ _ _ _ _ Hh c y). apply elem_of_app. left. exact Hy.
Qed.

(** A client changes: the others are as they were. *)
Lemma history_put b0 hist ans wr s c k k' : history b0 hist ans wr s -> clients s !! c = Some k ->
  (pos k' <= length (received k'))%nat ->
  parsed (received k') (proj c (hist ++ requestCh s) ++ opt_list (sending k')) (unread k') ->
  written k' = written k -> (isOpen k' = true -> isOpen k = true) -> history b0 hist ans wr (put c k' s).
Proof.
  intros [S1 S2 S3 S4 S5 S6 S7 S8] Hc Hp Hk Hw Ho. constructor; try assumption; cbn.
  - intros c' x Hx. destruct (decide (c = c')) as [<-|Hne];
      [rewrite lookup_insert_eq; eauto|rewrite lookup_insert_ne by exact Hne; eauto].
  - intros c' k1. destruct (decide (c = c')) as [<-|Hne];
      [rewrite lookup_insert_eq; intros [= <-]; auto|rewrite lookup_insert_ne by exact Hne; apply S6].
  - intros c' k1. destruct (decide (c = c')) as [<-|Hne];
      [rewrite lookup_insert_eq; intros [= <-]|rewrite lookup_insert_ne by exact Hne; apply S7].
    rewrite Hw. destruct (S7 _ _ Hc) as (n & Hr & Hn & Hop). exists n. auto.
Qed.

Lemma history_accept b0 hist ans wr s c : history b0 hist ans wr s -> clients s !! c = None ->
  history b0 hist ans wr (put c newClient s).
Proof.
  intros Hh Hc. pose proof (fun x => history_written_known _ _ _ _ _ c x Hh) as Hwk.
  destruct Hh as [S1 S2 S3 S4 S5 S6 S7 S8]. constructor; try assumption; cbn.
  - intros c' x Hx. destruct (decide (c = c')) as [<-|Hne];
      [rewrite lookup_insert_eq; eauto|rewrite lookup_insert_ne by exact Hne; eauto].
  - intros c' k1. destruct (decide (c = c')) as [<-|Hne];
      [rewrite lookup_insert_eq; intros [= <-]|rewrite lookup_insert_ne by exact Hne; apply S6].
    split; [reflexivity|]. rewrite proj_none; [constructor|].
    intros [c1 x] Hx <-. destruct (S5 _ _ Hx) as [k Hk]. cbn in *. congruence.
  - intros c' k1. destruct (decide (c = c')) as [<-|Hne];
      [rewrite lookup_insert_eq; intros [= <-]|rewrite lookup_insert_ne by exact Hne; apply S7].
    exists 0%nat. split; [reflexivity|]. rewrite proj_none; [split; [lia|reflexivity]|].
    intros [c1 x] Hx <-. destruct (Hwk x) as [k Hk]; [apply elem_of_app; auto|]. cbn in *. congruence.
Qed.

(** A request goes onto the channel, or is taken off it and handled. *)
Lemma history_request b0 hist ans wr s c k hb : history b0 hist ans wr s -> clients s !! c = Some k ->
  sending k = Some hb -> (length (requestCh s) < capacity)%nat ->
  history b0 hist ans wr (mkServer (broker s) (<[c := sent k]> (clients s)) (requestCh s ++ [(c, hb)])
    (outgoing s) (responseCh s) (handled s)).
Proof.
  intros [S1 S2 S3 S4 S5 S6 S7 S8] Hc Hk Hr. constructor; try assumption; cbn.
  - intros c' x Hx. rewrite app_assoc in Hx. apply elem_of_app in Hx as [Hx|Hx].
    + destruct (decide (c = c')) as [<-|Hne]; [rewrite lookup_insert_eq; eauto|rewrite lookup_insert_ne by exact Hne; eauto].
    + apply list_elem_of_singleton in Hx. injection Hx as -> ->. rewrite lookup_insert_eq. eauto.
  - intros c' k1. rewrite app_assoc, proj_app, proj_one. destruct (decide (c = c')) as [<-|Hne].
    + rewrite lookup_insert_eq. intros [= <-]. destruct (S6 _ _ Hc) as [Hp Hs]. split; [exact Hp|].
      rewrite Hk in Hs. cbn. rewrite app_nil_r. exact Hs.
    + rewrite lookup_insert_ne by exact Hne. rewrite app_nil_r. apply S6.
  - intros c' k1. destruct (decide (c = c')) as [<-|Hne];
      [rewrite lookup_insert_eq; intros [= <-]; exact (S7 _ _ Hc)|rewrite lookup_insert_ne by exact Hne; apply S7].
  - rewrite length_app. cbn. destruct S8. lia.
Qed.

Lemma history_handle b0 hist ans wr s c h b q res b' : history b0 hist ans wr s ->
  requestCh s = (c, (h, b)) :: q -> outgoing s = None ->
  dispatch (w (handled s)) h b (broker s) = Ret res b' ->
  history b0 (hist ++ [(c, (h, b))]) (ans ++ [(RequestHeader.CorrelationID h, res)]) wr
    (mkServer b' (clients s) q (Some (c, (RequestHeader.CorrelationID h, res))) (responseCh s) (S (handled s))).
Proof.
  intros [S1 S2 S3 S4 S5 S6 S7 S8] Hq Ho Hd. rewrite Hq in S5, S6, S8. rewrite Ho in S4. constructor; cbn.
  - rewrite fmap_app. eapply Run_snoc; [exact S1|]. rewrite length_fmap, <- S2. exact Hd.
  - rewrite length_app, S2. cbn. lia.
  - rewrite !length_app, S3. reflexivity.
  - rewrite fmap_app, zip_with_app by (rewrite length_fmap; auto). rewrite S4. cbn.
    rewrite app_nil_r, <- app_assoc. reflexivity.
  - intros c' x Hx. rewrite <- app_assoc in Hx. eauto.
  - intros c' k Hk. rewrite <- app_assoc. apply S6. exact Hk.
  - exact S7.
  - destruct S8 as [Hl ?]. cbn in Hl. split; [lia|assumption].
Qed.

(** An answer is taken off the other channel: the client at [c] becomes [k']. *)
Lemma history_wrote b0 hist ans wr s c k k' id res q : history b0 hist ans wr s ->
  responseCh s = (c, (id, res)) :: q -> clients s !! c = Some k ->
  received k' = received k -> pos k' = pos k -> sending k' = sending k -> isOpen k' = isOpen k ->
  (if isOpen k then forall l x, respond oL oB l = Some x -> x = written k ->
     respond oL oB (l ++ [(id, res)]) = Some (written k') else written k' = written k) ->
  history b0 hist ans (wr ++ [(c, (id, res))])
    (mkServer (broker s) (<[c := k']> (clients s)) (requestCh s) (outgoing s) q (handled s)).
Proof.
  intros [S1 S2 S3 S4 S5 S6 S7 S8] Hq Hc E1 E2 E3 E4 Hw. rewrite Hq in S4, S8.
  constructor; try assumption; cbn.
  - rewrite S4. cbn. rewrite <- app_assoc. reflexivity.
  - intros c' x Hx. destruct (decide (c = c')) as [<-|Hne];
      [rewrite lookup_insert_eq; eauto|rewrite lookup_insert_ne by exact Hne; eauto].
  - intros c' k1. destruct (decide (c = c')) as [<-|Hne];
      [rewrite lookup_insert_eq; intros [= <-]|rewrite lookup_insert_ne by exact Hne; apply S6].
    unfold unread. rewrite E1, E2, E3. exact (S6 _ _ Hc).
  - intros c' k1. rewrite proj_app, proj_one. destruct (decide (c = c')) as [<-|Hne].
    + rewrite lookup_insert_eq. intros [= <-]. destruct (S7 _ _ Hc) as (n & Hr & Hn & Hop). rewrite E4.
      destruct (isOpen k).
      * rewrite (Hop eq_refl), take_ge in Hr by lia. exists (S (length (proj c wr))).
        rewrite take_ge by (rewrite length_app; cbn; lia). rewrite length_app. cbn.
        split; [eapply Hw; eauto|]. lia.
      * exists n. rewrite take_app_le, Hw by exact Hn. rewrite length_app. cbn.
        split; [exact Hr|]. split; [lia|discriminate].
    + rewrite lookup_insert_ne by exact Hne. rewrite app_nil_r. apply S7.
  - destruct S8 as [? Hl]. cbn in Hl. split; [assumption|lia].
Qed.

Lemma took_unread h b rest k : (pos k <= length (received k))%nat -> readRequest (unread k) = Got h b rest ->
  (pos (took h b rest k) <= length (received k))%nat /\ unread (took h b rest k) = rest.
Proof.
  intros Hp E. destruct (parsed_suffix (unread k) [(h, b)] rest) as (n & En & Hn).
  { econstructor; [exact E|constructor]. }
  unfold unread in *. cbn. split; [lia|]. rewrite drop_drop in En. rewrite length_drop in Hn.
  assert (El : length rest = (length (received k) - (pos k + n))%nat) by (rewrite En; apply length_drop).
  rewrite El. rewrite En. f_equal. lia.
Qed.

Lemma history_step b0 hist ans wr s s' : history b0 hist ans wr s -> serverStep s (Some s') ->
  exists hist' ans' wr', history b0 hist' ans' wr' s'.
Proof.
  intros Hh Hs. pose proof (s_read _ _ _ _ _ Hh) as Hrd.
  inversion Hs as [c s0 Hc|c k bs s0 Hc He|c k s0 Hc|c k f s0 Hc|c k h b rest s0 Hc Ho Hk Hr|c k s0 Hc Ho Hk Hr He
    | |c k hb s0 Hc Hk Hl|c h b q res b' s0 Hq Ho Hd| |r s0 Ho Hl|c id a frame q k s0 Hq Hf Hc Ho Hst
    |c id a frame q k s0 Hq Hf Hc Ho|c id a e q s0 Hq Hf| ]; subst s0 s'.
  - exists hist, ans, wr. apply history_accept; assumption.
  - exists hist, ans, wr. destruct (Hrd _ _ Hc) as [Hp Hpa]. apply (history_put _ _ _ _ _ c k); auto; cbn.
    + rewrite length_app. lia.
    + unfold unread. cbn. rewrite drop_app_le by exact Hp. apply parsed_more, Hpa.
  - exists hist, ans, wr. destruct (Hrd _ _ Hc). apply (history_put _ _ _ _ _ c k); auto.
  - exists hist, ans, wr. destruct (Hrd _ _ Hc). apply (history_put _ _ _ _ _ c k); auto.
  - exists hist, ans, wr. destruct (Hrd _ _ Hc) as [Hp Hpa].
    destruct (took_unread _ _ _ _ Hp Hr) as [Hp' Hu]. apply (history_put _ _ _ _ _ c k); auto.
    rewrite Hu. cbn. rewrite Hk in Hpa. cbn in Hpa. rewrite app_nil_r in Hpa. eapply parsed_snoc; eauto.
  - exists hist, ans, wr. destruct (Hrd _ _ Hc). apply (history_put _ _ _ _ _ c k); auto.
  - exists hist, ans, wr. apply history_request; assumption.
  - eexists _, _, wr. apply history_handle; eassumption.
  - exists hist, ans, wr. destruct Hh as [S1 S2 S3 S4 S5 S6 S7 S8]. constructor; try assumption; cbn.
    + rewrite S4, Ho. cbn. rewrite app_nil_r. reflexivity.
    + rewrite length_app. cbn. destruct S8. lia.
  - exists hist, ans, (wr ++ [(c, (id, Some a))]). apply (history_wrote _ _ _ _ _ c k); auto. rewrite Ho.
    intros l x Hx ->. cbn. apply respond_app; [exact Hx|]. cbn. rewrite Hf. cbn. rewrite app_nil_r. reflexivity.
  - exists hist, ans, (wr ++ [(c, (id, Some a))]). rewrite <- (insert_id (clients s) c k Hc).
    apply (history_wrote _ _ _ _ _ c k); auto. rewrite Ho. reflexivity.
  - exists hist, ans, (wr ++ [(c, (id, Some a))]).
    destruct (history_written_known _ _ _ _ _ c (id, Some a) Hh) as [k Hc].
    { rewrite Hq. apply elem_of_app. right. left. }
    rewrite <- (insert_id (clients s) c k Hc). apply (history_wrote _ _ _ _ _ c k); auto.
    destruct (isOpen k); [|reflexivity]. intros l x Hx ->.
    rewrite <- (app_nil_r (written k)). apply respond_app; [exact Hx|]. cbn. rewrite Hf. reflexivity.
Qed.

Lemma reaches_history b0 s : reaches (NewServer b0) s -> exists hist ans wr, history b0 hist ans wr s.
Proof.
  intros Hr. revert s Hr. refine (rtc_ind_r _ _ _ _).
  - exists [], [], []. constructor; try reflexivity; cbn; try (intros c k Hk; discriminate).
    + intros c x Hx. apply not_elem_of_nil in Hx. destruct Hx.
    + split; lia.
  - intros s s' _ Hs (hist & ans & wr & Hh). exact (history_step _ _ _ _ _ _ Hh Hs).
Qed.

(** A client keeps its place, what is written to it only grows, and once its
    connection is closed nothing is written to it any more. *)
Lemma client_step c k s s' : serverStep s (Some s') -> clients s !! c = Some k ->
  exists k', clients s' !! c = Some k' /\ (isOpen k = false -> isOpen k' = false /\ written k' = written k).
Proof.
  intros Hs Hc. assert (Hput : forall c' k1 k2 (m : gmap nat Client), m !! c' = Some k1 -> m !! c = Some k ->
    (isOpen k1 = false -> isOpen k2 = false /\ written k2 = written k1) ->
    exists k', <[c' := k2]> m !! c = Some k' /\ (isOpen k = false -> isOpen k' = false /\ written k' = written k)).
  { intros c' k1 k2 m Hk1 Hk Hw. destruct (decide (c' = c)) as [->|Hne].
    - rewrite lookup_insert_eq. exists k2. split; [reflexivity|]. assert (k1 = k) as -> by congruence. exact Hw.
    - rewrite lookup_insert_ne by exact Hne. eauto. }
  inversion Hs as [c1 s0 H1'|c1 k1 bs s0 H1' He|c1 k1 s0 H1'|c1 k1 f s0 H1'|c1 k1 h b rest s0 H1' Ho Hk Hr|c1 k1 s0 H1' Ho Hk Hr He
    | |c1 k1 hb s0 H1' Hk Hl|c1 h b q res b' s0 Hq Ho Hd| |r s0 Ho Hl|c1 id a frame q k1 s0 Hq Hf H1' Ho Hst
    |c1 id a frame q k1 s0 Hq Hf H1' Ho|c1 id a e q s0 Hq Hf| ]; subst s0 s'; cbn;
    try (eapply Hput; [exact H1'|exact Hc|cbn; auto]; fail); try (exists k; auto; fail).
  - exists k. rewrite lookup_insert_ne by congruence. auto.
  - eapply Hput; [exact H1'|exact Hc|]. congruence.
Qed.

Lemma hung_up_final c k s s' : reaches s s' -> clients s !! c = Some k -> isOpen k = false ->
  exists k', clients s' !! c = Some k' /\ isOpen k' = false /\ written k' = written k.
Proof.
  intros Hr. revert k. induction Hr as [s|s s1 s2 Hs _ IH]; intros k Hc Ho; [eauto|].
  destruct (client_step _ _ _ _ Hs Hc) as (k1 & Hc1 & Hk1). destruct (Hk1 Ho) as [Ho1 Hw1].
  destruct (IH k1 Hc1 Ho1) as (k2 & Hc2 & Ho2 & Hw2). exists k2. rewrite <- Hw1. auto.
Qed.

(** While the client whose answer is next takes no bytes, no client is written
    to: there is one loop for all of them. *)
Definition waitsOn (c : nat) (s : Server) : Prop :=
  (exists id a q, responseCh s = (c, (id, Some a)) :: q /\ exists frame, handleResponse oL oB id a = Ret frame tt) /\
  exists k, clients s !! c = Some k /\ isOpen k = true /\ stalled k = true.

Lemma stalled_step c s s' : waitsOn c s -> serverStep s (Some s') ->
  (exists k, clients s' !! c = Some k /\ isOpen k = true /\ stalled k = true) ->
  waitsOn c s' /\ forall c1 k1, clients s !! c1 = Some k1 -> exists k2, clients s' !! c1 = Some k2 /\ written k2 = written k1.
Proof.
  intros [(id & a & q & Hq & frame & Hf) (k & Hc & Ho & Hst)] Hs Hk.
  assert (Hput : forall c0 k0 k0', clients s !! c0 = Some k0 -> written k0' = written k0 ->
    forall c1 k1, clients s !! c1 = Some k1 -> exists k2, <[c0 := k0']> (clients s) !! c1 = Some k2 /\ written k2 = written k1).
  { intros c0 k0 k0' Hk0 Hw c1 k1 Hk1. destruct (decide (c0 = c1)) as [->|Hne].
    - rewrite lookup_insert_eq. exists k0'. split; [reflexivity|]. congruence.
    - rewrite lookup_insert_ne by exact Hne. eauto. }
  split.
  - split; [|exact Hk]. exists id, a.
    inversion Hs; subst; cbn in *; try (exists q; split; [exact Hq|eauto]; fail); try congruence.
    exists (q ++ [r]). rewrite Hq. eauto.
  - inversion Hs; subst; cbn in *; eauto; try (eapply Hput; [eassumption|reflexivity]); try congruence.
    intros c1 k1 Hk1. exists k1. rewrite lookup_insert_ne by congruence. auto.
Qed.
End server.
