(* ===== verification/Lifecycle.v ===== *)
(** * The life of a broker and of its server

    [setupRaft] of [src/jocko/leader.go], [NewBroker] and [Shutdown] of
    [src/jocko/broker.go], [Start] and [Shutdown] of [src/jocko/server.go] and
    [run] of [src/cmd/jocko/main.go], as the steps that acquire and release what a
    process holds: the raft node with its store and transport, the serf node and
    the listener.  Whether a call of a library succeeds is given from outside. *)
From S2P Require Import Prelude Structs Store Cluster LogService BrokerState Errors.

(** A field that holds a resource: nil is [None]. *)
Inductive resource := Open | Closed.
#[global] Instance resource_eq_dec : EqDecision resource. Proof. solve_decision. Defined.
Definition release (r : option resource) : option resource := (fun _ => Closed) <$> r.

(** What the libraries answer: an error or nothing, whether there is state of raft
    on disk, and the address that the transport listens on. *)
Record Libs := mkLibs {
  lib_fsm : option error; lib_transport : option error; lib_path : option error; lib_bolt : option error;
  lib_cache : option error; lib_snapshots : option error; lib_existing : error + bool;
  lib_bootstrap : option error; lib_raft : option error; lib_serfPath : option error; lib_serf : option error;
  lib_localAddr : string }.

(** The fields of the struct [Broker] that hold resources.  [bootstraps] are the
    configurations that raft was bootstrapped with, [loops] says whether the
    goroutines of the broker were started, and [joins] are the addresses that
    serf was told to join, call by call. *)
Record Life := mkLife {
  raftNode : option resource; raftStore : option resource; raftTransport : option resource; raftInmem : bool;
  serfNode : option resource; bootstraps : list (list Server.t); shutdown : bool; loops : bool;
  joins : list (list string) }.
Definition noLife : Life := mkLife None None None false None [] false false [].

Definition set_raftNode (r : option resource) (s : Life) : Life :=
  mkLife r (raftStore s) (raftTransport s) (raftInmem s) (serfNode s) (bootstraps s) (shutdown s) (loops s) (joins s).
Definition set_raftStore (r : option resource) (s : Life) : Life :=
  mkLife (raftNode s) r (raftTransport s) (raftInmem s) (serfNode s) (bootstraps s) (shutdown s) (loops s) (joins s).
Definition set_raftTransport (r : option resource) (s : Life) : Life :=
  mkLife (raftNode s) (raftStore s) r (raftInmem s) (serfNode s) (bootstraps s) (shutdown s) (loops s) (joins s).
Definition set_raftInmem (s : Life) : Life :=
  mkLife (raftNode s) (raftStore s) (raftTransport s) true (serfNode s) (bootstraps s) (shutdown s) (loops s) (joins s).
Definition set_serfNode (r : option resource) (s : Life) : Life :=
  mkLife (raftNode s) (raftStore s) (raftTransport s) (raftInmem s) r (bootstraps s) (shutdown s) (loops s) (joins s).
Definition add_bootstrap (ss : list Server.t) (s : Life) : Life :=
  mkLife (raftNode s) (raftStore s) (raftTransport s) (raftInmem s) (serfNode s) (bootstraps s ++ [ss]) (shutdown s) (loops s) (joins s).
Definition set_shutdown (s : Life) : Life :=
  mkLife (raftNode s) (raftStore s) (raftTransport s) (raftInmem s) (serfNode s) (bootstraps s) true (loops s) (joins s).
Definition set_loops (s : Life) : Life :=
  mkLife (raftNode s) (raftStore s) (raftTransport s) (raftInmem s) (serfNode s) (bootstraps s) (shutdown s) true (joins s).
Definition add_join (addrs : list string) (s : Life) : Life :=
  mkLife (raftNode s) (raftStore s) (raftTransport s) (raftInmem s) (serfNode s) (bootstraps s) (shutdown s) (loops s)
    (joins s ++ [addrs]).

(** [if err != nil { return err }], and a step after which the function goes on. *)
Definition unless {St} (e : option error) (k : M St (option error)) : M St (option error) :=
  match e with Some e => mret (Some e) | None => k end.
Definition after {St} (m : M St (option error)) (k : M St (option error)) : M St (option error) :=
  e ← m; unless e k.

Section broker.
Context (c : Config.t) (lib : Libs).

(** ** [setupRaft] *)

(** The stores: in memory, or on disk. *)
Definition openStores : M Life (option error) :=
  if Config.DevMode c then modify set_raftInmem ;; mret None else
  unless (lib_path lib) (
  unless (lib_bolt lib) (
  modify (set_raftStore (Some Open)) ;;
  unless (lib_cache lib) (
  unless (lib_snapshots lib) (
  mret None)))).

(** A first configuration of this broker alone. *)
Definition bootstrapSelf : M Life (option error) :=
  if Config.Bootstrap c || Config.DevMode c then
    match lib_existing lib with
    | inl e => mret (Some e)
    | inr true => mret None
    | inr false =>
        unless (lib_bootstrap lib) (
        modify (add_bootstrap [Server.mk (itoa (Config.ID c)) (lib_localAddr lib) true]) ;;
        mret None)
    end
  else mret None.

Definition startRaft : M Life (option error) :=
  unless (lib_fsm lib) (
  unless (lib_transport lib) (
  modify (set_raftTransport (Some Open)) ;;
  after openStores (
  after bootstrapSelf (
  unless (lib_raft lib) (
  modify (set_raftNode (Some Open)) ;;
  mret None))))).

(** The deferred function closes the store when no raft node came to own it. *)
Definition setupRaft : M Life (option error) :=
  e ← startRaft;
  modify (fun s => match raftNode s, raftStore s with None, Some _ => set_raftStore (Some Closed) s | _, _ => s end) ;;
  mret e.

(** ** [setupSerf], [NewBroker] and [Shutdown] *)
Definition setupSerf : M Life (option error) :=
  unless (lib_serfPath lib) (
  unless (lib_serf lib) (
  modify (set_serfNode (Some Open)) ;;
  mret None)).

Definition Shutdown : M Life (option error) := fun s =>
  if shutdown s then Ret None s else
  let s := set_serfNode (release (serfNode s)) (set_shutdown s) in
  match raftNode s with
  | None => Ret None s
  | Some _ =>
      Ret None (set_raftStore (release (raftStore s)) (set_raftNode (Some Closed)
        (set_raftTransport (release (raftTransport s)) s)))
  end.

Definition NewBroker : M Life (option error) :=
  e ← setupRaft;
  match e with
  | Some e => Shutdown ;; mret (Some e)
  | None => after setupSerf (modify set_loops ;; mret None)
  end.
End broker.

(** [JoinLAN]: the addresses are tried, [result] is the error of serf if none of
    them answers, with its text. *)
Definition JoinLAN (result : option string) (addrs : list string) : M Life Error.t :=
  modify (add_join addrs) ;;
  mret (match result with Some e => Error.WithErr Error.ErrUnknown e | None => Error.ErrNone end).

(** ** The periodic report on the state *)

(** The lines of [logState], with the values that are formatted. *)
Inductive line :=
  | MemberLine (i : nat) (m : SerfMember.t)
  | NodeLine (i : nat) (id : Z) (status : string)
  | TopicLine (i : nat) (topic : string) (partitions : gmap Z (list Z)).

Fixpoint nodeLines (i : nat) (ns : list Node.t) : option (list line) :=
  match ns with
  | [] => Some []
  | n :: ns =>
      c ← Node.Check n;
      ls ← nodeLines (S i) ns;
      Some (NodeLine i (Node.Node n) (HealthCheck.Status c) :: ls)
  end.

(** A tick: what is logged; [None] is a panic, for a node that has no check. *)
Definition logState {DB} `{Memdb DB} (ms : list SerfMember.t) (d : DB) : option (list line) :=
  ns ← nodeLines 0 (snd (GetNodes d));
  Some (imap MemberLine ms ++ ns ++ imap (fun i t => TopicLine i (Topic.Topic t) (Topic.Partitions t)) (snd (GetTopics d))).

(** ** The server *)

(** [ServerDown] is the flag [shutdown], [Released] whether the function [close]
    was called; [Accepting] says whether the goroutines were started. *)
Record ServerLife := mkServerLife { Listener : option resource; Accepting : bool; ServerDown : bool; Released : bool }.
Definition noServer : ServerLife := mkServerLife None false false false.
Definition Process : Type := Life * ServerLife.

(** A method of the broker, and one of the server. *)
Definition onBroker {A} (m : M Life A) : M Process A := fun p =>
  match m (fst p) with
  | Ret a s => Ret a (s, snd p)
  | Fail e s => Fail e (s, snd p)
  | Crash => Crash
  end.
Definition onServer (f : ServerLife -> ServerLife) : M Process unit := modify (fun p => (fst p, f (snd p))).

(** [resolve] and [listen]: the errors of resolving the address and of listening. *)
Definition Start (resolve listen : option error) : M Process (option error) :=
  unless resolve (
  unless listen (
  onServer (fun s => mkServerLife (Some Open) true (ServerDown s) (Released s)) ;;
  mret None)).

(** [close]: the error of closing the listener, which is closed all the same. *)
Definition ServerShutdown (close : option error) : M Process (option error) :=
  down ← gets (fun p => ServerDown (snd p));
  if (down : bool) then mret None else
  onServer (fun s => mkServerLife (Listener s) (Accepting s) true (Released s)) ;;
  after (onBroker Shutdown) (
  onServer (fun s => mkServerLife (release (Listener s)) (Accepting s) (ServerDown s) (Released s)) ;;
  unless close (
  onServer (fun s => mkServerLife (Listener s) (Accepting s) (ServerDown s) true) ;;
  mret None)).

(** [run]: the broker, the server, and, once the process is told to stop, the
    broker is shut down and then, deferred, the server.  [Some e] when the
    process exits with an error at the start. *)
Definition run (c : Config.t) (lib : Libs) (resolve listen close : option error) : M Process (option error) :=
  after (onBroker (NewBroker c lib)) (
  after (Start resolve listen) (
  after (onBroker Shutdown) (
  _ ← ServerShutdown close; mret None))).

(** A round of the loop that accepts connections: in a [select], [break] leaves
    the [select] and not the loop.  [next] is what [Accept] returns, when it is
    called. *)
Inductive acceptEvent := Left | Accepted (conn : nat) | AcceptError.
Definition acceptRound (done down : bool) (next : error + nat) : acceptEvent :=
  if done || down then Left else
  match next with inr conn => Accepted conn | inl _ => AcceptError end.
(** The events of the next rounds, from the [i]-th on; the loop has no end. *)
Fixpoint acceptLoop (done down : nat -> bool) (next : nat -> error + nat) (rounds i : nat) : list acceptEvent :=
  match rounds with
  | O => []
  | S rounds => acceptRound (done i) (down i) (next i) :: acceptLoop done down next rounds (S i)
  end.

(** ** Lemmas *)

(** Nothing that the broker holds is open. *)
Definition released (s : Life) : Prop :=
  raftNode s <> Some Open /\ raftStore s <> Some Open /\ raftTransport s <> Some Open /\ serfNode s <> Some Open.

(** A broker that runs: raft with its transport and, unless it is in development
    mode, its store; serf; and the goroutines. *)
Record running (c : Config.t) (s : Life) : Prop := {
  run_raft : raftNode s = Some Open /\ raftTransport s = Some Open;
  run_store : raftStore s = (if Config.DevMode c then None else Some Open) /\ raftInmem s = Config.DevMode c;
  run_serf : serfNode s = Some Open /\ loops s = true;
  run_up : shutdown s = false }.

(** The first configuration: one at most, of this broker, and only when it was
    asked for and there was no state. *)
Definition bootstrapped (c : Config.t) (lib : Libs) (s : Life) : Prop :=
  bootstraps s = [] \/
  bootstraps s = [[Server.mk (itoa (Config.ID c)) (lib_localAddr lib) true]] /\
    (Config.Bootstrap c || Config.DevMode c = true) /\ lib_existing lib = inr false.

(** What the deferred function and the caller see of a way through [setupRaft]. *)
Ltac life_done :=
  eexists _, _; split; [reflexivity|]; cbn; unfold bootstrapped; cbn;
  repeat match goal with E : ?x = ?y |- _ => rewrite !E end; rewrite ?orb_true_r;
  split_and!; auto; try discriminate.

Lemma setupRaft_spec c lib : exists e s, setupRaft c lib noLife = Ret e s /\ bootstrapped c lib s /\
  serfNode s = None /\ loops s = false /\ shutdown s = false /\
  match e with
  | Some _ => raftNode s = None /\ raftStore s <> Some Open
  | None => raftNode s = Some Open /\ raftTransport s = Some Open /\
      raftStore s = (if Config.DevMode c then None else Some Open) /\ raftInmem s = Config.DevMode c
  end.
Proof.
  unfold setupRaft, startRaft, after, openStores, bootstrapSelf, unless, mbind, M_bind, modify, mret, M_ret.
  destruct (lib_fsm lib); [life_done|]. destruct (lib_transport lib); [life_done|].
  destruct (Config.DevMode c) eqn:Ed; [rewrite orb_true_r|rewrite orb_false_r].
  - destruct (lib_existing lib) as [e|[]] eqn:Ex; [life_done| |destruct (lib_bootstrap lib); [life_done|]];
      destruct (lib_raft lib); life_done.
  - destruct (lib_path lib); [life_done|]. destruct (lib_bolt lib); [life_done|].
    destruct (lib_cache lib); [life_done|]. destruct (lib_snapshots lib); [life_done|].
    destruct (Config.Bootstrap c) eqn:Eb; [|destruct (lib_raft lib); life_done].
    destruct (lib_existing lib) as [e|[]] eqn:Ex; [life_done| |destruct (lib_bootstrap lib); [life_done|]];
      destruct (lib_raft lib); life_done.
Qed.

Lemma Shutdown_running c s : running c s -> exists s', Shutdown s = Ret None s' /\ released s' /\ shutdown s' = true.
Proof.
  intros [[Hr Ht] [Hst _] [Hsf _] Hup]. unfold Shutdown. rewrite Hup. cbn. rewrite Hr. eexists. split; [reflexivity|].
  split; [|reflexivity]. unfold released. cbn. rewrite Hst, Ht, Hsf. destruct (Config.DevMode c); split_and!; discriminate.
Qed.

Lemma Shutdown_again s : shutdown s = true -> Shutdown s = Ret None s.
Proof. intros E. unfold Shutdown. rewrite E. reflexivity. Qed.

Lemma NewBroker_spec c lib : exists e s, NewBroker c lib noLife = Ret e s /\ bootstrapped c lib s /\
  match e with None => running c s | Some _ => serfNode s = None /\ loops s = false end /\
  (raftNode s = None -> raftStore s <> Some Open).
Proof.
  destruct (setupRaft_spec c lib) as (e & s & E & Hb & Hsf & Hl & Hup & He). unfold NewBroker.
  erewrite bind_Ret by exact E. destruct e as [e|].
  - destruct He as [Hr Hst]. eexists (Some e), _. unfold Shutdown, mbind, M_bind. rewrite Hup. cbn. rewrite Hr.
    split; [reflexivity|]. split; [exact Hb|]. cbn. rewrite Hsf. auto.
  - destruct He as (Hr & Ht & Hst & Hi). unfold setupSerf, after, unless, mbind, M_bind, modify, mret, M_ret.
    destruct (lib_serfPath lib) as [e|]; [exists (Some e), s; rewrite Hr; split_and!; auto; discriminate|].
    destruct (lib_serf lib) as [e|]; [exists (Some e), s; rewrite Hr; split_and!; auto; discriminate|].
    eexists None, _. split; [reflexivity|]. split; [exact Hb|]. split; [|cbn; rewrite Hr; discriminate].
    split; cbn; auto.
Qed.

Lemma onBroker_Ret {A} (m : M Life A) a s s' srv : m s = Ret a s' -> onBroker m (s, srv) = Ret a (s', srv).
Proof. intros E. unfold onBroker. cbn [fst snd]. rewrite E. reflexivity. Qed.

Lemma after_Ret {St} (m k : M St (option error)) (s s' : St) : m s = Ret None s' -> after m k s = k s'.
Proof. intros E. unfold after. erewrite bind_Ret by exact E. reflexivity. Qed.

(** The server after its broker. *)
Lemma ServerShutdown_after close s srv : shutdown s = true -> ServerDown srv = false ->
  exists srv', ServerShutdown close (s, srv) = Ret close (s, srv') /\ Listener srv' = release (Listener srv).
Proof.
  intros Hs Hd. unfold ServerShutdown. erewrite bind_Ret by reflexivity. cbn [snd]. rewrite Hd.
  erewrite bind_Ret by reflexivity. cbn [fst snd].
  erewrite after_Ret by (apply onBroker_Ret, Shutdown_again, Hs). erewrite bind_Ret by reflexivity.
  destruct close; eexists; split; reflexivity.
Qed.

(** ** Joining *)

(** Computations that make no call of serf's [Join], where [view] are the calls made. *)
Section joining.
Context {St : Type} (view : St -> list (list string)).
Definition unjoined {A} (m : M St A) : Prop := forall s a s', m s = Ret a s' -> view s' = view s.
Lemma unjoined_ret {A} (a : A) : unjoined (mret a).
Proof. intros s x s' [= <- <-]. reflexivity. Qed.
Lemma unjoined_gets {A} (f : St -> A) : unjoined (gets f).
Proof. intros s x s' [= <- <-]. reflexivity. Qed.
Lemma unjoined_modify f : (forall s, view (f s) = view s) -> unjoined (modify f).
Proof. intros Hf s x s' [= <- <-]. apply Hf. Qed.
Lemma unjoined_bind {A B} (m : M St A) (f : A -> M St B) : unjoined m -> (forall a, unjoined (f a)) -> unjoined (m ≫= f).
Proof.
  intros Hm Hf s x s'. unfold mbind, M_bind. destruct (m s) as [a s1|e s1|] eqn:E; [|discriminate..].
  intros E'. rewrite (Hf _ _ _ _ E'). exact (Hm _ _ _ E).
Qed.
Lemma unjoined_unless e k : unjoined k -> unjoined (unless e k).
Proof. intros Hk. destruct e; [apply unjoined_ret|exact Hk]. Qed.
End joining.

Ltac unjoined_go :=
  repeat first
    [ apply unjoined_ret | apply unjoined_gets | apply unjoined_unless
    | match goal with |- unjoined _ (_ ≫= _) => apply unjoined_bind; [|intros ?] end
    | apply unjoined_modify; intros s; try reflexivity; destruct (raftNode s), (raftStore s); reflexivity
    | match goal with |- unjoined _ (match ?x with _ => _ end) => destruct x end ].

Lemma unjoined_Shutdown : unjoined joins Shutdown.
Proof.
  intros s x s'. unfold Shutdown. destruct (shutdown s); [intros [= <- <-]; reflexivity|]. cbn.
  destruct (raftNode s); intros [= <- <-]; reflexivity.
Qed.
Lemma unjoined_NewBroker c lib : unjoined joins (NewBroker c lib).
Proof.
  unfold NewBroker, setupSerf, setupRaft, startRaft, openStores, bootstrapSelf, after. unjoined_go. apply unjoined_Shutdown.
Qed.
Lemma unjoined_onBroker {A} (m : M Life A) : unjoined joins m -> unjoined (fun p => joins (fst p)) (onBroker m).
Proof.
  intros Hm [s srv] x [s' srv']. unfold onBroker. cbn [fst snd]. destruct (m s) eqn:E; [|discriminate..].
  intros [= <- <- <-]. exact (Hm _ _ _ E).
Qed.

(** The command that runs a broker joins nobody, whatever addresses it was given
    to join at the start. *)
Lemma run_joins_nobody c lib resolve listen close p0 e p :
  run c lib resolve listen close p0 = Ret e p -> joins (fst p) = joins (fst p0).
Proof.
  revert p0 e p. change (unjoined (fun p => joins (fst p)) (run c lib resolve listen close)).
  unfold run, Start, ServerShutdown, onServer, after. unjoined_go; apply unjoined_onBroker; auto using unjoined_Shutdown, unjoined_NewBroker.
Qed.

(** A report is made when every registered node has a check. *)
Lemma logState_reports {DB} `{Memdb DB} ms (d : DB) :
  (forall n, n ∈ snd (GetNodes d) -> is_Some (Node.Check n)) <-> is_Some (logState ms d).
Proof.
  assert (Hn : forall ns i, (forall n, n ∈ ns -> is_Some (Node.Check n)) <-> is_Some (nodeLines i ns)).
  { induction ns as [|n ns IH]; intros i; cbn [nodeLines].
    - split; [eauto|intros _ n Hn; inversion Hn].
    - destruct (Node.Check n) as [c|] eqn:Ec; cbn [mbind option_bind].
      + split.
        * intros Hall. destruct (proj1 (IH (S i))) as [ls ->]; [intros m Hm; apply Hall; right; exact Hm|]. cbn. eauto.
        * intros [x Hx]. destruct (nodeLines (S i) ns) eqn:El; [|discriminate]. intros m Hm.
          apply elem_of_cons in Hm as [->|Hm]; [eauto|]. apply (proj2 (IH (S i))); [rewrite El; eauto|exact Hm].
      + split; [|intros [x Hx]; discriminate]. intros Hall. destruct (Hall n) as [c Hc]; [left|congruence]. }
  rewrite (Hn _ 0%nat). unfold logState. destruct (nodeLines 0 _); cbn [mbind option_bind]; split; intros [x Hx]; eauto; discriminate.
Qed.
