(* ===== verification/Support.v ===== *)
(** * Contexts, spans, loggers and the skeleton of a store

    What the program carries along: the context of a request with the spans that
    trace it ([src/jocko/context.go], [span] of [src/jocko/broker.go] and the
    calls of the tracer in [server.go] and [Run]), the loggers
    ([src/log/log.go]), and a store that nothing uses ([src/jocko/state/store.go]). *)
From stdpp Require Import countable.
From S2P Require Import Prelude Structs Store StateMachine.

Module Tracing.

(** ** Contexts *)

(** The keys of the program are strings; [ActiveSpan] is the key of opentracing. *)
Inductive key := contextKey (s : string) | ActiveSpan.
#[global] Instance key_eq_dec : EqDecision key. Proof. solve_decision. Defined.
#[global] Instance key_countable : Countable key.
Proof.
  refine (inj_countable' (fun k => match k with contextKey s => inl s | ActiveSpan => inr tt end)
    (fun x => match x with inl s => contextKey s | inr _ => ActiveSpan end) _). intros []; reflexivity.
Defined.
Definition requestQueueSpanKey : key := contextKey "request queue span key".
Definition responseQueueSpanKey : key := contextKey "response queue span key".

(** A span is the number it was started with.  [Request] is the struct [Context]
    of the program, [vals] being nil at first; the others are those of Go. *)
Inductive ctx :=
  | Background
  | WithValue (parent : ctx) (k : key) (v : nat)
  | Request (vals : option (gmap key nat)) (parent : ctx).

(** [Value], with the context afterwards: it makes the map. *)
Fixpoint Value (k : key) (c : ctx) : option nat * ctx :=
  match c with
  | Background => (None, c)
  | WithValue p k' v =>
      if decide (k = k') then (Some v, c) else let '(r, p) := Value k p in (r, WithValue p k' v)
  | Request vals p =>
      let m := match vals with Some m => m | None => ∅ end in
      match m !! k with
      | Some v => (Some v, Request (Some m) p)
      | None => let '(r, p) := Value k p in (r, Request (Some m) p)
      end
  end.

(** A look-up leaves a context that answers all look-ups as before. *)
Lemma Value_again k k' c : fst (Value k' (snd (Value k c))) = fst (Value k' c).
Proof.
  induction c as [|p IH k0 v|vals p IH]; cbn [Value].
  - reflexivity.
  - case_decide as Hk; [reflexivity|]. destruct (Value k p) as [r p'] eqn:E. cbn [snd Value].
    case_decide as Hk'; [reflexivity|]. cbn in IH.
    destruct (Value k' p'), (Value k' p). exact IH.
  - set (m := match vals with Some m => m | None => ∅ end). destruct (m !! k); cbn [snd Value].
    + destruct (m !! k'); [reflexivity|]. destruct (Value k' p). reflexivity.
    + destruct (Value k p) as [r p'] eqn:E. cbn [snd Value] in *. destruct (m !! k'); [reflexivity|].
      destruct (Value k' p'), (Value k' p). exact IH.
Qed.

(** ** Spans *)

(** A tracer that records what it is asked for: a span with its name, its parent
    and how often it was finished. *)
Record Span := mkSpan { name : string; parent : option nat; finishes : nat }.
Definition Trace : Type := list Span.
Definition StartSpan (n : string) (p : option nat) : M Trace nat := fun t => Ret (length t) (t ++ [mkSpan n p 0]).
Definition Finish (i : nat) : M Trace unit := modify (alter (fun s => mkSpan (name s) (parent s) (S (finishes s))) i).

(** [span] of the broker: a child of the span of the context, if there is one. *)
Definition span (c : option ctx) (op : string) : M Trace nat :=
  match c with
  | None => StartSpan ("broker: " +:+ op) None
  | Some c =>
      match fst (Value ActiveSpan c) with
      | None => StartSpan ("broker: " +:+ op) None
      | Some p => StartSpan ("broker: " +:+ op) (Some p)
      end
  end.

(** What [handleRequest] reads: nothing more, a size of zero, or a request. *)
Inductive input := NoInput | ZeroSize | OneRequest.

(** A round of [handleRequest]: the context of the request, if there is one. *)
Definition handleRequest (i : input) : M Trace (option ctx) :=
  match i with
  | NoInput => mret None
  | ZeroSize =>
      s ← StartSpan "request" None;
      StartSpan "server: decode request" (Some s) ;; mret None
  | OneRequest =>
      s ← StartSpan "request" None;
      decodeSpan ← StartSpan "server: decode request" (Some s);
      Finish decodeSpan ;;
      let c := WithValue Background ActiveSpan s in
      queueSpan ← StartSpan "server: queue request" (Some s);
      mret (Some (Request None (WithValue c requestQueueSpanKey queueSpan)))
  end.

(** Every handler that returns traces itself until then. *)
Definition handler (op : string) (c : ctx) : M Trace unit := s ← span (Some c) op; Finish s.

(** A round of [Run]: the context of the response.  A request without a span
    panics. *)
Definition run (op : string) (c : ctx) : M Trace ctx :=
  let '(queueSpan, c) := Value requestQueueSpanKey c in
  match queueSpan with Some s => Finish s | None => mret tt end ;;
  handler op c ;;
  match fst (Value ActiveSpan c) with
  | None => crash
  | Some p =>
      queueSpan ← StartSpan "broker: queue response" (Some p);
      mret (Request None (WithValue c responseQueueSpanKey queueSpan))
  end.

(** A round of the loop that writes responses, [handleResponse] included. *)
Definition respond (c : ctx) : M Trace unit :=
  let '(queueSpan, c) := Value responseQueueSpanKey c in
  match queueSpan with Some s => Finish s | None => mret tt end ;;
  match fst (Value ActiveSpan c) with
  | None => crash
  | Some psp => sp ← StartSpan "server: handle response" (Some psp); Finish sp ;; Finish psp
  end.

(** A request on its way through the server. *)
Definition request (op : string) : M Trace unit :=
  c ← handleRequest OneRequest;
  match c with None => mret tt | Some c => c ← run op c; respond c end.

Lemma Finish_new (t u : Trace) i :
  Finish (length t + i) (t ++ u) = Ret tt (t ++ alter (fun s => mkSpan (name s) (parent s) (S (finishes s))) i u).
Proof. unfold Finish, modify. f_equal. apply (alter_app_r _ t u i). Qed.

Lemma StartSpan_new n p (t u : Trace) :
  StartSpan n p (t ++ u) = Ret (length t + length u)%nat (t ++ u ++ [mkSpan n p 0]).
Proof. unfold StartSpan. rewrite length_app, <- app_assoc. reflexivity. Qed.

Ltac spans :=
  repeat (first [erewrite bind_Ret by apply StartSpan_new | erewrite bind_Ret by apply Finish_new]; cbn [app length alter list_alter name parent finishes]).

(** What the two loops find in the contexts that they are given. *)
Definition requestCtx (s q : nat) : ctx := Request None (WithValue (WithValue Background ActiveSpan s) requestQueueSpanKey q).
Definition seen (s q : nat) : ctx := Request (Some ∅) (WithValue (WithValue Background ActiveSpan s) requestQueueSpanKey q).
Lemma Value_request s q : Value requestQueueSpanKey (requestCtx s q) = (Some q, seen s q) /\ fst (Value ActiveSpan (seen s q)) = Some s.
Proof. split; reflexivity. Qed.
Lemma Value_response s q r : exists c,
  Value responseQueueSpanKey (Request None (WithValue (seen s q) responseQueueSpanKey r)) = (Some r, c) /\
  fst (Value ActiveSpan c) = Some s.
Proof. eexists. split; reflexivity. Qed.

Lemma handleRequest_spans (t : Trace) : handleRequest OneRequest t =
  Ret (Some (requestCtx (length t) (length t + 2)))
    (t ++ [mkSpan "request" None 0; mkSpan "server: decode request" (Some (length t)) 1;
           mkSpan "server: queue request" (Some (length t)) 0]).
Proof.
  unfold handleRequest. rewrite <- (app_nil_r t) at 1. spans. rewrite Nat.add_0_r. reflexivity.
Qed.

Lemma run_spans op (t : Trace) a b c :
  run op (requestCtx (length t) (length t + 2)) (t ++ [a; b; c]) =
  Ret (Request None (WithValue (seen (length t) (length t + 2)) responseQueueSpanKey (length t + 4)))
    (t ++ [a; b; mkSpan (name c) (parent c) (S (finishes c)); mkSpan ("broker: " +:+ op) (Some (length t)) 1;
           mkSpan "broker: queue response" (Some (length t)) 0]).
Proof.
  unfold run. destruct (Value_request (length t) (length t + 2)) as [-> Ea].
  spans. unfold handler, span. rewrite Ea, bind_assoc. spans. reflexivity.
Qed.

(** Every span of a request is finished exactly once, whatever was traced before. *)
Theorem request_spans_finished op (t : Trace) :
  exists u, request op t = Ret tt (t ++ u) /\ Forall (fun s => finishes s = 1%nat) u /\
    name <$> u = ["request"; "server: decode request"; "server: queue request"; "broker: " +:+ op;
                  "broker: queue response"; "server: handle response"] /\
    parent <$> u = None :: replicate 5 (Some (length t)).
Proof.
  unfold request. erewrite bind_Ret by apply handleRequest_spans. cbv beta iota. erewrite bind_Ret by apply run_spans.
  unfold respond. destruct (Value_response (length t) (length t + 2) (length t + 4)) as (c & -> & Ea).
  spans. rewrite Ea. spans. eexists. split; [rewrite <- (Nat.add_0_r (length t)) at 1; apply Finish_new|].
  split; [repeat constructor|]. split; reflexivity.
Qed.

(** A connection that sends a size of zero leaves two spans that are never finished. *)
Lemma zero_size_spans (t : Trace) : exists u, handleRequest ZeroSize t = Ret None (t ++ u) /\
  length u = 2%nat /\ Forall (fun s => finishes s = 0%nat) u.
Proof.
  exists [mkSpan "request" None 0; mkSpan "server: decode request" (Some (length t)) 0].
  split; [|split; [reflexivity|repeat constructor]].
  unfold handleRequest. rewrite <- (app_nil_r t) at 1. spans. rewrite Nat.add_0_r. reflexivity.
Qed.
End Tracing.

Module Logging.

(** The levels of the logging library, whose loggers for three of them are used. *)
Inductive Level := DebugLevel | InfoLevel | ErrorLevel | DisabledLevel.
Record logger := mkLogger { prefix : string; l : option Level }.

Section loggers.
(** The values that are logged; a prefix is one of them. *)
Context {V : Type} (str : string -> V).

(** What a logger of the library is asked to write. *)
Inductive call :=
  | LPrintf (at_ : Level) (format : string) (v : list V)
  | LPrint (at_ : Level) (v : list V)
  | LPrintln (at_ : Level) (v : list V)
  | LFatal (at_ : Level) (v : list V)
  | LFatalf (at_ : Level) (format : string) (v : list V).

(** A level without a logger leaves the field nil. *)
Definition New (level : Level) (p : string) : logger :=
  mkLogger p (match level with DebugLevel | InfoLevel | ErrorLevel => Some level | DisabledLevel => None end).

(** [None] is a panic, of a logger that is nil. *)
Definition Printf (format : string) (v : list V) (g : logger) : option call :=
  at_ ← l g; Some (LPrintf at_ (if decide (prefix g = "") then format else prefix g +:+ format) v).
Definition Print (v : list V) (g : logger) : option call :=
  at_ ← l g; Some (LPrint at_ (if decide (prefix g = "") then v else [str (prefix g)] ++ v)).
Definition Println (v : list V) (g : logger) : option call :=
  at_ ← l g; Some (LPrintln at_ (if decide (prefix g = "") then v else [str (prefix g)] ++ v)).
Definition Fatal (v : list V) (g : logger) : option call :=
  at_ ← l g; Some (LFatal at_ (if decide (prefix g = "") then v else [str (prefix g)] ++ v)).
Definition Fatalf (format : string) (v : list V) (g : logger) : option call :=
  at_ ← l g; Some (LFatalf at_ (if decide (prefix g = "") then format else prefix g +:+ format) v).

(** The loggers of the package, which everybody shares. *)
Record Loggers := mkLoggers { Debug : logger; Info : logger; Error : logger }.
Definition initLoggers : Loggers :=
  mkLoggers (mkLogger "" (Some DebugLevel)) (mkLogger "" (Some InfoLevel)) (mkLogger "" (Some ErrorLevel)).
Definition SetPrefix (p : string) (ls : Loggers) : Loggers :=
  let set (g : logger) := mkLogger p (l g) in
  mkLoggers (set (Debug ls)) (set (Info ls)) (set (Error ls)).

(** [text format v] formats; a prefix without a verb is written as it is. *)
Context (text : string -> list V -> string) (verbless : string -> Prop).
Hypothesis text_prefix : forall p format v, verbless p -> text (p +:+ format) v = p +:+ text format v.

(** A message through a logger of the package is the prefix and the message. *)
Lemma printf_prefixed p level format v : verbless p -> level <> DisabledLevel ->
  exists f, Printf format v (New level p) = Some (LPrintf level f v) /\ text f v = p +:+ text format v.
Proof.
  intros Hp Hl. unfold Printf. replace (l (New level p)) with (Some level) by (destruct level; [reflexivity..|contradiction]).
  cbn [mbind option_bind New prefix]. eexists. split; [reflexivity|]. case_decide; [subst p; reflexivity|]. apply text_prefix, Hp.
Qed.

(** The loggers of the package are those that [New] makes, with the prefix last set. *)
Lemma SetPrefix_New p p' : SetPrefix p (SetPrefix p' initLoggers) =
  mkLoggers (New DebugLevel p) (New InfoLevel p) (New ErrorLevel p).
Proof. reflexivity. Qed.
End loggers.
End Logging.

Module StateStore.

(** The schemas of this package, of which none is registered. *)
Definition schemas : list string := [].
Definition registerSchema (name : string) (ss : list string) : list string := ss ++ [name].

(** [storeSchema]: the tables, in the order of their registration; [None] is the
    panic for a name that is there already. *)
Definition storeSchema (ss : list string) : option (gset string) :=
  foldl (fun acc s => db ← acc; if decide (s ∈ (db : gset string)) then None else Some ({[s]} ∪ db)) (Some ∅) ss.

Record Store (DB : Type) := mkStore { schema : gset string; db : DB; abandoned : bool }.
Arguments mkStore {DB}.

(** [memdb] is what the library makes of a schema. *)
Definition NewStore {DB} (memdb : gset string -> error + DB) : outcome unit (Store DB) :=
  match storeSchema schemas with
  | None => Crash
  | Some s =>
      match memdb s with
      | inl e => Fail e tt
      | inr d => Ret (mkStore s d false) tt
      end
  end.

Lemma storeSchema_from ss : forall db : gset string,
  foldl (fun acc s => db ← acc; if decide (s ∈ (db : gset string)) then None else Some ({[s]} ∪ db)) (Some db) ss =
  buildSchema ss db.
Proof.
  induction ss as [|s ss IH]; intros db; cbn [foldl buildSchema mbind option_bind]; [reflexivity|].
  case_decide; [|apply IH]. clear. induction ss as [|x ss IH]; [reflexivity|exact IH].
Qed.

(** It builds its tables as the state machine does. *)
Lemma storeSchema_buildSchema ss : storeSchema ss = buildSchema ss ∅.
Proof. apply storeSchema_from. Qed.
End StateStore.
