(* ===== verification/Samples.v ===== *)
(** * Concrete parameters

    Instances of the interfaces that evaluate: the commit log, tables, a raft of
    one member and a serialization, with a broker over them, for the witnesses. *)
From stdpp Require Import countable.
From S2P Require Import Prelude Codec TopicApi ClusterApi ClientApi LogMessage Index Segment CommitLog LogReader Structs Store StoreSteps Cluster LogService BrokerState Broker TopicAdmin.

#[global] Instance value_countable : Countable value.
Proof.
  refine (inj_countable'
    (fun v => match v with
              | VString s => inl s | VInt z => inr (inl z) | VBool b => inr (inr (inl b))
              | VFloat n d => inr (inr (inr (n, d))) end)
    (fun x => match x with
              | inl s => VString s | inr (inl z) => VInt z | inr (inr (inl b)) => VBool b
              | inr (inr (inr (n, d))) => VFloat n d end) _).
  intros []; reflexivity.
Defined.
#[global] Instance entry_countable : Countable TopicConfig.Entry.
Proof.
  refine (inj_countable'
    (fun e => (TopicConfig.Name e, TopicConfig.Default e, TopicConfig.ValidValues e, TopicConfig.Value e,
               TopicConfig.ServerDefault e))
    (fun '(a, b, c, d, e) => TopicConfig.mkEntry a b c d e) _).
  intros []; reflexivity.
Defined.
#[global] Instance raftIndex_countable : Countable RaftIndex.t.
Proof.
  refine (inj_countable' (fun r => (RaftIndex.CreateIndex r, RaftIndex.ModifyIndex r))
    (fun '(a, b) => RaftIndex.mk a b) _).
  intros []; reflexivity.
Defined.
#[global] Instance check_countable : Countable HealthCheck.t.
Proof.
  refine (inj_countable'
    (fun c => (HealthCheck.Node c, HealthCheck.CheckID c, HealthCheck.Name c, HealthCheck.Status c,
               HealthCheck.Output c, HealthCheck.Raft c))
    (fun '(a, b, c, d, e, f) => HealthCheck.mk a b c d e f) _).
  intros []; reflexivity.
Defined.
#[global] Instance node_countable : Countable Node.t.
Proof.
  refine (inj_countable'
    (fun n => (Node.ID n, Node.Node n, Node.Address n, Node.Check n, Node.Meta n, Node.Raft n))
    (fun '(a, b, c, d, e, f) => Node.mk a b c d e f) _).
  intros []; reflexivity.
Defined.
#[global] Instance topic_countable : Countable Topic.t.
Proof.
  refine (inj_countable'
    (fun t => (Topic.ID t, Topic.Topic t, Topic.Partitions t, Topic.Config t, Topic.Internal t, Topic.Raft t))
    (fun '(a, b, c, d, e, f) => Topic.mk a b c d e f) _).
  intros []; reflexivity.
Defined.
#[global] Instance partition_countable : Countable Partition.t.
Proof.
  refine (inj_countable'
    (fun p => (Partition.ID p, Partition.Partition p, Partition.Topic p, Partition.ISR p, Partition.AR p,
               Partition.Leader p, Partition.ControllerEpoch p, Partition.LeaderEpoch p, Partition.Raft p))
    (fun '(a, b, c, d, e, f, g, h, i) => Partition.mk a b c d e f g h i) _).
  intros []; reflexivity.
Defined.
#[global] Instance byte_countable : Countable byte.
Proof.
  refine (inj_countable' Z_of_byte byte_of_Z _). apply byte_of_Z_of_byte.
Defined.
#[global] Instance member_countable : Countable Member.t.
Proof.
  refine (inj_countable' (fun m => (Member.ID m, Member.Metadata m, Member.Assignment m))
    (fun '(a, b, c) => Member.mk a b c) _).
  intros []; reflexivity.
Defined.
#[global] Instance group_countable : Countable Group.t.
Proof.
  refine (inj_countable'
    (fun g => (Group.ID g, Group.Group g, Group.Coordinator g, Group.LeaderID g, Group.Members g, Group.State g,
               Group.GenerationID g, Group.Raft g))
    (fun '(a, b, c, d, e, f, g, h) => Group.mk a b c d e f g h) _).
  intros []; reflexivity.
Defined.

(** ** The parameters, for the files that state witnesses *)
Definition nodePack : Msgpack Node.t := countable_pack Node.t.
Definition topicPack : Msgpack Topic.t := countable_pack Topic.t.
Definition partitionPack : Msgpack Partition.t := countable_pack Partition.t.
Definition groupPack : Msgpack Group.t := countable_pack Group.t.
Definition logOps : CommitLogOps CommitLog Reader := CommitLog_ops len.
Definition logLaws : @CommitLogLaws CommitLog Reader logOps := CommitLog_laws len.

(** A broker with number 1 that leads and is alone. *)
Definition loneConfig : Config.t := Config.mk 1 "node" false "a:9092" true 0 false "a:9093" 1 [].
Definition loneMember : SerfMember.t :=
  SerfMember.mk "node" {["role" := "jocko"; "id" := "1"; "raft_addr" := "a:9093"; "broker_addr" := "a:9092"]} 1.
Definition loneMeta : BrokerMeta.t := BrokerMeta.mk 1 "" false 0 false 1 "a:9093" "" "a:9092".
Definition loneBroker : Broker CommitLog FS Tables SimpleRaft :=
  mkBroker loneConfig (NewMemDB : Tables) [] ∅ ∅ (AddBroker loneMeta NewBrokerLookup)
    (mkSimpleRaft true 0 [Server.mk "1" "a:9093" true]) [loneMember] [] [] [].

#[local] Existing Instance SimpleRaft_ops.
Lemma commits_simple n : forall r : SimpleRaft, leads r = true -> commits n r.
Proof.
  induction n as [|n IH]; intros r Hl; [exact I|]. intros buf. cbn. unfold whileLeading. rewrite Hl.
  eexists _, _. split; [reflexivity|]. apply IH. reflexivity.
Qed.
