(* ===== verification/Replicator.v ===== *)
(** * The replicator

    [src/jocko/replicator.go]: a follower fetches from the leader of a partition
    in one goroutine ([fetchMessages]) and appends what it gets to its own log in
    another ([appendMessages]); a channel joins them.  Here are the data and what
    a round of fetching comes to; [Replication] has the goroutines, step by step. *)
From S2P Require Import Prelude Decoder Codec ClientApi LogMessage Structs Store Cluster LogService BrokerState Broker.

Record Replicator := mkReplicator {
  topic : string; partition : Z; brokerID : Z; (* of [replica] *)
  MinBytes : Z; MaxWaitTime : Z; (* of [config] *)
  highwaterMarkOffset : Z; offset : Z; msgs : list (list byte) }.

Definition NewReplicator (minBytes maxWait : Z) {L} (r : Replica L) : Replicator :=
  mkReplicator (Partition.Topic (RPartition r)) (Partition.ID (RPartition r)) (BrokerID r)
    (if minBytes =? 0 then 1 else minBytes) maxWait 0 0 [].

Definition fetchRequest (r : Replicator) : FetchRequest.t :=
  FetchRequest.mk 0 (brokerID r) (MaxWaitTime r) (MinBytes r) 0 0
    [FetchTopic.mk (topic r) [FetchPartition.mk (partition r) (offset r) 0]].

(** [int64(protocol.Encoding.Uint64(p.RecordSet[:8]))]: slicing goes up to the
    capacity, so that the bytes [behind] the set in its array count; it panics
    when there are too few of them. *)
Definition recordOffset (rs behind : list byte) : option Z :=
  if decide (8 <= length (rs ++ behind))%nat then Some (int64 (be_get (take 8 (rs ++ behind)))) else None.

(** The responses for partitions, with the bytes behind their record sets. *)
Abbreviation PartitionAnswers := (list (FetchPartitionResponse.t * list byte)).

(** The loops over the responses of a round, up to the first that backs off
    ([true]); [None] is a panic. *)
Fixpoint takePartitions (ps : PartitionAnswers) (r : Replicator) : option (Replicator * bool) :=
  match ps with
  | [] => Some (r, false)
  | (p, behind) :: ps =>
      if negb (FetchPartitionResponse.ErrorCode p =? ErrNone) then Some (r, true) else
      match FetchPartitionResponse.RecordSet p with
      | None => Some (r, true)
      | Some rs =>
          o ← recordOffset rs behind;
          takePartitions ps
            (if offset r <? o then
               mkReplicator (topic r) (partition r) (brokerID r) (MinBytes r) (MaxWaitTime r)
                 (FetchPartitionResponse.HighWatermark p) o (msgs r ++ [rs])
             else r)
      end
  end.

(** The partitions of a response, in the order of the two loops. *)
Definition partitionsOf (res : FetchResponse.t) : list FetchPartitionResponse.t :=
  concat (FetchTopicResponse.PartitionResponses <$> FetchResponse.Responses res).

(** One round of [fetchMessages], for what [r.leader.Fetch] returned. *)
Definition fetchRound (resp : error + FetchResponse.t) (behind : list (list byte)) (r : Replicator)
  : option (Replicator * bool) :=
  match resp with
  | inl _ => Some (r, true)
  | inr res => takePartitions (zip (partitionsOf res) behind) r
  end.

(** ** A leader that serves the partition with [handleFetch] *)
Section leader.
Context {L R D DB RF : Type} `{CommitLogLaws L R} `{LogDirs D L} `{!LogDirLaws D L R} `{Memdb DB} `{Raft RF}.

(** An error of the connection, or the response of a broker that leads the
    partition and holds sets from offset 0 on. *)
Definition leaderAnswers (topic : string) (p : Z) (req : FetchRequest.t) (resp : error + FetchResponse.t) : Prop :=
  (exists e, resp = inl e) \/
  exists (b b' : Broker L D DB RF) ptr rep l m msgs expired room fuel res,
    serves b topic p ptr rep l 0 (m :: msgs) /\ Partition.Leader (RPartition rep) = configID b /\
    (forall i, 0 < room i)%nat /\ len (concat (m :: msgs)) < 2 ^ 31 /\
    (length (concat (m :: msgs)) + 2 <= fuel)%nat /\
    handleFetch req expired room fuel b = Ret res b' /\ resp = inr res.

Lemma fetchFn_empty (b : Broker L D DB RF) topic p off max ptr rep l b0 msgs minBytes room fuel :
  serves b topic p ptr rep l b0 msgs -> Partition.Leader (RPartition rep) = configID b ->
  b0 <= off < b0 + len msgs -> minBytes <= 0 ->
  fetchFn topic (FetchPartition.mk p off max) minBytes room fuel b =
  Ret (Some (ErrNone, Some (b0 + len msgs - 1, None))) b.
Proof.
  intros (_ & Hl & Hp & Hlog & Hd & Hh) Hlead Hoff Hmin.
  destruct (law_reader l b0 msgs off Hh Hoff) as (r & k & Er & _).
  unfold fetchFn. erewrite bind_Ret by reflexivity. cbn [FetchPartition.Partition FetchPartition.FetchOffset].
  rewrite Hl. erewrite bind_Ret by (unfold replica; rewrite Hp; reflexivity).
  rewrite Hlead, Z.eqb_refl. cbn [negb]. rewrite (logOf_serves b rep l Hlog Hd), Er.
  assert (Hn : (0 <? minBytes) = false) by (apply Z.ltb_ge; lia).
  destruct fuel; cbn [fetchLoop]; rewrite Hn;
    (erewrite bind_Ret by (eapply on_log_Ret; [exact Hp|exact (law_newest l b0 msgs Hh)]));
    rewrite (putLog_same b ptr rep l Hp Hlog Hd); reflexivity.
Qed.

(** The answer to a request for offset 0 carries an error, or no record set, or
    one that starts with the set of offset 0. *)
Lemma answer_at_zero (b b' : Broker L D DB RF) t p ptr rep l m msgs r expired room fuel res :
  serves b t p ptr rep l 0 (m :: msgs) -> Partition.Leader (RPartition rep) = configID b ->
  (forall i, 0 < room i)%nat -> len (concat (m :: msgs)) < 2 ^ 31 ->
  (length (concat (m :: msgs)) + 2 <= fuel)%nat -> topic r = t -> partition r = p -> offset r = 0 ->
  handleFetch (fetchRequest r) expired room fuel b = Ret res b' ->
  forall behind, exists backoff, fetchRound (inr res) behind r = Some (r, backoff).
Proof.
  intros Hs Hlead Hroom H31 Hf <- <- Ho.
  set (fp := FetchPartition.mk (partition r) (offset r) 0).
  assert (Hfn : exists o, fetchFn (topic r) fp (MinBytes r) room fuel b = Ret o b /\
    forall code hw rs, o = Some (code, Some (hw, Some rs)) -> forall behind, recordOffset rs behind = Some 0).
  { assert (Hrange : 0 <= offset r < 0 + len (m :: msgs)) by (rewrite Ho; unfold len; cbn [length]; lia).
    destruct (Z.leb_spec (MinBytes r) 0) as [Hm|Hm].
    - eexists. split; [eapply fetchFn_empty; eassumption|]. intros code hw rs [= _ _ C]. 
    - destruct (fetchFn_spec b (topic r) (partition r) (offset r) 0 ptr rep l 0 (m :: msgs) (MinBytes r) room fuel
        Hs Hlead Hrange Hroom Hm H31 Hf) as (k & Hk & E).
      rewrite Ho in Hk. assert (k = 0%nat) as -> by lia. rewrite drop_0 in E.
      destruct Hs as (_ & _ & _ & _ & _ & Hh). destruct (law_stored l 0 (m :: msgs) 0%nat m Hh eq_refl) as [Hoff H8].
      destruct (MinBytes r <=? len (concat (m :: msgs))); eexists; (split; [exact E|]); intros code hw rs C; [|discriminate].
      injection C as _ _ <-. intros behind. unfold recordOffset. cbn [concat].
      rewrite decide_True by (rewrite !length_app; lia). rewrite <- app_assoc, take_app_le by exact H8. unfold LogMessageSet.Offset, between in Hoff.
      rewrite decide_True in Hoff by lia. case_decide; [|discriminate]. cbn [mbind option_bind] in Hoff.
      unfold Uint in Hoff. change (Z.to_nat (8 - 0)) with 8%nat in Hoff. change (Z.to_nat 0) with 0%nat in Hoff.
      rewrite drop_0, take_take in Hoff. case_decide; [|discriminate]. exact Hoff. }
  destruct Hfn as (o & Efn & Hzero).
  rewrite (handleFetch_one (fetchRequest r) (topic r) fp expired room fuel b b o eq_refl Efn).
  unfold mbind, M_bind, waited. case_bool.
  { intros [= <- <-] [|tl behind]; unfold fetchRound; cbn; eauto. }
  destruct o as [[code a]|]; [destruct (expired 0%nat 0%nat); [discriminate|]|];
    cbn [mret M_ret fst snd]; intros [= <- <-] [|tl behind]; unfold fetchRound, partitionsOf;
    cbn [FetchResponse.Responses fmap list_fmap FetchTopicResponse.PartitionResponses concat app zip zip_with]; [cbn; eauto| |cbn; eauto..].
  destruct a as [[hw [rs|]]|];
    cbn [takePartitions FetchPartitionResponse.ErrorCode FetchPartitionResponse.RecordSet]; (case_bool; [eauto|]); eauto.
  rewrite (Hzero _ _ _ eq_refl tl). cbn [mbind option_bind]. rewrite Ho, Z.ltb_irrefl. eauto.
Qed.

End leader.
