(* ===== verification/Replication.v ===== *)
(** * The goroutines of a replicator

    [src/jocko/replicator.go], step by step: the fetching goroutine with its
    blocking send and its pauses, the appending goroutine, [Close], panics.  The
    time between two tries comes from a library (cenkalti/backoff). *)
From S2P Require Import Prelude Decoder Codec ClientApi LogMessage Structs Store Cluster LogService BrokerState Broker Replicator.
From Stdlib Require Import Sorting.Sorted.

(** The capacity of [msgs]. *)
Definition msgsCap : nat := 2.

(** Where [fetchMessages] stands: at the top of its loop, in the loops over the
    responses with those still to come, in [time.Sleep], or returned. *)
Inductive fetcher :=
| FetchTop
| Taking (ps : PartitionAnswers)
| Sleeping (until : Z)
| FetchEnd.
Inductive appender := AppendTop | AppendEnd.

(** [done] is closed or not; [resetAt]: when the back-off was last reset.
    [received] is a history that the program does not keep: what [Fetch] returned
    so far, the errors left out. *)
Record Replication (L : Type) := mkReplication {
  rep : Replicator; rlog : L; done : bool; fetching : fetcher; appending : appender; clock : Z; resetAt : Z;
  received : list PartitionAnswers }.
Arguments mkReplication {L}.
Arguments rep {L}. Arguments rlog {L}. Arguments done {L}. Arguments fetching {L}. Arguments appending {L}.
Arguments clock {L}. Arguments resetAt {L}. Arguments received {L}.

(** What a response of a partition asks for: back off, go on, send a set. *)
Inductive verdict := BackOff | Skip | Send (o : Z) (rs : list byte) | Short.
Definition judge (p : FetchPartitionResponse.t) (behind : list byte) (offset : Z) : verdict :=
  if negb (FetchPartitionResponse.ErrorCode p =? ErrNone) then BackOff else
  match FetchPartitionResponse.RecordSet p with
  | None => BackOff
  | Some rs =>
      match recordOffset rs behind with
      | None => Short
      | Some o => if offset <? o then Send o rs else Skip
      end
  end.

(** [r.msgs <- p.RecordSet] and the two assignments after it. *)
Definition sendSet (p : FetchPartitionResponse.t) (o : Z) (rs : list byte) (r : Replicator) : Replicator :=
  mkReplicator (topic r) (partition r) (brokerID r) (MinBytes r) (MaxWaitTime r)
    (FetchPartitionResponse.HighWatermark p) o (msgs r ++ [rs]).
Definition dropMsg (ms : list (list byte)) (r : Replicator) : Replicator :=
  mkReplicator (topic r) (partition r) (brokerID r) (MinBytes r) (MaxWaitTime r)
    (highwaterMarkOffset r) (offset r) ms.

Section steps.
Context {L R : Type} `{CommitLogOps L R}.
(** [answer req resp]: the leader may answer [req] with [resp]; [backoff t d]: a
    time [t] after the last reset, [NextBackOff] may return [d]. *)
Context (answer : FetchRequest.t -> error + FetchResponse.t -> Prop) (backoff : Z -> Z -> Prop).

Definition put_fetch (f : fetcher) (g : Replication L) : Replication L :=
  mkReplication (rep g) (rlog g) (done g) f (appending g) (clock g) (resetAt g) (received g).
Definition put_rep (r : Replicator) (f : fetcher) (g : Replication L) : Replication L :=
  mkReplication r (rlog g) (done g) f (appending g) (clock g) (resetAt g) (received g).

(** [Replicate], after [NewReplicator]. *)
Definition Replicate (r : Replicator) (l : L) (t : Z) : Replication L :=
  mkReplication r l false FetchTop AppendTop t t [].

(** The loops over a response begin. *)
Definition receive (ps : PartitionAnswers) (g : Replication L) : Replication L :=
  mkReplication (rep g) (rlog g) (done g) (Taking ps) (appending g) (clock g) (resetAt g) (received g ++ [ps]).

(** [time.Sleep] returns at once when the duration is not positive. *)
Definition sleep (d : Z) (g : Replication L) : Replication L := put_fetch (Sleeping (clock g + Z.max d 0)) g.

(** [None] is a panic. *)
Inductive gstep : Replication L -> option (Replication L) -> Prop :=
| GDone g : fetching g = FetchTop -> done g = true -> gstep g (Some (put_fetch FetchEnd g))
| GFetchError g e d : fetching g = FetchTop -> done g = false -> answer (fetchRequest (rep g)) (inl e) ->
    backoff (clock g - resetAt g) d -> gstep g (Some (sleep d g))
| GFetch g res behind : fetching g = FetchTop -> done g = false -> answer (fetchRequest (rep g)) (inr res) ->
    length behind = length (partitionsOf res) -> gstep g (Some (receive (zip (partitionsOf res) behind) g))
| GRound g : fetching g = Taking [] ->
    gstep g (Some (mkReplication (rep g) (rlog g) (done g) FetchTop (appending g) (clock g) (clock g) (received g)))
| GBackOff g p behind ps d : fetching g = Taking ((p, behind) :: ps) -> judge p behind (offset (rep g)) = BackOff ->
    backoff (clock g - resetAt g) d -> gstep g (Some (sleep d g))
| GSkip g p behind ps : fetching g = Taking ((p, behind) :: ps) -> judge p behind (offset (rep g)) = Skip ->
    gstep g (Some (put_fetch (Taking ps) g))
| GSend g p behind ps o rs : fetching g = Taking ((p, behind) :: ps) -> judge p behind (offset (rep g)) = Send o rs ->
    (length (msgs (rep g)) < msgsCap)%nat -> gstep g (Some (put_rep (sendSet p o rs (rep g)) (Taking ps) g))
| GShort g p behind ps : fetching g = Taking ((p, behind) :: ps) -> judge p behind (offset (rep g)) = Short -> gstep g None
| GWake g t : fetching g = Sleeping t -> t <= clock g -> gstep g (Some (put_fetch FetchTop g))
| GAppend g m ms o l : appending g = AppendTop -> msgs (rep g) = m :: ms -> log_append m (rlog g) = Ret o l ->
    gstep g (Some (mkReplication (dropMsg ms (rep g)) l (done g) (fetching g) AppendTop (clock g) (resetAt g) (received g)))
| GAppendPanic g m ms : appending g = AppendTop -> msgs (rep g) = m :: ms ->
    (forall o l, log_append m (rlog g) <> Ret o l) -> gstep g None
| GAppendDone g : appending g = AppendTop -> done g = true ->
    gstep g (Some (mkReplication (rep g) (rlog g) (done g) (fetching g) AppendEnd (clock g) (resetAt g) (received g)))
| GClose g : done g = false ->
    gstep g (Some (mkReplication (rep g) (rlog g) true (fetching g) (appending g) (clock g) (resetAt g) (received g)))
| GCloseAgain g : done g = true -> gstep g None
| GTick g t : clock g <= t ->
    gstep g (Some (mkReplication (rep g) (rlog g) (done g) (fetching g) (appending g) t (resetAt g) (received g))).

Definition greaches : Replication L -> Replication L -> Prop := rtc (fun g g' => gstep g (Some g')).

(** ** Lemmas *)

(** The log after record sets were appended one by one. *)
Inductive appends : L -> list (list byte) -> L -> Prop :=
| appends_nil l : appends l [] l
| appends_snoc l0 ms l m o l' : appends l0 ms l -> log_append m l = Ret o l' -> appends l0 (ms ++ [m]) l'.

(** *** What the responses ask for *)

(** The offset and the set of a response without an error and with a set. *)
Definition usable (a : FetchPartitionResponse.t * list byte) : option (Z * list byte) :=
  match FetchPartitionResponse.ErrorCode a.1 =? ErrNone, FetchPartitionResponse.RecordSet a.1 with
  | true, Some rs => if decide (8 <= length (rs ++ a.2))%nat then Some (int64 (be_get (take 8 (rs ++ a.2))), rs) else None
  | _, _ => None
  end.

(** The sets of one answer of the leader: up to the first partition without one. *)
Fixpoint offered (ps : PartitionAnswers) : list (Z * list byte) :=
  match ps with
  | [] => []
  | a :: ps => match usable a with Some x => x :: offered ps | None => [] end
  end.

(** Those with an offset greater than [o] and than every one before them. *)
Fixpoint newer (o : Z) (xs : list (Z * list byte)) : list (Z * list byte) :=
  match xs with
  | [] => []
  | x :: xs => if decide (o < x.1) then x :: newer x.1 xs else newer o xs
  end.
Definition wanted (o : Z) (rs : list PartitionAnswers) : list (Z * list byte) := newer o (concat (offered <$> rs)).

(** The offset after some sets were taken. *)
Definition reached (o : Z) (xs : list (Z * list byte)) : Z := from_option fst o (list.last xs).

Lemma reached_cons o x xs : reached o (x :: xs) = reached x.1 xs.
Proof. unfold reached. rewrite list.last_cons. destruct (list.last xs); reflexivity. Qed.

Lemma newer_app o xs ys : newer o (xs ++ ys) = newer o xs ++ newer (reached o (newer o xs)) ys.
Proof.
  revert o. induction xs as [|x xs IH]; intros o; cbn [app newer]; [reflexivity|].
  case_decide; [|apply IH]. rewrite reached_cons. cbn [app]. f_equal. apply IH.
Qed.

Lemma newer_ascending o xs : StronglySorted Z.lt (o :: (newer o xs).*1).
Proof.
  revert o. induction xs as [|x xs IH]; intros o; cbn [newer]; [repeat constructor|].
  case_decide as Hlt; [|apply IH]. specialize (IH x.1). rewrite fmap_cons. constructor; [exact IH|].
  inversion IH as [|? ? _ Hall]; subst. constructor; [exact Hlt|].
  revert Hall. apply Forall_impl. intros y Hy. lia.
Qed.

(** What the goroutine will still send of the answer it works on. *)
Definition pending (g : Replication L) : list (Z * list byte) :=
  match fetching g with Taking ps => newer (offset (rep g)) (offered ps) | _ => [] end.

(** What was asked for was appended, is in the channel, or is still to be sent. *)
Record orderly (l0 : L) (o0 : Z) (g : Replication L) : Prop := {
  g_sent : exists appended taken, appends l0 appended (rlog g) /\ taken.*2 = appended ++ msgs (rep g) /\
    wanted o0 (received g) = taken ++ pending g /\ offset (rep g) = reached o0 taken;
  g_room : (length (msgs (rep g)) <= msgsCap)%nat }.

Lemma judge_usable p behind off : judge p behind off =
  match usable (p, behind) with
  | Some (o, rs) => if off <? o then Send o rs else Skip
  | None => match FetchPartitionResponse.ErrorCode p =? ErrNone, FetchPartitionResponse.RecordSet p with
            | true, Some _ => Short
            | _, _ => BackOff
            end
  end.
Proof.
  unfold judge, usable, recordOffset. cbn [fst snd]. destruct (_ =? ErrNone); [|reflexivity]. cbn [negb].
  destruct (FetchPartitionResponse.RecordSet p) as [rs|]; [|reflexivity]. case_decide; reflexivity.
Qed.

(** A response that is skipped, sent or backed off from. *)
Lemma judge_pending p behind ps off :
  match judge p behind off with
  | BackOff | Short => newer off (offered ((p, behind) :: ps)) = []
  | Skip => newer off (offered ((p, behind) :: ps)) = newer off (offered ps)
  | Send o rs => newer off (offered ((p, behind) :: ps)) = (o, rs) :: newer o (offered ps)
  end.
Proof.
  rewrite judge_usable. cbn [offered]. destruct (usable (p, behind)) as [[o rs]|].
  - cbn [newer fst]. destruct (Z.ltb_spec off o); [rewrite decide_True by lia|rewrite decide_False by lia]; reflexivity.
  - destruct (_ =? ErrNone), (FetchPartitionResponse.RecordSet p); reflexivity.
Qed.

Lemma orderly_receive l0 o0 g ps : fetching g = FetchTop -> orderly l0 o0 g -> orderly l0 o0 (receive ps g).
Proof.
  intros Hf [(ap & tk & Ha & Ht & Hw & Ho) Hr]. constructor; [|exact Hr]. exists ap, tk.
  split; [exact Ha|]. split; [exact Ht|]. split; [|exact Ho].
  unfold pending in Hw. rewrite Hf, app_nil_r in Hw. unfold wanted, pending in *. cbn [received receive fetching rep].
  rewrite fmap_app, concat_app, newer_app, Hw. cbn [fmap list_fmap concat]. rewrite app_nil_r, Ho. reflexivity.
Qed.

Lemma orderly_send l0 o0 g p behind ps o rs : fetching g = Taking ((p, behind) :: ps) ->
  judge p behind (offset (rep g)) = Send o rs -> (length (msgs (rep g)) < msgsCap)%nat ->
  orderly l0 o0 g -> orderly l0 o0 (put_rep (sendSet p o rs (rep g)) (Taking ps) g).
Proof.
  intros Hf Hj Hl [(ap & tk & Ha & Ht & Hw & Ho) Hr].
  pose proof (judge_pending p behind ps (offset (rep g))) as Hp. rewrite Hj in Hp.
  constructor; [|cbn; rewrite length_app; cbn; lia]. exists ap, (tk ++ [(o, rs)]). cbn.
  split; [exact Ha|]. split; [rewrite fmap_app, Ht, <- app_assoc; reflexivity|]. split.
  - unfold pending in *. cbn. rewrite Hf, Hp in Hw. rewrite <- app_assoc. exact Hw.
  - unfold reached. rewrite last_snoc. reflexivity.
Qed.

(** Steps that neither receive nor send nor append. *)
Lemma orderly_quiet l0 o0 g g' : rep g' = rep g -> rlog g' = rlog g -> received g' = received g ->
  pending g' = pending g -> orderly l0 o0 g -> orderly l0 o0 g'.
Proof. intros E1 E2 E3 E4 [Hs Hr]. constructor; rewrite ?E1, ?E2, ?E3, ?E4; assumption. Qed.

Lemma orderly_step l0 o0 g g' : orderly l0 o0 g -> gstep g (Some g') -> orderly l0 o0 g'.
Proof.
  intros Hord Hstep.
  inversion Hstep as [g1 Hf|g1 e d Hf|g1 res behind Hf|g1 Hf|g1 p behind ps d Hf Hj|g1 p behind ps Hf Hj|
    g1 p behind ps o rs Hf Hj Hl|g1|g1 t Hf|g1 m ms o l Hp Hm Hl| |g1|g1| |g1 t]; subst;
    try (revert Hord; apply orderly_quiet; unfold pending; cbn; rewrite ?Hf; reflexivity).
  - apply orderly_receive; assumption.
  - revert Hord. apply orderly_quiet; [reflexivity..|]. pose proof (judge_pending p behind ps (offset (rep g))) as Hp.
    rewrite Hj in Hp. unfold pending. cbn. rewrite Hf, Hp. reflexivity.
  - revert Hord. apply orderly_quiet; [reflexivity..|]. pose proof (judge_pending p behind ps (offset (rep g))) as Hp.
    rewrite Hj in Hp. unfold pending. cbn. rewrite Hf, Hp. reflexivity.
  - eapply orderly_send; eassumption.
  - destruct Hord as [(ap & tk & Ha & Ht & Hw & Ho) Hr]. constructor; [|cbn; rewrite Hm in Hr; cbn in Hr; lia].
    exists (ap ++ [m]), tk. split; [econstructor; eauto|]. cbn. rewrite <- app_assoc. rewrite Hm in Ht. auto.
Qed.

Lemma orderly_reaches l0 r t g : msgs r = [] -> greaches (Replicate r l0 t) g -> orderly l0 (offset r) g.
Proof.
  intros Hm Hr. revert g Hr. refine (rtc_ind_r _ _ _ _).
  - constructor; cbn; rewrite Hm; [|cbn; lia]. exists [], []. split; [constructor|auto].
  - intros g g' _ Hs Ho. exact (orderly_step _ _ _ _ Ho Hs).
Qed.

(** The history holds answers of the leader. *)
Lemma received_answers r l0 t g : greaches (Replicate r l0 t) g ->
  Forall (fun ps => exists req res, answer req (inr res) /\ ps.*1 = partitionsOf res) (received g).
Proof.
  intros Hr. revert g Hr. refine (rtc_ind_r _ _ _ _); [constructor|]. intros g g' _ Hs IH.
  inversion Hs as [| |g1 res behind Hf Hd Ha Hl| | | | | | | | | | | |]; subst; try exact IH. cbn.
  apply Forall_app. split; [exact IH|]. constructor; [|constructor]. exists (fetchRequest (rep g)), res.
  split; [exact Ha|]. apply fst_zip. lia.
Qed.

(** The library gives up, with the duration [Stop], when the last reset is too
    long ago: then nothing passes between two requests that fail. *)
Definition Stop : Z := -1.
Definition MaxElapsedTime : Z := 15 * 60 * 1000000000.
Lemma pauses_end g e (Hlib : forall t, MaxElapsedTime < t -> backoff t Stop) :
  fetching g = FetchTop -> done g = false -> answer (fetchRequest (rep g)) (inl e) ->
  MaxElapsedTime < clock g - resetAt g -> exists g1, gstep g (Some g1) /\ gstep g1 (Some g).
Proof.
  intros Hf Hd Ha Ht. exists (sleep Stop g). split; [eapply GFetchError; eauto|].
  replace (Some g) with (Some (put_fetch FetchTop (sleep Stop g))) by (destruct g; cbn in *; subst; reflexivity).
  eapply GWake; [reflexivity|]. cbn. unfold Stop. lia.
Qed.

(** The fetching goroutine waits to send, the channel is full and the other
    goroutine has returned. *)
Definition leaked (g : Replication L) : Prop :=
  appending g = AppendEnd /\ (msgsCap <= length (msgs (rep g)))%nat /\
  exists p behind ps o rs, fetching g = Taking ((p, behind) :: ps) /\ judge p behind (offset (rep g)) = Send o rs.

Lemma leaked_step g g' : leaked g -> gstep g (Some g') -> leaked g' /\ fetching g' = fetching g.
Proof.
  intros (Ha & Hl & p & bh & ps & o & rs & Hf & Hj) Hs.
  inversion Hs; subst; cbn in *; try congruence;
    try (split; [|reflexivity]; split; [exact Ha|]; split; [exact Hl|]; eauto 8; fail);
    match goal with
    | Hq : fetching g = Taking ((?q, ?c) :: _) |- _ =>
        assert (q = p) by congruence; assert (c = bh) by congruence; subst q c; first [congruence|lia]
    end.
Qed.

Lemma leaked_forever g g' : leaked g -> greaches g g' -> fetching g' = fetching g /\ leaked g'.
Proof.
  intros Hl Hr. revert Hl. induction Hr as [|g g1 g2 Hs _ IH]; intros Hl; [auto|].
  destruct (leaked_step _ _ Hl Hs) as [Hl1 E]. destruct (IH Hl1) as [E2 Hl2]. split; [congruence|exact Hl2].
Qed.
End steps.

(** ** A leader that serves the partition with [handleFetch] *)
Section leader.
Context {L R D DB RF : Type} `{CommitLogLaws L R} `{LogDirs D L} `{!LogDirLaws D L R} `{Memdb DB} `{Raft RF}.
Context (backoff : Z -> Z -> Prop).

Lemma takePartitions_sent ps : forall r r' bk, takePartitions ps r = Some (r', bk) -> exists x, msgs r' = msgs r ++ x.
Proof.
  induction ps as [|[p bh] ps IH]; intros r r' bk; cbn [takePartitions].
  - intros [= <- _]. exists []. rewrite app_nil_r. reflexivity.
  - destruct (negb _); [intros [= <- _]; exists []; rewrite app_nil_r; reflexivity|].
    destruct (FetchPartitionResponse.RecordSet p) as [rs|]; [|intros [= <- _]; exists []; rewrite app_nil_r; reflexivity].
    destruct (recordOffset rs bh) as [o|]; cbn; [|discriminate]. intros E. destruct (IH _ _ _ E) as [x Ex].
    destruct (offset r <? o); [|eauto]. exists (rs :: x). rewrite Ex. cbn. rewrite <- app_assoc. reflexivity.
Qed.

(** A round, response by response. *)
Lemma takePartitions_judge p behind ps r : takePartitions ((p, behind) :: ps) r =
  match judge p behind (offset r) with
  | BackOff => Some (r, true)
  | Skip => takePartitions ps r
  | Send o rs => takePartitions ps (sendSet p o rs r)
  | Short => None
  end.
Proof.
  cbn [takePartitions]. unfold judge. destruct (negb _); [reflexivity|].
  destruct (FetchPartitionResponse.RecordSet p) as [rs|]; [|reflexivity].
  destruct (recordOffset rs behind) as [o|]; cbn; [|reflexivity]. destruct (offset r <? o); reflexivity.
Qed.

Lemma idle_round p behind ps r bk : takePartitions ((p, behind) :: ps) r = Some (r, bk) ->
  judge p behind (offset r) = BackOff \/ (judge p behind (offset r) = Skip /\ takePartitions ps r = Some (r, bk)).
Proof.
  rewrite takePartitions_judge. destruct (judge p behind (offset r)) as [| |o rs|]; [auto|auto| |discriminate].
  intros E. destruct (takePartitions_sent _ _ _ _ E) as [x Ex]. cbn in Ex. exfalso.
  apply (f_equal length) in Ex. rewrite !length_app in Ex. cbn in Ex. lia.
Qed.

(** The replicator and its log stay as they were. *)
Lemma replication_stuck t0 p0 (r0 : Replicator) (l0 : L) t g :
  topic r0 = t0 -> partition r0 = p0 -> offset r0 = 0 -> msgs r0 = [] ->
  greaches (leaderAnswers (D := D) (DB := DB) (RF := RF) t0 p0) backoff (Replicate r0 l0 t) g ->
  rep g = r0 /\ rlog g = l0 /\ forall ps, fetching g = Taking ps -> exists bk, takePartitions ps r0 = Some (r0, bk).
Proof.
  intros Ht Hp Ho Hm Hr. revert g Hr. refine (rtc_ind_r _ _ _ _); [repeat split; discriminate|].
  intros g g' _ Hs (Er & El & Hf).
  inversion Hs as [g1|g1 e d|g1 res bh Hft Hd Ha|g1|g1 p bh ps d|g1 p bh ps Hft Hj|g1 p bh ps o rs Hft Hj|g1|g1 w|g1 m ms o l Hap Hq|
    |g1|g1| |g1 w]; subst g'; try subst g1; cbn; try (split; [exact Er|split; [exact El|]]; try exact Hf; discriminate).
  - split; [exact Er|]. split; [exact El|]. intros ps [= <-]. rewrite Er in Ha.
    destruct Ha as [[e C]|(b & b' & ptr & rp & lg & m & ms & ex & room & fuel & res' & Hsv & Hlead & Hroom & H31 & Hfu & Hh & E)];
      [discriminate|injection E as ->].
    exact (answer_at_zero b b' _ _ ptr rp lg m ms r0 ex room fuel res' Hsv Hlead Hroom H31 Hfu Ht Hp Ho Hh bh).
  - split; [exact Er|]. split; [exact El|]. intros ps' [= <-]. destruct (Hf _ Hft) as [bk Hbk].
    rewrite Er in Hj. destruct (idle_round _ _ _ _ _ Hbk) as [C|[_ E]]; [congruence|eauto].
  - rewrite Er in Hj. destruct (Hf _ Hft) as [bk Hbk]. destruct (idle_round _ _ _ _ _ Hbk) as [C|[C _]]; congruence.
  - rewrite Er in Hq. congruence.
Qed.
End leader.
