(* ===== verification/ConnProps.v ===== *)
(** * Properties of a shared client connection

    The claims about several goroutines that make calls on one [Conn]
    ([src/jocko/conn.go]), whatever the requests and the peer's answers. *)
From S2P Require Import Prelude Encoder Decoder Codec ClientApi TopicApi GroupApi ClusterApi MessageSets Wire Conn ConnShared ConnCalls ConnDeadlines Samples.
Open Scope Z_scope.

(** What the peer answers to a call: a frame that carries the number of the
    request and a body, of at most 4096 bytes, that the call can decode. *)
Lemma sendable_request oL oB cid b : valid_order oL -> valid_order oB ->
  wf_string cid -> in_int 16 (Version b) -> wf_body b -> sendable oL oB cid b.
Proof.
  intros HL HB Hc Hv Hb id Hid. destruct (request_bytes oL oB (Request.mk id cid b) HL HB) as (hb & bb & D & _ & E & _).
  - exact (conj Hid (conj Hc (conj Hv Hb))).
  - eauto.
Qed.

(** C4: on a connection shared by any number of calls, in every interleaving of
    their steps with deliveries, deadlines and timeouts in which no request is
    begun while another call has unlocked and not yet read its number, every
    call that has returned while the connection is open has decoded the peer's
    answer to its own request, under its own number. *)
Theorem shared_calls_own_answers {A} (oL oB : map_order) (serve : Z -> Body -> list byte)
    (read : Body -> M ByteDecoder A) (cid : string) (bodies : list Body) (w : world A)
    (i : nat) (b : Body) (r : A + error)
    (Hpeer : Forall (servable serve read) bodies)
    (Hrun : rtc (quiet oL oB serve read) (start cid bodies) w)
    (Hfew : Z.of_nat (length (requests w)) < 2 ^ 31 - 1)
    (Hopen : closed (conn w) = false) (Hret : calls w !! i = Some (b, Returned r)) :
  bodies !! i = Some b /\
  exists a id bb, r = inl a /\ (id, b) ∈ requests w /\ reads (read b) bb a /\
    serve id b = be_put 4 (uint32 (len bb + 4)) ++ be_put 4 (uint32 id) ++ bb.
Proof.
  split.
  - rewrite <- (quiet_bodies _ _ _ _ _ _ _ Hrun), list_lookup_fmap, Hret. reflexivity.
  - destruct (quiet_good _ _ _ _ _ _ _ Hpeer Hrun Hfew) as [[Hc|(m & pre & N & F)] _]; [congruence|].
    destruct (f_returned _ _ _ _ _ F _ _ _ Hret) as (a & id & bb & -> & Hin & Hs & _ & Hr). eauto 8.
Qed.

(** C24: from every state that an interleaving of calls on one connection leads
    to, in which no request is begun while another call has unlocked and not yet
    read its number, with the connection open and without deadlines, all calls
    can still be brought to their end: each returns the answer to its request. *)
Theorem shared_calls_can_finish {A} (oL oB : map_order) (serve : Z -> Body -> list byte)
    (read : Body -> M ByteDecoder A) (cid : string) (bodies : list Body) (w : world A)
    (HL : valid_order oL) (HB : valid_order oB) (Hcid : wf_string cid)
    (Hreq : Forall (fun b => in_int 16 (Version b) /\ wf_body b) bodies)
    (Hpeer : Forall (servable serve read) bodies)
    (Hrun : rtc (quiet oL oB serve read) (start cid bodies) w)
    (Hcalm : calm cid w)
    (Hfew : Z.of_nat (length (requests w) + 5 * length bodies) < 2 ^ 31 - 1) :
  exists w', rtc (quiet oL oB serve read) w w' /\ closed (conn w') = false /\
    forall i b, bodies !! i = Some b -> exists a id bb, calls w' !! i = Some (b, Returned (inl a)) /\
      (id, b) ∈ requests w' /\ frame serve read id b bb a.
Proof.
  assert (Hs : Forall (sendable oL oB cid) bodies).
  { revert Hreq. apply Forall_impl. intros b [Hv Hb]. apply sendable_request; assumption. }
  pose proof (quiet_ready _ _ _ _ _ _ _ Hpeer Hs Hrun Hcalm Hfew) as R.
  destruct (progress_all _ _ _ _ _ _ R) as (w' & Hst & R' & Hall). exists w'.
  pose proof (c_open _ _ (r_calm _ _ _ _ _ _ R')) as Ho. split; [exact Hst|]. split; [exact Ho|]. intros i b Hi.
  assert (Hb : (calls w').*1 = bodies) by (eapply quiet_bodies; etrans; eassumption).
  rewrite <- Hb, list_lookup_fmap in Hi. destruct (calls w' !! i) as [[b' p]|] eqn:E; [|discriminate].
  injection Hi as ->. pose proof (Hall _ _ _ E) as Hp. destruct p; try discriminate.
  destruct (r_good _ _ _ _ _ _ R') as [Hc|(m & pre & N & F)]; [congruence|].
  destruct (f_returned _ _ _ _ _ F _ _ _ E) as (a & id & bb & -> & Hin & Hf). eauto 8.
Qed.

(** C38: when two calls write their requests before the first one reads its
    number, both wait for the second answer, behind the first one that nobody
    takes: the peer has answered both, and neither call ever returns, whatever
    arrives, whatever deadlines pass, even when the connection is closed. *)
Theorem raced_calls_never_return {A} (oL oB : map_order) (serve : Z -> Body -> list byte)
    (read : Body -> M ByteDecoder A) (cid : string) (b1 b2 : Body)
    (HL : valid_order oL) (HB : valid_order oB) (Hcid : wf_string cid)
    (H1 : in_int 16 (Version b1) /\ wf_body b1) (H2 : in_int 16 (Version b2) /\ wf_body b2)
    (Hpeer : servable serve read b1) :
  exists w, rtc (step oL oB serve read) (start cid [b1; b2]) w /\
    inbox (conn w) = serve 1 b1 ++ serve 2 b2 /\ closed (conn w) = false /\
    forall w', rtc (step oL oB serve read) w w' -> forall i b r, calls w' !! i <> Some (b, Returned r).
Proof.
  destruct (raced oL oB serve read cid b1 b2) as (w & Hr & Ec & _ & Ei & Ep & Ho & _);
    [apply sendable_request; tauto..|].
  exists w. split; [exact Hr|]. split; [exact Ei|]. split; [exact Ho|]. intros w' Hst.
  refine (starved_forever _ _ _ _ _ _ Hst _). clear w' Hst. intros i b p Hi. exists 2.
  assert (p = Waiting 2) as -> by (rewrite Ec in Hi; destruct i as [|[|[|]]]; simplify_eq/=; reflexivity).
  split; [auto|]. split; [lia|]. rewrite Ei, Ep, app_nil_r.
  destruct (Hpeer 1) as (bb & a & Hs & _); [unfold in_int; lia|]. rewrite Hs.
  rewrite frontID_frame. discriminate.
Qed.

(** C25: while a call writes, the write deadline of the network connection is the
    value of the deadline its operation uses, also after that value was changed
    meanwhile; while it reads, the same holds of the read deadline, unless a
    round of [waitResponse] under the other deadline has left that one set. *)
Theorem deadlines_tracked {A} (oL oB : map_order) (serve : Z -> Body -> list byte)
    (read : Body -> M ByteDecoder A) (cid : string) (bodies : list Body) (w : world A)
    (Hrun : rtc (step oL oB serve read) (start cid bodies) w) :
  (forall i b id, calls w !! i = Some (b, Writing id) ->
     wlock w = Some i /\ writeDeadline (net w) = value (deadlines w (operationSide b))) /\
  (forall i b p, calls w !! i = Some (b, p) -> (exists id, p = Peeking id) \/ (exists n, p = Reading n) ->
     rlock w = Some i /\
     (readDeadline (net w) = value (deadlines w (operationSide b)) \/
      rconn (deadlines w (otherSide (operationSide b))) = true)).
Proof.
  destruct (steps_tracked _ _ _ _ _ _ _ Hrun) as [L T]. split.
  - intros i b id Hi. split; [apply (l_writing _ L _ _ _ Hi)|apply (t_write _ T _ _ _ Hi)].
  - intros i b p Hi Hp. assert (Hh : holdsRead p = true) by (destruct Hp as [[? ->]|[? ->]]; reflexivity).
    split; [exact (l_reading _ L _ _ _ Hi Hh)|apply (t_read _ T _ _ _ Hi Hh)].
Qed.

(** ** Samples: heartbeats, answered with an error code *)
Definition beat : Body := Wire.Heartbeat (HeartbeatRequest.mk 0 "g" 3 "m").
Definition beatAnswer (id : Z) (b : Body) : list byte :=
  be_put 4 (uint32 6) ++ be_put 4 (uint32 id) ++ be_put 2 (uint16 27).
Definition beatRead (b : Body) : M ByteDecoder HeartbeatResponse.t := resp_decode (Version b).

Lemma beat_servable : servable beatAnswer beatRead beat.
Proof.
  intros id Hid. exists (be_put 2 (uint16 27)), (HeartbeatResponse.mk 0 0 27). split; [reflexivity|].
  split; [unfold len, bufSize; rewrite length_be_put; lia|].
  destruct (HeartbeatResponse.codec_HeartbeatResponse (HeartbeatResponse.mk 0 0 27)) as (bb & _ & He & Hr).
  { repeat split; cbn; lia. }
  assert (bb = be_put 2 (uint16 27)) as <-; [|exact Hr].
  apply encodes_Encode in He. vm_compute in He. injection He as <-. vm_compute. reflexivity.
Qed.

Definition beatWorld : world HeartbeatResponse.t := start "c" [beat; beat].

Lemma beats_request : Forall (fun b => in_int 16 (Version b) /\ wf_body b) [beat; beat].
Proof. apply (bool_decide_unpack _). vm_compute. exact I. Qed.
Lemma beats_servable : Forall (servable beatAnswer beatRead) [beat; beat].
Proof. repeat constructor; apply beat_servable. Qed.

Lemma shared_calls_can_finish_witness :
  exists w', rtc (quiet canonical_order canonical_order beatAnswer beatRead) beatWorld w' /\
    closed (conn w') = false /\
    forall i b, [beat; beat] !! i = Some b -> exists a id bb, calls w' !! i = Some (b, Returned (inl a)) /\
      (id, b) ∈ requests w' /\ frame beatAnswer beatRead id b bb a.
Proof.
  apply (shared_calls_can_finish canonical_order canonical_order beatAnswer beatRead "c" [beat; beat]).
  - exact canonical_order_valid.
  - exact canonical_order_valid.
  - apply (bool_decide_unpack _). vm_compute. exact I.
  - exact beats_request.
  - exact beats_servable.
  - apply rtc_refl.
  - constructor; reflexivity.
  - vm_compute. reflexivity.
Defined.

(** Both calls brought to their end. *)
Lemma beats_end : exists w, rtc (quiet canonical_order canonical_order beatAnswer beatRead) beatWorld w /\
  closed (conn w) = false /\ Z.of_nat (length (requests w)) < 2 ^ 31 - 1 /\
  exists r, calls w !! 1%nat = Some (beat, Returned r).
Proof.
  assert (Hs : Forall (sendable canonical_order canonical_order "c") [beat; beat]).
  { pose proof beats_request as H. revert H. apply Forall_impl. intros b [Hv Hb].
    apply sendable_request; try exact canonical_order_valid; try assumption.
    apply (bool_decide_unpack _). vm_compute. exact I. }
  assert (R : ready canonical_order canonical_order beatAnswer beatRead "c" beatWorld).
  { apply (quiet_ready _ _ _ _ _ [beat; beat]); try assumption;
      [exact beats_servable|apply rtc_refl|constructor; reflexivity|vm_compute; reflexivity]. }
  destruct (progress_all _ _ _ _ _ _ R) as (w & Hr & R' & Hall). exists w. split; [exact Hr|].
  split; [apply (c_open _ _ (r_calm _ _ _ _ _ _ R'))|].
  split; [pose proof (r_bound _ _ _ _ _ _ R'); lia|].
  pose proof (quiet_bodies _ _ _ _ _ _ _ Hr) as Eb. apply (f_equal (lookup 1%nat)) in Eb.
  rewrite list_lookup_fmap in Eb. destruct (calls w !! 1%nat) as [[b p]|] eqn:E; [|discriminate].
  injection Eb as ->. pose proof (Hall _ _ _ E) as Hp. destruct p; try discriminate. eauto.
Qed.

Lemma shared_calls_own_answers_witness :
  exists (w : world HeartbeatResponse.t) r, calls w !! 1%nat = Some (beat, Returned r) /\
    exists a id bb, r = inl a /\ (id, beat) ∈ requests w /\ reads (beatRead beat) bb a /\
    beatAnswer id beat = be_put 4 (uint32 (len bb + 4)) ++ be_put 4 (uint32 id) ++ bb.
Proof.
  destruct beats_end as (w & Hr & Ho & Hb & r & Hi). exists w, r. split; [exact Hi|].
  exact (proj2 (shared_calls_own_answers canonical_order canonical_order beatAnswer beatRead "c" [beat; beat]
    w 1 beat r beats_servable Hr Hb Ho Hi)).
Defined.

Lemma raced_calls_never_return_witness :
  exists w, rtc (step canonical_order canonical_order beatAnswer beatRead) beatWorld w /\
    inbox (conn w) = beatAnswer 1 beat ++ beatAnswer 2 beat /\ closed (conn w) = false /\
    forall w', rtc (step canonical_order canonical_order beatAnswer beatRead) w w' ->
      forall i b r, calls w' !! i <> Some (b, Returned r).
Proof.
  apply (raced_calls_never_return canonical_order canonical_order beatAnswer beatRead "c" beat beat).
  - exact canonical_order_valid.
  - exact canonical_order_valid.
  - apply (bool_decide_unpack _). vm_compute. exact I.
  - exact (Forall_inv beats_request).
  - exact (Forall_inv beats_request).
  - exact beat_servable.
Defined.

(** A call that is writing when its deadline is set. *)
Definition beatWriting : world HeartbeatResponse.t := SetReadDeadline 50 (beginRequest 0 beat beatWorld).
Lemma deadlines_tracked_witness : wlock beatWriting = Some 0%nat /\
  writeDeadline (net beatWriting) = value (deadlines beatWriting ReadSide) /\
  writeDeadline (net beatWriting) = 50.
Proof.
  assert (Hr : rtc (step canonical_order canonical_order beatAnswer beatRead) beatWorld beatWriting).
  { eapply rtc_l; [apply (StepBegin _ _ _ _ 0 beat); reflexivity|]. apply rtc_once, StepSetRead. }
  destruct (deadlines_tracked canonical_order canonical_order beatAnswer beatRead "c" [beat; beat] beatWriting Hr)
    as [Hw _].
  destruct (Hw 0%nat beat 1 eq_refl) as [H1 H2]. split; [exact H1|]. split; [exact H2|]. reflexivity.
Defined.

(** A round of [waitResponse] that met another id leaves [rconn] set: setting
    the write deadline then changes the read deadline under which a read
    operation waits, whose own deadline is not set. *)
Definition makeTopics : Body := Wire.CreateTopics (CreateTopicRequests.mk 0 [] 0 false).
Lemma stale_deadline_passed_on :
  exists w : world HeartbeatResponse.t,
    rtc (step canonical_order canonical_order beatAnswer beatRead) (start "c" [beat; makeTopics]) w /\
    calls w !! 0%nat = Some (beat, Peeking 1) /\ operationSide beat = ReadSide /\
    value (deadlines w ReadSide) = 0 /\ readDeadline (net w) = 50.
Proof.
  assert (Hr : in_int 32 1 /\ in_int 32 2) by (unfold in_int; lia). destruct Hr as [Hr1 Hr2].
  assert (S1 : sendable canonical_order canonical_order "c" beat).
  { apply sendable_request; try exact canonical_order_valid; apply (bool_decide_unpack _); vm_compute; exact I. }
  assert (S2 : sendable canonical_order canonical_order "c" makeTopics).
  { apply sendable_request; try exact canonical_order_valid; apply (bool_decide_unpack _); vm_compute; exact I. }
  set (w1 := beginRequest 0 beat (start (A := HeartbeatResponse.t) "c" [beat; makeTopics])).
  destruct (can_write canonical_order canonical_order beatAnswer beatRead "c" 0 beat 1 w1)
    as [o1 Hw1]; [reflexivity..|exact S1|exact Hr1|].
  set (w2 := endRequest beatAnswer 0 beat 1 _ w1) in Hw1.
  set (w4 := beginRequest 1 makeTopics (takeID 0 beat w2)).
  destruct (can_write canonical_order canonical_order beatAnswer beatRead "c" 1 makeTopics 2 w4)
    as [o2 Hw2]; [reflexivity..|exact S2|exact Hr2|].
  set (w5 := endRequest beatAnswer 1 makeTopics 2 _ w4) in Hw2.
  set (w8 := arrived (beginPeek 1 makeTopics 2 (takeID 1 makeTopics w5))).
  set (w9 := endPeek 1 makeTopics 2 (peekResponseSizeAndID (conn w8)) w8).
  exists (SetWriteDeadline 50 (beginPeek 0 beat 1 w9)). split; [|repeat split].
  eapply rtc_l; [apply (StepBegin _ _ _ _ 0 beat); reflexivity|].
  eapply rtc_l; [exact Hw1|].
  eapply rtc_l; [apply (StepTakeID _ _ _ _ 0 beat 1); reflexivity|].
  eapply rtc_l; [apply (StepBegin _ _ _ _ 1 makeTopics); reflexivity|].
  eapply rtc_l; [exact Hw2|].
  eapply rtc_l; [apply (StepTakeID _ _ _ _ 1 makeTopics 2); reflexivity|].
  eapply rtc_l; [apply (StepPeek _ _ _ _ 1 makeTopics 2); reflexivity|].
  eapply rtc_l; [apply (StepDeliver _ _ _ _ 24); reflexivity|].
  eapply rtc_l; [apply (StepPeeked _ _ _ _ 1 makeTopics 2); [reflexivity|vm_compute; discriminate]|].
  eapply rtc_l; [apply (StepPeek _ _ _ _ 0 beat 1); reflexivity|].
  apply rtc_once, StepSetWrite.
Qed.
