(* ===== verification/ProtocolProps.v ===== *)
(** * Properties of the protocol and of the connections that carry it *)
From S2P Require Import Prelude Encoder Decoder Codec ClientApi TopicApi GroupApi ClusterApi MessageSets Wire Conn.
From Stdlib Require Import Strings.Byte.

(** ** Requests from client to server *)

(** C1: the server's connection loop reads, from the bytes of any sequence of
    well-formed requests written one after the other, those requests in order,
    each with a header that carries its size, API key, version, correlation id
    and client id, and ends without a panic.  Their bodies are read back as they
    are, except for what [seen] says that [Decode] forgets: the topics of an
    offset commit, and the version in the bodies of the requests that create
    topics, update metadata, shut down or begin SASL. *)
Theorem server_reads_requests (oL oB : map_order) (rs : list Request.t) (frames : list (list byte))
    (HL : valid_order oL) (HB : valid_order oB)
    (H : Forall2 (fun r bs => wf_request r /\
           Encode (Request.Encode oL r) (Request.Encode oB r) = Ret bs tt /\ len bs <= MaxInt32) rs frames) :
  handleRequest (concat frames) =
    (zip_with (fun r bs => (header_of r (len bs), seen (Request.body r))) rs frames, false) /\
  (Forall (fun r => whole (Request.body r)) rs ->
   handleRequest (concat frames) = (zip_with (fun r bs => (header_of r (len bs), Request.body r)) rs frames, false)).
Proof.
  rewrite (handleRequest_stream oL oB rs frames HL HB H). split; [reflexivity|]. intros Hwh. f_equal. clear H.
  revert frames. induction Hwh as [|r rs Hr _ IH]; intros [|bs frames]; [reflexivity..|].
  cbn [zip_with]. rewrite (seen_whole _ Hr), IH. reflexivity.
Qed.

Definition sampleRequests : list Request.t :=
  [ Request.mk 7 "sarama" (Wire.Metadata (MetadataRequest.mk 1 ["orders"; "payments"] false));
    Request.mk 8 "sarama" (Wire.Heartbeat (HeartbeatRequest.mk 0 "group" 3 "member")) ].
Definition sampleFrame (r : Request.t) : list byte :=
  match Encode (Request.Encode canonical_order r) (Request.Encode canonical_order r) with
  | Ret bs _ => bs | _ => [] end.
Lemma server_reads_requests_witness :
  handleRequest (concat (sampleFrame <$> sampleRequests)) =
  (zip_with (fun r bs => (header_of r (len bs), Request.body r)) sampleRequests (sampleFrame <$> sampleRequests), false).
Proof.
  apply (server_reads_requests canonical_order canonical_order);
    [exact canonical_order_valid|exact canonical_order_valid| |repeat constructor].
  constructor; [|constructor; [|constructor]];
    (split; [apply (bool_decide_unpack _); vm_compute; exact I|split; [vm_compute; reflexivity|]]);
    vm_compute; discriminate.
Defined.

(** A client call: when the peer delivers the frame of a well-formed
    response with the request's correlation id, of at most 4096 bytes of body,
    the call returns that response, having written the request's frame and
    taken the response off the connection, for every request and response
    type. *)
Theorem call_returns_response {B} `{ResponseLaws B} (oL oB : map_order) (body : Body) (c : Conn)
    (r : Response.t B) (frame rest : list byte)
    (HL : valid_order oL) (HB : valid_order oB) (Hopen : closed c = false)
    (Hreq : wf_request (Request.mk (int32 (correlationID c + 1)) (clientID c) body))
    (Hres : resp_wf (Version body) (Response.body r))
    (Hid : Response.CorrelationID r = int32 (correlationID c + 1))
    (Hframe : Encode (Response.Encode oL r) (Response.Encode oB r) = Ret frame tt)
    (Hsize : len frame <= bufSize + 8) (Hin : inbox c = frame ++ rest) :
  exists req,
    Encode (Request.Encode oL (Request.mk (int32 (correlationID c + 1)) (clientID c) body))
      (Request.Encode oB (Request.mk (int32 (correlationID c + 1)) (clientID c) body)) = Ret req tt /\
    do oL oB body c =
      Done (resp_seen (Response.body r))
        (mkConn (clientID c) (int32 (correlationID c + 1)) rest (outbox c ++ req) false).
Proof. exact (do_exchange oL oB body c r frame rest HL HB Hopen Hreq Hres Hid Hframe Hsize Hin). Qed.

Definition sampleResponse : Response.t HeartbeatResponse.t :=
  Response.mk 0 1 (HeartbeatResponse.mk 0 0 27).
Definition sampleReply : list byte :=
  match Encode (Response.Encode canonical_order sampleResponse) (Response.Encode canonical_order sampleResponse) with
  | Ret bs _ => bs | _ => [] end.
Definition sampleConn : Conn := mkConn "client" 0 (sampleReply ++ [x00; x2a]) [] false.
Definition sampleCall : Body := Wire.Heartbeat (HeartbeatRequest.mk 0 "g" 3 "m").
Lemma call_returns_response_witness :
  let req := Request.mk (int32 (correlationID sampleConn + 1)) (clientID sampleConn) sampleCall in
  exists b,
    Encode (Request.Encode canonical_order req) (Request.Encode canonical_order req) = Ret b tt /\
    do canonical_order canonical_order sampleCall sampleConn =
      Done (resp_seen (Response.body sampleResponse))
        (mkConn (clientID sampleConn) (int32 (correlationID sampleConn + 1)) [x00; x2a]
           (outbox sampleConn ++ b) false).
Proof.
  apply (call_returns_response canonical_order canonical_order
    sampleCall sampleConn sampleResponse sampleReply [x00; x2a]);
    try exact canonical_order_valid; try reflexivity.
  - apply (bool_decide_unpack _). vm_compute. exact I.
  - split; [reflexivity|]. apply (bool_decide_unpack _). vm_compute. exact I.
  - vm_compute. discriminate.
Defined.

(** C19: encoding any request whatsoever, its maps iterated in any two orders by
    the two passes, gives an error or a buffer of exactly the length that the
    first pass counted: the second pass never runs out of the buffer. *)
Theorem request_encode_total (oL oB : map_order) (r : Request.t)
    (HL : valid_order oL) (HB : valid_order oB) :
  encode_total (Request.Encode oL r) (Request.Encode oB r).
Proof. exact (enc_safe_total _ _ (safe_Request oL oB r HL HB)). Qed.

Lemma request_encode_total_witness :
  encode_total (Request.Encode canonical_order (Request.mk 1 "c" (Wire.ListGroups (ListGroupsRequest.mk 0))))
    (Request.Encode canonical_order (Request.mk 1 "c" (Wire.ListGroups (ListGroupsRequest.mk 0)))).
Proof. exact (request_encode_total _ _ _ canonical_order_valid canonical_order_valid). Defined.

(** ** Message sets *)

(** C20: the messages of a well-formed set are read back from its encoding, with
    the size of the payload; one to three bytes more, the start of a message
    that was cut off, are reported as a partial trailing message. *)
Theorem message_set_roundtrip (ms : MessageSet.t) (Hw : MessageSet.wf ms) :
  exists bs, Encode (MessageSet.Encode ms) (MessageSet.Encode ms) = Ret bs tt /\
    forall tail, (length tail < 4)%nat ->
      Decode (bs ++ tail) MessageSet.Decode =
      Ret (MessageSet.mk (MessageSet.Offset ms) (int32 (len bs - 12)) (MessageSet.Messages ms)
             (negb (bool_decide (tail = [])))) tt.
Proof. exact (MessageSet.decode_MessageSet ms Hw). Qed.

Definition sampleSet : MessageSet.t :=
  MessageSet.mk 42 0 [Message.mk 0 1 0 1525132800000000000 (Some [x6b]) (Some [x76; x77]);
                      Message.mk 0 0 0 zeroTime None (Some [])] false.
Lemma message_set_roundtrip_witness :
  exists bs, Encode (MessageSet.Encode sampleSet) (MessageSet.Encode sampleSet) = Ret bs tt /\
    forall tail, (length tail < 4)%nat ->
      Decode (bs ++ tail) MessageSet.Decode =
      Ret (MessageSet.mk 42 (int32 (len bs - 12)) (MessageSet.Messages sampleSet)
             (negb (bool_decide (tail = [])))) tt.
Proof.
  apply (message_set_roundtrip sampleSet). apply (bool_decide_unpack _). vm_compute. exact I.
Defined.

(** C34: [MessageSet.Decode] terminates on every input: wherever the decoder
    stands, its loop ends within as many rounds as there are bytes left, and
    more rounds do not change how it ends.  (A loop that has not ended has the
    result [None].) *)
Theorem message_set_decode_terminates (d : ByteDecoder) (acc : list Message.t)
    (Hd : (doff d <= length (dbuf d))%nat) :
  exists r, forall fuel, (Z.to_nat (remaining d) <= fuel)%nat -> MessageSet.decodeMessages fuel acc d = Some r.
Proof. apply MessageSet.decodeMessages_ends; [exact Hd|unfold remaining, len in *; lia]. Qed.

Lemma message_set_decode_terminates_witness :
  exists r, forall fuel, (Z.to_nat (remaining (NewDecoder (zeros 40))) <= fuel)%nat ->
    MessageSet.decodeMessages fuel [] (NewDecoder (zeros 40)) = Some r.
Proof. apply (message_set_decode_terminates (NewDecoder (zeros 40)) []). vm_compute. lia. Defined.

(** A message is rejected when the checksum in front of it is any other
    than the CRC-32 of its fields. *)
Theorem message_crc_checked (m : Message.t) (Hw : Message.wf m) :
  exists bs, Encode (Message.Encode m) (Message.Encode m) = Ret bs tt /\
    forall w, in_uint 32 w -> w <> be_get (take 4 bs) ->
      Decode (be_put 4 w ++ drop 4 bs) Message.Decode = Fail (ErrOther "crc didn't match") tt.
Proof. exact (Message.wrong_crc m Hw). Qed.

Definition sampleMessage : Message.t := Message.mk 0 1 0 1525132800000000000 (Some [x6b]) (Some [x76]).
Lemma message_crc_checked_witness :
  exists bs, Encode (Message.Encode sampleMessage) (Message.Encode sampleMessage) = Ret bs tt /\
    forall w, in_uint 32 w -> w <> be_get (take 4 bs) ->
      Decode (be_put 4 w ++ drop 4 bs) Message.Decode = Fail (ErrOther "crc didn't match") tt.
Proof. apply (message_crc_checked sampleMessage). apply (bool_decide_unpack _). vm_compute. exact I. Defined.

(** ** Round trips *)

(** Every well-formed request body that the server accepts is decoded, by
    the decoder that the server chooses from its API key, to itself (up to the
    fields that [seen] says its [Decode] drops). *)
Theorem request_body_roundtrip (oL oB : map_order) (b : Body)
    (HL : valid_order oL) (HB : valid_order oB) (Hw : wf_body b) :
  exists D, decodeBody (Key b) (Version b) = Some D /\
    roundtrips (encodeBody oL b) (encodeBody oB b) D (seen b).
Proof.
  destruct (codec_Body oL oB b HL HB Hw) as (D & HD & Hc). exists D.
  split; [exact HD|]. exact (codec_roundtrips _ _ _ _ _ Hc).
Qed.

Definition sampleBody : Body :=
  Wire.CreateTopics (CreateTopicRequests.mk 1
    [CreateTopicRequest.mk "orders" (-1) (-1) {[0 := [1; 2]; 1 := [2; 3]]}
       {["cleanup.policy" := Some "compact"; "note" := None]}]
    100000000 true).
Lemma request_body_roundtrip_witness :
  exists D, decodeBody (Key sampleBody) (Version sampleBody) = Some D /\
    roundtrips (encodeBody canonical_order sampleBody) (encodeBody canonical_order sampleBody) D (seen sampleBody).
Proof.
  apply (request_body_roundtrip canonical_order canonical_order sampleBody canonical_order_valid canonical_order_valid).
  apply (bool_decide_unpack _). vm_compute. exact I.
Defined.

(** The same for the responses: every type that satisfies the law of the
    interface is read back from what it writes, at the version it was written
    for, whatever the orders in which its maps are iterated. *)
Theorem response_body_roundtrip {B} `{ResponseLaws B} (oL oB : map_order) (v : Z) (b : B)
    (HL : valid_order oL) (HB : valid_order oB) (Hw : resp_wf v b) :
  roundtrips (resp_encode _ _ oL b) (resp_encode _ _ oB b) (resp_decode v) (resp_seen b).
Proof. exact (codec_roundtrips _ _ _ _ _ (resp_codec oL oB v b HL HB Hw)). Qed.

Definition sampleGroups : DescribeGroupsResponse.t :=
  DescribeGroupsResponse.mk 1 5000000
    [Group.mk 0 "g" "Stable" "consumer" "range"
       {["m1" := GroupMember.mk "c1" "host" (Some [x01]) None;
         "m2" := GroupMember.mk "c2" "host" None (Some [])]}].
Lemma response_body_roundtrip_witness :
  roundtrips (resp_encode _ _ canonical_order sampleGroups) (resp_encode _ _ canonical_order sampleGroups)
    (resp_decode 1) (resp_seen sampleGroups).
Proof.
  apply (response_body_roundtrip canonical_order canonical_order 1 sampleGroups canonical_order_valid canonical_order_valid).
  split; [reflexivity|]. apply (bool_decide_unpack _). vm_compute. exact I.
Defined.

(** A fetch response, the message sets it carries included, is read back
    as it was written. *)
Theorem fetch_response_roundtrip (r : FetchResponse.t) (Hw : FetchResponse.wf r) :
  roundtrips (FetchResponse.Encode r) (FetchResponse.Encode r)
    (FetchResponse.Decode (FetchResponse.APIVersion r)) r.
Proof. exact (codec_roundtrips _ _ _ _ _ (FetchResponse.codec_FetchResponse r Hw)). Qed.

Definition sampleFetch : FetchResponse.t :=
  FetchResponse.mk 4 1000000
    [FetchTopicResponse.mk "orders"
       [FetchPartitionResponse.mk 0 0 17 16 [AbortedTransaction.mk 3 4] (Some [x00; x01; x02])]].
Lemma fetch_response_roundtrip_witness :
  roundtrips (FetchResponse.Encode sampleFetch) (FetchResponse.Encode sampleFetch)
    (FetchResponse.Decode 4) sampleFetch.
Proof. apply (fetch_response_roundtrip sampleFetch). apply (bool_decide_unpack _). vm_compute. exact I. Defined.

(** The response to an offset commit loses its contents when it is read:
    what comes back has the right number of topics, all of them empty. *)
Theorem offset_commit_response_lost (r : OffsetCommitResponse.t) (Hw : OffsetCommitResponse.wf r) :
  roundtrips (OffsetCommitResponse.Encode r) (OffsetCommitResponse.Encode r)
    (OffsetCommitResponse.Decode (OffsetCommitResponse.APIVersion r))
    (OffsetCommitResponse.mk (OffsetCommitResponse.APIVersion r) (OffsetCommitResponse.ThrottleTime r)
       ((fun _ => OffsetCommitTopicResponse.zero) <$> OffsetCommitResponse.Responses r)).
Proof. exact (codec_roundtrips _ _ _ _ _ (OffsetCommitResponse.codec_OffsetCommitResponse r Hw)). Qed.

Definition sampleCommit : OffsetCommitResponse.t :=
  OffsetCommitResponse.mk 0 0
    [OffsetCommitTopicResponse.mk "orders" [OffsetCommitPartitionResponse.mk 3 16]].
Lemma offset_commit_response_lost_witness :
  roundtrips (OffsetCommitResponse.Encode sampleCommit) (OffsetCommitResponse.Encode sampleCommit)
    (OffsetCommitResponse.Decode 0)
    (OffsetCommitResponse.mk 0 0 [OffsetCommitTopicResponse.mk "" []]).
Proof. apply (offset_commit_response_lost sampleCommit). apply (bool_decide_unpack _). vm_compute. exact I. Defined.

(** The request header is read back as it was written, from its five
    fields in the order of the protocol. *)
Theorem request_header_roundtrip (r : RequestHeader.t) (Hw : RequestHeader.wf r) :
  roundtrips (RequestHeader.Encode r) (RequestHeader.Encode r) RequestHeader.Decode r.
Proof. exact (codec_roundtrips _ _ _ _ _ (RequestHeader.codec_RequestHeader r Hw)). Qed.

Lemma request_header_roundtrip_witness :
  roundtrips (RequestHeader.Encode (RequestHeader.mk 20 3 1 7 "c"))
    (RequestHeader.Encode (RequestHeader.mk 20 3 1 7 "c")) RequestHeader.Decode (RequestHeader.mk 20 3 1 7 "c").
Proof. apply request_header_roundtrip. apply (bool_decide_unpack _). vm_compute. exact I. Defined.

(** The connection loop of the server terminates on every finite stream: it
    has a run that ends, with the requests and in the way of [handleRequest]. *)
Theorem server_loop_terminates (conn : list byte) :
  serverLoop conn (fst (handleRequest conn)) (snd (handleRequest conn)).
Proof. apply handleRequests_runs. lia. Qed.

(** When the peer delivers nothing more, a client call never returns: the
    error of reading is taken for a response with id 0, and the wait for the
    right one spins. *)
Theorem call_spins_without_peer {B} `{ResponseBody B} (oL oB : map_order) (body : Body) (c : Conn)
    (HL : valid_order oL) (HB : valid_order oB)
    (Hgone : (length (inbox c) < 8)%nat) (Hid : int32 (correlationID c + 1) <> 0) :
  do (B := B) oL oB body c = Spinning.
Proof.
  unfold do, doRequest, writeRequest. cbn [correlationID clientID inbox outbox closed].
  destruct (enc_safe_total _ _ (safe_Request oL oB
    (Request.mk (int32 (correlationID c + 1)) (clientID c) body) HL HB)) as [(bs & E & _)|[e E]];
    rewrite E; [destruct (closed c)|]; unfold waitResponse, peekResponseSizeAndID; cbn [inbox Close];
    rewrite decide_True by (simpl; lia); rewrite (proj2 (Z.eqb_neq _ _)) by exact Hid; reflexivity.
Qed.

Lemma call_spins_without_peer_witness :
  do (B := HeartbeatResponse.t) canonical_order canonical_order sampleCall (mkConn "c" 0 [] [] false) = Spinning.
Proof.
  apply call_spins_without_peer;
    [exact canonical_order_valid|exact canonical_order_valid|simpl; lia|vm_compute; discriminate].
Defined.
