(* ===== verification/LogProps.v ===== *)
(** * Properties of the commit log *)
From S2P Require Import Prelude Encoder Codec MessageSets LogMessage Index Segment CommitLog LogReader LogCompact.
From Stdlib Require Import Strings.Byte.

(** ** Appending *)

(** C5: [Append] refines the abstract log, a list of message sets numbered
    from the oldest offset: it returns the number of the new set, stores it at
    the end with that offset, and drops at most a prefix of the old ones (none
    when there is no retention limit). *)
Theorem append_refines_log (Hash : list byte -> Z) (l : CommitLog) (b0 : Z) (msgs : list (list byte)) (b : list byte)
    (Hl : holds l b0 msgs) (Hdel : compact l = false) (Hmax : 0 < MaxSegmentBytes l <= 2 ^ 22)
    (Hb : (8 <= length b)%nat) (H64 : in_int 64 (b0 + len msgs)) :
  exists l' dropped kept m,
    Append Hash b l = Ret (b0 + len msgs) l' /\
    LogMessageSet.PutOffset b (b0 + len msgs) = Some m /\
    msgs = dropped ++ kept /\ holds l' (b0 + len dropped) (kept ++ [m]) /\
    MaxSegmentBytes l' = MaxSegmentBytes l /\ MaxLogBytes l' = MaxLogBytes l /\
    compact l' = compact l /\ (MaxLogBytes l = -1 -> dropped = []).
Proof. exact (Append_spec Hash l b0 msgs b Hl Hdel Hmax Hb H64). Qed.

(** An empty log, as [New] makes it. *)
Definition emptyLog (max maxLog : Z) : CommitLog :=
  match New ∅ max maxLog "delete" with Ret _ l => l | _ => mkLog 0 0 false ∅ [] [] 0 ∅ end.

Lemma emptyLog_holds max maxLog : 0 < max ->
  holds (emptyLog max maxLog) 0 [] /\ MaxSegmentBytes (emptyLog max maxLog) = max /\
  MaxLogBytes (emptyLog max maxLog) = maxLog /\ compact (emptyLog max maxLog) = false.
Proof.
  intros H. destruct (New_empty max maxLog "delete" H) as (l & E & Hl & H1 & H2 & H3).
  unfold emptyLog. rewrite E. auto.
Qed.

Lemma append_refines_log_witness :
  exists l' dropped kept m,
    Append len (zeros 20) (emptyLog 1024 (-1)) = Ret 0 l' /\
    LogMessageSet.PutOffset (zeros 20) 0 = Some m /\
    [] = dropped ++ kept /\ holds l' (0 + len dropped) (kept ++ [m]) /\
    MaxSegmentBytes l' = MaxSegmentBytes (emptyLog 1024 (-1)) /\
    MaxLogBytes l' = MaxLogBytes (emptyLog 1024 (-1)) /\
    compact l' = compact (emptyLog 1024 (-1)) /\ (MaxLogBytes (emptyLog 1024 (-1)) = -1 -> dropped = []).
Proof.
  destruct (emptyLog_holds 1024 (-1)) as (H1 & H2 & H3 & H4); [lia|].
  apply (append_refines_log len (emptyLog 1024 (-1)) 0 [] (zeros 20));
    [exact H1|exact H4|rewrite H2; lia|vm_compute; lia|vm_compute; intuition congruence].
Defined.

(** A sequence of appends, with the offsets they return. *)
Fixpoint appendAll (Hash : list byte -> Z) (bs : list (list byte)) : M CommitLog (list Z) :=
  match bs with
  | [] => mret []
  | b :: bs => o ← Append Hash b; os ← appendAll Hash bs; mret (o :: os)
  end.

(** The sets as they are stored from offset [o] on. *)
Fixpoint stored (o : Z) (bs : list (list byte)) : list (list byte) :=
  match bs with
  | [] => []
  | b :: bs => (be_put 8 (uint64 o) ++ drop 8 b) :: stored (o + 1) bs
  end.


Lemma appendAll_spec Hash bs : forall l msgs,
  holds l 0 msgs -> compact l = false -> 0 < MaxSegmentBytes l <= 2 ^ 22 -> MaxLogBytes l = -1 ->
  Forall (fun b => 8 <= length b)%nat bs -> len msgs + len bs < 2 ^ 63 ->
  exists l', appendAll Hash bs l = Ret (seqZ (len msgs) (len bs)) l' /\
    holds l' 0 (msgs ++ stored (len msgs) bs) /\ MaxSegmentBytes l' = MaxSegmentBytes l.
Proof.
  induction bs as [|b bs IH]; intros l msgs Hl Hc Hmax Hret Hb Hlen.
  - exists l. rewrite app_nil_r. auto.
  - inversion Hb as [|? ? Hb1 Hbs]; subst.
    destruct (Append_spec Hash l 0 msgs b Hl Hc Hmax Hb1) as (l1 & d & k & m & E & Em & Ek & Hl1 & E1 & E2 & E3 & Hd).
    { unfold in_int, len in *. simpl length in Hlen. lia. }
    rewrite (Hd Hret) in *. cbn [app] in Ek. subst k. rewrite Z.add_0_l in *.
    rewrite PutOffset_Some in Em by exact Hb1.
    assert (m = be_put 8 (uint64 (len msgs)) ++ drop 8 b) as -> by congruence.
    assert (Hlm : len (msgs ++ [be_put 8 (uint64 (len msgs)) ++ drop 8 b]) = len msgs + 1) by len_solve.
    destruct (IH l1 (msgs ++ [be_put 8 (uint64 (len msgs)) ++ drop 8 b])) as (l' & E' & Hl' & Em');
      [exact Hl1|congruence|rewrite E1; exact Hmax|congruence|exact Hbs|
       rewrite Hlm; unfold len in *; simpl length in Hlen; lia|].
    rewrite Hlm in E', Hl'. exists l'. cbn [appendAll stored]. erewrite bind_Ret by exact E.
    erewrite bind_Ret by exact E'. split; [|split; [|congruence]].
    + unfold mret, M_ret. f_equal. rewrite (seqZ_cons (len msgs) (len (b :: bs))) by (unfold len; simpl; lia).
      f_equal. f_equal; unfold len; simpl length; lia.
    + rewrite <- app_assoc in Hl'. exact Hl'.
Qed.



(** ** Reading *)

(** C21: a reader made for an offset of the log delivers the bytes of the log
    from a set at or before that offset to the end, filling the caller's
    buffer across segments; it reports end of file exactly when the log has
    fewer bytes than asked for. *)
Theorem reader_delivers (l : CommitLog) (b0 : Z) (msgs : list (list byte)) (off : Z)
    (Hl : holds l b0 msgs) (Hmax : MaxSegmentBytes l <= 2 ^ 22) (Hoff : b0 <= off < b0 + len msgs) :
  exists r k, NewReader l off = Some (inr r) /\ Z.of_nat k <= off - b0 /\
    forall n, let avail := concat (drop k msgs) in
      exists r', ReaderRead l r n =
        Some (take n avail, if decide (length avail < n)%nat then Some EOF else None, r').
Proof. exact (NewReader_spec l b0 msgs off Hl Hmax Hoff). Qed.

Lemma reader_delivers_witness :
  exists l msgs r k, holds l 0 msgs /\ NewReader l 1 = Some (inr r) /\ Z.of_nat k <= 1 - 0 /\
    forall n, let avail := concat (drop k msgs) in
      exists r', ReaderRead l r n =
        Some (take n avail, if decide (length avail < n)%nat then Some EOF else None, r').
Proof.
  destruct (emptyLog_holds 30 (-1)) as (H1 & H2 & H3 & H4); [lia|].
  destruct (appendAll_spec len [zeros 20; zeros 20; zeros 20] (emptyLog 30 (-1)) [] H1 H4) as (l & _ & Hl & Hm);
    [rewrite H2; lia|exact H3|repeat constructor|vm_compute; reflexivity|].
  exists l, ([] ++ stored (len (@nil (list byte))) [zeros 20; zeros 20; zeros 20]).
  destruct (reader_delivers l 0 _ 1 Hl) as (r & k & HR);
    [rewrite Hm, H2; lia|vm_compute; intuition congruence|].
  exists r, k. split; [exact Hl|]. exact HR.
Defined.

(** [findEntry] ends within the bits of the index size and returns an
    entry of the index, at or before the one with the wanted offset: its
    position is where one of the sets up to the wanted one starts. *)
Theorem find_entry_at_or_before (d : FS) (s : Segment) (mss : list (list byte)) (target : Z)
    (Hs : seg_rep d s mss) (H0 : 0 <= BaseOffset s) (Ht : target < NextOffset s)
    (Hne : mss <> []) (Hcap : len mss <= 655360) :
  exists k, (k < length mss)%nat /\ Z.of_nat k <= Z.max 0 (target - BaseOffset s) /\
    findEntry s target =
      Some (inr (mkEntry (BaseOffset s + Z.of_nat k) (len (concat (take k mss))))).
Proof. exact (findEntry_spec d s mss target Hs H0 Ht Hne Hcap). Qed.

(** A directory and a segment with three sets. *)
Definition threeSets : list (list byte) := [zeros 20; zeros 12; zeros 30].
Definition threeFS : FS :=
  <[mkName 5 KIndex false := []]> (<[mkName 5 KLog false := concat threeSets]> ∅).
Definition threeSegment : Segment :=
  mkSegment 5 8 62 1024 false
    (mkIndex defaultBytes 5 (entries_bytes 5 (entries_from 5 0 threeSets)) 24) 62 false.
Lemma threeSegment_rep : seg_rep threeFS threeSegment threeSets.
Proof.
  unfold seg_rep. split_and!; try reflexivity.
  - vm_compute. eauto.
  - split; [reflexivity|]. split; [vm_compute; discriminate|].
    split; [apply (bool_decide_unpack _); vm_compute; exact I|]. exists []. rewrite app_nil_r. reflexivity.
Qed.

Lemma find_entry_at_or_before_witness :
  exists k, (k < length threeSets)%nat /\ Z.of_nat k <= Z.max 0 (6 - BaseOffset threeSegment) /\
    findEntry threeSegment 6 =
      Some (inr (mkEntry (BaseOffset threeSegment + Z.of_nat k) (len (concat (take k threeSets))))).
Proof.
  apply (find_entry_at_or_before threeFS);
    [exact threeSegment_rep|vm_compute; discriminate|vm_compute; reflexivity|discriminate|vm_compute; discriminate].
Defined.

(** [findSegment] returns the segment that holds an offset of the log: the
    first whose next offset is greater, and its base offset is not. *)
Theorem find_segment_holds_offset (d : FS) (b : Z) (segs : list Segment) (gs : list (list (list byte))) (off : Z)
    (Hc : chain d b segs gs) (Hne : segs <> []) (Hoff : b <= off < b + len (concat gs)) :
  exists n s, findSegment segs off = (Some s, n) /\ segs !! n = Some s /\
    BaseOffset s <= off < NextOffset s.
Proof.
  destruct (findSegment_spec d b segs gs off Hc Hne) as (n & s & E & Hn & Hnx & Hb); [lia|].
  destruct (chain_lookup _ _ _ _ _ _ Hc Hn) as (g & _ & Eb & _). exists n, s.
  split; [exact E|]. split; [exact Hn|]. rewrite Eb. lia.
Qed.

Lemma find_segment_holds_offset_witness :
  exists n s, findSegment [threeSegment] 6 = (Some s, n) /\ [threeSegment] !! n = Some s /\
    BaseOffset s <= 6 < NextOffset s.
Proof.
  apply (find_segment_holds_offset threeFS 5 [threeSegment] [threeSets]);
    [|discriminate|vm_compute; intuition congruence].
  split; [reflexivity|]. split; [exact threeSegment_rep|]. split; [vm_compute; discriminate|exact I].
Defined.

(** ** Retention *)

(** C22: the delete cleaner keeps the newest segment and, of the older ones,
    the longest run that leaves the log within the retention; it deletes the
    log and the index file of every other segment, and leaves the kept segments
    and every other file as they were. *)
Theorem delete_cleaner_retention (l : CommitLog) (b : Z) (ids : list nat) (mss : list (list (list byte)))
    (id : nat) (ms : list (list byte)) (ret : Z)
    (Hs : sealed l b ids mss) (Hid : seg_ok l id (b + len (concat mss)) ms)
    (Hnd : NoDup (ids ++ [id])) (Hret : ret <> -1) :
  exists d k md mk l', ids = d ++ k /\ mss = md ++ mk /\ length d = length md /\
    DeleteClean ret (ids ++ [id]) l = Ret (k ++ [id]) l' /\
    sealed l' (b + len (concat md)) k mk /\ seg_ok l' id (b + len (concat mss)) ms /\
    (k <> [] -> len (concat ms) + size_of mk <= ret) /\
    (forall md0 mx, md = md0 ++ [mx] -> ret < len (concat ms) + size_of mk + len (concat mx)) /\
    (forall x s, x ∈ d -> heap l !! x = Some s -> fs l' !! logPath s = None /\ fs l' !! indexPath s = None) /\
    (forall f, (forall x s, x ∈ d -> heap l !! x = Some s -> f <> logPath s /\ f <> indexPath s) ->
      fs l' !! f = fs l !! f).
Proof.
  destruct (DeleteClean_spec l b ids mss id ms ret Hs Hid Hnd)
    as (d & k & md & mk & l' & E1 & E2 & E3 & E4 & _ & Hk & Hi & _ & Hgone & Hrest & Hr).
  destruct (Hr Hret) as [Hr1 Hr2]. exists d, k, md, mk, l'. auto 15.
Qed.

(** A log of three segments of 20 bytes, and what its retention of 45 bytes
    drops: the oldest. *)
Definition threeLog : CommitLog :=
  match appendAll len [zeros 20; zeros 20; zeros 20] (emptyLog 15 (-1)) with Ret _ l => l | _ => emptyLog 15 (-1) end.
Definition nthSet (n : Z) : list byte := be_put 8 (uint64 n) ++ zeros 12.

(** Its segment [n], with its one set. *)
Definition nthSegment (n : Z) : Segment :=
  mkSegment n (n + 1) 20 15 false (mkIndex defaultBytes n (entries_bytes n [mkEntry n 0]) 8) 20 false.

Lemma nthSegment_ok (l : CommitLog) (i : nat) (n : Z) :
  heap l !! i = Some (nthSegment n) -> MaxSegmentBytes l = 15 ->
  fs l !! mkName n KLog false = Some (concat [nthSet n]) -> is_Some (fs l !! mkName n KIndex false) ->
  0 <= n < 2 ^ 31 -> seg_ok l i n [nthSet n].
Proof.
  intros Hs Hm Hl Hi Hn. exists (nthSegment n). rewrite Hm. split_and!; [exact Hs|reflexivity|reflexivity| | |reflexivity].
  - unfold seg_rep. split_and!; try reflexivity; [exact Hl|exact Hi|].
    split; [reflexivity|]. split; [vm_compute; discriminate|]. split.
    + constructor; [|constructor]. unfold wf_entry, in_int. cbn. lia.
    + exists []. rewrite app_nil_r. reflexivity.
  - constructor; [|constructor]. unfold nthSet. rewrite length_app, length_be_put. lia.
Qed.

Lemma delete_cleaner_retention_witness :
  exists d k md mk l', [0; 1]%nat = d ++ k /\ [[nthSet 0]; [nthSet 1]] = md ++ mk /\
    length d = length md /\
    DeleteClean 45 ([0; 1]%nat ++ [2%nat]) threeLog = Ret (k ++ [2%nat]) l' /\
    sealed l' (0 + len (concat md)) k mk /\
    seg_ok l' 2 (0 + len (concat [[nthSet 0]; [nthSet 1]])) [nthSet 2] /\
    (k <> [] -> len (concat [nthSet 2]) + size_of mk <= 45) /\
    (forall md0 mx, md = md0 ++ [mx] -> 45 < len (concat [nthSet 2]) + size_of mk + len (concat mx)) /\
    (forall x s, x ∈ d -> heap threeLog !! x = Some s ->
      fs l' !! logPath s = None /\ fs l' !! indexPath s = None) /\
    (forall f, (forall x s, x ∈ d -> heap threeLog !! x = Some s -> f <> logPath s /\ f <> indexPath s) ->
      fs l' !! f = fs threeLog !! f).
Proof.
  apply (delete_cleaner_retention threeLog 0 [0; 1]%nat [[nthSet 0]; [nthSet 1]] 2 [nthSet 2] 45).
  - split; [discriminate|].
    split; [apply nthSegment_ok; [vm_compute; reflexivity..|vm_compute; eauto|lia]|].
    split; [discriminate|].
    split; [apply nthSegment_ok; [vm_compute; reflexivity..|vm_compute; eauto|lia]|exact I].
  - apply nthSegment_ok; [vm_compute; reflexivity..|vm_compute; eauto|lia].
  - apply (bool_decide_unpack _). vm_compute. exact I.
  - lia.
Defined.

(** The oldest segment of that log goes, with its two files. *)
Example threeLog_cleaned :
  match DeleteClean 45 [0; 1; 2]%nat threeLog with
  | Ret kept l => kept = [1; 2]%nat /\ bool_decide (fs threeLog !! mkName 0 KLog false = None) = false /\
      fs l !! mkName 0 KLog false = None /\ fs l !! mkName 0 KIndex false = None /\
      bool_decide (fs l !! mkName 1 KLog false = None) = false
  | _ => False
  end.
Proof. vm_compute. auto 10. Qed.

(** ** The index *)

(** An entry written to an index that has room for it is read back at its
    place, the earlier entries are unchanged, and reading past it is the end of
    the file. *)
Theorem index_write_read (i : Index) (es : list Entry) (e : Entry)
    (Hi : rep i es) (He : wf_entry (baseOffset i) e) (Hroom : entryWidth * (len es + 1) <= mapSize i) :
  exists i', WriteEntry e i = Ret tt i' /\ rep i' (es ++ [e]) /\
    ReadEntryAtLogOffset (len es) i' = Ret e i' /\
    (forall k e', es !! k = Some e' -> ReadEntryAtLogOffset (Z.of_nat k) i' = Ret e' i') /\
    (forall k, len es < k -> ReadEntryAtLogOffset k i' = Fail EOF i').
Proof.
  destruct (WriteEntry_spec i es e Hi He Hroom) as (i' & E & Hr & _). exists i'.
  split; [exact E|]. split; [exact Hr|]. unfold ReadEntryAtLogOffset. split_and!.
  - apply (ReadEntry_spec i' (es ++ [e]) (length es)); [exact Hr|].
    rewrite lookup_app_r, Nat.sub_diag by lia. reflexivity.
  - intros k e' Hk. apply (ReadEntry_spec i' (es ++ [e])); [exact Hr|].
    apply lookup_app_l_Some, Hk.
  - intros k Hk. apply (ReadEntry_EOF i' (es ++ [e])); [exact Hr|]. len_solve.
Qed.

Lemma index_write_read_witness :
  exists i', WriteEntry (mkEntry 8 62) (SIndex threeSegment) = Ret tt i' /\
    rep i' (entries_from 5 0 threeSets ++ [mkEntry 8 62]) /\
    ReadEntryAtLogOffset (len (entries_from 5 0 threeSets)) i' = Ret (mkEntry 8 62) i' /\
    (forall k e', entries_from 5 0 threeSets !! k = Some e' -> ReadEntryAtLogOffset (Z.of_nat k) i' = Ret e' i') /\
    (forall k, len (entries_from 5 0 threeSets) < k -> ReadEntryAtLogOffset k i' = Fail EOF i').
Proof.
  apply (index_write_read (SIndex threeSegment) (entries_from 5 0 threeSets) (mkEntry 8 62));
    [apply threeSegment_rep|apply (bool_decide_unpack _); vm_compute; exact I|vm_compute; discriminate].
Defined.

(** An index without room for another entry does not grow: writing the
    entry panics. *)
Theorem index_full_panics (i : Index) (es : list Entry) (e : Entry)
    (Hi : rep i es) (Hfull : mapSize i < entryWidth * (len es + 1)) :
  WriteEntry e i = Crash.
Proof. exact (WriteEntry_full i es e Hi Hfull). Qed.

Definition tinyIndex : Index := mkIndex 12 0 (entries_bytes 0 [mkEntry 0 0]) 8.
Lemma index_full_panics_witness : WriteEntry (mkEntry 1 20) tinyIndex = Crash.
Proof.
  apply (index_full_panics tinyIndex [mkEntry 0 0]); [|vm_compute; reflexivity].
  split; [reflexivity|]. split; [vm_compute; discriminate|].
  split; [apply (bool_decide_unpack _); vm_compute; exact I|]. exists []. rewrite app_nil_r. reflexivity.
Defined.

(** ** Messages in the log *)

(** The commit log's accessors read the magic byte, the attributes, the
    key, the value and the size of any message with a key out of the bytes that
    the protocol's [Message.Encode] writes, whatever follows them. *)
Theorem log_message_fields (m : Message.t) (rest : list byte)
    (Hm : keyed m) (Hk : wf_bytes (Message.Key m)) (Hv : wf_bytes (Message.Value m)) :
  exists bs, Encode (Message.Encode m) (Message.Encode m) = Ret bs tt /\
    LogMessage.MagicByte (bs ++ rest) = Some (Message.MagicByte m) /\
    LogMessage.Attributes (bs ++ rest) = Some (Message.Attributes m) /\
    LogMessage.Key (bs ++ rest) = Some (Message.Key m) /\
    LogMessage.Value (bs ++ rest) = Some (Message.Value m) /\
    LogMessage.Size (bs ++ rest) = Some (len bs).
Proof.
  pose proof Hm as (_ & _ & [k Ek] & _).
  exists (layout m). split; [apply encodes_Encode, encodes_layout; assumption|]. split_and!.
  - apply MagicByte_layout, Hm.
  - apply Attributes_layout, Hm.
  - exact (Key_layout m k rest Hm Ek).
  - exact (Value_layout m k rest Hm Ek).
  - exact (Size_layout m k rest Hm Ek).
Qed.

Lemma log_message_fields_witness :
  exists bs, Encode (Message.Encode sample) (Message.Encode sample) = Ret bs tt /\
    LogMessage.MagicByte (bs ++ [x00]) = Some (Message.MagicByte sample) /\
    LogMessage.Attributes (bs ++ [x00]) = Some (Message.Attributes sample) /\
    LogMessage.Key (bs ++ [x00]) = Some (Message.Key sample) /\
    LogMessage.Value (bs ++ [x00]) = Some (Message.Value sample) /\
    LogMessage.Size (bs ++ [x00]) = Some (len bs).
Proof.
  apply (log_message_fields sample [x00]).
  - split; [vm_compute; intuition congruence|]. split; [vm_compute; intuition congruence|].
    split; [eexists; reflexivity|vm_compute; discriminate].
  - vm_compute. discriminate.
  - vm_compute. discriminate.
Defined.

(** A message set built from one message with a key, of less than a
    gigabyte, is taken apart into that message. *)
Theorem messages_of_single_set (offset : Z) (m : Message.t)
    (Hm : keyed m) (Hsz : len (layout m) < 2 ^ 30) :
  LogMessageSet.Messages (LogMessageSet.NewMessageSet offset [layout m]) = Some [layout m].
Proof. exact (Messages_single offset m Hm Hsz). Qed.

Lemma messages_of_single_set_witness :
  LogMessageSet.Messages (LogMessageSet.NewMessageSet 3 [layout sample]) = Some [layout sample].
Proof.
  apply (messages_of_single_set 3 sample); [|vm_compute; reflexivity].
  split; [vm_compute; intuition congruence|]. split; [vm_compute; intuition congruence|].
  split; [eexists; reflexivity|vm_compute; discriminate].
Defined.

(** [PutOffset] changes the first eight bytes of a message set and nothing
    else, and [Offset] reads back the 64-bit offset it was given. *)
Theorem put_offset_roundtrip (ms ms' : list byte) (o : Z)
    (Ho : in_int 64 o) (Hp : LogMessageSet.PutOffset ms o = Some ms') :
  LogMessageSet.Offset ms' = Some o /\ length ms' = length ms /\ drop 8 ms' = drop 8 ms.
Proof.
  split; [exact (Offset_PutOffset ms o ms' Ho Hp)|].
  split; [exact (PutOffset_length ms o ms' Hp)|exact (PutOffset_drop ms o ms' Hp)].
Qed.

Lemma put_offset_roundtrip_witness :
  let ms' := be_put 8 (uint64 77) ++ zeros 4 in
  LogMessageSet.Offset ms' = Some 77 /\ length ms' = length (zeros 12) /\ drop 8 ms' = drop 8 (zeros 12).
Proof. apply (put_offset_roundtrip (zeros 12) _ 77); [vm_compute; intuition congruence|reflexivity]. Defined.

(** ** Compaction *)

(** With the compact policy, a [split] that succeeds leaves the log with a
    closed active segment, and no message set can be appended to it any more:
    the cleaner closes the segment that [split] then makes the active one. *)
Theorem compact_split_breaks_append (Hash : list byte -> Z) (l l' : CommitLog) (u : unit) (b : list byte)
    (Hc : compact l = true) (Hs : split Hash l = Ret u l') (Hb : (8 <= length b)%nat) :
  (exists s, heap l' !! active l' = Some s /\ closed s = true) /\
  exists l'', appendActive b l' = Fail ErrClosed l''.
Proof.
  pose proof (compact_split_closed Hash l l' u Hc Hs) as H. split; [exact H|].
  exact (append_closed l' b H Hb).
Qed.

Definition compactedLog : CommitLog :=
  match New ∅ 30 (-1) "compact" with
  | Ret _ l =>
      match Append len (LogMessageSet.NewMessageSet 0 [layout sample]) l with Ret _ l => l | _ => l end
  | _ => mkLog 0 0 false ∅ [] [] 0 ∅
  end.
Definition splitLog : CommitLog :=
  match split len compactedLog with Ret _ l => l | _ => mkLog 0 0 false ∅ [] [] 0 ∅ end.
Lemma compact_split_breaks_append_witness :
  (exists s, heap splitLog !! active splitLog = Some s /\ closed s = true) /\
  exists l'', appendActive (zeros 20) splitLog = Fail ErrClosed l''.
Proof.
  apply (compact_split_breaks_append len compactedLog splitLog tt (zeros 20));
    [vm_compute; reflexivity|vm_compute; reflexivity|vm_compute; lia].
Defined.

(** The oldest and newest offsets that a log in a good state reports are
    the number of its first message set and the number the next one will get. *)
Theorem oldest_newest (l : CommitLog) (b0 : Z) (msgs : list (list byte)) (Hl : holds l b0 msgs) :
  NewestOffset l = Ret (b0 + len msgs) l /\ OldestOffset l = Ret b0 l.
Proof. exact (newest_spec l b0 msgs Hl). Qed.

Lemma oldest_newest_witness :
  NewestOffset (emptyLog 1024 (-1)) = Ret (0 + len (@nil (list byte))) (emptyLog 1024 (-1)) /\
  OldestOffset (emptyLog 1024 (-1)) = Ret 0 (emptyLog 1024 (-1)).
Proof. apply (oldest_newest (emptyLog 1024 (-1)) 0 []). apply emptyLog_holds. lia. Defined.
