(* ===== verification/StoreProps.v ===== *)
(** * Properties of the replicated store *)
From S2P Require Import Prelude IntIndex Structs Store StoreSteps StateMachine.
From Stdlib Require Import Strings.Byte.

(** ** Keys *)

(** C35: the indexer gives every integer of a kind a key of the kind's size,
    without running out of its buffer, the same from an object as from an
    argument, and different integers of a kind get different keys. *)
Theorem int_index_injective (k : Kind) (size : nat) (field : string)
    (obj obj' : string -> option (Kind * Z)) (v v' : Z)
    (Hk : IsIntType k = Some size) (Hv : in_int (bits k) v) (Hv' : in_int (bits k) v')
    (Hobj : obj field = Some (k, v)) (Hobj' : obj' field = Some (k, v')) :
  exists b b', FromObject field obj tt = Ret (true, b) tt /\ FromObject field obj' tt = Ret (true, b') tt /\
    FromArgs [(k, v)] tt = Ret b tt /\ length b = size /\ (b = b' -> v = v').
Proof.
  destruct (key_total k v size Hk Hv) as (b & E & Hl & pad & Hb).
  destruct (key_total k v' size Hk Hv') as (b' & E' & _ & pad' & Hb').
  exists b, b'. unfold FromObject, FromArgs. rewrite Hobj, Hobj'.
  erewrite !bind_Ret by eassumption. split_and!; [reflexivity|reflexivity|exact E|exact Hl|].
  intros Heq. rewrite Hb, Hb' in Heq.
  assert (H64 : forall w, in_int (bits k) w -> in_int 64 w).
  { intros w. pose proof (Z.pow_le_mono_r 2 (bits k - 1) (64 - 1) ltac:(lia) ltac:(destruct k; simpl; lia)).
    unfold in_int. lia. }
  apply zigzag_inj; [apply H64, Hv|apply H64, Hv'|].
  eapply uvarint_prefix; [| |exact Heq]; (split; [apply (zigzag_range 64); [lia|auto]|]);
    (eapply Z.lt_le_trans; [apply (zigzag_range 64); [lia|auto]|]); apply Z.pow_le_mono_r; lia.
Qed.

Lemma int_index_injective_witness :
  exists b b', FromObject "Node" (fun _ => Some (KInt32, -2147483648)) tt = Ret (true, b) tt /\
    FromObject "Node" (fun _ => Some (KInt32, 2147483647)) tt = Ret (true, b') tt /\
    FromArgs [(KInt32, -2147483648)] tt = Ret b tt /\ length b = 5%nat /\ (b = b' -> -2147483648 = 2147483647).
Proof.
  apply (int_index_injective KInt32 5 "Node" (fun _ => Some (KInt32, -2147483648)) (fun _ => Some (KInt32, 2147483647)));
    try reflexivity; apply (bool_decide_unpack _); vm_compute; exact I.
Defined.

(** ** Commands *)
Section commands.
Context `{Msgpack Node.t} `{Msgpack Topic.t} `{Msgpack Partition.t} `{Msgpack Group.t}.

(** C26: an entry that registers an object makes it the one found under its key
    (up to letter case, for topics and groups), with the entry's index as modify
    index and the create index of the object it replaces, or else its own; the
    table's index becomes the entry's; nothing else changes.  An object without
    a name is refused and changes nothing. *)
Theorem apply_register {ToLower : string -> string} {DB : Type} `{MemdbLaws ToLower DB} {K V} (t : table K V)
    (buf : list byte) (v : V) (idx : Z) (db : DB)
    (Ht : row t = true) (Hdec : decodeRow t buf = Some v) :
  if indexable t v then
    exists db' w, Apply (byte_of_Z (registerType t) :: buf) idx db = Ret tt db' /\
      updated ToLower t (idOf t v) (Some w) idx db db' /\
      setRaft t (raftOf t (prepared t v)) w = prepared t v /\
      RaftIndex.ModifyIndex (raftOf t w) = idx /\
      RaftIndex.CreateIndex (raftOf t w) =
        match First t (idOf t v) db with Some e => RaftIndex.CreateIndex (raftOf t e) | None => idx end
  else Apply (byte_of_Z (registerType t) :: buf) idx db = Fail (ErrOther "missing value for index") db.
Proof.
  rewrite (Apply_register t buf v idx db Ht Hdec). destruct (indexable t v) eqn:Hi;
    rewrite <- (indexable_prepared t v) in Hi; [|exact (ensure_fails t idx _ db Hi)].
  rewrite <- (idOf_prepared t v). destruct (ensure_updates t idx (prepared t v) db Ht Hi) as (db' & E & Hu).
  exists db', (stamp t idx (First t (idOf t (prepared t v)) db) (prepared t v)).
  split; [exact E|]. split; [exact Hu|]. unfold stamp. rewrite raftOf_setRaft by exact Ht.
  split; [apply setRaft_back|]. split; reflexivity.
Qed.

(** C27: an entry that removes an object makes its key unknown and records the
    entry's index for the table, and does nothing when the key is unknown. *)
Theorem apply_deregister {ToLower : string -> string} {DB : Type} `{MemdbLaws ToLower DB} {K V} (t : table K V)
    (ty : Z) (buf : list byte) (v : V) (idx : Z) (db : DB)
    (Ht : deregisterType t = Some ty) (Hdec : decodeRow t buf = Some v) :
  match First t (idOf t v) db with
  | Some _ => exists db', Apply (byte_of_Z ty :: buf) idx db = Ret tt db' /\
                updated ToLower t (idOf t v) None idx db db'
  | None => Apply (byte_of_Z ty :: buf) idx db = Ret tt db
  end.
Proof.
  rewrite (Apply_deregister t ty buf v idx db Ht Hdec).
  destruct (First t (idOf t v) db) as [w|] eqn:E; [|exact (delete_absent t idx _ db E)].
  refine (delete_updates t idx (idOf t v) w db _ E). destruct t; [discriminate Ht|reflexivity..].
Qed.

(** ** The invariant of the indexes *)

(** The states reached by entries with increasing indexes, with the last one. *)
Inductive reachable {DB} `{Memdb DB} : Z -> DB -> Prop :=
| reach_new : reachable 0 NewMemDB
| reach_apply last idx data db db' :
    reachable last db -> last < idx -> after (Apply data idx db) = Some db' -> reachable idx db'.

Definition indexes_ok {DB} `{Memdb DB} (last : Z) (db : DB) : Prop :=
  (forall name, 0 <= tableIndex db name <= last) /\
  forall K V (t : table K V) k v, row t = true -> First t k db = Some v ->
    0 <= RaftIndex.CreateIndex (raftOf t v) <= RaftIndex.ModifyIndex (raftOf t v) /\
    RaftIndex.ModifyIndex (raftOf t v) <= tableIndex db (tableName t).

(** An update of one table keeps the invariant. *)
Lemma updated_ok {ToLower DB} `{MemdbLaws ToLower DB} {K V} (t : table K V) k o last idx db db' :
  row t = true -> updated ToLower t k o idx db db' -> last < idx -> 0 <= last -> indexes_ok last db ->
  (forall v, o = Some v -> 0 <= RaftIndex.CreateIndex (raftOf t v) <= RaftIndex.ModifyIndex (raftOf t v) /\
     RaftIndex.ModifyIndex (raftOf t v) = idx) ->
  indexes_ok idx db'.
Proof.
  intros Hr (Hu1 & Hu2 & Hu3) Hlt Hz [Hi Hrows] Ho. split.
  - intros name. rewrite Hu3. specialize (Hi name). case_decide; lia.
  - intros K' V' t' k' v Hr' E. rewrite Hu3, !ToLower_table. pose proof (Hi (tableName t')).
    destruct (decide (tableName t = tableName t')) as [Hn|Hn].
    + rewrite decide_True by congruence.
      destruct t, t'; try discriminate; rewrite Hu1 in E;
        (case_decide; [destruct (Ho v E) as [? ?]; lia|pose proof (Hrows _ _ _ k' v Hr' E); lia]).
    + rewrite Hu2 in E by assumption. rewrite decide_False by congruence.
      exact (Hrows _ _ t' k' v Hr' E).
Qed.

Lemma indexes_ok_mono {DB} `{Memdb DB} last idx db : indexes_ok last db -> last < idx -> indexes_ok idx db.
Proof. intros [Hi Hr] Hlt. split; [intros name; specialize (Hi name); lia|exact Hr]. Qed.

Lemma run_step_ok {ToLower DB} `{MemdbLaws ToLower DB} s last idx db db' :
  is_step s -> 0 <= last -> last < idx -> indexes_ok last db -> after (run_step s idx db) = Some db' ->
  indexes_ok idx db'.
Proof.
  intros Hs Hz Hlt Hok. destruct s as [| |K V t v|K V t k]; cbn [run_step is_step] in *.
  - discriminate.
  - intros [= <-]. eapply indexes_ok_mono; eassumption.
  - destruct (indexable t v) eqn:Hi.
    + destruct (ensure_updates t idx v db Hs Hi) as (db1 & E & Hu). rewrite E. intros [= <-].
      eapply updated_ok; [exact Hs|exact Hu|exact Hlt|exact Hz|exact Hok|].
      intros w [= <-]. unfold stamp. rewrite raftOf_setRaft by exact Hs. cbn.
      destruct (First t (idOf t v) db) as [e|] eqn:F; [|lia].
      pose proof (proj2 Hok K V t _ e Hs F). pose proof (proj1 Hok (tableName t)). lia.
    + rewrite (ensure_fails t idx v db Hi). intros [= <-]. eapply indexes_ok_mono; eassumption.
  - destruct (First t k db) as [w|] eqn:F.
    + destruct (delete_updates t idx k w db Hs F) as (db1 & E & Hu). rewrite E. intros [= <-].
      eapply updated_ok; [exact Hs|exact Hu|exact Hlt|exact Hz|exact Hok|discriminate].
    + rewrite (delete_absent t idx k db F). intros [= <-]. eapply indexes_ok_mono; eassumption.
Qed.

(** C23: in every state that the log leads to, the create index of an object is
    at most its modify index, which is at most the index of its table, which is
    at most that of the last entry. *)
Theorem indexes_invariant {ToLower : string -> string} {DB : Type} `{MemdbLaws ToLower DB} (last : Z) (db : DB)
    (Hr : reachable last db) : 0 <= last /\ indexes_ok last db.
Proof.
  induction Hr as [|last idx data db db' Hr [Hz IH] Hlt E].
  - split; [lia|]. split.
    + intros name. unfold tableIndex. rewrite First_new. lia.
    + intros K V t k v _ E. rewrite First_new in E. discriminate.
  - destruct (Apply_step data idx db) as [Hs Ha]. rewrite Ha in E. split; [lia|].
    exact (run_step_ok _ last idx db db' Hs Hz Hlt IH E).
Qed.

(** ** The log and the store *)

(** C11: the store is what the log says.  A broker that applies a log whose
    entries can be read ends, whatever database it runs, with exactly this
    under every key of a table: what the last entry about the key registered,
    with that entry's index as modify index and the index of the first entry
    about it since its last removal as create index, or nothing when it was
    removed or never registered; and the index of the table is that of the last
    entry that changed it.  So brokers that apply the same log agree.  An entry
    that cannot be read panics every one of them. *)
Theorem store_follows_log {ToLower : string -> string} {DB : Type} `{MemdbLaws ToLower DB}
    (entries : list (Z * list byte)) :
  if forallb readable entries.*2 then
    exists d : DB, replay entries NewMemDB = Some d /\
      forall K V (t : table K V), row t = true ->
        (forall k, First t k d = found ToLower t k (reverse entries)) /\
        tableIndex d (tableName t) = lastChange ToLower t (reverse entries)
  else replay entries (NewMemDB : DB) = None.
Proof.
  apply replay_reflects. intros K V t Ht. split; [intros k; apply First_new|].
  unfold tableIndex. rewrite First_new. reflexivity.
Qed.

(** ** Snapshots *)

(** C40: a snapshot keeps no object: restoring what [Persist] wrote leaves an
    empty store, whatever the store was. *)
Theorem restore_loses_state {ToLower : string -> string} {DB : Type} `{MemdbLaws ToLower DB}
    (encodeHeader : Z -> option (list byte)) (decodeHeader : list byte -> option (Z * list byte))
    (Hheader : forall i b rest, encodeHeader i = Some b -> decodeHeader (b ++ rest) = Some (i, rest))
    (db db' : DB) (snapshot : list byte) (Hp : Persist encodeHeader db = Some snapshot) :
  exists new, Restore decodeHeader snapshot db' = Ret tt new /\
    forall K V (t : table K V) k, First t k new = None.
Proof.
  unfold Persist in Hp. destruct (encodeHeader (LastIndex db)) as [b|] eqn:E; [|discriminate].
  cbn in Hp. injection Hp as <-. exists NewMemDB. split; [|intros; apply First_new].
  unfold Restore. rewrite (Hheader _ _ [] E). reflexivity.
Qed.

(** C16: on a state machine in any state that entries and restores have led to, a
    restore never panics and fails without effect or puts a new store in the
    place of the old one; who holds the old store is told so, once, and sees
    from then on exactly what was in it at that moment. *)
Theorem restore_swaps_store {DB : Type} `{Memdb DB} `{Msgpack Node.t} `{Msgpack Topic.t} `{Msgpack Structs.Partition.t} `{Msgpack Structs.Group.t}
    (decodeHeader : list byte -> option (Z * list byte)) (args : list arg) (c0 c : FSM (DB := DB))
    (os : list op) (e : option error) (snapshot : list byte)
    (Hnew : New None args = Ret c0 tt) (Hrun : runOps decodeHeader os c0 = Some c) :
  (exists err, RestoreLog decodeHeader e snapshot c = Fail err c) \/
  exists c' s s', RestoreLog decodeHeader e snapshot c = Ret tt c' /\
    storeAt (State c) c = Some s /\ AbandonCh s = false /\
    storeAt (State c') c' = Some s' /\ AbandonCh s' = false /\ State c' <> State c /\
    Restore decodeHeader snapshot NewMemDB = Ret tt (StateMachine.db s') /\
    forall os' c'', runOps decodeHeader os' c' = Some c'' ->
      exists old, storeAt (State c) c'' = Some old /\ AbandonCh old = true /\ StateMachine.db old = StateMachine.db s.
Proof.
  destruct (New_usable _ _ _ Hnew) as [U0 _]. pose proof (runOps_usable _ _ _ _ U0 Hrun) as U.
  destruct (RestoreLog_outcome decodeHeader e snapshot c U) as [(err & Er)|(s & d & Hs & Hd & Er)]; [eauto|right].
  assert (U' : usable (mkFSM (apply c)
      (<[state c := mkStoreObj (schema s) (StateMachine.db s) true (tracer s) (nodeID s)]> (stores c) ++
       [mkStoreObj (default ∅ (buildSchema schemas ∅)) d false (fsmTracer c) 0])
      (length (stores c)) (fsmTracer c) (fsmNodeID c))).
  { apply (RestoreLog_usable decodeHeader e snapshot c); [exact U|]. rewrite Er. reflexivity. }
  set (c' := mkFSM _ _ _ _ _) in *. destruct (u_state _ U) as (s1 & Hs1 & Hab & _).
  assert (s1 = s) as -> by congruence. pose proof (lookup_lt_Some _ _ _ Hs) as Hl.
  exists c', s. eexists. split; [exact Er|]. split; [exact Hs|]. split; [exact Hab|].
  assert (Elen : length (<[state c := mkStoreObj (schema s) (StateMachine.db s) true (tracer s) (nodeID s)]> (stores c))
    = length (stores c)) by apply length_insert.
  split; [cbn; rewrite lookup_app_r, Elen, Nat.sub_diag by lia; reflexivity|]. split; [reflexivity|].
  split; [unfold State; cbn; lia|]. split; [exact Hd|]. intros os' c'' Hr.
  destruct (runOps_frozen decodeHeader os' c' c'' (state c) U' Hr Hl) as [_ Ho].
  exists (mkStoreObj (schema s) (StateMachine.db s) true (tracer s) (nodeID s)). split; [|auto].
  unfold storeAt, State. rewrite Ho. cbn. rewrite lookup_app_l, list_lookup_insert_eq by lia. reflexivity.
Qed.

(** ** Letter case *)

(** Topics whose names differ in letter case only share an entry, although
    their partitions do not: registering the second replaces the first, keeps
    its create index and leaves its partitions behind. *)
Theorem topic_case_collision {ToLower : string -> string} {DB : Type} `{MemdbLaws ToLower DB}
    (db : DB) (a : Topic.t) (b : Topic.t) (buf : list byte) (idx : Z)
    (Hcase : ToLower (Topic.Topic b) = ToLower (Topic.Topic a)) (Hname : Topic.Topic b <> "")
    (Ha : snd (GetTopic (Topic.Topic a) db) = Some a) (Hdec : Decode buf = Some b) :
  exists db', Apply (byte_of_Z RegisterTopicRequestType :: buf) idx db = Ret tt db' /\
    snd (GetTopic (Topic.Topic a) db') =
      Some (Topic.set_raft (RaftIndex.mk (RaftIndex.CreateIndex (Topic.Raft a)) idx) (Topic.with_config b)) /\
    forall p, snd (GetPartition (Topic.Topic a) p db') = snd (GetPartition (Topic.Topic a) p db).
Proof.
  rewrite (Apply_register Topics buf b idx db eq_refl Hdec).
  destruct (ensure_updates Topics idx (Topic.with_config b) db eq_refl) as (db' & E & Hu & Ht & _).
  { cbn. rewrite bool_decide_false by exact Hname. reflexivity. }
  exists db'. split; [exact E|]. cbn [GetTopic GetPartition snd] in *. split.
  - rewrite Hu, decide_True by (symmetry; exact Hcase).
    assert (Hf : First Topics (idOf Topics (Topic.with_config b)) db = Some a)
      by (rewrite (First_norm Topics _ (Topic.Topic a)) by exact Hcase; exact Ha).
    rewrite Hf. reflexivity.
  - intros p. apply Ht; [reflexivity|discriminate].
Qed.
End commands.

(** ** Concrete inputs *)
Definition sampleTopic (name : string) : Topic.t := Topic.mk "" name ∅ None false RaftIndex.zero.
Definition sampleNode (id : Z) : Node.t := Node.mk 0 id "" None ∅ RaftIndex.zero.

(** A codec for these objects: a name, and a number of a byte. *)
#[local] Instance sampleTopicPack : Msgpack Topic.t := {
  mp_encode x := if decide (x = sampleTopic (Topic.Topic x)) then Some (bytes_of_string (Topic.Topic x)) else None;
  mp_decode b := Some (sampleTopic (string_of_bytes b)) }.
#[local] Instance sampleNodePack : Msgpack Node.t := {
  mp_encode x := if decide (x = sampleNode (Node.Node x)) then Some [byte_of_Z (Node.Node x)] else None;
  mp_decode b := match b with [b] => Some (sampleNode (Z_of_byte b)) | _ => None end }.
#[local] Instance noPartitions : Msgpack Partition.t := { mp_encode _ := None; mp_decode _ := None }.
#[local] Instance noGroups : Msgpack Group.t := { mp_encode _ := None; mp_decode _ := None }.

Definition emptyTables : Tables := NewMemDB.
Definition nodeEntry : list byte := [x00; x05].
Definition oneNode : Tables := default emptyTables (after (Apply nodeEntry 1 emptyTables)).
Definition topicEntry (name : string) : list byte := x02 :: bytes_of_string name.
Definition oneTopic : Tables := default emptyTables (after (Apply (topicEntry "orders") 3 emptyTables)).

Lemma apply_register_witness :
  exists db' w, Apply (byte_of_Z 2 :: bytes_of_string "orders") 7 emptyTables = Ret tt db' /\
    updated asciiLower Topics "orders" (Some w) 7 emptyTables db' /\
    Topic.set_raft RaftIndex.zero w = Topic.with_config (sampleTopic "orders") /\
    RaftIndex.ModifyIndex (Topic.Raft w) = 7 /\ RaftIndex.CreateIndex (Topic.Raft w) = 7.
Proof.
  exact (apply_register Topics (bytes_of_string "orders") (sampleTopic "orders") 7 emptyTables eq_refl eq_refl).
Defined.

Lemma apply_deregister_witness :
  exists db', Apply [byte_of_Z 1; x05] 2 oneNode = Ret tt db' /\ updated asciiLower Nodes 5 None 2 oneNode db'.
Proof. exact (apply_deregister Nodes 1 [x05] (sampleNode 5) 2 oneNode eq_refl eq_refl). Defined.

Lemma indexes_invariant_witness : 0 <= 1 /\ indexes_ok 1 oneNode.
Proof.
  apply indexes_invariant. eapply (reach_apply 0 1 nodeEntry emptyTables); [apply reach_new|lia|].
  vm_compute. reflexivity.
Defined.

(** A topic is registered, registered again, a node comes and goes. *)
Definition sampleLog : list (Z * list byte) :=
  [(1, nodeEntry); (3, topicEntry "orders"); (4, [byte_of_Z 1; x05]); (6, topicEntry "Orders"); (7, [byte_of_Z 1; x05])].

Lemma store_follows_log_witness :
  exists d : Tables, replay sampleLog emptyTables = Some d /\
    First Topics "orders" d = Some (Topic.set_raft (RaftIndex.mk 3 6) (Topic.with_config (sampleTopic "Orders"))) /\
    First Nodes 5 d = None /\ tableIndex d "topics" = 6 /\ tableIndex d "nodes" = 4 /\ tableIndex d "groups" = 0.
Proof.
  destruct (store_follows_log (ToLower := asciiLower) (DB := Tables) sampleLog) as (d & E & Hd).
  exists d. split; [exact E|].
  destruct (Hd _ _ Topics eq_refl) as [H1 H2]. destruct (Hd _ _ Nodes eq_refl) as [H3 H4].
  split; [rewrite H1; vm_compute; reflexivity|]. split; [rewrite H3; vm_compute; reflexivity|].
  split; [etransitivity; [exact H2|vm_compute; reflexivity]|].
  split; [etransitivity; [exact H4|vm_compute; reflexivity]|].
  etransitivity; [exact (proj2 (Hd _ _ Groups eq_refl))|vm_compute; reflexivity].
Defined.

Definition sampleHeader (i : Z) : option (list byte) :=
  if decide (in_uint 64 i) then Some (be_put 8 i) else None.
Definition sampleReadHeader (b : list byte) : option (Z * list byte) :=
  if decide (length b < 8)%nat then None else Some (be_get (take 8 b), drop 8 b).
Lemma sampleHeader_read i b rest : sampleHeader i = Some b -> sampleReadHeader (b ++ rest) = Some (i, rest).
Proof.
  unfold sampleHeader, sampleReadHeader. case_decide as Hi; [|discriminate]. intros [= <-].
  rewrite decide_False by (rewrite length_app, length_be_put; lia).
  rewrite (take_app_exact 8), (drop_app_exact 8) by apply length_be_put.
  rewrite be_get_put, Z.mod_small by exact Hi. reflexivity.
Qed.

Lemma restore_loses_state_witness :
  exists new : Tables, Restore sampleReadHeader (be_put 8 3) oneTopic = Ret tt new /\
    forall K V (t : table K V) k, First t k new = None.
Proof.
  apply (restore_loses_state sampleHeader sampleReadHeader sampleHeader_read oneTopic). vm_compute. reflexivity.
Defined.

Lemma topic_case_collision_witness :
  exists db', Apply (topicEntry "Orders") 9 oneTopic = Ret tt db' /\
    snd (GetTopic "orders" db') =
      Some (Topic.set_raft (RaftIndex.mk 3 9) (Topic.with_config (sampleTopic "Orders"))) /\
    forall p, snd (GetPartition "orders" p db') = snd (GetPartition "orders" p oneTopic).
Proof.
  apply (topic_case_collision oneTopic
    (Topic.set_raft (RaftIndex.mk 3 3) (Topic.with_config (sampleTopic "orders"))) (sampleTopic "Orders")
    (bytes_of_string "Orders") 9).
  - vm_compute. reflexivity.
  - discriminate.
  - vm_compute. reflexivity.
  - reflexivity.
Defined.

(** A broker registers a topic, and gets a snapshot from another one. *)
Definition machineArgs : list arg := [ArgTracer; ArgNodeID 4].
Definition machine : FSM (DB := Tables) :=
  mkFSM commands [mkStoreObj (default ∅ (buildSchema schemas ∅)) NewMemDB false true 4] 0 true 4.
Definition machineRun : list op := [OpApply (topicEntry "orders") 3; OpRestore None (be_put 8 3); OpApply (topicEntry "bills") 5].
Definition machineAfter : FSM (DB := Tables) := default machine (runOps sampleReadHeader machineRun machine).
Lemma restore_swaps_store_witness :
  exists c' s s', RestoreLog sampleReadHeader None (be_put 8 9) machineAfter = Ret tt c' /\
    storeAt (State machineAfter) machineAfter = Some s /\ AbandonCh s = false /\
    storeAt (State c') c' = Some s' /\ AbandonCh s' = false /\ State c' <> State machineAfter /\
    Restore sampleReadHeader (be_put 8 9) (NewMemDB : Tables) = Ret tt (StateMachine.db s') /\
    forall os' c'', runOps sampleReadHeader os' c' = Some c'' ->
      exists old, storeAt (State machineAfter) c'' = Some old /\ AbandonCh old = true /\ StateMachine.db old = StateMachine.db s.
Proof.
  assert (Hrun : match runOps sampleReadHeader machineRun machine with Some _ => true | None => false end = true)
    by (vm_compute; reflexivity).
  assert (Hok : match RestoreLog sampleReadHeader None (be_put 8 9) machineAfter with Ret _ _ => true | _ => false end = true)
    by (vm_compute; reflexivity).
  destruct (restore_swaps_store sampleReadHeader machineArgs machine machineAfter machineRun None (be_put 8 9))
    as [(err & E)|H]; [exact (New_made machineArgs)| | |exact H].
  - unfold machineAfter. destruct (runOps sampleReadHeader machineRun machine); [reflexivity|discriminate].
  - rewrite E in Hok. discriminate.
Defined.
