(* ===== verification/BrokerProps.v ===== *)
(** * Properties of the cluster's brokers, of the handlers and of replication *)
From S2P Require Import Prelude Decoder Codec ClientApi LogMessage Index Segment CommitLog LogReader Structs Store Cluster LogService BrokerState Broker Replicator Replication.
From Stdlib Require Import Strings.Byte Sorting.Sorted.

(** ** Membership *)

(** The lookup follows the membership: after any events of members that
    keep their address, a broker is found by its number exactly when it has
    joined and not failed since, and the list of brokers has each of them once,
    in whatever order maps are iterated. *)
Theorem lookup_tracks_members (o : map_order) (es : list event) (Ho : valid_order o) (Hst : stable es) :
  (forall id, in_int 64 id -> BrokerByID (itoa id) (handleEvents es) = live es !! id) /\
  Brokers o (handleEvents es) ≡ₚ (map_to_list (live es)).*2.
Proof.
  assert (Ht : tracks es (handleEvents es) (live es))
    by (apply tracks_events; [exact Hst|auto|apply tracks_new]).
  split; [apply Ht|exact (Brokers_perm o es _ _ Ho Ht)].
Qed.

Definition sampleMember (id addr : string) : SerfMember.t :=
  SerfMember.mk "node" {["role" := "jocko"; "id" := id; "raft_addr" := addr]} 1.
Definition sampleEvents : list event :=
  [NodeJoin (sampleMember "1" "a:1"); NodeJoin (sampleMember "-2" "b:1"); NodeFailed (sampleMember "1" "a:1")].

Lemma lookup_tracks_members_witness :
  (forall id, in_int 64 id -> BrokerByID (itoa id) (handleEvents sampleEvents) = live sampleEvents !! id) /\
  Brokers canonical_order (handleEvents sampleEvents) ≡ₚ (map_to_list (live sampleEvents)).*2.
Proof.
  apply (lookup_tracks_members canonical_order sampleEvents canonical_order_valid).
  intros e e' b b' He He' Eb Eb'. unfold sampleEvents in *.
  repeat match goal with H : _ ∈ _ :: _ |- _ => apply elem_of_cons in H as [->|H] end;
    try (apply elem_of_nil in He; destruct He); try (apply elem_of_nil in He'; destruct He');
    vm_compute in Eb, Eb'; injection Eb as <-; injection Eb' as <-; cbn; split; congruence.
Defined.

(** ** Assignment of replicas *)

(** [buildPartitions] assigns every partition as many replicas as asked for,
    all on different brokers of the cluster, the first being the leader, all of
    them in sync; a factor larger than the cluster is refused.  This holds for
    whatever random moves around the ring. *)
Theorem build_partitions_assigns (brokers : list BrokerMeta.t) (topic : string) (count factor : Z) (rnd : nat -> nat)
    (Hids : base.NoDup (BrokerMeta.ID <$> brokers)) (Hf : 1 <= factor < 2 ^ 15) :
  if len brokers <? factor
  then buildPartitions brokers topic count factor rnd = Some (inl ErrInvalidReplicationFactor)
  else exists ps, buildPartitions brokers topic count factor rnd = Some (inr ps) /\
    length ps = Z.to_nat count /\
    forall i p, ps !! i = Some p -> well_assigned brokers topic factor i p.
Proof.
  unfold buildPartitions. destruct (Z.ltb_spec (len brokers) factor) as [Hl|Hl]; [reflexivity|].
  destruct (assign_spec brokers topic factor rnd (Z.to_nat count) 0 0 Hids) as (ps & -> & Hn & Hps);
    [lia|lia|unfold len in *; lia|].
  exists ps. split; [reflexivity|]. split; [exact Hn|exact Hps].
Qed.

Definition sampleBrokers : list BrokerMeta.t :=
  (fun id => BrokerMeta.mk id "" false 0 false 1 "" "" "") <$> [1; 2; 3].

Lemma build_partitions_assigns_witness :
  exists ps, buildPartitions sampleBrokers "orders" 4 2 (fun i => i) = Some (inr ps) /\
    length ps = 4%nat /\ forall i p, ps !! i = Some p -> well_assigned sampleBrokers "orders" 2 i p.
Proof.
  apply (build_partitions_assigns sampleBrokers "orders" 4 2 (fun i => i)); [|lia].
  apply (bool_decide_unpack _). vm_compute. exact I.
Defined.

(** ** Producing and fetching *)
Section handlers.
Context {L R D DB RF : Type} `{CommitLogLaws L R} `{LogDirs D L} `{!LogDirLaws D L R} `{Memdb DB} `{Raft RF}.

(** A produce request for a partition that the broker has a log of, whose
    timer does not fire, is answered without error and with the next offset of
    the log; the record set is stored there, and nothing but that replica's log
    changes. *)
Theorem produce_appends (b : Broker L D DB RF) (topic : string) (p : Z) (ptr : nat) (rep : Replica L) (l : L) (b0 : Z)
    (msgs : list (list byte)) (rs : list byte) (req : ProduceRequest.t) (expired : nat -> nat -> bool)
    (now : nat -> nat -> Z)
    (Hs : serves b topic p ptr rep l b0 msgs) (Hrs : (8 <= length rs)%nat) (H64 : in_int 64 (b0 + len msgs))
    (Hreq : ProduceRequest.TopicData req = [TopicData.mk topic [Data.mk p (Some rs)]])
    (Ht : 0 < ProduceRequest.Timeout req) (Hexp : expired 0%nat 0%nat = false) :
  exists l' dropped kept m,
    handleProduce req expired now b =
      Ret (ProduceResponse.mk (ProduceRequest.APIVersion req)
             [ProduceTopicResponse.mk topic
                [ProducePartitionResponse.mk p ErrNone (b0 + len msgs) (now 0%nat 0%nat) 0]] 0)
        (putLog ptr rep l' b) /\
    LogMessageSet.PutOffset rs (b0 + len msgs) = Some m /\ msgs = dropped ++ kept /\
    log_holds l' (b0 + len dropped) (kept ++ [m]).
Proof.
  destruct (produceFn_spec b topic p ptr rep l b0 msgs rs (now 0%nat 0%nat) Hs Hrs H64)
    as (l' & dr & kept & m & E & Ep & Em & (_ & _ & _ & _ & _ & Hh)).
  exists l', dr, kept, m. split; [|auto].
  rewrite (handleProduce_one req topic _ expired now b _ _ Hreq E). unfold waited, mbind, M_bind.
  rewrite (proj2 (Z.leb_gt _ _)), Hexp by exact Ht. reflexivity.
Qed.

(** C9: what was produced is fetched: a produce request to the leader is
    answered without error and with the next offset of the log, and a fetch at
    that offset, for no more bytes than were produced, is
    answered with that offset as high watermark and the sets of the log from some
    earlier one on, the produced one last; the fetch changes nothing. *)
Theorem produce_then_fetch (b : Broker L D DB RF) (topic : string) (p max : Z) (ptr : nat) (rep : Replica L) (l : L)
    (b0 : Z) (msgs : list (list byte)) (rs : list byte) (req : ProduceRequest.t) (freq : FetchRequest.t)
    (expired : nat -> nat -> bool) (now : nat -> nat -> Z) (room : nat -> nat) (fuel : nat)
    (Hs : serves b topic p ptr rep l b0 msgs) (Hlead : Partition.Leader (RPartition rep) = configID b)
    (Hrs : (8 <= length rs)%nat) (H64 : in_int 64 (b0 + len msgs))
    (Hreq : ProduceRequest.TopicData req = [TopicData.mk topic [Data.mk p (Some rs)]])
    (Ht : 0 < ProduceRequest.Timeout req) (Hexp : expired 0%nat 0%nat = false)
    (Hfreq : FetchRequest.Topics freq = [FetchTopic.mk topic [FetchPartition.mk p (b0 + len msgs) max]])
    (Hwait : 0 < FetchRequest.MaxWaitTime freq) (Hmin : 0 < FetchRequest.MinBytes freq <= len rs)
    (Hroom : forall i, (0 < room i)%nat) (H31 : len (concat msgs) + len rs < 2 ^ 31)
    (Hfuel : (length (concat msgs) + length rs + 2 <= fuel)%nat) :
  exists b' m j,
    handleProduce req expired now b =
      Ret (ProduceResponse.mk (ProduceRequest.APIVersion req) [ProduceTopicResponse.mk topic
             [ProducePartitionResponse.mk p ErrNone (b0 + len msgs) (now 0%nat 0%nat) 0]] 0) b' /\
    LogMessageSet.PutOffset rs (b0 + len msgs) = Some m /\
    handleFetch freq expired room fuel b' =
      Ret (FetchResponse.mk (FetchRequest.APIVersion freq) 0 [FetchTopicResponse.mk topic
             [FetchPartitionResponse.mk p ErrNone (b0 + len msgs) 0 [] (Some (concat (drop j msgs) ++ m))]]) b'.
Proof.
  exact (produce_fetch b topic p max ptr rep l b0 msgs rs req freq expired now room fuel Hs Hlead Hrs H64 Hreq Ht Hexp Hfreq Hwait Hmin Hroom H31 Hfuel).
Qed.

(** A fetch that asks for more bytes than the log has from the offset on
    never completes by itself: its goroutine loops, and the response is a
    timeout without records even if the timer is slow. *)
Theorem fetch_never_completes (b : Broker L D DB RF) (topic : string) (p off max : Z) (ptr : nat) (rep : Replica L) (l : L)
    (b0 : Z) (msgs : list (list byte)) (freq : FetchRequest.t) (expired : nat -> nat -> bool) (room : nat -> nat)
    (fuel : nat)
    (Hs : serves b topic p ptr rep l b0 msgs) (Hlead : Partition.Leader (RPartition rep) = configID b)
    (Hoff : b0 <= off < b0 + len msgs)
    (Hfreq : FetchRequest.Topics freq = [FetchTopic.mk topic [FetchPartition.mk p off max]])
    (Hwait : 0 < FetchRequest.MaxWaitTime freq) (Hmin : len (concat msgs) < FetchRequest.MinBytes freq)
    (Hroom : forall i, (0 < room i)%nat) (H31 : len (concat msgs) < 2 ^ 31)
    (Hfuel : (length (concat msgs) + 2 <= fuel)%nat) :
  fetchFn topic (FetchPartition.mk p off max) (FetchRequest.MinBytes freq) room fuel b = Ret None b /\
  handleFetch freq expired room fuel b =
    Ret (FetchResponse.mk (FetchRequest.APIVersion freq) 0 [FetchTopicResponse.mk topic
           [FetchPartitionResponse.mk p ErrRequestTimedOut 0 0 [] None]]) b.
Proof.
  destruct (fetchFn_spec b topic p off max ptr rep l b0 msgs (FetchRequest.MinBytes freq) room fuel Hs Hlead Hoff)
    as (k & _ & Ef); [exact Hroom|unfold len in *; lia|exact H31|exact Hfuel|].
  rewrite (proj2 (Z.leb_gt _ _)) in Ef.
  2:{ rewrite <- (take_drop k msgs) in Hmin at 1. rewrite concat_app in Hmin. len_solve. }
  split; [exact Ef|]. rewrite (handleFetch_one freq topic _ expired room fuel _ _ _ Hfreq Ef). unfold waited, mbind, M_bind.
  rewrite (proj2 (Z.leb_gt _ _)) by exact Hwait. reflexivity.
Qed.

(** A produce request that times out ends the process: when the timer of any
    of its partitions fires before the append of that partition is done, the
    late result is sent on a closed channel, in every state of the broker. *)
Theorem late_produce_panics (b : Broker L D DB RF) (req : ProduceRequest.t) (expired : nat -> nat -> bool)
    (now : nat -> nat -> Z) (i j : nat) (td : TopicData.t) (p : Data.t)
    (Htd : ProduceRequest.TopicData req !! i = Some td) (Hp : TopicData.Data td !! j = Some p)
    (Ht : 0 < ProduceRequest.Timeout req) (Hexp : expired i j = true) :
  handleProduce req expired now b = Crash.
Proof.
  unfold handleProduce. unfold mbind at 1, M_bind at 1. erewrite collect_crash; [reflexivity| |exact Htd|].
  - intros i' td'. apply no_fail_bind; [|intros ps s; exact I].
    apply no_fail_collect. intros. apply producePartition_no_fail.
  - intros s. unfold mbind, M_bind. erewrite collect_crash; [reflexivity| |exact Hp|].
    + intros. apply producePartition_no_fail.
    + intros s'. cbn [Nat.add]. rewrite Hexp. apply producePartition_late, Ht.
Qed.

(** ** Replication *)

(** C39: a replicator that follows a leader whose log starts at offset 0 never
    appends anything to its own log, however its goroutines interleave: it asks
    for offset 0, gets the sets from offset 0 on, and takes only those whose
    offset is greater. *)
Theorem replicator_never_appends (backoff : Z -> Z -> Prop) (follower : Replica L) (minBytes maxWait : Z) (l0 : L)
    (t : Z) (g : Replication L)
    (Hruns : greaches (leaderAnswers (L := L) (D := D) (DB := DB) (RF := RF) (Partition.Topic (RPartition follower))
                         (Partition.ID (RPartition follower))) backoff
               (Replicate (NewReplicator minBytes maxWait follower) l0 t) g) :
  rep g = NewReplicator minBytes maxWait follower /\ rlog g = l0.
Proof.
  destruct (replication_stuck backoff _ _ (NewReplicator minBytes maxWait follower) l0 t g
    eq_refl eq_refl eq_refl eq_refl Hruns) as (E1 & E2 & _). auto.
Qed.

(** C17: nothing is lost, doubled, made up or reordered: whatever the leader
    answers and whenever the replicator is closed, the record sets that the
    answers so far ask for are those appended to the follower's log, followed by
    those in the channel and those still to be sent of the answer the fetching
    goroutine is working on, in this order.  An answer asks for its sets up to the
    first partition with an error or without a set, each if its offset is
    greater than the start and all before it; so the offsets grow.  The channel
    never holds more than two. *)
Theorem replicator_in_order (answer : FetchRequest.t -> error + FetchResponse.t -> Prop) (backoff : Z -> Z -> Prop)
    (r : Replicator) (l0 : L) (t : Z) (g : Replication L) (Hempty : msgs r = [])
    (Hruns : greaches answer backoff (Replicate r l0 t) g) :
  (exists appended, appends l0 appended (rlog g) /\
     (wanted (offset r) (received g)).*2 =
       appended ++ msgs (rep g) ++
       match fetching g with Taking ps => (newer (offset (rep g)) (offered ps)).*2 | _ => [] end) /\
  Forall (fun ps => exists req res, answer req (inr res) /\ ps.*1 = partitionsOf res) (received g) /\
  StronglySorted Z.lt (offset r :: (wanted (offset r) (received g)).*1) /\
  (length (msgs (rep g)) <= 2)%nat.
Proof.
  destruct (orderly_reaches answer backoff l0 r t g Hempty Hruns) as [(ap & tk & Ha & Ht & Hw & _) Hr].
  split; [|split; [exact (received_answers answer backoff r l0 t g Hruns)|split; [apply newer_ascending|exact Hr]]].
  exists ap. split; [exact Ha|]. rewrite Hw, fmap_app, Ht, <- app_assoc. unfold pending.
  destruct (fetching g); reflexivity.
Qed.

(** When the replicator is closed while the fetching goroutine has a record
    set to send and the channel is full, and the appending goroutine ends first,
    the fetching goroutine never ends. *)
Theorem closed_fetcher_leaks (answer : FetchRequest.t -> error + FetchResponse.t -> Prop) (backoff : Z -> Z -> Prop)
    (g g1 g' : Replication L) (p : FetchPartitionResponse.t) (behind : list byte) (ps : PartitionAnswers) (o : Z) (rs : list byte)
    (Hopen : done g = false) (Happ : appending g = AppendTop) (Hfull : (2 <= length (msgs (rep g)))%nat)
    (Hf : fetching g = Taking ((p, behind) :: ps)) (Hj : judge p behind (offset (rep g)) = Send o rs)
    (Hg1 : g1 = mkReplication (rep g) (rlog g) true (fetching g) AppendEnd (clock g) (resetAt g) (received g))
    (Hruns : greaches answer backoff g1 g') :
  greaches answer backoff g g1 /\ fetching g' = Taking ((p, behind) :: ps).
Proof.
  split.
  - eapply rtc_l; [apply GClose, Hopen|]. apply rtc_once. subst g1.
    apply (GAppendDone answer backoff
      (mkReplication (rep g) (rlog g) true (fetching g) (appending g) (clock g) (resetAt g) (received g)));
      [exact Happ|reflexivity].
  - destruct (leaked_forever answer backoff g1 g') as [E _]; [|exact Hruns|rewrite E, Hg1; exact Hf].
    subst g1. split; [reflexivity|]. split; [exact Hfull|]. exists p, behind, ps, o, rs. auto.
Qed.
End handlers.

(** ** Concrete inputs: one broker, one topic, one partition, the commit log *)
#[local] Instance sampleOps : CommitLogOps CommitLog Reader := CommitLog_ops len.
#[local] Instance sampleLaws : CommitLogLaws CommitLog Reader := CommitLog_laws len.
#[local] Instance sampleDirs : LogDirs FS CommitLog := CommitLog_dirs.
#[local] Instance sampleDirLaws : LogDirLaws FS CommitLog Reader := CommitLog_dir_laws len.
#[local] Existing Instance SimpleRaft_ops.

Definition newLog : CommitLog :=
  match New ∅ 1024 (-1) "delete" with Ret _ l => l | _ => mkLog 0 0 false ∅ [] [] 0 ∅ end.
Definition oneSet : CommitLog :=
  match Append len (zeros 20) newLog with Ret _ l => l | _ => newLog end.
Definition ordersStore : Tables :=
  mkTables [] [] [Topic.mk "" "orders" {[0 := [1]]} None false RaftIndex.zero] [] [] [].
Definition ordersReplica (l : CommitLog) : Replica CommitLog :=
  mkReplica 1 (Partition.mk 0 0 "orders" [1] [1] 1 0 0 RaftIndex.zero) true (Some l) 0 0 None.
Definition sampleConfig : Config.t := Config.mk 1 "node" false "a:9092" true 0 false "a:9093" 1 [].
Definition ordersBroker (l : CommitLog) : Broker CommitLog FS Tables SimpleRaft :=
  mkBroker sampleConfig ordersStore [ordersReplica l] {["orders" := {[0 := 0%nat]}]} {[0 := fs l]}
    NewBrokerLookup (mkSimpleRaft true 1 []) [] [] [] [].

Lemma newLog_usable : log_holds newLog 0 [].
Proof.
  destruct (New_empty 1024 (-1) "delete" ltac:(lia)) as (l & E & Hl & H1 & _ & H3).
  unfold newLog. rewrite E. split_and!; [exact Hl|exact H3|rewrite H1; lia|rewrite H1; lia].
Qed.

Lemma oneSet_usable : exists m, LogMessageSet.PutOffset (zeros 20) 0 = Some m /\ log_holds oneSet 0 [m].
Proof.
  destruct (law_append newLog 0 [] (zeros 20) newLog_usable) as (l' & dr & kept & m & E & Ep & Em & Hh);
    [vm_compute; lia|vm_compute; intuition congruence|].
  symmetry in Em. apply app_eq_nil in Em as [-> ->]. exists m. split; [exact Ep|].
  unfold oneSet. change (Append len (zeros 20) newLog) with (log_append (zeros 20) newLog). rewrite E. exact Hh.
Qed.

Lemma orders_serves l b0 msgs : log_holds l b0 msgs ->
  serves (ordersBroker l) "orders" 0 0%nat (ordersReplica l) l b0 msgs.
Proof.
  intros Hh. split_and!; [|vm_compute; reflexivity|reflexivity|reflexivity|reflexivity|exact Hh].
  eexists. vm_compute. reflexivity.
Qed.

Definition produceOne : ProduceRequest.t :=
  ProduceRequest.mk 2 None 1 1000000 [TopicData.mk "orders" [Data.mk 0 (Some (zeros 20))]].
Definition fetchAt (off minBytes wait : Z) : FetchRequest.t :=
  FetchRequest.mk 1 (-1) wait minBytes 0 0 [FetchTopic.mk "orders" [FetchPartition.mk 0 off 100]].

Lemma produce_appends_witness :
  exists l' dropped kept m,
    handleProduce produceOne (fun _ _ => false) (fun _ _ => 5) (ordersBroker newLog) =
      Ret (ProduceResponse.mk 2 [ProduceTopicResponse.mk "orders" [ProducePartitionResponse.mk 0 ErrNone (0 + 0) 5 0]] 0)
        (putLog 0 (ordersReplica newLog) l' (ordersBroker newLog)) /\
    LogMessageSet.PutOffset (zeros 20) (0 + 0) = Some m /\ [] = dropped ++ kept /\
    log_holds l' (0 + len dropped) (kept ++ [m]).
Proof.
  apply (produce_appends (ordersBroker newLog) "orders" 0 0%nat (ordersReplica newLog) newLog 0 [] (zeros 20) produceOne);
    [apply orders_serves, newLog_usable|vm_compute; lia|vm_compute; intuition congruence|reflexivity|vm_compute; reflexivity|reflexivity].
Defined.

Lemma produce_then_fetch_witness :
  exists b' m j,
    handleProduce produceOne (fun _ _ => false) (fun _ _ => 5) (ordersBroker newLog) =
      Ret (ProduceResponse.mk (ProduceRequest.APIVersion produceOne) [ProduceTopicResponse.mk "orders"
             [ProducePartitionResponse.mk 0 ErrNone (0 + 0) 5 0]] 0) b' /\
    LogMessageSet.PutOffset (zeros 20) (0 + 0) = Some m /\
    handleFetch (fetchAt (0 + 0) 20 1000000) (fun _ _ => false) (fun _ => 512%nat) 100 b' =
      Ret (FetchResponse.mk 1 0 [FetchTopicResponse.mk "orders"
             [FetchPartitionResponse.mk 0 ErrNone (0 + 0) 0 [] (Some (concat (drop j []) ++ m))]]) b'.
Proof.
  apply (produce_then_fetch (ordersBroker newLog) "orders" 0 100 0%nat (ordersReplica newLog) newLog 0 [] (zeros 20)
    produceOne (fetchAt (0 + 0) 20 1000000));
    [apply orders_serves, newLog_usable|reflexivity|vm_compute; lia|vm_compute; intuition congruence|reflexivity
    |vm_compute; reflexivity|reflexivity|reflexivity|vm_compute; reflexivity|vm_compute; intuition congruence
    |intros; lia|vm_compute; reflexivity|vm_compute; lia].
Defined.

Lemma late_produce_panics_witness :
  handleProduce produceOne (fun _ _ => true) (fun _ _ => 5) (ordersBroker newLog) = Crash.
Proof.
  apply (late_produce_panics (ordersBroker newLog) produceOne (fun _ _ => true) (fun _ _ => 5) 0%nat 0%nat
    (TopicData.mk "orders" [Data.mk 0 (Some (zeros 20))]) (Data.mk 0 (Some (zeros 20))));
    reflexivity.
Defined.

Lemma fetch_never_completes_witness :
  fetchFn "orders" (FetchPartition.mk 0 0 100) 21 (fun _ => 512%nat) 100 (ordersBroker oneSet) =
    Ret None (ordersBroker oneSet) /\
  handleFetch (fetchAt 0 21 1000000) (fun _ _ => false) (fun _ => 512%nat) 100 (ordersBroker oneSet) =
    Ret (FetchResponse.mk 1 0 [FetchTopicResponse.mk "orders"
           [FetchPartitionResponse.mk 0 ErrRequestTimedOut 0 0 [] None]]) (ordersBroker oneSet).
Proof.
  destruct oneSet_usable as (m & Ep & Hh). pose proof (PutOffset_length _ _ _ Ep) as Hl.
  apply (fetch_never_completes (ordersBroker oneSet) "orders" 0 0 100 0%nat (ordersReplica oneSet) oneSet 0 [m]
    (fetchAt 0 21 1000000)); cbn [concat]; rewrite ?app_nil_r.
  - apply orders_serves, Hh.
  - reflexivity.
  - vm_compute. intuition congruence.
  - reflexivity.
  - reflexivity.
  - unfold len. rewrite Hl. vm_compute. reflexivity.
  - intros; lia.
  - unfold len. rewrite Hl. vm_compute. reflexivity.
  - rewrite Hl. vm_compute. lia.
Defined.

(** The answer of the leader that [oneSet] gives to the first request. *)
Definition leaderReply : FetchResponse.t :=
  match handleFetch (fetchRequest (NewReplicator 0 1000000 (ordersReplica newLog)))
          (fun _ _ => false) (fun _ => 512%nat) 100 (ordersBroker oneSet) with
  | Ret res _ => res
  | _ => FetchResponse.mk 0 0 []
  end.
Lemma leaderReply_records : exists rs,
  FetchResponse.Responses leaderReply =
    [FetchTopicResponse.mk "orders" [FetchPartitionResponse.mk 0 ErrNone 0 0 [] (Some rs)]] /\ length rs = 20%nat.
Proof. eexists. split; vm_compute; reflexivity. Qed.

Definition sometimes : Z -> Z -> Prop := fun _ d => d = 500.
Lemma replicator_never_appends_witness :
  let r := NewReplicator 0 1000000 (ordersReplica newLog) in
  exists g, greaches (leaderAnswers (L := CommitLog) (D := FS) (DB := Tables) (RF := SimpleRaft) "orders" 0) sometimes
              (Replicate r newLog 0) g /\
    (exists p, fetching g = Taking [p]) /\ rep g = r /\ rlog g = newLog.
Proof.
  intros r. destruct oneSet_usable as (m & Ep & Hh). pose proof (PutOffset_length _ _ _ Ep) as Hl.
  set (g := receive (zip (partitionsOf leaderReply) [[]]) (Replicate r newLog 0)).
  assert (Hr : greaches (leaderAnswers (L := CommitLog) (D := FS) (DB := Tables) (RF := SimpleRaft) "orders" 0) sometimes
    (Replicate r newLog 0) g).
  { apply rtc_once. apply (GFetch _ _ (Replicate r newLog 0) leaderReply [[]]); [reflexivity|reflexivity| |vm_compute; reflexivity].
    right. exists (ordersBroker oneSet), (ordersBroker oneSet), 0%nat, (ordersReplica oneSet), oneSet, m, [],
      (fun _ _ => false), (fun _ => 512%nat), 100%nat, leaderReply. split_and!.
    + apply orders_serves, Hh.
    + reflexivity.
    + intros; lia.
    + cbn [concat]. rewrite app_nil_r. unfold len. rewrite Hl. vm_compute. reflexivity.
    + cbn [concat]. rewrite app_nil_r, Hl. vm_compute. lia.
    + vm_compute. reflexivity.
    + reflexivity. }
  exists g. split; [exact Hr|]. split.
  - destruct leaderReply_records as (rs & E & _). unfold g, partitionsOf. rewrite E. eexists. reflexivity.
  - exact (replicator_never_appends (D := FS) (DB := Tables) (RF := SimpleRaft) sometimes (ordersReplica newLog) 0 1000000
      newLog 0 g Hr).
Defined.

(** A leader that answers with sets at the offsets 1 and 2; a round of fetching in
    which the first was sent and appended. *)
Definition setAt (o : Z) : list byte := default [] (LogMessageSet.PutOffset (zeros 20) o).
Definition setReply (o : Z) : FetchPartitionResponse.t := FetchPartitionResponse.mk 0 ErrNone 7 7 [] (Some (setAt o)).
Definition twoSets : FetchResponse.t := FetchResponse.mk 0 0 [FetchTopicResponse.mk "orders" [setReply 1; setReply 2]].
Definition setAnswer (req : FetchRequest.t) (resp : error + FetchResponse.t) : Prop := resp = inr twoSets.
Definition startReplicator : Replicator := NewReplicator 0 1000000 (ordersReplica newLog).
Definition receivedTwo : Replication CommitLog :=
  receive [(setReply 1, []); (setReply 2, [])] (Replicate startReplicator newLog 0).
Definition sentOne : Replication CommitLog :=
  put_rep (sendSet (setReply 1) 1 (setAt 1) startReplicator) (Taking [(setReply 2, [])]) receivedTwo.
Definition logWithOne : CommitLog := match log_append (setAt 1) newLog with Ret _ l => l | _ => newLog end.
Definition appendedOne : Replication CommitLog :=
  mkReplication (dropMsg [] (rep sentOne)) logWithOne false (Taking [(setReply 2, [])]) AppendTop 0 0
    [[(setReply 1, []); (setReply 2, [])]].

Lemma replicator_in_order_witness :
  (exists appended, appends newLog appended logWithOne /\ [setAt 1; setAt 2] = appended ++ [] ++ [setAt 2]) /\
  Forall (fun ps => exists req res, setAnswer req (inr res) /\ ps.*1 = partitionsOf res) (received appendedOne) /\
  StronglySorted Z.lt [0; 1; 2] /\ (0 <= 2)%nat.
Proof.
  refine (replicator_in_order setAnswer sometimes startReplicator newLog 0 appendedOne eq_refl _).
  eapply rtc_l; [apply (GFetch _ _ _ twoSets [[]; []]); reflexivity|].
  eapply rtc_l; [apply (GSend _ _ receivedTwo (setReply 1) [] [(setReply 2, [])] 1 (setAt 1));
    [reflexivity|vm_compute; reflexivity|vm_compute; lia]|].
  apply rtc_once. apply (GAppend _ _ sentOne (setAt 1) [] 0 logWithOne); [reflexivity|reflexivity|].
  vm_compute. reflexivity.
Defined.

(** Sets of five bytes, as a test's leader answers with them: the three bytes that
    follow them in their array take part in their offsets, and all are wanted. *)
Definition shortReply (n : string) : PartitionAnswers :=
  [(FetchPartitionResponse.mk 0 ErrNone 0 0 [] (Some (bytes_of_string ("msg " ++ n))), zeros 3)].
Example short_sets_wanted :
  (wanted 0 (shortReply <$> ["0"; "1"; "2"; "3"])).*2 =
  bytes_of_string <$> ["msg 0"; "msg 1"; "msg 2"; "msg 3"].
Proof. vm_compute. reflexivity. Qed.

(** Two sets wait in the channel and a third one is to be sent. *)
Definition fullReplicator : Replicator := sendSet (setReply 2) 2 (setAt 2) (sendSet (setReply 1) 1 (setAt 1) startReplicator).
Definition fullReplication : Replication CommitLog :=
  mkReplication fullReplicator newLog false (Taking [(setReply 3, [])]) AppendTop 0 0 [].
Definition fullClosed : Replication CommitLog :=
  mkReplication fullReplicator newLog true (Taking [(setReply 3, [])]) AppendEnd 0 0 [].
Lemma closed_fetcher_leaks_witness :
  greaches setAnswer sometimes fullReplication fullClosed /\ fetching fullClosed = Taking [(setReply 3, [])].
Proof.
  refine (closed_fetcher_leaks setAnswer sometimes fullReplication fullClosed fullClosed (setReply 3) [] [] 3 (setAt 3)
    eq_refl eq_refl _ eq_refl _ eq_refl _).
  - cbn. lia.
  - vm_compute. reflexivity.
  - apply rtc_refl.
Defined.
