(* ===== verification/AdminProps.v ===== *)
(** * Properties of topics and replicas *)
From S2P Require Import Prelude Codec ClientApi TopicApi GroupApi ClusterApi LogMessage Index Segment CommitLog LogReader Structs Store StoreSteps Cluster LogService BrokerState Broker TopicAdmin ClusterInfo Samples.
From Stdlib Require Import Strings.Byte.

Section topics.
Context {L R D DB RF : Type} `{CommitLogLaws L R} `{LogDirs D L} `{!LogDirLaws D L R}.
Context {ToLower : string -> string} `{MemdbLaws ToLower DB} `{Raft RF}.
Context `{Msgpack Node.t} `{Msgpack Topic.t} `{Msgpack Partition.t} `{Msgpack Group.t}.

(** C10: a request to create a topic, on the controller: when raft commits its
    entries and the directories of the partitions are unused, the store knows
    the topic and all its partitions afterwards, each assigned to as many
    different brokers as asked for.  The answer is no error, unless there is
    another broker and the last network call that was made failed; without an
    error every other broker was sent the assignment, and this one serves the
    partitions that it leads. *)
Theorem create_topic_registers (b : Broker L D DB RF) (expired : nat -> bool) (o1 o2 : nat -> map_order)
    (rnd : nat -> nat -> nat) (reqs : CreateTopicRequests.t) (req : CreateTopicRequest.t)
    (Hreq : single reqs req b) (Hexp : expired 0%nat = false)
    (Hmem : CreateTopicRequest.ReplicationFactor req <= int16 (len (members b)))
    (Hcr : creatable (o1 0%nat) (o2 0%nat) req b) :
  exists code b' ps,
    handleCreateTopic expired o1 o2 rnd reqs b = Ret (topicAnswer reqs req code) b' /\
    topicMade (o1 0%nat) req b code b' ps.
Proof. exact (handleCreateTopic_made expired o1 o2 rnd reqs req b Hreq Hexp Hmem Hcr). Qed.

(** C32: what a request to create a topic is refused for, without any effect: this
    broker is not the controller, there are too few members or brokers for the
    replication factor, or the topic exists already. *)
Theorem create_topic_refused (b : Broker L D DB RF) (expired : nat -> bool) (o1 o2 : nat -> map_order)
    (rnd : nat -> nat -> nat) (reqs : CreateTopicRequests.t) (req : CreateTopicRequest.t)
    (Hreq : CreateTopicRequests.Requests reqs = [req]) (Ht : 0 < CreateTopicRequests.Timeout reqs)
    (Hexp : expired 0%nat = false) :
  let answer code := handleCreateTopic expired o1 o2 rnd reqs b = Ret (topicAnswer reqs req code) b in
  let factor := CreateTopicRequest.ReplicationFactor req in
  let topic := snd (GetTopic (CreateTopicRequest.Topic req) (db b)) in
  if negb (raft_isLeader (raft b)) then answer ErrNotController
  else if int16 (len (members b)) <? factor then answer ErrInvalidReplicationFactor
  else match topic with
       | Some _ => answer ErrTopicAlreadyExists
       | None => len (Brokers (o1 0%nat) (knownBrokers b)) < factor -> answer ErrInvalidReplicationFactor
       end.
Proof.
  intros answer factor topic. unfold answer. destruct (raft_isLeader (raft b)) eqn:Hl; cbn [negb].
  2:{ unfold handleCreateTopic, isController, isLeader. erewrite bind_Ret by reflexivity. rewrite Hl, Hreq. reflexivity. }
  rewrite (handleCreateTopic_one _ _ _ _ _ req b (conj Hreq (conj Ht Hl)) Hexp). fold factor.
  destruct (int16 (len (members b)) <? factor); [reflexivity|].
  destruct topic as [t|] eqn:Et.
  - erewrite bind_Ret by (eapply createTopic_exists, Et). reflexivity.
  - intros Hf. erewrite bind_Ret by (eapply createTopic_factor; [exact Et|exact Hf]). reflexivity.
Qed.

(** A broker obeys a leader-and-ISR request for partitions whose topics it
    knows and whose directories are unused: it answers for every partition,
    without error for those it is to lead, serves these from then on, and
    still serves what it served before from other directories.  Nothing but its
    replicas changes. *)
Theorem leader_and_isr_serves (b : Broker L D DB RF) (req : LeaderAndISRRequest.t)
    (Hst : Forall (startable b) (LeaderAndISRRequest.PartitionStates req))
    (Hnd : base.NoDup (PartitionState.Partition <$> LeaderAndISRRequest.PartitionStates req)) :
  exists cs b',
    handleLeaderAndISR req b = Ret (LeaderAndISRResponse.mk (LeaderAndISRRequest.APIVersion req) 0 cs) b' /\
    Forall2 (answers (configID b)) (LeaderAndISRRequest.PartitionStates req) cs /\ same_but_replicas b b' /\
    (forall st, st ∈ LeaderAndISRRequest.PartitionStates req -> PartitionState.Leader st = configID b ->
       hosts b' (PartitionState.Topic st) (PartitionState.Partition st)) /\
    (forall topic p ptr rep l b0 msgs, serves b topic p ptr rep l b0 msgs -> dirName rep = p ->
       p ∉ PartitionState.Partition <$> LeaderAndISRRequest.PartitionStates req ->
       serves b' topic p ptr rep l b0 msgs).
Proof. exact (handleLeaderAndISR_spec b req Hst Hnd). Qed.

(** C7: create, produce, fetch: on a broker that is alone in its cluster, every
    partition of a topic it has just created takes a record set, at offset 0,
    and gives it back to a fetch for that offset. *)
Theorem create_produce_fetch (b : Broker L D DB RF) (expired : nat -> bool) (o1 o2 : nat -> map_order)
    (rnd : nat -> nat -> nat) (reqs : CreateTopicRequests.t) (req : CreateTopicRequest.t) (me : BrokerMeta.t)
    (Hreq : single reqs req b) (Hexp : expired 0%nat = false)
    (Hmem : 1 <= int16 (len (members b)))
    (Hme : Brokers (o1 0%nat) (knownBrokers b) = [me]) (Hid : BrokerMeta.ID me = configID b)
    (Hf : CreateTopicRequest.ReplicationFactor req = 1) (Hcr : creatable (o1 0%nat) (o2 0%nat) req b) :
  exists b1, handleCreateTopic expired o1 o2 rnd reqs b = Ret (topicAnswer reqs req ErrNone) b1 /\
    forall i rs preq freq max timer now room fuel,
      (i < Z.to_nat (CreateTopicRequest.NumPartitions req))%nat -> (8 <= length rs)%nat -> len rs < 2 ^ 31 ->
      ProduceRequest.TopicData preq = [TopicData.mk (CreateTopicRequest.Topic req) [Data.mk (Z.of_nat i) (Some rs)]] ->
      0 < ProduceRequest.Timeout preq -> timer 0%nat 0%nat = false ->
      FetchRequest.Topics freq = [FetchTopic.mk (CreateTopicRequest.Topic req) [FetchPartition.mk (Z.of_nat i) 0 max]] ->
      0 < FetchRequest.MaxWaitTime freq -> 0 < FetchRequest.MinBytes freq <= len rs ->
      (forall k, (0 < room k)%nat) -> (length rs + 2 <= fuel)%nat ->
      exists b2 m,
        handleProduce preq timer now b1 =
          Ret (ProduceResponse.mk (ProduceRequest.APIVersion preq) [ProduceTopicResponse.mk (CreateTopicRequest.Topic req)
                 [ProducePartitionResponse.mk (Z.of_nat i) ErrNone 0 (now 0%nat 0%nat) 0]] 0) b2 /\
        LogMessageSet.PutOffset rs 0 = Some m /\
        handleFetch freq timer room fuel b2 =
          Ret (FetchResponse.mk (FetchRequest.APIVersion freq) 0 [FetchTopicResponse.mk (CreateTopicRequest.Topic req)
                 [FetchPartitionResponse.mk (Z.of_nat i) ErrNone 0 0 [] (Some m)]]) b2.
Proof.
  assert (Hone : forall br, br ∈ Brokers (o1 0%nat) (knownBrokers b) -> BrokerMeta.ID br = configID b).
  { intros br Hbr. rewrite Hme in Hbr. apply list_elem_of_singleton in Hbr as ->. exact Hid. }
  destruct (handleCreateTopic_made expired o1 o2 rnd reqs req b Hreq Hexp) as (code & b1 & ps & E & Hmade); [lia|exact Hcr|].
  destruct Hmade as [Hlen Hw _ _ Hcode _ Hhosts _].
  destruct Hcode as [->|(_ & (br & Hbr & Hne) & _)]; [|destruct (Hne (Hone br Hbr))].
  specialize (Hhosts eq_refl). exists b1. split; [exact E|].
  intros i rs preq freq max timer now room fuel Hi Hrs H31 Hp Hpt Htm Hfr Hfw Hmin Hroom Hfuel.
  destruct (lookup_lt_is_Some_2 ps i) as [p Hpi]; [lia|].
  destruct (Hw i p Hpi) as (_ & _ & _ & _ & Hhead & _ & _ & Hall).
  assert (Hlead : Partition.Leader p = configID b).
  { destruct (Partition.AR p) as [|x xs]; [discriminate|]. injection Hhead as <-. apply list.Forall_cons in Hall as [Hx _].
    apply list_elem_of_fmap in Hx as (br & -> & Hbr). exact (Hone br Hbr). }
  destruct (Hhosts i p Hpi Hlead) as (ptr & rep & l & Hs & Hrl & _).
  destruct (produce_fetch b1 _ (Z.of_nat i) max ptr rep l 0 [] rs preq freq timer now room fuel Hs Hrl Hrs)
    as (b2 & m & j & E1 & E2 & E3); try assumption.
  { vm_compute. intuition congruence. }
  exists b2, m. split; [exact E1|]. split; [exact E2|]. rewrite E3, drop_nil. reflexivity.
Qed.

(** C28: metadata agrees with creation: after a request that created a topic,
    metadata for it reports every partition once, with the leader, the replicas
    and the in-sync replicas it was assigned, and the brokers that are alive. *)
Theorem create_then_metadata (b : Broker L D DB RF) (expired : nat -> bool) (o1 o2 : nat -> map_order)
    (rnd : nat -> nat -> nat) (reqs : CreateTopicRequests.t) (req : CreateTopicRequest.t)
    (Hreq : single reqs req b) (Hexp : expired 0%nat = false)
    (Hmem : CreateTopicRequest.ReplicationFactor req <= int16 (len (members b)))
    (Hcr : creatable (o1 0%nat) (o2 0%nat) req b) (Hwell : wellRegistered b) :
  exists code b' ps,
    handleCreateTopic expired o1 o2 rnd reqs b = Ret (topicAnswer reqs req code) b' /\
    topicMade (o1 0%nat) req b code b' ps /\
    forall o mreq, valid_order (o 0%nat) -> MetadataRequest.Topics mreq = [CreateTopicRequest.Topic req] ->
      exists pm, pm ≡ₚ described <$> ps /\
        handleMetadata o mreq b' =
          Ret (MetadataResponse.mk (MetadataRequest.APIVersion mreq) (omap listed (members b)) 0
                 [TopicMetadata.mk ErrNone (CreateTopicRequest.Topic req) pm]) b'.
Proof.
  destruct (handleCreateTopic_made expired o1 o2 rnd reqs req b Hreq Hexp Hmem Hcr) as (code & b' & ps & E & Hmade).
  exists code, b', ps. split; [exact E|]. split; [exact Hmade|]. intros o mreq Ho Hm.
  destruct Hmade as [_ Hw [topic Ht] Hsame _ _ _ _]. pose proof (well_assigned_numbered _ _ _ _ Hw) as Hn.
  destruct (topicMetadataFn_known (db b') (o 0%nat) _ ps topic Ho Hn Ht) as (pm & Epm & Hperm).
  destruct (handleMetadata_Ret o mreq b' (wellRegistered_same b b' Hsame Hwell)) as (tm & Etm & Hone).
  exists pm. split; [exact Hperm|]. rewrite Etm, (Hone _ Hm), (proj1 Ht), Epm. destruct Hsame as [-> _]. reflexivity.
Qed.

(** C29: finding a coordinator: the first request makes the offsets topic, of 50
    partitions assigned to known brokers, and answers with the address of the
    leader of the partition that the hash of the key selects; every later
    request with that key gets the same coordinator and changes nothing. *)
Theorem find_coordinator_stable (Hash : string -> Z) (b : Broker L D DB RF) (o : map_order) (rnd : nat -> nat)
    (req : FindCoordinatorRequest.t) (Hready : offsetsReady o b)
    (Hnew : snd (GetTopic OffsetsTopicName (db b)) = None)
    (Hreach : forall id, id ∈ BrokerMeta.ID <$> Brokers o (knownBrokers b) ->
       exists br host port, reachable b id br host port) :
  exists b' ps p br host port,
    handleFindCoordinator Hash o rnd req b = Ret (coordinator req br host port) b' /\
    created b' OffsetsTopicName ps /\ length ps = 50%nat /\
    (forall i q, ps !! i = Some q ->
       well_assigned (Brokers o (knownBrokers b)) OffsetsTopicName (Config.OffsetsTopicReplicationFactor (config b)) i q) /\
    ps !! Z.to_nat (Hash (FindCoordinatorRequest.CoordinatorKey req) mod 50) = Some p /\
    reachable b (Partition.Leader p) br host port /\
    forall o' rnd' req', FindCoordinatorRequest.CoordinatorKey req' = FindCoordinatorRequest.CoordinatorKey req ->
      handleFindCoordinator Hash o' rnd' req' b' = Ret (coordinator req' br host port) b'.
Proof.
  destruct (offsetsTopic_makes o rnd b Hready Hnew) as (b' & ps & t & topic & E & Hsame & Hlen & Hw & Ht & Hsz).
  set (key := FindCoordinatorRequest.CoordinatorKey req).
  pose proof (Z.mod_pos_bound (Hash key) 50 ltac:(lia)) as Hi.
  destruct (lookup_lt_is_Some_2 ps (Z.to_nat (Hash key mod 50))) as [p Hp]; [lia|].
  destruct (Hreach (Partition.Leader p)) as (br & host & port & Hbr).
  { destruct (Hw _ _ Hp) as (_ & _ & _ & _ & Hhead & _ & _ & Hall). destruct (Partition.AR p); [discriminate|].
    injection Hhead as ->. apply list.Forall_cons in Hall as [Hx _]. exact Hx. }
  assert (Hbr' : reachable b' (Partition.Leader p) br host port)
    by (destruct Hsame as (_ & Hkb & _); unfold reachable; rewrite Hkb; exact Hbr).
  assert (Hl : len ps = 50) by (unfold len; lia).
  exists b', ps, p, br, host, port. split_and!; [|exists topic; exact Ht|exact Hlen|exact Hw|exact Hp|exact Hbr|].
  - eapply coordinator_of; [exact E|exact Ht|exact Hsz|lia|rewrite Hl; exact Hp|exact Hbr'].
  - intros o' rnd' req' Hkey.
    eapply coordinator_of; [eapply offsetsTopic_known, Ht|exact Ht| |lia|rewrite Hl, Hkey; exact Hp|exact Hbr'].
    rewrite <- length_map_to_list, (proj1 (proj2 (proj2 Ht))), length_fmap. reflexivity.
Qed.
End topics.

(** ** Concrete inputs: the lone broker *)
#[local] Existing Instances nodePack topicPack partitionPack groupPack logOps logLaws CommitLog_dirs SimpleRaft_ops
  Tables_ascii Tables_ascii_laws.
#[local] Instance loneDirLaws : LogDirLaws FS CommitLog Reader := CommitLog_dir_laws len.

Definition ordersRequest : CreateTopicRequest.t := CreateTopicRequest.mk "orders" 3 1 ∅ ∅.
Definition createOrders : CreateTopicRequests.t := CreateTopicRequests.mk 0 [ordersRequest] 1000 false.
Definition canonical : nat -> map_order := fun _ => canonical_order.
Definition noTimer : nat -> bool := fun _ => false.

Lemma lone_single : single createOrders ordersRequest loneBroker.
Proof. split_and!; reflexivity. Qed.

Lemma lone_creatable : creatable canonical_order canonical_order ordersRequest loneBroker.
Proof.
  split.
  - split; exact canonical_order_valid.
  - split; apply (bool_decide_unpack _); vm_compute; exact I.
  - vm_compute. intuition congruence.
  - split; [discriminate|vm_compute; reflexivity].
  - split; [intros t _|intros p]; apply countable_packs.
  - apply commits_simple. reflexivity.
  - intros i _. reflexivity.
Qed.

Lemma create_topic_registers_witness :
  exists code b' ps,
    handleCreateTopic noTimer canonical canonical (fun _ i => i) createOrders loneBroker =
      Ret (topicAnswer createOrders ordersRequest code) b' /\
    topicMade canonical_order ordersRequest loneBroker code b' ps.
Proof.
  apply (create_topic_registers loneBroker noTimer canonical canonical (fun _ i => i) createOrders ordersRequest
    lone_single eq_refl); [vm_compute; congruence|exact lone_creatable].
Defined.

Lemma lone_addressed : addressed loneMeta "a" 9092.
Proof. split; [reflexivity|]. split; [repeat constructor; discriminate|unfold in_int; lia]. Qed.
Lemma lone_registered : wellRegistered loneBroker.
Proof.
  split; [intros k n E; cbn in E; discriminate|]. constructor; [|constructor].
  intros br _ E. assert (IsBroker loneMember = Some loneMeta) by (vm_compute; reflexivity).
  replace br with loneMeta by congruence. exists "a", 9092. exact lone_addressed.
Qed.

Lemma create_then_metadata_witness :
  exists code b' ps,
    handleCreateTopic noTimer canonical canonical (fun _ i => i) createOrders loneBroker =
      Ret (topicAnswer createOrders ordersRequest code) b' /\
    topicMade canonical_order ordersRequest loneBroker code b' ps /\
    exists pm, pm ≡ₚ described <$> ps /\
      handleMetadata canonical (MetadataRequest.mk 1 ["orders"] false) b' =
        Ret (MetadataResponse.mk 1 [ClientApi.Broker.mk 1 "a" 9092] 0 [TopicMetadata.mk ErrNone "orders" pm]) b'.
Proof.
  destruct (create_then_metadata loneBroker noTimer canonical canonical (fun _ i => i) createOrders ordersRequest
    lone_single eq_refl) as (code & b' & ps & E & Hm & Hmeta);
    [vm_compute; congruence|exact lone_creatable|exact lone_registered|].
  exists code, b', ps. split; [exact E|]. split; [exact Hm|].
  exact (Hmeta canonical (MetadataRequest.mk 1 ["orders"] false) canonical_order_valid eq_refl).
Defined.

Lemma find_coordinator_stable_witness :
  let req := FindCoordinatorRequest.mk 0 "billing" 0 in
  exists b' ps p br host port,
    handleFindCoordinator slen canonical_order (fun i => i) req loneBroker = Ret (coordinator req br host port) b' /\
    created b' OffsetsTopicName ps /\ length ps = 50%nat /\ ps !! 7%nat = Some p /\
    reachable loneBroker (Partition.Leader p) br host port /\
    handleFindCoordinator slen canonical_order (fun i => i) req b' = Ret (coordinator req br host port) b'.
Proof.
  destruct (find_coordinator_stable slen loneBroker canonical_order (fun i => i) (FindCoordinatorRequest.mk 0 "billing" 0))
    as (b' & ps & p & br & host & port & E & Hc & Hl & _ & Hp & Hr & Hagain).
  - split; [apply (bool_decide_unpack _); vm_compute; exact I|vm_compute; intuition congruence|
      split; [intros t _|intros q]; apply countable_packs|apply commits_simple; reflexivity].
  - vm_compute. reflexivity.
  - intros id Hid. assert (Hids : BrokerMeta.ID <$> Brokers canonical_order (knownBrokers loneBroker) = [1])
      by (vm_compute; reflexivity). rewrite Hids in Hid. apply list_elem_of_singleton in Hid as ->.
    exists loneMeta, "a", 9092. split; [vm_compute; reflexivity|]. split; [reflexivity|exact lone_addressed].
  - exists b', ps, p, br, host, port. split; [exact E|]. split; [exact Hc|]. split; [exact Hl|]. split; [exact Hp|].
    split; [exact Hr|]. apply Hagain. reflexivity.
Defined.

Lemma create_topic_refused_witness :
  handleCreateTopic noTimer canonical canonical (fun _ i => i)
    (CreateTopicRequests.mk 0 [CreateTopicRequest.mk "orders" 3 2 ∅ ∅] 1000 false) loneBroker =
  Ret (topicAnswer (CreateTopicRequests.mk 0 [CreateTopicRequest.mk "orders" 3 2 ∅ ∅] 1000 false)
         (CreateTopicRequest.mk "orders" 3 2 ∅ ∅) ErrInvalidReplicationFactor) loneBroker.
Proof.
  exact (create_topic_refused loneBroker noTimer canonical canonical (fun _ i => i)
    (CreateTopicRequests.mk 0 [CreateTopicRequest.mk "orders" 3 2 ∅ ∅] 1000 false)
    (CreateTopicRequest.mk "orders" 3 2 ∅ ∅) eq_refl eq_refl eq_refl).
Defined.

(** The lone broker once it knows the topic, and requests to lead a partition of
    it and to follow another. *)
Definition ordersTopic : Topic.t :=
  Topic.set_raft (RaftIndex.mk 1 1) (Topic.with_config (topicOf "orders" false [])).
Definition ordersKnown : Broker CommitLog FS Tables SimpleRaft :=
  set_db (default NewMemDB (Insert Topics ordersTopic (db loneBroker))) loneBroker.
Definition ordersStates : list PartitionState.t :=
  [PartitionState.mk "orders" 0 0 1 0 [1] 0 [1; 2] false; PartitionState.mk "orders" 1 0 2 0 [2] 0 [2; 1] false].

Lemma leader_and_isr_serves_witness :
  let req := LeaderAndISRRequest.mk 0 2 0 ordersStates [] in
  exists cs b', handleLeaderAndISR req ordersKnown = Ret (LeaderAndISRResponse.mk 0 0 cs) b' /\
    Forall2 (answers 1) ordersStates cs /\ same_but_replicas ordersKnown b' /\
    (forall st, st ∈ ordersStates -> PartitionState.Leader st = 1 ->
       hosts b' (PartitionState.Topic st) (PartitionState.Partition st)) /\
    (forall topic p ptr rep l b0 msgs, serves ordersKnown topic p ptr rep l b0 msgs -> dirName rep = p ->
       p ∉ PartitionState.Partition <$> ordersStates -> serves b' topic p ptr rep l b0 msgs).
Proof.
  apply (leader_and_isr_serves ordersKnown (LeaderAndISRRequest.mk 0 2 0 ordersStates [])).
  - assert (Ht : snd (GetTopic "orders" (db ordersKnown)) = Some ordersTopic) by (vm_compute; reflexivity).
    assert (Hp : cleanupPolicy ordersTopic = Some "delete") by (vm_compute; reflexivity).
    repeat constructor; try (exists ordersTopic; split; [exact Ht|exact Hp]).
  - apply (bool_decide_unpack _). vm_compute. exact I.
Defined.

Lemma create_produce_fetch_witness :
  exists b1 b2 m,
    handleCreateTopic noTimer canonical canonical (fun _ i => i) createOrders loneBroker =
      Ret (topicAnswer createOrders ordersRequest ErrNone) b1 /\
    handleProduce (ProduceRequest.mk 2 None 1 1000000 [TopicData.mk "orders" [Data.mk 2 (Some (zeros 20))]])
      (fun _ _ => false) (fun _ _ => 5) b1 =
      Ret (ProduceResponse.mk 2 [ProduceTopicResponse.mk "orders" [ProducePartitionResponse.mk 2 ErrNone 0 5 0]] 0) b2 /\
    LogMessageSet.PutOffset (zeros 20) 0 = Some m /\
    handleFetch (FetchRequest.mk 1 (-1) 1000000 20 0 0 [FetchTopic.mk "orders" [FetchPartition.mk 2 0 100]])
      (fun _ _ => false) (fun _ => 512%nat) 100 b2 =
      Ret (FetchResponse.mk 1 0 [FetchTopicResponse.mk "orders" [FetchPartitionResponse.mk 2 ErrNone 0 0 [] (Some m)]]) b2.
Proof.
  destruct (create_produce_fetch loneBroker noTimer canonical canonical (fun _ i => i) createOrders ordersRequest loneMeta
    lone_single eq_refl) as (b1 & E & Hrest).
  - vm_compute. congruence.
  - vm_compute. reflexivity.
  - reflexivity.
  - reflexivity.
  - exact lone_creatable.
  - destruct (Hrest 2%nat (zeros 20)
      (ProduceRequest.mk 2 None 1 1000000 [TopicData.mk "orders" [Data.mk 2 (Some (zeros 20))]])
      (FetchRequest.mk 1 (-1) 1000000 20 0 0 [FetchTopic.mk "orders" [FetchPartition.mk 2 0 100]]) 100
      (fun _ _ => false) (fun _ _ => 5) (fun _ => 512%nat) 100%nat) as (b2 & m & E1 & E2 & E3);
      [vm_compute; lia|vm_compute; lia|vm_compute; reflexivity|reflexivity|reflexivity|reflexivity|reflexivity
      |reflexivity|vm_compute; intuition congruence|intros; lia|vm_compute; lia|].
    exists b1, b2, m. auto.
Defined.

(** Partitions with the same number of two topics share a directory: on the
    lone broker, a record set that was produced to partition 0 of one topic is
    fetched from partition 0 of a topic that was created afterwards. *)
Theorem topics_share_directory :
  let create topic := handleCreateTopic noTimer canonical canonical (fun _ i => i)
    (CreateTopicRequests.mk 0 [CreateTopicRequest.mk topic 1 1 ∅ ∅] 1000 false) in
  let rs := zeros 8 ++ be_put 12 77 in
  outcome_result
    ((create "payments" ;;
      handleProduce (ProduceRequest.mk 2 None 1 1000000 [TopicData.mk "payments" [Data.mk 0 (Some rs)]])
        (fun _ _ => false) (fun _ _ => 5) ;;
      create "public" ;;
      handleFetch (FetchRequest.mk 1 (-1) 1000000 1 0 0 [FetchTopic.mk "public" [FetchPartition.mk 0 0 100]])
        (fun _ _ => false) (fun _ => 512%nat) 100) loneBroker) =
  Some (FetchResponse.mk 1 0 [FetchTopicResponse.mk "public" [FetchPartitionResponse.mk 0 ErrNone 0 0 [] (Some rs)]]).
Proof. vm_compute. reflexivity. Qed.

(** A broker that is told to follow a partition erases what it holds of it: a
    record set is still fetched after the broker was told once more to lead, but
    not when it was told to follow in between.  The fetch does not return then,
    and the next record set gets the offset 0 again. *)
Theorem following_erases_log :
  let create := handleCreateTopic noTimer canonical canonical (fun _ i => i)
    (CreateTopicRequests.mk 0 [CreateTopicRequest.mk "orders" 1 1 ∅ ∅] 1000 false) in
  let leader n := handleLeaderAndISR (LeaderAndISRRequest.mk 0 1 0 [PartitionState.mk "orders" 0 0 n 0 [1; 2] 0 [1; 2] false] []) in
  let rs := zeros 8 ++ be_put 12 77 in
  let produce := handleProduce (ProduceRequest.mk 2 None 1 1000000 [TopicData.mk "orders" [Data.mk 0 (Some rs)]])
    (fun _ _ => false) (fun _ _ => 5) in
  let fetch := handleFetch (FetchRequest.mk 1 (-1) 1000000 1 0 0 [FetchTopic.mk "orders" [FetchPartition.mk 0 0 100]])
    (fun _ _ => false) (fun _ => 512%nat) 100 in
  let fetched code rs := Some (FetchResponse.mk 1 0
    [FetchTopicResponse.mk "orders" [FetchPartitionResponse.mk 0 code 0 0 [] rs]]) in
  let stored offset := Some (ProduceResponse.mk 2
    [ProduceTopicResponse.mk "orders" [ProducePartitionResponse.mk 0 ErrNone offset 5 0]] 0) in
  outcome_result ((create ;; produce ;; leader 1 ;; fetch) loneBroker) = fetched ErrNone (Some rs) /\
  outcome_result ((create ;; produce ;; leader 2 ;; leader 1 ;; fetch) loneBroker) = fetched ErrRequestTimedOut None /\
  outcome_result ((create ;; produce ;; leader 1 ;; produce) loneBroker) = stored 1 /\
  outcome_result ((create ;; produce ;; leader 2 ;; leader 1 ;; produce) loneBroker) = stored 0.
Proof. vm_compute. auto. Qed.
