(* ===== verification/ClusterProps.v ===== *)
(** * Properties of several brokers *)
From S2P Require Import Prelude Codec ClientApi TopicApi ClusterApi LogMessage Index Segment CommitLog LogReader Structs Store StoreSteps Cluster LogService BrokerState Broker TopicAdmin ClusterWide Samples.

Section cluster.
Context {L R D DB RF : Type} `{CommitLogLaws L R} `{LogDirs D L} `{!LogDirLaws D L R}.
Context {ToLower : string -> string} `{MemdbLaws ToLower DB} `{Raft RF} `{!RaftEntries RF}.
Context `{Msgpack Node.t} `{Msgpack Topic.t} `{Msgpack Partition.t} `{Msgpack Group.t}.
Context (b f b' : Broker L D DB RF) (expired : nat -> bool) (o1 o2 : nat -> map_order) (rnd : nat -> nat -> nat).
Context (reqs : CreateTopicRequests.t) (req : CreateTopicRequest.t) (br : BrokerMeta.t).

(** C6: a topic that was created without an error reaches the other brokers.  A
    broker that had applied what the controller had applies the entries of the
    creation without a panic and then has the controller's store; the
    controller has sent it the assignment, which it obeys: it serves every
    partition that it is to lead, from an empty log. *)
Theorem create_topic_reaches_followers
    (Hreq : single reqs req b) (Hexp : expired 0%nat = false)
    (Hmem : CreateTopicRequest.ReplicationFactor req <= int16 (len (members b)))
    (Hcr : creatable (o1 0%nat) (o2 0%nat) req b)
    (Hfo : follows (Brokers (o1 0%nat) (knownBrokers b)) req b f br)
    (Hok : handleCreateTopic expired o1 o2 rnd reqs b = Ret (topicAnswer reqs req ErrNone) b') :
  exists ps es f1 cs f',
    created b' (CreateTopicRequest.Topic req) ps /\
    raft_entries (raft b') = raft_entries (raft b) ++ es /\
    catchUp es f = Some f1 /\ agree (db b') (db f1) /\
    (BrokerMeta.BrokerAddr br, isrRequest b ps) ∈ sent b' /\
    handleLeaderAndISR (isrRequest b ps) f1 = Ret (LeaderAndISRResponse.mk 0 0 cs) f' /\
    forall i p, ps !! i = Some p -> Partition.Leader p = configID f -> hosts f' (CreateTopicRequest.Topic req) (Z.of_nat i).
Proof.
  destruct (creation_seen b b' f expired o1 o2 rnd reqs req br Hreq Hexp Hmem Hcr Hfo Hok)
    as (ps & es & d & Hm & Hn & [Hlog Hrep] & Hsent & Ed & Hd).
  destruct (tm_policy _ _ _ _ _ _ Hm) as (topic & Ht & Hp). rewrite (agree_topic _ _ _ Hd) in Ht.
  destruct (follower_serves b (set_db d f) (CreateTopicRequest.Topic req) ps topic Hn Ht Hp) as (cs & f' & Ef & Hh).
  { intros i Hi. apply (fo_disk _ _ _ _ _ Hfo). rewrite (tm_count _ _ _ _ _ _ Hm) in Hi. lia. }
  exists ps, es, (set_db d f), cs, f'. split_and!; try assumption; [apply (tm_known _ _ _ _ _ _ Hm)|].
  unfold catchUp. rewrite Ed. reflexivity.
Qed.

(** C37: the order of the two messages is not enforced.  A broker that handles the
    assignment before it has applied the entries refuses every partition that
    it is to lead, in codes that the controller does not look at, and answers
    without an error; also when it has caught up with the controller's store,
    nothing can be produced to these partitions there. *)
Theorem early_assignment_unserved
    (Hreq : single reqs req b) (Hexp : expired 0%nat = false)
    (Hmem : CreateTopicRequest.ReplicationFactor req <= int16 (len (members b)))
    (Hcr : creatable (o1 0%nat) (o2 0%nat) req b)
    (Hfo : follows (Brokers (o1 0%nat) (knownBrokers b)) req b f br)
    (Hok : handleCreateTopic expired o1 o2 rnd reqs b = Ret (topicAnswer reqs req ErrNone) b') :
  exists ps es cs f1 f',
    created b' (CreateTopicRequest.Topic req) ps /\
    raft_entries (raft b') = raft_entries (raft b) ++ es /\
    (BrokerMeta.BrokerAddr br, isrRequest b ps) ∈ sent b' /\
    handleLeaderAndISR (isrRequest b ps) f = Ret (LeaderAndISRResponse.mk 0 0 cs) f1 /\
    catchUp es f1 = Some f' /\ agree (db b') (db f') /\
    forall i p, ps !! i = Some p -> Partition.Leader p = configID f ->
      cs !! i = Some (LeaderAndISRPartition.mk (CreateTopicRequest.Topic req) (Z.of_nat i) ErrUnknownTopicOrPartition) /\
      forall rs now, produceFn (CreateTopicRequest.Topic req) (Data.mk (Z.of_nat i) rs) now f' =
        Ret (Some (ErrReplicaNotAvailable, None)) f'.
Proof.
  destruct (creation_seen b b' f expired o1 o2 rnd reqs req br Hreq Hexp Hmem Hcr Hfo Hok)
    as (ps & es & d & Hm & Hn & [Hlog Hrep] & Hsent & Ed & Hd).
  destruct (tm_policy _ _ _ _ _ _ Hm) as (topic & Ht & _). rewrite (agree_topic _ _ _ Hd) in Ht.
  destruct (early_request b f (CreateTopicRequest.Topic req) ps Hn) as (cs & f1 & E & Hdb & Hcodes & Hidle).
  { rewrite <- (agree_topic _ _ _ (fo_agree _ _ _ _ _ Hfo)). apply (cr_name _ _ _ _ Hcr). }
  exists ps, es, cs, f1, (set_db d f1). split_and!; try assumption; [apply (tm_known _ _ _ _ _ _ Hm)| |].
  - unfold catchUp. rewrite Hdb, Ed. reflexivity.
  - intros i p Hi Hl. split; [exact (Hcodes i p Hi Hl)|]. intros rs now. eapply idle_refuses; [apply idle_set_db, (Hidle _ _ Hi)|exact Ht].
Qed.
End cluster.

(** ** Concrete inputs: two brokers *)
#[local] Existing Instances nodePack topicPack partitionPack groupPack logOps logLaws CommitLog_dirs LoggedRaft_ops
  LoggedRaft_entries Tables_ascii Tables_ascii_laws.
#[local] Instance pairDirLaws : LogDirLaws FS CommitLog Reader := CommitLog_dir_laws len.

(** Broker 1 controls, broker 2 follows. *)
Definition pairRequest : CreateTopicRequest.t := CreateTopicRequest.mk "orders" 2 1 ∅ ∅.
Definition pairRequests : CreateTopicRequests.t := CreateTopicRequests.mk 0 [pairRequest] 1000 false.
Definition otherConfig : Config.t := Config.mk 2 "other" false "b:9092" true 0 false "b:9093" 1 [].
Definition otherMember : SerfMember.t :=
  SerfMember.mk "other" {["role" := "jocko"; "id" := "2"; "raft_addr" := "b:9093"; "broker_addr" := "b:9092"]} 1.
Definition otherMeta : BrokerMeta.t := BrokerMeta.mk 2 "" false 0 false 1 "b:9093" "" "b:9092".
Definition pairOf (c : Config.t) (leads : bool) : Broker CommitLog FS Tables LoggedRaft :=
  mkBroker c (NewMemDB : Tables) [] ∅ ∅ (AddBroker otherMeta (AddBroker loneMeta NewBrokerLookup))
    (mkLoggedRaft leads [] [Server.mk "1" "a:9093" true; Server.mk "2" "b:9093" true]) [loneMember; otherMember] []
    [true; true] [].
Definition controller : Broker CommitLog FS Tables LoggedRaft := pairOf loneConfig true.
Definition otherBroker : Broker CommitLog FS Tables LoggedRaft := pairOf otherConfig false.
Definition inOrder : nat -> map_order := fun _ => canonical_order.
Definition never : nat -> bool := fun _ => false.
Definition evenly : nat -> nat -> nat := fun _ i => i.

Lemma commits_logged n : forall r : LoggedRaft, lr_leads r = true -> commits n r.
Proof.
  induction n as [|n IH]; intros r Hl; [exact I|]. intros buf. cbn. rewrite Hl.
  eexists _, _. split; [reflexivity|]. apply IH. reflexivity.
Qed.

Lemma pair_creatable : creatable canonical_order canonical_order pairRequest controller.
Proof.
  split.
  - split; exact canonical_order_valid.
  - split; apply (bool_decide_unpack _); vm_compute; exact I.
  - vm_compute. intuition congruence.
  - split; [discriminate|vm_compute; reflexivity].
  - split; [intros t _|intros p]; apply countable_packs.
  - apply commits_logged. reflexivity.
  - intros i _. reflexivity.
Qed.

Lemma pair_single : single pairRequests pairRequest controller.
Proof. split_and!; reflexivity. Qed.

Lemma pair_follows : follows (Brokers canonical_order (knownBrokers controller)) pairRequest controller otherBroker otherMeta.
Proof.
  split.
  - split_and!; [vm_compute; repeat constructor|reflexivity|discriminate].
  - split; [intros K V t k _; reflexivity|reflexivity].
  - intros i _. reflexivity.
Qed.

(** The controller creates the topic, one partition for each broker. *)
Lemma pair_creates : exists b', handleCreateTopic never inOrder inOrder evenly pairRequests controller =
  Ret (topicAnswer pairRequests pairRequest ErrNone) b'.
Proof.
  destruct (handleCreateTopic_made never inOrder inOrder evenly pairRequests pairRequest controller pair_single eq_refl)
    as (code & b' & ps & E & _); [vm_compute; congruence|exact pair_creatable|].
  assert (Hc : match handleCreateTopic never inOrder inOrder evenly pairRequests controller with
               | Ret a _ => TopicErrorCode.ErrorCode <$> CreateTopicsResponse.TopicErrorCodes a
               | _ => [] end = [ErrNone]) by (vm_compute; reflexivity).
  rewrite E in Hc. injection Hc as ->. exists b'. exact E.
Qed.

Lemma create_topic_reaches_followers_witness :
  exists b' ps es f1 cs f',
    handleCreateTopic never inOrder inOrder evenly pairRequests controller =
      Ret (topicAnswer pairRequests pairRequest ErrNone) b' /\
    created b' "orders" ps /\
    raft_entries (raft b') = es /\ catchUp es otherBroker = Some f1 /\ agree (db b') (db f1) /\
    ("b:9092", isrRequest controller ps) ∈ sent b' /\
    handleLeaderAndISR (isrRequest controller ps) f1 = Ret (LeaderAndISRResponse.mk 0 0 cs) f' /\
    forall i p, ps !! i = Some p -> Partition.Leader p = 2 -> hosts f' "orders" (Z.of_nat i).
Proof.
  destruct pair_creates as [b' E]. exists b'.
  destruct (create_topic_reaches_followers controller otherBroker b' never inOrder inOrder evenly pairRequests pairRequest
    otherMeta pair_single eq_refl) as (ps & es & f1 & cs & f' & Hc & He & Hrest);
    [vm_compute; congruence|exact pair_creatable|exact pair_follows|exact E|].
  exists ps, es, f1, cs, f'. exact (conj E (conj Hc (conj He Hrest))).
Defined.

Lemma early_assignment_unserved_witness :
  exists b' ps es cs f1 f',
    handleCreateTopic never inOrder inOrder evenly pairRequests controller =
      Ret (topicAnswer pairRequests pairRequest ErrNone) b' /\
    created b' "orders" ps /\
    raft_entries (raft b') = es /\ ("b:9092", isrRequest controller ps) ∈ sent b' /\
    handleLeaderAndISR (isrRequest controller ps) otherBroker = Ret (LeaderAndISRResponse.mk 0 0 cs) f1 /\
    catchUp es f1 = Some f' /\ agree (db b') (db f') /\
    forall i p, ps !! i = Some p -> Partition.Leader p = 2 ->
      cs !! i = Some (LeaderAndISRPartition.mk "orders" (Z.of_nat i) ErrUnknownTopicOrPartition) /\
      forall rs now, produceFn "orders" (Data.mk (Z.of_nat i) rs) now f' = Ret (Some (ErrReplicaNotAvailable, None)) f'.
Proof.
  destruct pair_creates as [b' E]. exists b'.
  destruct (early_assignment_unserved controller otherBroker b' never inOrder inOrder evenly pairRequests pairRequest
    otherMeta pair_single eq_refl) as (ps & es & cs & f1 & f' & Hc & He & Hrest);
    [vm_compute; congruence|exact pair_creatable|exact pair_follows|exact E|].
  exists ps, es, cs, f1, f'. exact (conj E (conj Hc (conj He Hrest))).
Defined.

(** Broker 2 leads one of the two partitions. *)
Lemma pair_leaders :
  match handleCreateTopic never inOrder inOrder evenly pairRequests controller with
  | Ret _ b' => (fun x => PartitionState.Leader <$> LeaderAndISRRequest.PartitionStates (snd x)) <$> sent b'
  | _ => [] end = [[1; 2]].
Proof. vm_compute. reflexivity. Qed.
