(* ===== verification/GroupProps.v ===== *)
(** * Properties of consumer groups *)
From S2P Require Import Prelude Codec ClientApi TopicApi GroupApi ClusterApi LogMessage Index Segment CommitLog LogReader Structs Store StoreSteps Cluster LogService BrokerState Broker TopicAdmin GroupAdmin Samples.

Section groups.
Context {L R D DB RF : Type} `{CommitLogOps L R} `{LogDirs D L}.
Context {ToLower : string -> string} `{MemdbLaws ToLower DB} `{Raft RF}.
Context `{Msgpack Node.t} `{Msgpack Topic.t} `{Msgpack Partition.t} `{Msgpack Structs.Group.t}.

(** C30: a member without an id that joins a group is given one and is in the group
    afterwards, beside the members there were; the first to join leads, and a
    later one is told who does.  Only the leader is told the members.  Other
    groups and other tables are as before. *)
Theorem join_group_adds_member (b : Broker L D DB RF) (o : map_order) (clientID uuid : string)
    (r : JoinGroupRequest.t) (Hm : JoinGroupRequest.MemberID r = "") (Hn : named (joining b r))
    (Hp : forall g : Structs.Group.t, packs g) (Hraft : commits 1 (raft b)) :
  let id := clientID +:+ "-" +:+ uuid in
  let before := joining b r in
  exists g b',
    handleJoinGroup o clientID uuid r b =
      Ret (JoinGroupResponse.mk (JoinGroupRequest.APIVersion r) 0 ErrNone 0 "" (Structs.Group.LeaderID g) id
             (if decide (Structs.Group.LeaderID g = id) then membersOf o g else [])) b' /\
    snd (GetGroup (JoinGroupRequest.GroupID r) (db b')) = Some g /\
    Structs.Group.Members g = <[id := Structs.Member.mk id None None]> (Structs.Group.Members before) /\
    Structs.Group.LeaderID g = (if decide (Structs.Group.LeaderID before = "") then id else Structs.Group.LeaderID before) /\
    holdsGroup (ToLower := ToLower) g (db b) (db b').
Proof.
  intros id before. destruct (joined id (JoinGroupRequest.MemberID r) before) as [id' g] eqn:Ej.
  destruct (join_committed o clientID uuid r 0 b id' g Hn (Hp g) Ej Hraft) as (b' & ri & E & _ & Hh).
  unfold joined in Ej. rewrite Hm, (decide_True (P := "" = "")) in Ej by reflexivity.
  cbn [setMembers Structs.Group.LeaderID] in Ej. injection Ej as <- Eg.
  exists (Structs.Group.set_raft ri g), b'. split_and!; [exact E| | | |exact Hh].
  - eapply holdsGroup_at; [exact Hh|]. rewrite (joining_name b r). subst g. cbn. destruct (decide _); reflexivity.
  - subst g. destruct (decide _); reflexivity.
  - subst g. destruct (decide _); reflexivity.
Qed.

(** C36: whatever joins, leaves and syncs a broker has handled, raft having
    committed or refused their entries, no group has left the state in which it
    prepares a rebalance: every sync is answered with an error, nothing panics
    and no assignment is ever handed out. *)
Theorem sync_group_never_succeeds (b b' : Broker L D DB RF) (r : SyncGroupRequest.t)
    (Hp : forall g : Structs.Group.t, packs g) (Hf : fresh (db b)) (Hsteps : rtc groupStep b b') :
  handleSyncGroup r b' = Ret (syncAnswer r (syncCode r (db b')) None) b' /\ syncCode r (db b') <> ErrNone.
Proof.
  split; [exact (sync_fresh r b' (groupSteps_fresh b b' Hp Hsteps Hf))|].
  unfold syncCode. destruct (snd (GetGroup _ _)); [|discriminate]. destruct (decide _); [discriminate|].
  destruct (_ =? 0); discriminate.
Qed.

(** A leader that leaves its group stays the leader: the group names it
    though it is no member, and whoever joins next is told to follow it and is
    given no members. *)
Theorem departed_leader_kept (b : Broker L D DB RF) (o : map_order) (clientID uuid : string)
    (l : LeaveGroupRequest.t) (r : JoinGroupRequest.t) (g : Structs.Group.t) (m : Structs.Member.t)
    (Hg : snd (GetGroup (LeaveGroupRequest.GroupID l) (db b)) = Some g) (Hn : named g)
    (Hlead : Structs.Group.LeaderID g = LeaveGroupRequest.MemberID l)
    (Hmem : Structs.Group.Members g !! LeaveGroupRequest.MemberID l = Some m)
    (Hne : LeaveGroupRequest.MemberID l <> "")
    (Hsame : JoinGroupRequest.GroupID r = LeaveGroupRequest.GroupID l) (Hm : JoinGroupRequest.MemberID r = "")
    (Hid : clientID +:+ "-" +:+ uuid <> LeaveGroupRequest.MemberID l)
    (Hp : forall g : Structs.Group.t, packs g) (Hraft : commits 2 (raft b)) :
  exists b1 b2 g2,
    handleLeaveGroup l b = Ret (leaveAnswer l ErrNone) b1 /\
    handleJoinGroup o clientID uuid r b1 =
      Ret (JoinGroupResponse.mk (JoinGroupRequest.APIVersion r) 0 ErrNone 0 "" (LeaveGroupRequest.MemberID l)
             (clientID +:+ "-" +:+ uuid) []) b2 /\
    snd (GetGroup (LeaveGroupRequest.GroupID l) (db b2)) = Some g2 /\
    Structs.Group.LeaderID g2 = LeaveGroupRequest.MemberID l /\
    Structs.Group.Members g2 !! LeaveGroupRequest.MemberID l = None.
Proof.
  destruct (leave_committed l 1 b g m Hg Hn Hmem (Hp _) Hraft) as (b1 & ri & E1 & Hc & Hh).
  set (g1 := Structs.Group.set_raft ri (setMembers _ g)) in Hh.
  assert (Hg1 : snd (GetGroup (LeaveGroupRequest.GroupID l) (db b1)) = Some g1)
    by (eapply holdsGroup_at; [exact Hh|]; exact (group_named _ _ _ Hg)).
  assert (Ej : joining b1 r = g1) by (unfold joining; rewrite Hsame, Hg1; reflexivity).
  destruct (join_committed o clientID uuid r 0 b1 (clientID +:+ "-" +:+ uuid)
    (setMembers (<[clientID +:+ "-" +:+ uuid := Structs.Member.mk (clientID +:+ "-" +:+ uuid) None None]>
       (Structs.Group.Members g1)) g1)) as (b2 & ri2 & E2 & _ & Hh2);
    [rewrite Ej; exact Hn|apply Hp| |exact Hc|].
  { rewrite Ej. unfold joined. rewrite Hm, (decide_True (P := "" = "")) by reflexivity. cbn [setMembers Structs.Group.LeaderID].
    rewrite decide_False by (cbn; congruence). reflexivity. }
  eexists b1, b2, _. split; [exact E1|]. split_and!.
  - rewrite E2. unfold joinAnswer. cbn [setMembers g1 Structs.Group.set_raft Structs.Group.LeaderID]. rewrite Hlead.
    rewrite decide_False by congruence. reflexivity.
  - eapply holdsGroup_at; [exact Hh2|]. exact (group_named _ _ _ Hg).
  - exact Hlead.
  - cbn. rewrite lookup_insert_ne by exact Hid. apply lookup_delete_eq.
Qed.

(** A join of an existing group whose entry raft refuses is answered with an
    error, but the store of this broker has the member all the same: the group
    was changed in place. *)
Theorem refused_join_changes_store (b : Broker L D DB RF) (o : map_order) (clientID uuid : string)
    (r : JoinGroupRequest.t) (g0 : Structs.Group.t) (Hm : JoinGroupRequest.MemberID r = "")
    (Hg : snd (GetGroup (JoinGroupRequest.GroupID r) (db b)) = Some g0) (Hn : named g0)
    (Hp : forall g : Structs.Group.t, is_Some (mp_encode g))
    (Hraft : forall buf, exists e r', raft_apply buf (raft b) = (inl e, r')) :
  let id := clientID +:+ "-" +:+ uuid in
  exists b' g, handleJoinGroup o clientID uuid r b = Ret (joinError r) b' /\
    snd (GetGroup (JoinGroupRequest.GroupID r) (db b')) = Some g /\
    Structs.Group.Members g = <[id := Structs.Member.mk id None None]> (Structs.Group.Members g0).
Proof.
  intros id. assert (Eg : joining b r = g0) by (unfold joining; rewrite Hg; reflexivity).
  destruct (joined id (JoinGroupRequest.MemberID r) g0) as [id' g] eqn:Ej.
  destruct (Hp g) as [buf Eb].
  destruct (join_refused o clientID uuid r b id' g g0 buf) as (b' & E & Hh);
    [rewrite Eg; exact Hn|rewrite Eg; exact Ej|exact Hg|exact Eb|apply Hraft|].
  unfold joined in Ej. rewrite Hm, (decide_True (P := "" = "")) in Ej by reflexivity. injection Ej as _ Eg'.
  exists b', g. split; [exact E|]. split.
  - eapply holdsGroup_at; [exact Hh|]. rewrite (joining_name b r), Eg. subst g. destruct (decide _); reflexivity.
  - subst g. destruct (decide _); reflexivity.
Qed.

(** Describing groups panics when one of them does not exist or has a member;
    otherwise the answer describes no group at all. *)
Theorem describe_groups_nothing (b : Broker L D DB RF) (req : DescribeGroupsRequest.t) :
  handleDescribeGroups req b =
  if decide (Forall (fun id => Structs.Group.Members <$> snd (GetGroup id (db b)) = Some ∅)
               (DescribeGroupsRequest.GroupIDs req))
  then Ret (DescribeGroupsResponse.mk (DescribeGroupsRequest.APIVersion req) 0 []) b else Crash.
Proof.
  unfold handleDescribeGroups, mbind, M_bind.
  assert (E : forall ids, describeLoop ids b =
    if decide (Forall (fun id => Structs.Group.Members <$> snd (GetGroup id (db b)) = Some ∅) ids) then Ret tt b else Crash).
  { induction ids as [|id ids IH]; [rewrite decide_True by constructor; reflexivity|].
    cbn [describeLoop]. unfold groupOf. erewrite bind_Ret by reflexivity.
    destruct (snd (GetGroup id (db b))) as [g|] eqn:Eg.
    - destruct (decide (Structs.Group.Members g = ∅)) as [Hg|Hg].
      + rewrite IH. apply decide_ext. rewrite list.Forall_cons, Eg. cbn. rewrite Hg. tauto.
      + rewrite decide_False; [reflexivity|]. rewrite list.Forall_cons, Eg. cbn. intros [[= C] _]. exact (Hg C).
    - rewrite decide_False; [reflexivity|]. rewrite list.Forall_cons, Eg. intros [C _]. discriminate. }
  rewrite E. destruct (decide _); reflexivity.
Qed.
End groups.

(** ** Witnesses *)
#[local] Existing Instances nodePack topicPack partitionPack groupPack logOps CommitLog_dirs SimpleRaft_ops Tables_ascii Tables_ascii_laws.

Definition joinBilling : JoinGroupRequest.t := JoinGroupRequest.mk 0 "billing" 10000 0 "" "consumer" [].
Abbreviation Lone := (Broker CommitLog FS Tables SimpleRaft).

(** The lone broker once a group has a member that leads it. *)
Definition billing : Structs.Group.t :=
  Structs.Group.mk "" "billing" 1 "c-1" {["c-1" := Structs.Member.mk "c-1" None None]} 0 0 (RaftIndex.mk 1 1).
Definition billingBroker : Lone := set_db (default NewMemDB (Insert Groups billing (db loneBroker))) loneBroker.
Definition followerBroker : Lone := set_raft (mkSimpleRaft false 0 []) billingBroker.

Lemma group_packs (g : Structs.Group.t) : packs g.
Proof. apply countable_packs. Qed.

Lemma join_group_adds_member_witness :
  exists g (b' : Lone),
    handleJoinGroup canonical_order "c" "2" joinBilling billingBroker =
      Ret (JoinGroupResponse.mk 0 0 ErrNone 0 "" (Structs.Group.LeaderID g) "c-2"
             (if decide (Structs.Group.LeaderID g = "c-2") then membersOf canonical_order g else [])) b' /\
    snd (GetGroup "billing" (db b')) = Some g /\ Structs.Group.LeaderID g = "c-1".
Proof.
  destruct (join_group_adds_member billingBroker canonical_order "c" "2" joinBilling eq_refl) as (g & b' & E & Hg & _ & Hl & _).
  - vm_compute. discriminate.
  - exact group_packs.
  - apply commits_simple. reflexivity.
  - exists g, b'. split; [exact E|]. split; [exact Hg|]. rewrite Hl. vm_compute. reflexivity.
Defined.

Lemma sync_group_never_succeeds_witness :
  let r := SyncGroupRequest.mk 0 "billing" 0 "c-1" [] in
  exists b' : Lone, rtc groupStep loneBroker b' /\
    handleSyncGroup r b' = Ret (syncAnswer r (syncCode r (db b')) None) b' /\ syncCode r (db b') <> ErrNone.
Proof.
  destruct (handleJoinGroup canonical_order "c" "1" joinBilling loneBroker) as [res b'|e b'|] eqn:E;
    [|exfalso; vm_compute in E; discriminate..].
  exists b'. assert (Hs : rtc groupStep loneBroker b') by (eapply rtc_once, StepJoin, E). split; [exact Hs|].
  apply (sync_group_never_succeeds loneBroker b' (SyncGroupRequest.mk 0 "billing" 0 "c-1" [])); [exact group_packs| |exact Hs].
  intros id g C. vm_compute in C. discriminate.
Defined.

Lemma departed_leader_kept_witness :
  exists (b1 b2 : Lone) g2,
    handleLeaveGroup (LeaveGroupRequest.mk 0 "billing" "c-1") billingBroker =
      Ret (leaveAnswer (LeaveGroupRequest.mk 0 "billing" "c-1") ErrNone) b1 /\
    handleJoinGroup canonical_order "c" "2" joinBilling b1 =
      Ret (JoinGroupResponse.mk 0 0 ErrNone 0 "" "c-1" "c-2" []) b2 /\
    snd (GetGroup "billing" (db b2)) = Some g2 /\ Structs.Group.LeaderID g2 = "c-1" /\
    Structs.Group.Members g2 !! "c-1" = None.
Proof.
  apply (departed_leader_kept billingBroker canonical_order "c" "2" (LeaveGroupRequest.mk 0 "billing" "c-1") joinBilling
    billing (Structs.Member.mk "c-1" None None)).
  - vm_compute. reflexivity.
  - discriminate.
  - reflexivity.
  - vm_compute. reflexivity.
  - discriminate.
  - reflexivity.
  - reflexivity.
  - discriminate.
  - exact group_packs.
  - apply commits_simple. reflexivity.
Defined.

Lemma refused_join_changes_store_witness :
  exists (b' : Lone) g, handleJoinGroup canonical_order "c" "2" joinBilling followerBroker = Ret (joinError joinBilling) b' /\
    snd (GetGroup "billing" (db b')) = Some g /\
    Structs.Group.Members g = <["c-2" := Structs.Member.mk "c-2" None None]> (Structs.Group.Members billing).
Proof.
  apply (refused_join_changes_store followerBroker canonical_order "c" "2" joinBilling billing eq_refl).
  - vm_compute. reflexivity.
  - discriminate.
  - intros g. eexists. reflexivity.
  - intros buf. eexists _, _. reflexivity.
Defined.
