(* ===== verification/LeaderProps.v ===== *)
(** * Properties of the leader and of the membership *)
From S2P Require Import Prelude Codec ClientApi TopicApi GroupApi ClusterApi LogMessage Index Segment CommitLog LogReader Structs Store StoreSteps Cluster LogService BrokerState Broker TopicAdmin ClusterInfo GroupAdmin Membership Leader Failover Samples.

Section members.
Context {L R D DB RF : Type} `{CommitLogOps L R} `{LogDirs D L} `{Memdb DB} `{Raft RF}.

(** C14: whatever events serf delivers, the broker handles them, and it finds by
    number exactly the brokers that have joined and not left or failed since,
    as their last join described them.  When a broker keeps its raft address and
    shares it with no other, it also finds exactly these by their raft address,
    and lists each of them once. *)
Theorem serf_events_track_brokers (b : Broker L D DB RF) (es : list (list SerfMember.t * MemberEvent))
    (Hnew : knownBrokers b = NewBrokerLookup) :
  let alive := live (es.*2 ≫= eventsOf) in
  exists b', lanEventHandler es b = Ret tt b' /\
    (forall id, in_int 64 id -> BrokerByID (itoa id) (knownBrokers b') = alive !! id) /\
    (forall id, in_int 64 id -> BrokerAddr (itoa id) (knownBrokers b') =
       match alive !! id with Some br => inr (BrokerMeta.RaftAddr br) | None => inl (ErrOther "no broker for id") end) /\
    (stable (es.*2 ≫= eventsOf) ->
      (forall addr br, BrokerByAddr addr (knownBrokers b') = Some br <->
         alive !! BrokerMeta.ID br = Some br /\ BrokerMeta.RaftAddr br = addr) /\
      (forall o, valid_order o -> Brokers o (knownBrokers b') ≡ₚ (map_to_list alive).*2)).
Proof.
  intros alive. destruct (lanEventHandler_spec es b) as (b' & E & _ & Hk). exists b'. split; [exact E|].
  rewrite Hk, Hnew. split; [exact (handleEvents_byID _)|]. split.
  { intros id Hid. unfold alive. rewrite <- (handleEvents_byID _ _ Hid). reflexivity. }
  intros Hst. assert (Ht : tracks (es.*2 ≫= eventsOf) (handleEvents (es.*2 ≫= eventsOf)) alive)
    by (apply tracks_events; [exact Hst|auto|apply tracks_new]).
  split; [apply Ht|]. intros o Ho. exact (Brokers_perm o _ _ _ Ho Ht).
Qed.

(** C15: serf's events bootstrap raft once at most: only when it has no entries and
    as many brokers as expected have joined, none of which disagrees on the number or
    is in bootstrap mode, with exactly these as the servers; after that no number
    is expected.  The channel to the leader loop never holds more than 32
    members, and the store and the replicas are left alone. *)
Theorem bootstrap_at_most_once (b : Broker L D DB RF) (es : list (list SerfMember.t * MemberEvent)) :
  exists b', lanEventHandler es b = Ret tt b' /\
    (raft b' = raft b \/
     exists ms brokers, ms ∈ es.*1 /\ raft_lastIndex (raft b) = inr 0 /\ Config.BootstrapExpect (config b) <> 0 /\
       expected (Config.BootstrapExpect (config b)) ms = Some brokers /\
       Config.BootstrapExpect (config b) <= len brokers /\
       raft b' = snd (raft_bootstrap (peer <$> brokers) (raft b)) /\ Config.BootstrapExpect (config b') = 0) /\
    ((length (reconcileCh b) <= 32)%nat -> (length (reconcileCh b') <= 32)%nat) /\
    db b' = db b /\ replicas b' = replicas b /\ replicaLookup b' = replicaLookup b /\ disk b' = disk b.
Proof.
  destruct (lanEventHandler_spec es b) as (b' & E & [Hr _ Hch Hrest] & _). exists b'.
  split; [exact E|]. split; [exact Hr|]. split; [exact Hch|exact Hrest].
Qed.
End members.

(** A member's tags tell the others what its configuration says: its number,
    whether it bootstraps, how many brokers it expects, whether it votes, and its
    addresses; but its name is always empty. *)
Theorem member_tags_roundtrip (c : Config.t) (serfLANAddr name : string) (status : Z)
    (Hid : in_int 32 (Config.ID c)) (Hex : in_int 64 (Config.BootstrapExpect c)) :
  IsBroker (SerfMember.mk name (setupTags c serfLANAddr ∅) status) =
  Some (BrokerMeta.mk (Config.ID c) "" (Config.Bootstrap c) (Config.BootstrapExpect c) (Config.NonVoter c) status
          (Config.RaftAddr c) serfLANAddr (Config.Addr c)).
Proof. apply setup_IsBroker; [exact Hid|exact Hex|apply lookup_empty..]. Qed.

Section leader.
Context {L R D DB RF : Type} `{CommitLogOps L R} `{LogDirs D L}.
Context {ToLower : string -> string} `{MemdbLaws ToLower DB} `{RaftLaws RF}.
Context `{Msgpack Node.t} `{Msgpack Topic.t} `{Msgpack Partition.t} `{Msgpack Structs.Group.t}.

(** C12: reconciliation: when every member is an alive broker that raft has as a
    server, and raft has no other, the nodes of the store are afterwards the
    brokers among the members, but that the leader does not remove itself; a new
    node has the address of its broker and passes its check, one that was
    registered before stays as it was, and topics, partitions and groups are
    untouched. *)
Theorem reconcile_tracks_members (b : Broker L D DB RF) (servers : list Server.t) (rg rp : nat -> nat -> nat)
    (Hp : forall n : Node.t, packs n) (Hcfg : raft_configuration (raft b) = inr servers)
    (Hraft : alwaysCommits (raft b)) (Hms : Forall (settled servers) (members b))
    (Honly : membersOnly (members b) servers) (Hint : forall k n, First Nodes k (db b) = Some n -> in_int 32 k) :
  exists b', reconcile rg rp b = Ret None b' /\ stepTo b b' /\
    (forall K V (t : table K V) k, row t = true -> tableName t <> "nodes" -> First t k (db b') = First t k (db b)) /\
    (forall k, k ∈ brokerIDs (members b) ->
       exists n, First Nodes k (db b') = Some n /\ kept (members b) k (First Nodes k (db b)) n) /\
    (forall k, is_Some (First Nodes k (db b')) -> k ∈ brokerIDs (members b) \/ k = configID b).
Proof. exact (reconcile_spec servers rg rp b Hp Hcfg Hraft Hms Honly Hint). Qed.

(** An alive member that is not a broker stops reconciliation for good: once
    the members before it are dealt with, the leader panics. *)
Theorem non_broker_member_panics (b : Broker L D DB RF) (servers : list Server.t) (rg rp : nat -> nat -> nat)
    (pre post : list SerfMember.t) (m : SerfMember.t)
    (Hp : forall n : Node.t, packs n) (Hcfg : raft_configuration (raft b) = inr servers)
    (Hraft : alwaysCommits (raft b)) (Hms : members b = pre ++ m :: post) (Hpre : Forall (settled servers) pre)
    (Ha : SerfMember.Status m = StatusAlive) (Hb : IsBroker m = None) : reconcile rg rp b = Crash.
Proof.
  unfold reconcile. erewrite bind_Ret by reflexivity. rewrite Hms. unfold mbind at 1, M_bind at 1.
  rewrite reconcileMembers_app. destruct (reconcileMembers_spec servers rg rp pre Hp Hpre 0 ∅ b Hcfg Hraft) as (b1 & E & _).
  erewrite bind_Ret by exact E. cbn [reconcileMembers]. unfold reconcileMember, handleAliveMember. rewrite Ha, Hb. reflexivity.
Qed.

(** C13: when a broker other than broker 0 fails and another node passes its check,
    the leader marks it critical and registers every partition it led with a node
    that passes as the leader and without it among the replicas, and gives the groups
    it coordinated to such nodes; partitions and groups of others stay as they are.
    The index of groups by coordinator must have been right before, as it is after
    any entries, and is not afterwards ([moved_group_still_indexed]).
    But every request that is sent out names the failed broker as the leader. *)
Theorem failed_member_moved (b : Broker L D DB RF) (m : SerfMember.t) (meta : BrokerMeta.t) (rg rp : nat -> nat)
    (Hm : IsBroker m = Some meta) (Hpn : forall n : Node.t, packs n) (Hpp : forall p : Partition.t, packs p)
    (Hpg : forall g : Structs.Group.t, packs g) (Hraft : alwaysCommits (raft b)) (Hst : registeredStore (db b))
    (Hz : BrokerMeta.ID meta <> 0) (Hother : exists x, takesOver (db b) (BrokerMeta.ID meta) x) :
  exists e b', handleFailedMember rg rp m b = Ret e b' /\ failedOver m meta b b'.
Proof. exact (handleFailedMember_spec rg rp m meta b Hm Hpn Hpp Hpg Hraft Hst Hz Hother). Qed.

(** When broker 0 fails while it leads a partition, the leader panics: the
    nodes that pass are told apart from the failed one by a field that is 0 for
    all of them, so none is left to choose from. *)
Theorem broker_zero_failure_panics (b : Broker L D DB RF) (m : SerfMember.t) (meta : BrokerMeta.t) (rg rp : nat -> nat)
    (k : string * Z) (p : Partition.t)
    (Hm : IsBroker m = Some meta) (Hz : BrokerMeta.ID meta = 0) (Hpn : forall n : Node.t, packs n)
    (Hraft : alwaysCommits (raft b)) (Hst : registeredStore (db b))
    (Hp : First Partitions k (db b) = Some p) (Hl : Partition.Leader p = 0) :
  handleFailedMember rg rp m b = Crash.
Proof. exact (handleFailedMember_zero rg rp m meta b p k Hm Hz Hpn Hraft Hst Hp Hl). Qed.

(** A broker that failed and is back stays critical: its node, which lost its
    address when it failed, is left as it is. *)
Theorem recovered_broker_stays_critical (b : Broker L D DB RF) (m m' : SerfMember.t) (meta meta' : BrokerMeta.t)
    (servers : list Server.t) (rg rp : nat -> nat)
    (Hm : IsBroker m = Some meta) (Hm' : IsBroker m' = Some meta') (Hid : BrokerMeta.ID meta' = BrokerMeta.ID meta)
    (Hcfg : raft_configuration (raft b) = inr servers) (Hin : inConfiguration meta' servers)
    (Hpn : forall n : Node.t, packs n) (Hpp : forall p : Partition.t, packs p)
    (Hpg : forall g : Structs.Group.t, packs g) (Hraft : alwaysCommits (raft b)) (Hst : registeredStore (db b))
    (Hz : BrokerMeta.ID meta <> 0) (Hother : exists x, takesOver (db b) (BrokerMeta.ID meta) x) :
  exists e b' n, handleFailedMember rg rp m b = Ret e b' /\ handleAliveMember m' b' = Ret None b' /\
    First Nodes (BrokerMeta.ID meta) (db b') = Some n /\ Node.Address n = "" /\
    HealthCheck.Status <$> Node.Check n = Some HealthCritical.
Proof.
  destruct (handleFailedMember_spec rg rp m meta b Hm Hpn Hpp Hpg Hraft Hst Hz Hother) as (e & b' & E & [(n & Hn & _ & Ha & Hs) _ _ _ _ [Hr Hc]]).
  destruct (alive_registers m' meta' servers b') as (b2 & E2 & _ & Hb2); [rewrite Hc; exact Hcfg|assumption..|].
  rewrite Hid, Hn in Hb2. subst b2.
  exists e, b', n. auto.
Qed.

(** ** Leadership *)

(** A run of the leader: raft's notifications, intervals and members. *)
Inductive leaderRun : Broker L D DB RF * Leadership -> Prop :=
| LeaderStart b : leaderRun (b, mkLeadership false None)
| LeaderStep b s e b' s' : leaderRun (b, s) -> leaderStep e s b = Ret s' b' -> leaderRun (b', s').

Definition readyOnlyEstablished (s : Leadership) : Prop :=
  (ReadyForConsistentReads s = true -> exists l, Loop s = Some l /\ Established l = true) /\
  (forall l, Loop s = Some l -> Established l = true -> ReadyForConsistentReads s = true) /\
  (forall l, Loop s = Some l -> Listening l = true -> Established l = true).

Lemma monitor_ready isLeader s : readyOnlyEstablished s -> readyOnlyEstablished (monitorLeadership isLeader s).
Proof.
  intros (I1 & I2 & I3). unfold monitorLeadership. destruct (Loop s) as [l|] eqn:El, isLeader;
    try (split_and!; rewrite ?El; assumption).
  - destruct (Established l) eqn:Ee; split_and!; cbn; try discriminate.
    intros C. destruct (I1 C) as (l' & [= <-] & C'). congruence.
  - split_and!; cbn; [intros C; destruct (I1 C) as (l & C' & _); discriminate|intros l [= <-]; discriminate..].
Qed.

Lemma runReconcile_ready barrier rg rp l s (b b' : Broker L D DB RF) s' : Loop s = Some l -> readyOnlyEstablished s ->
  runReconcile barrier rg rp l s b = Ret s' b' -> readyOnlyEstablished s'.
Proof.
  intros El (I1 & I2 & I3). unfold runReconcile. destruct barrier; cbn [negb].
  - unfold mbind, M_bind. destruct (reconcile rg rp b) as [e b2|e b2|]; [|discriminate..].
    intros [= <- _]. destruct (Established l) eqn:Ee; split_and!; cbn; eauto; intros l' [= <-]; auto.
  - intros [= <- _]. split_and!; cbn.
    + intros C. destruct (I1 C) as (l' & E' & C'). rewrite El in E'. injection E' as <-. eauto.
    + intros l' [= <-] C. exact (I2 l El C).
    + intros l' [= <-]. discriminate.
Qed.

Lemma leaderStep_ready e s (b b' : Broker L D DB RF) s' : readyOnlyEstablished s ->
  leaderStep e s b = Ret s' b' -> readyOnlyEstablished s'.
Proof.
  intros Hs. destruct e as [isLeader| |barrier rg rp|rg rp]; cbn [leaderStep].
  - intros [= <- _]. exact (monitor_ready _ _ Hs).
  - intros [= <- _]. exact (monitor_ready _ _ Hs).
  - destruct (Loop s) as [l|] eqn:El; [exact (runReconcile_ready _ _ _ _ _ _ _ _ El Hs)|]. intros [= <- _]. exact Hs.
  - erewrite bind_Ret by reflexivity. intros E. assert (Es : s' = s); [|subst s'; exact Hs].
    destruct (Loop s) as [l|]; [|injection E as <- _; reflexivity].
    destruct (reconcileCh b) as [|m ch]; [injection E as <- _; reflexivity|].
    destruct (Listening l); [|injection E as <- _; reflexivity]. unfold mbind, M_bind, modify in E.
    destruct (reconcileMember rg rp m (set_reconcileCh ch b)); [injection E as <- _; reflexivity|discriminate..].
Qed.

(** C31: consistent reads are allowed exactly while a leader loop runs that has
    written its barrier; there is one loop at most, and members are taken from
    the channel only by a loop that is established. *)
Theorem ready_iff_established (b : Broker L D DB RF) (s : Leadership) (Hrun : leaderRun (b, s)) :
  (ReadyForConsistentReads s = true <-> exists l, Loop s = Some l /\ Established l = true) /\
  (forall l, Loop s = Some l -> Listening l = true -> Established l = true).
Proof.
  assert (Hinv : readyOnlyEstablished s).
  { change s with (snd (b, s)). induction Hrun as [b0|b0 s0 e b1 s1 _ IH E]; cbn [snd] in *.
    - split_and!; [discriminate|discriminate..].
    - exact (leaderStep_ready e s0 b0 b1 s1 IH E). }
  destruct Hinv as (I1 & I2 & I3). split; [split; [exact I1|intros (l & El & Ee); exact (I2 l El Ee)]|exact I3].
Qed.
End leader.

(** ** Witnesses *)
#[local] Existing Instances nodePack topicPack partitionPack groupPack logOps CommitLog_dirs SimpleRaft_ops SimpleRaft_laws Tables_ascii Tables_ascii_laws.
Abbreviation Lone := (Broker CommitLog FS Tables SimpleRaft).

(** A cluster of two: brokers 1, which leads, and 2. *)
Definition secondMember : SerfMember.t :=
  SerfMember.mk "second" {["role" := "jocko"; "id" := "2"; "raft_addr" := "b:9093"; "broker_addr" := "b:9092"]} 1.
Definition secondMeta : BrokerMeta.t := BrokerMeta.mk 2 "" false 0 false 1 "b:9093" "" "b:9092".
Definition pairServers : list Server.t := [Server.mk "1" "a:9093" true; Server.mk "2" "b:9093" true].
Definition put {K V} (t : table K V) (v : V) (d : Tables) : Tables := default d (Insert t v d).
Definition pairBroker (d : Tables) : Lone :=
  mkBroker loneConfig d [] ∅ ∅ (AddBroker secondMeta (AddBroker loneMeta NewBrokerLookup))
    (mkSimpleRaft true 0 pairServers) [loneMember; secondMember] [] [true; true] [].

Lemma alwaysCommits_simple i ss : alwaysCommits (mkSimpleRaft true i ss).
Proof. intros n. apply commits_simple. reflexivity. Qed.

Lemma pair_stable : stable [NodeJoin loneMember; NodeJoin secondMember].
Proof.
  intros e1 e2 m1 m2 Hin1 Hin2 E1 E2. cbn in Hin1, Hin2.
  assert (F1 : IsBroker loneMember = Some loneMeta) by (vm_compute; reflexivity).
  assert (F2 : IsBroker secondMember = Some secondMeta) by (vm_compute; reflexivity).
  rewrite !elem_of_cons, elem_of_nil in Hin1, Hin2.
  destruct Hin1 as [->|[->|[]]], Hin2 as [->|[->|[]]]; cbn [member] in E1, E2; rewrite ?F1, ?F2 in E1, E2;
    injection E1 as <-; injection E2 as <-; split; intros C; reflexivity || discriminate C.
Qed.

Lemma serf_events_track_brokers_witness :
  let e := mkMemberEvent EventMemberJoin [loneMember; secondMember] in
  let alive := live [NodeJoin loneMember; NodeJoin secondMember] in
  let b0 : Lone := set_knownBrokers NewBrokerLookup loneBroker in
  exists b', lanEventHandler [([loneMember; secondMember], e)] b0 = Ret tt b' /\
    (forall id, in_int 64 id -> BrokerByID (itoa id) (knownBrokers b') = alive !! id) /\
    (forall id, in_int 64 id -> BrokerAddr (itoa id) (knownBrokers b') =
       match alive !! id with Some br => inr (BrokerMeta.RaftAddr br) | None => inl (ErrOther "no broker for id") end) /\
    (forall addr br, BrokerByAddr addr (knownBrokers b') = Some br <->
       alive !! BrokerMeta.ID br = Some br /\ BrokerMeta.RaftAddr br = addr) /\
    (forall o, valid_order o -> Brokers o (knownBrokers b') ≡ₚ (map_to_list alive).*2).
Proof.
  destruct (serf_events_track_brokers (set_knownBrokers NewBrokerLookup loneBroker)
    [([loneMember; secondMember], mkMemberEvent EventMemberJoin [loneMember; secondMember])] eq_refl)
    as (b' & E & H1 & H2 & H3).
  exists b'. split; [exact E|]. split; [exact H1|]. split; [exact H2|]. exact (H3 pair_stable).
Defined.

Lemma member_tags_roundtrip_witness :
  IsBroker (SerfMember.mk "node" (setupTags loneConfig "a:7946" ∅) 1) =
  Some (BrokerMeta.mk 1 "" true 0 false 1 "a:9093" "a:7946" "a:9092").
Proof. apply (member_tags_roundtrip loneConfig "a:7946" "node" 1); unfold in_int; cbn; lia. Defined.

Lemma pair_brokers : IsBroker loneMember = Some loneMeta /\ IsBroker secondMember = Some secondMeta.
Proof. split; vm_compute; reflexivity. Qed.
Lemma pair_configured : inConfiguration loneMeta pairServers /\ inConfiguration secondMeta pairServers.
Proof.
  split; split.
  - apply Exists_cons_hd. split; vm_compute; reflexivity.
  - constructor; [|constructor; [|constructor]]; intros [C|C]; vm_compute in C;
      solve [discriminate C | split; vm_compute; reflexivity].
  - apply Exists_cons_tl, Exists_cons_hd. split; vm_compute; reflexivity.
  - constructor; [|constructor; [|constructor]]; intros [C|C]; vm_compute in C;
      solve [discriminate C | split; vm_compute; reflexivity].
Qed.
Lemma pair_settled : Forall (settled pairServers) [loneMember; secondMember].
Proof.
  repeat constructor.
  - exists loneMeta. split; [apply pair_brokers|apply pair_configured].
  - exists secondMeta. split; [apply pair_brokers|apply pair_configured].
Qed.

(** The node of a broker that is gone is still registered. *)
Definition staleBroker : Lone := pairBroker (put Nodes (bareNode 3) NewMemDB).

Lemma reconcile_tracks_members_witness :
  exists b', reconcile (fun _ _ => 0%nat) (fun _ _ => 0%nat) staleBroker = Ret None b' /\
    (forall k, k = 1 \/ k = 2 -> exists n, First Nodes k (db b') = Some n /\
       HealthCheck.Status <$> Node.Check n = Some HealthPassing) /\
    First Nodes 3 (db b') = None.
Proof.
  destruct (reconcile_tracks_members staleBroker pairServers (fun _ _ => 0%nat) (fun _ _ => 0%nat))
    as (b' & E & _ & _ & Hin & Hout).
  - intros n. apply countable_packs.
  - reflexivity.
  - apply alwaysCommits_simple.
  - exact pair_settled.
  - constructor; [exists 1; split; [vm_compute; left|vm_compute; reflexivity]|].
    constructor; [exists 2; split; [vm_compute; right; left|vm_compute; reflexivity]|constructor].
  - intros k n Hn. apply First_Get in Hn as Hget. pose proof (node_key k n _ Hn) as <-.
    assert (Hall : Get Nodes (db staleBroker) = [bareNode 3]) by (vm_compute; reflexivity).
    rewrite Hall in Hget. apply list_elem_of_singleton in Hget as ->. unfold in_int. cbn. lia.
  - assert (Hids : brokerIDs (members staleBroker) = [1; 2]) by (vm_compute; reflexivity). rewrite Hids in *.
    exists b'. split; [exact E|]. split.
    { intros k Hk. assert (Hk' : k ∈ [1; 2] /\ First Nodes k (db staleBroker) = None).
      { destruct Hk as [-> | ->]; (split; [|vm_compute; reflexivity]); repeat constructor. }
      destruct (Hin k (proj1 Hk')) as (n & En & Hn). rewrite (proj2 Hk') in Hn.
      destruct Hn as (m & meta & _ & _ & _ & _ & Hs). eauto. }
    destruct (First Nodes 3 (db b')) eqn:E3; [|reflexivity]. exfalso.
    destruct (Hout 3) as [C|C]; [rewrite E3; eauto| |discriminate C].
    apply elem_of_cons in C as [C|C]; [discriminate|]. apply list_elem_of_singleton in C. discriminate.
Defined.

Definition strangerMember : SerfMember.t := SerfMember.mk "agent" {["role" := "consul"]} 1.
Lemma non_broker_member_panics_witness :
  reconcile (fun _ _ => 0%nat) (fun _ _ => 0%nat)
    (set_members [loneMember; strangerMember] (pairBroker NewMemDB) : Lone) = Crash.
Proof.
  apply (non_broker_member_panics (set_members [loneMember; strangerMember] (pairBroker NewMemDB)) pairServers _ _
    [loneMember] [] strangerMember).
  - intros n. apply countable_packs.
  - reflexivity.
  - apply alwaysCommits_simple.
  - reflexivity.
  - repeat constructor. exists loneMeta. split; [apply pair_brokers|apply pair_configured].
  - reflexivity.
  - vm_compute. reflexivity.
Defined.

(** Both nodes are registered; broker 2 leads a partition and coordinates a group. *)
Definition ordersPartition (leader : Z) : Partition.t :=
  Partition.mk 0 0 "orders" [leader; 1] [leader; 1] leader 0 0 RaftIndex.zero.
Definition busyStore (leader : Z) : Tables :=
  put Groups (Structs.Group.mk "" "billing" leader "" ∅ 0 0 RaftIndex.zero)
    (put Partitions (ordersPartition leader) (put Nodes (aliveNode secondMeta) (put Nodes (aliveNode loneMeta) NewMemDB))).
Definition failedMember (id : string) : SerfMember.t :=
  SerfMember.mk "second" {["role" := "jocko"; "id" := id; "raft_addr" := "b:9093"; "broker_addr" := "b:9092"]} 4.
Definition failedMeta (id : Z) : BrokerMeta.t := BrokerMeta.mk id "" false 0 false 4 "b:9093" "" "b:9092".

Lemma put_indexed {K V K' V'} (i : intIndex K V) (t : table K' V') v (d : Tables) : indexed i d -> indexed i (put t v d).
Proof. intros Hi. unfold put. destruct (Insert t v d) as [d'|] eqn:E; [exact (indexed_insert i t v d d' E Hi)|exact Hi]. Qed.
Lemma busy_indexed {K V} (i : intIndex K V) leader : indexed i (busyStore leader).
Proof. unfold busyStore. do 4 apply put_indexed. apply indexed_new. Qed.

Lemma busy_registered leader : leader = 0 \/ leader = 2 -> registeredStore (busyStore leader).
Proof.
  intros Hl. apply registeredStore_Get; [..|apply busy_indexed|apply busy_indexed];
    destruct Hl as [->| ->]; apply (bool_decide_unpack _); vm_compute; exact I.
Qed.

Lemma one_takes_over : takesOver (busyStore 2) 2 1.
Proof.
  exists (aliveNode loneMeta). split; [vm_compute; reflexivity|]. split; [|discriminate].
  eexists. split; [reflexivity|reflexivity].
Qed.

Lemma failed_member_moved_witness :
  exists e b', handleFailedMember (fun _ => 0%nat) (fun _ => 0%nat) (failedMember "2") (pairBroker (busyStore 2)) = Ret e b' /\
    failedOver (failedMember "2") (failedMeta 2) (pairBroker (busyStore 2)) b'.
Proof.
  apply (failed_member_moved (pairBroker (busyStore 2)) (failedMember "2") (failedMeta 2)).
  - vm_compute. reflexivity.
  - intros n. apply countable_packs.
  - intros p. apply countable_packs.
  - intros g. apply countable_packs.
  - apply alwaysCommits_simple.
  - apply busy_registered; auto.
  - discriminate.
  - exists 1. exact one_takes_over.
Defined.

(** The group that was moved is found under its old coordinator still: it was
    changed in place before it was registered, so the registration removes the
    entry of the new coordinator and not that of the old one.  When the broker is
    back and fails again, the leader moves the old object over the group. *)
Theorem moved_group_still_indexed :
  let listed z (b : Lone) := (fun g => (Structs.Group.Group g, Structs.Group.Coordinator g)) <$> snd (GetGroupsByCoordinator z (db b)) in
  match handleFailedMember (fun _ => 0%nat) (fun _ => 0%nat) (failedMember "2") (pairBroker (busyStore 2) : Lone) with
  | Ret _ b' => (listed 2 b', listed 1 b') = ([("billing", 1)], [("billing", 1)])
  | _ => False
  end.
Proof. vm_compute. reflexivity. Qed.

Lemma broker_zero_failure_panics_witness :
  handleFailedMember (fun _ => 0%nat) (fun _ => 0%nat) (failedMember "0") (pairBroker (busyStore 0) : Lone) = Crash.
Proof.
  apply (broker_zero_failure_panics (pairBroker (busyStore 0)) (failedMember "0") (failedMeta 0) _ _ ("orders", 0)
    (ordersPartition 0)).
  - vm_compute. reflexivity.
  - reflexivity.
  - intros n. apply countable_packs.
  - apply alwaysCommits_simple.
  - apply busy_registered; auto.
  - vm_compute. reflexivity.
  - reflexivity.
Defined.

Lemma recovered_broker_stays_critical_witness :
  exists e b' n, handleFailedMember (fun _ => 0%nat) (fun _ => 0%nat) (failedMember "2") (pairBroker (busyStore 2)) = Ret e b' /\
    handleAliveMember secondMember b' = Ret None b' /\ First Nodes 2 (db b') = Some n /\ Node.Address n = "" /\
    HealthCheck.Status <$> Node.Check n = Some HealthCritical.
Proof.
  apply (recovered_broker_stays_critical (pairBroker (busyStore 2)) (failedMember "2") secondMember (failedMeta 2) secondMeta
    pairServers).
  - vm_compute. reflexivity.
  - apply pair_brokers.
  - reflexivity.
  - reflexivity.
  - apply pair_configured.
  - intros n. apply countable_packs.
  - intros p. apply countable_packs.
  - intros g. apply countable_packs.
  - apply alwaysCommits_simple.
  - apply busy_registered; auto.
  - discriminate.
  - exists 1. exact one_takes_over.
Defined.

Lemma ready_iff_established_witness :
  exists (b' : Lone) s, leaderRun (b', s) /\
    (ReadyForConsistentReads s = true <-> exists l, Loop s = Some l /\ Established l = true) /\
    ReadyForConsistentReads s = true.
Proof.
  destruct (leaderStep (Notify true) (mkLeadership false None) staleBroker) as [s1 b1|e b1|] eqn:E1;
    [|exfalso; vm_compute in E1; discriminate..].
  destruct (leaderStep (Interval true (fun _ _ => 0%nat) (fun _ _ => 0%nat)) s1 b1) as [s2 b2|e b2|] eqn:E2;
    [|exfalso; injection E1 as <- <-; vm_compute in E2; discriminate..].
  assert (Hrun : leaderRun (b2, s2)) by (eapply LeaderStep, E2; eapply LeaderStep, E1; constructor).
  exists b2, s2. split; [exact Hrun|]. split; [apply (ready_iff_established b2 s2 Hrun)|].
  injection E1 as <- <-. vm_compute in E2. injection E2 as <- _. reflexivity.
Defined.
