(* ===== verification/RunProps.v ===== *)
(** * Properties of serving requests *)
From S2P Require Import Prelude Encoder Decoder Codec ClientApi TopicApi GroupApi ClusterApi MessageSets Wire Conn LogMessage Index Segment CommitLog LogReader Structs Store StoreSteps Cluster LogService BrokerState Broker TopicAdmin ClusterInfo GroupAdmin Run ServerSteps Samples.

Section run.
Context {L R D DB RF : Type} `{CommitLogOps L R} `{LogDirs D L} `{Memdb DB} `{Raft RF}.
Context `{Msgpack Node.t} `{Msgpack Topic.t} `{Msgpack Structs.Partition.t} `{Msgpack Structs.Group.t}.

(** C18: the requests that are read from a connection are answered in their order,
    each with the correlation id of its header and an answer of the type that
    belongs to the key of its header, at the version of its header, where the
    answer has a version; only the answers about API versions and about the
    creation of topics are at version 0, whatever was asked for. *)
Theorem answers_match_requests (b b' : Broker L D DB RF) (w : nat -> World) (conn : list byte)
    (answers : list (Z * option Answer)) (Hrun : Run w 0 (fst (handleRequest conn)) b = Ret answers b') :
  Forall2 (fun hr ia => fst ia = RequestHeader.CorrelationID (fst hr) /\
             exists a, snd ia = Some a /\ answerKey a = RequestHeader.APIKey (fst hr) /\
               forall v, answerVersion a = Some v ->
                 v = (if decide (RequestHeader.APIKey (fst hr) ∈ [APIVersionsKey; CreateTopicsKey]) then 0
                      else RequestHeader.APIVersion (fst hr)))
    (fst (handleRequest conn)) answers.
Proof.
  pose proof (Run_inKind w _ 0%nat (handleRequest_carries conn) _ _ _ Hrun) as Hf. revert Hf. apply Forall2_impl.
  intros hr ia (Hid & a & Ha & Hk & Hv). split; [exact Hid|]. exists a. split; [exact Ha|]. split; [exact Hk|].
  intros v E. rewrite E in Hv. exact Hv.
Qed.

(** C2: a call over a connection, end to end: the client writes the frame of its
    request; the server reads it, the broker handles it and the answer is
    written; the client waits for it, and returns what the handler answered.
    The answer must fit the client's buffer. *)
Theorem call_end_to_end {B} `{ResponseLaws B} (inj : B -> Answer) (oL oB : map_order) (w : nat -> World)
    (body : Body) (c : Conn) (b b' : Broker L D DB RF) (r : B)
    (Hinj : writesAs inj) (HL : valid_order oL) (HB : valid_order oB) (Hopen : Conn.closed c = false)
    (Hw : wf_request (Request.mk (int32 (correlationID c + 1)) (clientID c) body))
    (Hhandle : forall h, RequestHeader.ClientID h = clientID c -> dispatch (w 0%nat) h (seen body) b = Ret (Some (inj r)) b')
    (Hv : resp_wf (Version body) r)
    (Hreq : forall req, Encoder.Encode (Request.Encode oL (Request.mk (int32 (correlationID c + 1)) (clientID c) body))
       (Request.Encode oB (Request.mk (int32 (correlationID c + 1)) (clientID c) body)) = Ret req tt -> len req <= MaxInt32)
    (Hresp : forall frame, handleResponse oL oB (int32 (correlationID c + 1)) (inj r) = Ret frame tt ->
       len frame <= bufSize + 8) :
  exists req frame,
    Encoder.Encode (Request.Encode oL (Request.mk (int32 (correlationID c + 1)) (clientID c) body))
      (Request.Encode oB (Request.mk (int32 (correlationID c + 1)) (clientID c) body)) = Ret req tt /\
    serve oL oB w req b = Ret frame b' /\
    Conn.do oL oB body (mkConn (clientID c) (correlationID c) frame (outbox c) false) =
      Done (resp_seen r) (mkConn (clientID c) (int32 (correlationID c + 1)) [] (outbox c ++ req) false).
Proof.
  set (id := int32 (correlationID c + 1)) in *. set (rq := Request.mk id (clientID c) body) in *.
  destruct (request_bytes oL oB rq HL HB Hw) as (hb & bb & Dc & _ & Ereq & _).
  set (req := be_put 4 _ ++ hb ++ bb) in Ereq. exists req.
  destruct (response_bytes oL oB (Version body) (Response.mk 0 id r) HL HB Hv) as (rb & Efr & _).
  set (frame := be_put 4 _ ++ _ ++ rb) in Efr. exists frame.
  assert (Hframe : handleResponse oL oB id (inj r) = Ret frame tt) by (rewrite handleResponse_as by exact Hinj; exact Efr).
  split; [exact Ereq|]. split.
  - pose proof (handleRequest_stream oL oB [rq] [req] HL HB) as Hs. cbn [concat] in Hs. rewrite app_nil_r in Hs.
    unfold serve. rewrite Hs by (constructor; [exact (conj Hw (conj Ereq (Hreq _ Ereq)))|constructor]). cbn [zip_with].
    cbn [Run]. rewrite bind_assoc. rewrite (bind_Ret _ _ _ _ _ (Hhandle (header_of rq (len req)) eq_refl)).
    rewrite bind_assoc. erewrite bind_Ret by reflexivity. erewrite bind_Ret by reflexivity.
    cbn [respond header_of RequestHeader.CorrelationID Request.CorrelationID rq]. rewrite Hframe. cbn. rewrite app_nil_r. reflexivity.
  - destruct (do_exchange oL oB body (mkConn (clientID c) (correlationID c) frame (outbox c) false)
      (Response.mk 0 id r) frame [] HL HB eq_refl Hw Hv eq_refl Efr (Hresp _ Hframe)) as (req' & Ereq' & Edo);
      [rewrite app_nil_r; reflexivity|].
    assert (Er : (Ret req' tt : outcome unit _) = Ret req tt) by (rewrite <- Ereq; symmetry; exact Ereq').
    injection Er as ->. exact Edo.
Qed.

(** C3: however the goroutines of a server interleave, what its clients see is
    one history: the requests of all connections, merged, handled one after the
    other by [Run]; on each connection the handled ones are the first of those
    that its bytes hold, in order, and what was written to it are the answers
    to its own requests, in order.  When the channels are empty, nothing is
    missing: all requests of a connection that was read to the end are handled
    and, unless it was closed, answered.  The channels never hold more than
    1024 elements. *)
Theorem connections_share_one_history (oL oB : map_order) (w : nat -> World) (b0 : Broker L D DB RF)
    (s : Server) (Hrun : reaches oL oB w (NewServer b0) s) :
  exists hist ans, Run w 0 (hist.*2) b0 = Ret ans (broker s) /\
    (length (requestCh s) <= 1024)%nat /\ (length (responseCh s) <= 1024)%nat /\
    forall c k, clients s !! c = Some k ->
      proj c hist `prefix_of` fst (handleRequest (received k)) /\
      (exists n, respond oL oB (take n (proj c (zip (hist.*1) ans))) = Some (written k)) /\
      (isOpen k = true -> responseCh s = [] -> outgoing s = None ->
         respond oL oB (proj c (zip (hist.*1) ans)) = Some (written k)) /\
      (sending k = None -> requestCh s = [] -> readRequest (unread k) = Closed ->
         proj c hist = fst (handleRequest (received k))).
Proof.
  destruct (reaches_history _ _ _ _ _ Hrun) as (hist & ans & wr & Hh). exists hist, ans.
  split; [exact (s_run _ _ _ _ _ _ _ _ Hh)|]. destruct (s_room _ _ _ _ _ _ _ _ Hh) as [Hr1 Hr2].
  split; [exact Hr1|]. split; [exact Hr2|]. intros c k Hc.
  destruct (s_read _ _ _ _ _ _ _ _ Hh c k Hc) as [_ Hp]. apply parsed_handleRequest in Hp.
  destruct (s_written _ _ _ _ _ _ _ _ Hh c k Hc) as (n & Hw & Hn & Ho).
  pose proof (s_queue _ _ _ _ _ _ _ _ Hh) as Hq. repeat split.
  - rewrite Hp, proj_app, <- !app_assoc. apply prefix_app_r. reflexivity.
  - exists n. rewrite Hq, proj_app, take_app_le by exact Hn. exact Hw.
  - intros Hop Hres Hout. rewrite Hres, Hout in Hq. cbn in Hq. rewrite app_nil_r in Hq. rewrite Hq.
    rewrite (Ho Hop), take_ge in Hw by lia. exact Hw.
  - intros Hsend Hreq Hend. rewrite Hp, Hreq, Hsend. cbn [opt_list]. rewrite !app_nil_r.
    unfold handleRequest. cbn [handleRequests]. rewrite Hend. cbn [fst]. rewrite app_nil_r. reflexivity.
Qed.

(** A connection on which the server has stopped to read, because the client
    has closed its side or sent a frame of size 0, is closed at once: the
    answers to its requests that are still on their way are never written. *)
Theorem hung_up_loses_answers (oL oB : map_order) (w : nat -> World) (s s' : Server (L := L) (D := D) (DB := DB) (RF := RF))
    (c : nat) (k : Client) (Hc : clients s !! c = Some k) (Hopen : isOpen k = true) (Hidle : sending k = None)
    (Hend : readRequest (unread k) = Closed) (Heof : eof k = true)
    (Hrun : reaches oL oB w (put c (hangUp k) s) s') :
  serverStep oL oB w s (Some (put c (hangUp k) s)) /\
  exists k', clients s' !! c = Some k' /\ written k' = written k.
Proof.
  split; [apply SHangUp; auto|].
  destruct (hung_up_final oL oB w c (hangUp k) _ _ Hrun) as (k' & Hk & _ & Hw); [apply lookup_insert_eq|reflexivity|].
  exists k'. auto.
Qed.
End run.

(** ** Witnesses *)
#[local] Existing Instances nodePack topicPack partitionPack groupPack logOps CommitLog_dirs SimpleRaft_ops Tables_ascii Tables_ascii_laws.
Abbreviation Lone := (Broker CommitLog FS Tables SimpleRaft).

Definition quiet : World :=
  mkWorld (fun _ _ => false) (fun _ _ => 5) (fun _ => 512%nat) 100 (fun _ => canonical_order) (fun _ => canonical_order)
    (fun _ _ => 0%nat) "u" slen.

(** The frames of two requests: metadata for all topics, and a heartbeat. *)
Definition twoRequests : list byte :=
  default [] (r1 ← outcome_result (Encoder.Encode
      (Request.Encode canonical_order (Request.mk 7 "c" (Wire.Metadata (MetadataRequest.mk 1 [] false))))
      (Request.Encode canonical_order (Request.mk 7 "c" (Wire.Metadata (MetadataRequest.mk 1 [] false)))));
    r2 ← outcome_result (Encoder.Encode
      (Request.Encode canonical_order (Request.mk 8 "c" (Wire.Heartbeat (HeartbeatRequest.mk 0 "billing" 0 "m"))))
      (Request.Encode canonical_order (Request.mk 8 "c" (Wire.Heartbeat (HeartbeatRequest.mk 0 "billing" 0 "m")))));
    Some (r1 ++ r2)).
Definition twoAnswers : list (Z * option Answer) :=
  [(7, Some (RMetadata (MetadataResponse.mk 1 [ClientApi.Broker.mk 1 "a" 9092] 0 [])));
   (8, Some (RHeartbeat (HeartbeatResponse.mk 0 0 ErrInvalidGroupId)))].

Lemma answers_match_requests_witness :
  Run (fun _ => quiet) 0 (fst (handleRequest twoRequests)) loneBroker = Ret twoAnswers (loneBroker : Lone) /\
  Forall2 (fun hr ia => fst ia = RequestHeader.CorrelationID (fst hr) /\
             exists a, snd ia = Some a /\ answerKey a = RequestHeader.APIKey (fst hr) /\
               forall v, answerVersion a = Some v ->
                 v = (if decide (RequestHeader.APIKey (fst hr) ∈ [APIVersionsKey; CreateTopicsKey]) then 0
                      else RequestHeader.APIVersion (fst hr)))
    (fst (handleRequest twoRequests)) twoAnswers.
Proof.
  assert (E : Run (fun _ => quiet) 0 (fst (handleRequest twoRequests)) loneBroker = Ret twoAnswers (loneBroker : Lone))
    by (vm_compute; reflexivity).
  split; [exact E|]. exact (answers_match_requests loneBroker loneBroker (fun _ => quiet) twoRequests twoAnswers E).
Defined.

Definition client : Conn := mkConn "c" 6 [] [] false.
Definition aliveMetadata : MetadataResponse.t := MetadataResponse.mk 1 [ClientApi.Broker.mk 1 "a" 9092] 0 [].

Lemma call_end_to_end_witness :
  exists req frame,
    serve canonical_order canonical_order (fun _ => quiet) req loneBroker = Ret frame (loneBroker : Lone) /\
    Conn.Metadata canonical_order canonical_order (MetadataRequest.mk 1 [] false)
      (mkConn "c" 6 frame [] false) = Done aliveMetadata (mkConn "c" 7 [] req false).
Proof.
  destruct (call_end_to_end RMetadata canonical_order canonical_order (fun _ => quiet)
    (Wire.Metadata (MetadataRequest.mk 1 [] false)) client loneBroker loneBroker aliveMetadata) as (req & frame & _ & E2 & E3).
  - intros E P o r. reflexivity.
  - exact canonical_order_valid.
  - exact canonical_order_valid.
  - reflexivity.
  - apply (bool_decide_unpack _). vm_compute. exact I.
  - intros h _. vm_compute. reflexivity.
  - split; [reflexivity|]. apply (bool_decide_unpack _). vm_compute. exact I.
  - intros req Er. vm_compute in Er. injection Er as <-. vm_compute. discriminate.
  - intros frame Er. vm_compute in Er. injection Er as <-. vm_compute. discriminate.
  - exists req, frame. split; [exact E2|exact E3].
Defined.

(** Two clients whose requests are read and handled in turns. *)
Definition frameOf (id : Z) (body : Body) : list byte :=
  default [] (outcome_result (Encoder.Encode (Request.Encode canonical_order (Request.mk id "c" body))
    (Request.Encode canonical_order (Request.mk id "c" body)))).
Definition askMetadata : list byte := frameOf 7 (Wire.Metadata (MetadataRequest.mk 1 [] false)).
Definition askHeartbeat : list byte := frameOf 8 (Wire.Heartbeat (HeartbeatRequest.mk 0 "billing" 0 "m")).
Definition requestOf (bs : list byte) : RequestHeader.t * Body :=
  match readRequest bs with Got h b _ => (h, b) | _ => (RequestHeader.mk 0 0 0 0 "", Wire.ListGroups (ListGroupsRequest.mk 0)) end.
Definition answerOf (bs : list byte) : option Answer :=
  match dispatch quiet (requestOf bs).1 (requestOf bs).2 (loneBroker : Lone) with Ret a _ => a | _ => None end.
Definition replyOf (id : Z) (bs : list byte) : list byte :=
  match answerOf bs with
  | Some a => default [] (outcome_result (handleResponse canonical_order canonical_order id a))
  | None => []
  end.

Definition asked (bs : list byte) : Client := receive bs newClient.
Definition waiting (bs : list byte) : Client := took (requestOf bs).1 (requestOf bs).2 [] (asked bs).
Definition bothArrived : Server :=
  put 1 (asked askHeartbeat) (put 0 (asked askMetadata) (put 1 newClient (put 0 newClient (NewServer (loneBroker : Lone))))).
Definition bothRead : Server := put 0 (waiting askMetadata) (put 1 (waiting askHeartbeat) bothArrived).
Definition bothQueued : Server :=
  mkServer (loneBroker : Lone)
    (<[0%nat := sent (waiting askMetadata)]> (<[1%nat := sent (waiting askHeartbeat)]> (clients bothRead)))
    [(1%nat, requestOf askHeartbeat); (0%nat, requestOf askMetadata)] None [] 0.
Definition bothAnswered : Server :=
  mkServer (loneBroker : Lone) (clients bothQueued) [] None
    [(1%nat, (8, answerOf askHeartbeat)); (0%nat, (7, answerOf askMetadata))] 2.
Definition bothServed : Server :=
  mkServer (loneBroker : Lone)
    (<[0%nat := writeTo (replyOf 7 askMetadata) (sent (waiting askMetadata))]>
       (<[1%nat := writeTo (replyOf 8 askHeartbeat) (sent (waiting askHeartbeat))]> (clients bothAnswered)))
    [] None [] 2.

Lemma both_served_run :
  reaches canonical_order canonical_order (fun _ => quiet) (NewServer (loneBroker : Lone)) bothServed.
Proof.
  eapply rtc_l; [apply (SAccept _ _ _ 0); reflexivity|].
  eapply rtc_l; [apply (SAccept _ _ _ 1); reflexivity|].
  eapply rtc_l; [apply (SArrive _ _ _ 0 newClient askMetadata); reflexivity|].
  eapply rtc_l; [apply (SArrive _ _ _ 1 newClient askHeartbeat); reflexivity|].
  eapply rtc_l.
  { apply (SRead _ _ _ 1 (asked askHeartbeat) (requestOf askHeartbeat).1 (requestOf askHeartbeat).2 []);
      vm_compute; reflexivity. }
  eapply rtc_l.
  { apply (SRead _ _ _ 0 (asked askMetadata) (requestOf askMetadata).1 (requestOf askMetadata).2 []);
      vm_compute; reflexivity. }
  change (put 0 _ _) with bothRead.
  eapply rtc_l; [apply (SRequest _ _ _ 1 (waiting askHeartbeat) (requestOf askHeartbeat)); [reflexivity|reflexivity|unfold capacity; cbn; lia]|].
  eapply rtc_l; [apply (SRequest _ _ _ 0 (waiting askMetadata) (requestOf askMetadata)); [reflexivity|reflexivity|unfold capacity; cbn; lia]|].
  change (mkServer _ _ _ _ _ _) with bothQueued.
  eapply rtc_l; [apply (SHandle _ _ _ 1 (requestOf askHeartbeat).1 (requestOf askHeartbeat).2
    [(0%nat, requestOf askMetadata)] (answerOf askHeartbeat) loneBroker); vm_compute; reflexivity|].
  eapply rtc_l; [apply SRespond; [reflexivity|unfold capacity; cbn; lia]|].
  eapply rtc_l; [apply (SHandle _ _ _ 0 (requestOf askMetadata).1 (requestOf askMetadata).2
    [] (answerOf askMetadata) loneBroker); vm_compute; reflexivity|].
  eapply rtc_l; [apply SRespond; [reflexivity|unfold capacity; cbn; lia]|].
  change (mkServer _ _ _ _ _ _) with bothAnswered.
  destruct (answerOf askHeartbeat) as [a1|] eqn:E1; [|vm_compute in E1; discriminate].
  destruct (answerOf askMetadata) as [a0|] eqn:E0; [|vm_compute in E0; discriminate].
  eapply rtc_l.
  { apply (SWrite _ _ _ 1 8 a1 (replyOf 8 askHeartbeat) [(0%nat, (7, Some a0))] (sent (waiting askHeartbeat)));
      [cbn [bothAnswered responseCh]; rewrite E1, E0; reflexivity| |reflexivity..].
    unfold replyOf. rewrite E1. vm_compute in E1. injection E1 as <-. vm_compute. reflexivity. }
  apply rtc_once. apply (SWrite _ _ _ 0 7 a0 (replyOf 7 askMetadata) [] (sent (waiting askMetadata)));
    [reflexivity| |reflexivity..].
  unfold replyOf. rewrite E0. vm_compute in E0. injection E0 as <-. vm_compute. reflexivity.
Qed.

Lemma connections_share_one_history_witness :
  exists hist ans, Run (fun _ => quiet) 0 (hist.*2) (loneBroker : Lone) = Ret ans (loneBroker : Lone) /\
    proj 1 hist = [requestOf askHeartbeat] /\
    respond canonical_order canonical_order (proj 1 (zip (hist.*1) ans)) = Some (replyOf 8 askHeartbeat).
Proof.
  destruct (connections_share_one_history canonical_order canonical_order (fun _ => quiet) (loneBroker : Lone)
    bothServed both_served_run) as (hist & ans & Hrun & _ & _ & Hc).
  set (k := writeTo (replyOf 8 askHeartbeat) (sent (waiting askHeartbeat))).
  assert (Hk : clients bothServed !! 1%nat = Some k).
  { cbn [bothServed clients]. rewrite lookup_insert_ne by discriminate. apply lookup_insert_eq. }
  assert (Hend : readRequest (unread k) = Closed) by (vm_compute; reflexivity).
  assert (Hall : fst (handleRequest (received k)) = [requestOf askHeartbeat]) by (vm_compute; reflexivity).
  destruct (Hc 1%nat k Hk) as (_ & _ & Hw & Hr). rewrite Hall in Hr.
  exists hist, ans. split; [exact Hrun|]. split; [exact (Hr eq_refl eq_refl Hend)|exact (Hw eq_refl eq_refl eq_refl)].
Defined.

(** A client that closes its side once its request is queued. *)
Definition leaving : Client := finish (sent (waiting askHeartbeat)).
Definition leavingQueued : Server := put 1 leaving bothQueued.
Lemma hung_up_loses_answers_witness :
  serverStep canonical_order canonical_order (fun _ => quiet) leavingQueued (Some (put 1 (hangUp leaving) leavingQueued)) /\
  exists k', clients (put 1 (hangUp leaving) leavingQueued) !! 1%nat = Some k' /\ written k' = written leaving.
Proof.
  refine (hung_up_loses_answers canonical_order canonical_order (fun _ => quiet) leavingQueued
    (put 1 (hangUp leaving) leavingQueued) 1 leaving _ _ _ _ _ _).
  - apply lookup_insert_eq.
  - reflexivity.
  - reflexivity.
  - vm_compute. reflexivity.
  - reflexivity.
  - apply rtc_refl.
Defined.
