(* ===== verification/ServiceProps.v ===== *)
(** * Properties of processes, dials and commands *)
From S2P Require Import Prelude Codec TopicApi ClusterApi LogMessage Index Segment CommitLog LogReader Structs Store StoreSteps Cluster LogService BrokerState Errors Broker TopicAdmin ClusterInfo Dialer Commands Lifecycle Samples.
From Stdlib Require Import Strings.Byte.

(** C33: starting and stopping a broker, whatever the libraries answer: the broker
    runs with everything it needs, and is shut down to nothing that is open, once;
    or it does not start, and then serf and the goroutines are not running and no
    store is left open without a raft node.  Raft is bootstrapped once at most,
    when there is no state. *)
Theorem broker_starts_and_stops (c : Config.t) (lib : Libs) :
  exists e s, NewBroker c lib noLife = Ret e s /\ bootstrapped c lib s /\
    match e with
    | None => running c s /\ exists s', Shutdown s = Ret None s' /\ released s' /\ Shutdown s' = Ret None s'
    | Some _ => serfNode s = None /\ loops s = false /\ (raftNode s = None -> raftStore s <> Some Open)
    end.
Proof.
  destruct (NewBroker_spec c lib) as (e & s & E & Hb & He & Hst). exists e, s. split; [exact E|]. split; [exact Hb|].
  destruct e as [e|]; [tauto|]. split; [exact He|]. destruct (Shutdown_running c s He) as (s' & E' & Hr & Hd).
  exists s'. split; [exact E'|]. split; [exact Hr|exact (Shutdown_again s' Hd)].
Qed.

(** A process that started and was told to stop holds nothing open, whatever
    closing the listener answers. *)
Theorem run_releases (c : Config.t) (lib : Libs) (resolve listen close : option error) :
  exists e p, run c lib resolve listen close (noLife, noServer) = Ret e p /\
    (e = None -> released (fst p) /\ Listener (snd p) <> Some Open).
Proof.
  destruct (NewBroker_spec c lib) as (e & s & E & _ & He & _). unfold run. destruct e as [e|].
  { eexists _, _. split; [unfold after at 1; erewrite bind_Ret by (apply onBroker_Ret, E); reflexivity|discriminate]. }
  erewrite after_Ret by (apply onBroker_Ret, E). destruct (Shutdown_running c s He) as (s' & Es & Hr & Hd).
  destruct resolve as [e|]; [eexists _, _; split; [reflexivity|discriminate]|].
  destruct listen as [e|]; [eexists _, _; split; [reflexivity|discriminate]|].
  erewrite after_Ret by reflexivity. erewrite after_Ret by (apply onBroker_Ret, Es).
  destruct (ServerShutdown_after close s' (mkServerLife (Some Open) true false false) Hd eq_refl) as (srv & Eq & Hl).
  erewrite bind_Ret by exact Eq. eexists _, _. split; [reflexivity|]. intros _. split; [exact Hr|]. cbn [snd]. rewrite Hl. discriminate.
Qed.

(** When serf does not start, the broker is given up but its raft node keeps
    running, with its transport and its store. *)
Theorem serf_failure_keeps_raft (c : Config.t) (e : error) (Hc : Config.DevMode c = false) :
  let lib := mkLibs None None None None None None (inr false) None None None (Some e) "addr" in
  exists s, NewBroker c lib noLife = Ret (Some e) s /\
    raftNode s = Some Open /\ raftTransport s = Some Open /\ raftStore s = Some Open.
Proof.
  intros lib. unfold NewBroker, setupRaft, startRaft, after, openStores, bootstrapSelf, setupSerf, unless, mbind, M_bind, modify,
    mret, M_ret. cbn. rewrite Hc. cbn. destruct (Config.Bootstrap c); cbn; eexists; split_and!; reflexivity.
Qed.
Lemma serf_failure_keeps_raft_witness :
  exists s, NewBroker (Config.mk 1 "node" false "a:9092" true 0 false "a:9093" 1 [])
    (mkLibs None None None None None None (inr false) None None None (Some (ErrOther "serf")) "addr") noLife =
    Ret (Some (ErrOther "serf")) s /\ raftNode s = Some Open.
Proof.
  destruct (serf_failure_keeps_raft (Config.mk 1 "node" false "a:9092" true 0 false "a:9093" 1 []) (ErrOther "serf") eq_refl)
    as (s & E & Hr & _). exists s. auto.
Defined.

(** Once the server is shut down, the loop that accepts connections goes round
    for ever without accepting any. *)
Theorem accept_loop_spins (done down : nat -> bool) (next : nat -> error + nat) (k : nat)
    (Hdown : forall i, (k <= i)%nat -> down i = true) :
  forall rounds, acceptLoop done down next rounds k = repeat Left rounds.
Proof.
  intros rounds. revert k Hdown. induction rounds as [|rounds IH]; intros k Hdown; [reflexivity|]. cbn.
  unfold acceptRound. rewrite (Hdown k) by lia. rewrite orb_true_r. f_equal. apply IH. intros i Hi. apply Hdown. lia.
Qed.
Lemma accept_loop_spins_witness : acceptLoop (fun _ => false) (fun i => bool_decide (2 <= i)%nat) (fun i => inr i) 3 2 = repeat Left 3.
Proof. apply accept_loop_spins. intros i Hi. apply bool_decide_eq_true_2. exact Hi. Defined.

(** A dial, whatever the resolver, the network and TLS answer: a connection that is
    handed out is open, to the address that was resolved, and the peer was sent
    the greeting and has answered it; after an error no socket is left open,
    unless the handshake of TLS failed. *)
Theorem dial_outcome (d : Dialer) (dial : list byte -> error + list byte) (h : handshake) (write : option error)
    (address : list byte) :
  match DialContext d dial h write address with
  | inr c => exists addr peer, resolve d address = inr addr /\ dial addr = inr peer /\
      c = mkDialed (ClientID d) (mkSocket true (greeting d) (drop (answer d) peer))
  | inl (_, s) => abandoned d h s
  end.
Proof.
  unfold DialContext. pose proof (dialContext_cases d dial h write address) as Hc.
  destruct (dialContext d dial h write address) as [[e s]|s]; [exact Hc|].
  destruct Hc as (addr & peer & Hr & Hd & ->). eauto.
Qed.

(** With a resolver, a host and a port are dialed at the first address that the
    resolver knows for the host, at the same port, and authentication is one
    frame with its length in front. *)
Theorem dial_resolved (d : Dialer) (lookupHost : list byte -> error + list (list byte)) (a : SASL)
    (host port target peer : list byte) (others : list (list byte))
    (Hr : Resolver d = Some lookupHost) (Ht : TLS d = false) (Ha : DSASL d = Some a)
    (Hhost : plain host) (Hport : plain port /\ port <> []) (Htarget : plain target /\ target <> [])
    (Hl : lookupHost host = inr (target :: others)) (Hpeer : (4 <= length peer)%nat)
    (Hlen : slen (User a) + slen (Pass a) + 2 < 2 ^ 32) :
  let dial addr := if decide (addr = target ++ colon :: port) then inr peer else inl EOF in
  exists body, body = x00 :: bytes_of_string (User a) ++ x00 :: bytes_of_string (Pass a) /\
    DialContext d dial Handshook None (host ++ colon :: port) =
      inr (mkDialed (ClientID d) (mkSocket true (be_put 4 (len body) ++ body) (drop 4 peer))).
Proof.
  intros dial. destruct (saslMessage_framed a Hlen) as (body & Em & Hb). exists body. split; [exact Hb|].
  unfold DialContext, dialContext. rewrite (resolve_plain d lookupHost host port target others) by tauto.
  unfold dial. rewrite decide_True by reflexivity. rewrite Ht, Ha. cbn [connectSASLPlain SPeer SOpen SWritten app].
  rewrite decide_False by lia. rewrite Em. reflexivity.
Qed.
Lemma dial_resolved_witness :
  let dial addr := if decide (addr = bytes_of_string "10.0.0.1:9092") then inr (zeros 4) else inl EOF in
  exists body, body = x00 :: bytes_of_string "u" ++ x00 :: bytes_of_string "p" /\
    DialContext (mkDialer "jocko" (Some (fun _ => inr [bytes_of_string "10.0.0.1"])) false (Some (mkSASL "u" "p")))
      dial Handshook None (bytes_of_string "kafka:9092") =
      inr (mkDialed "jocko" (mkSocket true (be_put 4 (len body) ++ body) [])).
Proof.
  refine (dial_resolved (mkDialer "jocko" (Some (fun _ => inr [bytes_of_string "10.0.0.1"])) false (Some (mkSASL "u" "p")))
    (fun _ => inr [bytes_of_string "10.0.0.1"]) (mkSASL "u" "p") (bytes_of_string "kafka") (bytes_of_string "9092")
    (bytes_of_string "10.0.0.1") (zeros 4) [] eq_refl eq_refl eq_refl _ _ _ eq_refl _ _).
  - apply (bool_decide_unpack _). vm_compute. exact I.
  - split; [apply (bool_decide_unpack _); vm_compute; exact I|discriminate].
  - split; [apply (bool_decide_unpack _); vm_compute; exact I|discriminate].
  - vm_compute. lia.
  - vm_compute. reflexivity.
Defined.

Section command.
Context {L R D DB RF : Type} `{CommitLogOps L R} `{LogDirs D L} `{Memdb DB} `{Raft RF}.
Context `{Msgpack Node.t} `{Msgpack Topic.t} `{Msgpack Partition.t} `{Msgpack Group.t}.

(** The command that creates a topic reports success whenever the controller
    takes the request, even when the topic could not be created: it sends no
    timeout, so that the broker does not wait for the result. *)
Theorem create_command_reports_success (b b' : Broker L D DB RF) (cfg : TopicCfg) (expired : nat -> bool)
    (o1 o2 : nat -> map_order) (rnd : nat -> nat -> nat) (code : Z)
    (Hl : raft_isLeader (raft b) = true) (Hf : int16 (CReplicationFactor cfg) <= int16 (len (members b)))
    (Hc : createTopic (o1 0%nat) (o2 0%nat) (rnd 0%nat)
       (CreateTopicRequest.mk (CTopic cfg) (CPartitions cfg) (int16 (CReplicationFactor cfg)) ∅ ∅) b = Ret code b') :
  exists resp, handleCreateTopic expired o1 o2 rnd (createTopicRequests cfg) b = Ret resp b' /\
    createTopicCommand resp = None.
Proof.
  unfold handleCreateTopic, isController, isLeader. erewrite bind_Ret by reflexivity. rewrite Hl.
  unfold createTopicRequests. cbn [CreateTopicRequests.Requests CreateTopicRequests.Timeout CreateTopicRequests.APIVersion collect negb].
  unfold gets, mbind, M_bind, mret, M_ret. cbn [CreateTopicRequest.ReplicationFactor].
  replace (int16 (len (members b)) <? int16 (CReplicationFactor cfg)) with false by (symmetry; apply Z.ltb_ge; exact Hf).
  unfold withTimeout, coded, waited, mbind, M_bind, mret, M_ret. rewrite Hc. eexists. split; reflexivity.
Qed.
End command.

#[local] Existing Instances nodePack topicPack partitionPack groupPack logOps CommitLog_dirs SimpleRaft_ops Tables_ascii.

(** On the lone broker, a topic that exists already. *)
Definition ordersCfg : TopicCfg := mkTopicCfg "orders" 1 1.
Definition ordersMade : outcome (BrokerState.Broker CommitLog FS Tables SimpleRaft) Z :=
  createTopic canonical_order canonical_order (fun i => i) (CreateTopicRequest.mk "orders" 1 1 ∅ ∅) loneBroker.
Definition ordersBroker' : BrokerState.Broker CommitLog FS Tables SimpleRaft :=
  match ordersMade with Ret _ b => b | _ => loneBroker end.
Lemma create_command_reports_success_witness :
  createTopic canonical_order canonical_order (fun i => i) (CreateTopicRequest.mk "orders" 1 1 ∅ ∅) ordersBroker' =
    Ret BrokerState.ErrTopicAlreadyExists ordersBroker' /\
  exists resp, handleCreateTopic (fun _ => false) (fun _ => canonical_order) (fun _ => canonical_order) (fun _ i => i)
    (createTopicRequests ordersCfg) ordersBroker' = Ret resp ordersBroker' /\ createTopicCommand resp = None.
Proof.
  assert (E : createTopic canonical_order canonical_order (fun i => i) (CreateTopicRequest.mk "orders" 1 1 ∅ ∅) ordersBroker' =
    Ret BrokerState.ErrTopicAlreadyExists ordersBroker').
  { unfold createTopic. erewrite bind_Ret by reflexivity. cbn [CreateTopicRequest.Topic].
    assert (Hex : is_Some (snd (GetTopic "orders" (db ordersBroker')))) by (apply (bool_decide_unpack _); vm_compute; exact I).
    destruct Hex as [t ->]. reflexivity. }
  split; [exact E|].
  eapply (create_command_reports_success ordersBroker' ordersBroker' ordersCfg); [vm_compute; reflexivity|vm_compute; intuition congruence|exact E].
Defined.
